(* ===== verification/_CoqProject ===== *)
-Q . S2P
Prelude.v
Hoare.v
Text.v
Machine.v
Heap.v
HeapSpec.v
HeapAlloc.v
HeapUpdate.v
HeapFree.v
HeapCheck.v
HeapCorrect.v
HeapTheorems.v
HeapTests.v
HeapTestsSpec.v
Memory.v
HeapSmp.v
Block.v
Fat32.v
Fat32Dir.v
Fat32File.v
Fat32List.v
FatSpec.v
FatChain.v
FatCluster.v
FatDirSpec.v
FatFileSpec.v
FatWrite.v
FatDemo.v
FatMount.v
FatTheorems.v
FatFileTheorems.v
FatListSpec.v
FatSync.v
FatDirUpdate.v
FatFiles.v
FatCreate.v
FatResize.v
FatState.v
FatRename.v
FatConsistent.v
FatModel.v
FatMkdir.v
FatFull.v
Ata.v
AtaSpec.v
AtaDisk.v
BootDisk.v
Serial.v
SerialSpec.v
Acpi.v
AcpiSpec.v
Display.v
DisplaySpec.v
Framebuffer.v
FramebufferSpec.v
Rtc.v
Cpuid.v
Idt.v
IdtSpec.v
Apic.v
ApicSpec.v
Smp.v
SmpSpec.v
Input.v
Ps2.v
Shell.v
ShellSpec.v
ShellScreen.v
Applets.v
AppletLs.v
AppletOut.v
AppletInfo.v
AppletSpec.v
AppletLsSpec.v
AppletCpSpec.v
AppletInfoSpec.v
SelfTest.v
SelfTestSpec.v
Main.v
MainSpec.v
