(* ===== verification/Prelude.v ===== *)
(** planckOS: a verification library for the kernel sources under [src/src].

    The kernel is a single Rust binary: an entry ([main.rs]) brings up a hardware
    layer ([hal/]), mounts a FAT32 volume and runs a shell ([shell/]) whose
    commands are applets ([applets/]). This library models the whole of it but
    for what is listed at the end, and proves it against abstract
    specifications. Rust integers are [Z] with the wrap-around of the release
    build written out ([u8] .. [usize]); stateful code is a computation
    [M S E A] from a state to an [outcome], which is a result, an error value, a
    panic or a loop that ran out of fuel, together with the new state. Ports,
    the time-stamp counter, mapped registers and physical memory are the
    operations of classes ([Machine] and its kin), so that a driver is proved
    for every device that obeys a law and run on a simulated one.

    * Components, files and sources

    - Foundations. Prelude.v: integers, outcomes, the monad, byte buffers
      ([slice], [splice], [copy_into]: the panic of an out-of-range slice is
      explicit) and little-endian integers. Hoare.v: a program logic for
      invariants that hold however the code ends. Text.v: literals, UTF-8 and
      numerals. Machine.v: port input and output and the time-stamp counter.
    - Kernel heap, [hal/heap.rs]: Heap.v has [HeapCore], the segment table and
      the boundary-tag words in memory, with [init_region], [alloc], [dealloc]
      and [check_invariants]. HeapSpec.v abstracts a segment to the list of its
      blocks; HeapAlloc.v, HeapUpdate.v, HeapFree.v and HeapCheck.v prove that
      the operations refine first fit, splitting and coalescing on such lists;
      HeapCorrect.v has client runs and HeapTheorems.v the contract.
      HeapTests.v is the test suite of [tests/allocator], every test a program
      that panics where an assert fails, and HeapTestsSpec.v its verdict.
    - Spinlock and locked heap, [hal/memory.rs]: Memory.v. The lock is a
      transition system, one instruction of one core per step, over any number
      of cores; [locked_alloc] and [locked_dealloc] add the log warnings, and
      [memory_init] clears the BSS and lays out the boot heap. HeapSmp.v puts
      the two together: cores with lists of requests interleave between the
      instructions of the lock and the parts of the critical section (counters
      read, heap read, heap written, counters read again), and warn after it.
    - Block device, [hal/block.rs]: Block.v. [BlockDevice] is the trait as a
      class, [ReliableDevice] the laws the file system relies on (reads and
      writes in range succeed and hit one sector), [RamDisk] an implementation.
      The file system is proved against the classes alone.
    - FAT32, [hal/fat32.rs]: Fat32.v (mounting, the table, clusters), Fat32Dir.v
      (names, search, paths, stat, unlink, rename, mkdir, chdir), Fat32File.v
      (open, read, write, seek, truncate, expand, sync, text), Fat32List.v
      (listing, patterns, label), SelfTest.v ([fat32_test]). The [World] holds
      the device, the mounted volume, the working directory, the static sector
      buffer of [f_sync] and the interrupt flag; an operation on a file runs on
      the world together with its [File]. Their theory is layered. On the
      device: FatSpec.v sees the table as a function from clusters to entries,
      FatChain.v follows and changes chains, FatCluster.v reads and writes
      clusters. FatMount.v mounts the volume that a boot sector describes. On
      files: FatFileSpec.v sees a file as the bytes of its chain with a cursor
      in them, FatWrite.v writes, FatSync.v writes its entry back, FatResize.v
      truncates and expands, FatFull.v runs out of space. On directories:
      FatDirSpec.v sees one as a list of entries, FatDirUpdate.v changes one of
      them. On volumes: FatFiles.v sees the root directory as a map from names
      to bytes, FatCreate.v inserts into it, FatRename.v moves and deletes,
      FatMkdir.v makes a directory. On the volume with its open files:
      FatState.v has the invariant and the name and bytes of each entry,
      FatConsistent.v the client's operations as a labelled transition system,
      with what each does to the files, FatModel.v the abstract map that they
      refine, and that they return. FatTheorems.v, FatFileTheorems.v and
      FatListSpec.v hold the properties of single operations; FatDemo.v is the
      volume on which the theorems are instantiated, and SelfTestSpec.v has a
      small one with the files that the build puts on its own.
    - ATA, [hal/ata.rs]: Ata.v is the driver over its ports, AtaSpec.v the
      protocol of a drive as a law, a simulated drive, and the refinement of a
      RAM disk. AtaDisk.v makes driver and drive a [ReliableDevice], so that the
      file system runs on the ports; BootDisk.v follows the disk through the
      boot: probed, mounted, then used by clients.
    - Serial log, [hal/serial.rs]: Serial.v and SerialSpec.v. Real-time clock,
      [hal/rtc.rs]: Rtc.v. Processor identification and memory map,
      [hal/cpuid.rs] and [hal/e820.rs]: Cpuid.v.
    - ACPI, [hal/acpi.rs]: Acpi.v (root pointer, tables by the layouts of their
      structures, MADT, sleep values, shutdown) over the memory the firmware
      left; AcpiSpec.v.
    - Displays, [hal/mod.rs], [hal/display.rs], [hal/framebuffer.rs]: Display.v
      has the trait and the VGA console, DisplaySpec.v the document it shows;
      Framebuffer.v and FramebufferSpec.v the console of pixels.
    - Interrupts, [hal/idt.rs], [hal/apic.rs], [hal/smp.rs]: Idt.v has the
      descriptor table, the entry stubs as instructions of a stack machine and
      the dispatcher; Apic.v the controllers, inter-processor interrupts and the
      timer's calibration; Smp.v the start of the other processors and the
      doorbell; IdtSpec.v, ApicSpec.v and SmpSpec.v their properties.
    - Keyboard, [hal/input.rs]: Input.v has the scancode decoder, the ring
      buffer, and [getchar] as the sequence of its accesses, interleaved with the
      interrupt handler; Ps2.v the start of the controller.
    - Shell, [shell/]: Shell.v has the line editor, history, argument splitting
      and dispatch, the display being the sequence of calls made on it;
      ShellSpec.v is the abstract editor, ShellScreen.v runs the calls on the
      console of Display.v.
    - Applets, [applets/]: Applets.v has rm, mk and cp, AppletLs.v ls, AppletOut.v
      out, AppletInfo.v datetime, sysinfo, heap and the registry, on the file
      system and a display; AppletSpec.v, AppletCpSpec.v, AppletLsSpec.v and
      AppletInfoSpec.v say what they do.
    - Entry, [main.rs]: Main.v has the information block, the messages and the
      order of the steps of [_start], MainSpec.v what each step needs.

    * What the theorems show

    - Heap: [alloc] is first fit with splitting, aligned and disjoint from every
      live block; [dealloc] coalesces and keeps the other live blocks; invalid
      and double frees are counted and change nothing; after any run of a client
      that frees only what it holds, [check_invariants] accepts. The randomized
      stress test passes for every seed, length and arena.
    - Lock: mutual exclusion and interrupt masking under every interleaving.
      The shared heap is linearizable: requests take effect one at a time, as
      [locked_alloc] and [locked_dealloc] run alone, and clients on several cores
      that free only what is held keep it sound.
    - File system, operations: [f_mount] mounts exactly what has the boot sector
      of a FAT32 volume; table entries are independent and mirrored; freeing a
      chain clears exactly it and ends on corrupt tables too; directory search
      is linear search up to a prefix match; [f_read] returns a slice of the
      file's bytes, [f_write] with the cursor inside the allocated chain, or with
      none allocated yet, replaces and appends bytes, touches nothing outside the
      chain and on a full volume writes what fits (behind a full chain the code
      starts another and loses the first, which no theorem covers), [f_truncate] and
      [f_expand] cut and extend; [f_rename] and [f_unlink] move and remove one
      name of the volume's map, [f_mkdir] adds a directory with its own entries;
      patterns are glob matching for names of eleven characters.
    - File system, sequences: whatever operations that [fs_step] allows clients
      perform on files of the root directory, several of them open:
      [volume_refines_map], the same sequence is one of an abstract map from
      places to names and bytes, and the bytes read are the map's; [volume_consistent], every entry in use owns a
      chain that ends and is long enough, no cluster has two owners, and open
      files agree with their entries; [volume_progress], an operation whose
      conditions hold returns. [fs_step] leaves out what corrupts the volume:
      [FA_CREATE_ALWAYS] and [FA_OPEN_ALWAYS], writing, cutting or expanding with
      no current cluster (a cursor behind a full last cluster) or without room,
      seeks to the end of a full last cluster or behind the file, opening an
      entry twice, closing before the write-back, and deleting or renaming an
      open file.
    - Stacks: [cp] copies a file through [f_open], [f_read], [f_write] and
      [f_sync]; from the probe and the mount on, whatever [fs_step] allows clients
      through the ports of a drive is what they would do on the map of the files that its
      sectors hold ([disk_at_boot]); the driver serves any requests as a RAM
      disk would, addresses taken modulo 2^28, and a file written through it is in
      the drive's sectors; what is typed to the line editor is on the screen, but
      for the last column; every self-test passes on an example volume, twice.
    - Drivers: whatever the firmware's tables hold, ACPI keeps its types and
      ends; a well-formed MADT is read for what it says; the stubs restore the
      interrupted state for every handler that leaves the callee-saved registers
      and the interrupt's frame alone, whatever else it writes; the controllers are set up as meant and their interrupts
      sent; the calibrated timer is near a thousand ticks per second; every AP that the heap
      gives a stack is sent INIT-SIPI-SIPI, and no other; the keyboard's ring is a
      queue of 255 characters, which drops what comes when it is full, under every
      interleaving, and its decoder implements shift and arrows; the controller's
      start ends within its waits, its buffer empty; a clock reading is of one instant; a log line
      is sent; the consoles stay in their buffers.
    - Shell and applets: every key refines the abstract editor, a prompt reads
      the line composed, arguments are the first sixteen words; [ls] of the root
      directory shows every entry that is to be shown once, in its order and cell,
      [out] the text of a file of the root directory, up to its limit.
    - Entry: every step of the boot finds what it needs.
    - Limits of the code that the model exposes have theorems or examples of
      their own ([spinlock_contention_clobbers], [f_lseek_end_misplaced],
      [star_misses_full_names], [f_sync_late_entry], [wide_display_overrun],
      [rm_r_loses_children], [ata_address_wraps], [f_expand_leaves_cursor]).

    * Bounds and fuel

    A loop whose number of turns is not structural takes fuel and returns [Hang]
    without it; theorems conclude [Ret] for enough of it, and so include
    termination. In the heap, every chunk has at least 32 bytes, so [walk_fuel],
    one more than the segment's size divided by 32, is enough. In the file system
    the loops along a chain take the fuel of the section, which must exceed the
    length of the chain; [volume_consistent] asks for the number of table
    entries, which bounds every chain; [free_chain_terminates] holds for every
    table. The read and write loops move a byte per turn and get one more than
    the request. Polling loops of drivers take more turns than the device's law
    says it stays busy ([patience] in AtaSpec.v); ACPI's loops get one turn per
    byte of mapped memory ([turns]); [run] of the shell consumes keys.

    The file-system theorems assume [geometry] (the volume lies inside the
    device and no address wraps), a [ReliableDevice], and chains that end; chains
    that end are acyclic ([chain_NoDup]). [f_write_correct] assumes
    [writable_at] and enough free clusters; [f_write_full] says what happens
    without the latter.

    * Not modelled

    Assembly that runs before or beside the kernel (the boot sector and loader,
    the trampoline of the other processors), [build.rs], the font's data and the
    panic handler's halt. [_start] is a sequence of events: its steps are
    modelled by their components, one machine state for all of them is not. The
    trait methods that only pass on to their implementation and the port
    instructions themselves are classes here. A block device's read returns no
    new device state: AtaDisk.v shows that reads of the driver leave none to
    see. The invariant of volumes has files of the root directory; files below
    it are covered by the theorems on single operations. *)

From stdpp Require Import base numbers list gmap.
From Stdlib Require Import ZArith Lia.

#[global] Open Scope Z_scope.
#[global] Set Warnings "-clear-no-such-hyp".

(** ** Machine integers

    Every Rust integer is a [Z]; the kernel is built in release mode, where
    arithmetic wraps, so each operation that can leave the type's range is
    written with the wrap-around of its width. *)

Definition u8 (z : Z) : Z := z mod 256.
Definition u16 (z : Z) : Z := z mod 65536.
Definition u32 (z : Z) : Z := z mod 4294967296.
Definition u64 (z : Z) : Z := z mod 18446744073709551616.
Definition usize (z : Z) : Z := u64 z.

(** [saturating_sub] on an unsigned type. *)
Definition saturating_sub (a b : Z) : Z := Z.max 0 (a - b).

(** ** Results of running code

    [Err] is a value of the source's error type; [Panic] is a Rust panic (an
    index out of bounds, a division by zero), which halts the kernel; [Hang] is
    a loop that is still running when the fuel of the model is used up. *)

Inductive outcome (E A : Type) : Type :=
| Ret (a : A)
| Err (e : E)
| Panic
| Hang.

Arguments Ret {E A} a.
Arguments Err {E A} e.
Arguments Panic {E A}.
Arguments Hang {E A}.

(** A computation over a state [S]: the state survives errors and panics,
    nothing is rolled back. *)
Definition M (S E A : Type) : Type := S -> outcome E A * S.

Section Monad.
Context {S E : Type}.

Definition ret {A} (a : A) : M S E A := fun s => (Ret a, s).
Definition throw {A} (e : E) : M S E A := fun s => (Err e, s).
Definition panic {A} : M S E A := fun s => (Panic, s).
Definition hang {A} : M S E A := fun s => (Hang, s).

Definition bind {A B} (m : M S E A) (k : A -> M S E B) : M S E B :=
  fun s =>
    match m s with
    | (Ret a, s') => k a s'
    | (Err e, s') => (Err e, s')
    | (Panic, s') => (Panic, s')
    | (Hang, s') => (Hang, s')
    end.

Definition get : M S E S := fun s => (Ret s, s).
Definition put (s : S) : M S E unit := fun _ => (Ret tt, s).
Definition gets {A} (f : S -> A) : M S E A := fun s => (Ret (f s), s).
Definition modify (f : S -> S) : M S E unit := fun s => (Ret tt, f s).

(** [o.ok_or(e)?] *)
Definition ok_or {A} (o : option A) (e : E) : M S E A :=
  match o with Some a => ret a | None => throw e end.

(** An indexing or slicing expression: out of bounds it panics. *)
Definition or_panic {A} (o : option A) : M S E A :=
  match o with Some a => ret a | None => panic end.

(** [match m { Ok(a) => .., Err(e) => { h(e); return Err(e) } }]: the handler
    runs on an error and the error is passed on. *)
Definition on_err {A} (m : M S E A) (h : E -> S -> S) : M S E A :=
  fun s =>
    match m s with
    | (Err e, s') => (Err e, h e s')
    | r => r
    end.

(** [m] as a value: errors are caught and returned to the caller. *)
Definition try {A} (m : M S E A) : M S E (A + E) :=
  fun s =>
    match m s with
    | (Ret a, s') => (Ret (inl a), s')
    | (Err e, s') => (Ret (inr e), s')
    | (Panic, s') => (Panic, s')
    | (Hang, s') => (Hang, s')
    end.
End Monad.

(** Running a computation on the first component of a larger state. *)
Definition zoom {S T E A} (m : M S E A) : M (S * T) E A :=
  fun st => let '(r, s') := m (fst st) in (r, (s', snd st)).

Declare Scope planck_scope.
Delimit Scope planck_scope with planck.
#[global] Open Scope planck_scope.

Notation "'let!' x := m 'in' k" := (bind m (fun x => k))
  (at level 10, x name, m at level 100, k at level 200)
  : planck_scope.
Notation "'let!' ' p := m 'in' k" := (bind m (fun x => match x with p => k end))
  (at level 10, p pattern, m at level 100, k at level 200)
  : planck_scope.
Notation "'do!' m 'in' k" := (bind m (fun _ => k))
  (at level 10, m at level 100, k at level 200)
  : planck_scope.

(** ** Byte buffers *)

(** A byte is a [Z] in [0, 256). *)
Definition is_byte (b : Z) : Prop := 0 <= b < 256.
Definition bytes (l : list Z) : Prop := Forall is_byte l.

(** [buf[i]], without the bounds check: used where the length is static. *)
Definition byte_at (l : list Z) (i : nat) : Z := default 0 (l !! i).

(** [&buf[off..off + n]]; [None] is the out-of-bounds panic. *)
Definition slice {A} (off n : nat) (l : list A) : option (list A) :=
  if decide (off + n <= length l)%nat then Some (take n (drop off l)) else None.

(** [buf[off..off + src.len()].copy_from_slice(src)]. *)
Definition splice {A} (off : nat) (src l : list A) : list A :=
  take off l ++ src ++ drop (off + length src) l.

Definition copy_into {A} (off : nat) (src l : list A) : option (list A) :=
  if decide (off + length src <= length l)%nat then Some (splice off src l) else None.

(** Little-endian integers: [uN::from_le_bytes] and [uN::to_le_bytes]. *)
Fixpoint le_val (l : list Z) : Z :=
  match l with
  | [] => 0
  | b :: l' => b + 256 * le_val l'
  end.

Fixpoint le_bytes (n : nat) (z : Z) : list Z :=
  match n with
  | O => []
  | S n' => z mod 256 :: le_bytes n' (z / 256)
  end.

(** [eq_ignore_ascii_case]. *)
Definition to_ascii_lower (b : Z) : Z := if (65 <=? b) && (b <=? 90) then b + 32 else b.
Definition eq_ignore_ascii_case (a b : Z) : bool := to_ascii_lower a =? to_ascii_lower b.

(** [iter().position(p)]. *)
Fixpoint position {A} (p : A -> bool) (l : list A) : option nat :=
  match l with
  | [] => None
  | x :: l' => if p x then Some O else option_map S (position p l')
  end.

(** ** Lemmas on the monad *)

Section MonadLemmas.
Context {S E : Type}.
Implicit Types (s : S).

Lemma bind_ret {A B} (m : M S E A) (k : A -> M S E B) s a s' :
  m s = (Ret a, s') -> bind m k s = k a s'.
Proof. intros H. unfold bind. by rewrite H. Qed.

Lemma bind_err {A B} (m : M S E A) (k : A -> M S E B) s e s' :
  m s = (Err e, s') -> bind m k s = (Err e, s').
Proof. intros H. unfold bind. by rewrite H. Qed.

Lemma bind_inv {A B} (m : M S E A) (k : A -> M S E B) s b s' :
  bind m k s = (Ret b, s') ->
  exists a s1, m s = (Ret a, s1) /\ k a s1 = (Ret b, s').
Proof.
  unfold bind. destruct (m s) as [[a|e| |] s1]; intros H; simplify_eq.
  eauto.
Qed.

Lemma bind_assoc {A B C} (m : M S E A) (f : A -> M S E B) (g : B -> M S E C) s :
  bind (bind m f) g s = bind m (fun a => bind (f a) g) s.
Proof. unfold bind. by destruct (m s) as [[a|e| |] s1]. Qed.
End MonadLemmas.

Lemma zoom_run {S T E A} (m : M S E A) s a s' (t : T) :
  m s = (Ret a, s') -> zoom m (s, t) = (Ret a, (s', t)).
Proof. intros Hm. unfold zoom. cbn [fst snd]. by rewrite Hm. Qed.

(** Rewrites the head of a [bind] with a run equation for it. *)
Tactic Notation "run_with" uconstr(H) := rewrite (bind_ret _ _ _ _ _ H); cbv beta.

(** ** Lemmas on machine integers *)

Create Rewrite HintDb word.

Lemma u8_small z : 0 <= z < 256 -> u8 z = z.
Proof. apply Z.mod_small. Qed.
Lemma u16_small z : 0 <= z < 65536 -> u16 z = z.
Proof. apply Z.mod_small. Qed.
Lemma u32_small z : 0 <= z < 4294967296 -> u32 z = z.
Proof. apply Z.mod_small. Qed.
Lemma u64_small z : 0 <= z < 18446744073709551616 -> u64 z = z.
Proof. apply Z.mod_small. Qed.
Lemma usize_small z : 0 <= z < 18446744073709551616 -> usize z = z.
Proof. apply Z.mod_small. Qed.

Lemma u8_range z : 0 <= u8 z < 256.
Proof. by apply Z.mod_pos_bound. Qed.
Lemma u16_range z : 0 <= u16 z < 65536.
Proof. by apply Z.mod_pos_bound. Qed.
Lemma u32_range z : 0 <= u32 z < 4294967296.
Proof. by apply Z.mod_pos_bound. Qed.

#[export] Hint Rewrite u8_small u16_small u32_small u64_small usize_small using lia : word.

(** [a & (2^n - 1)] and the complementary mask, on naturals. *)
Lemma land_ones_mod a n : 0 <= n -> Z.land a (Z.ones n) = a mod 2 ^ n.
Proof. intros. by apply Z.land_ones. Qed.

Lemma lor_add a b n : 0 <= n -> 0 <= b < 2 ^ n -> a mod 2 ^ n = 0 -> Z.lor a b = a + b.
Proof.
  intros Hn Hb Ha.
  assert (Z.land a b = 0) as Hand.
  { apply Z.bits_inj'; intros i Hi. rewrite Z.land_spec, Z.bits_0.
    destruct (decide (i < n)).
    - rewrite <- (Z.mod_pow2_bits_low a n) by done. by rewrite Ha, Z.bits_0.
    - rewrite <- (Z.mod_small b (2 ^ n)), (Z.mod_pow2_bits_high b) by lia. apply andb_false_r. }
  by rewrite <- Z.lxor_lor, <- Z.add_nocarry_lxor.
Qed.

(** [a & !(2^n - 1)] on a [w]-bit word: the low [n] bits are cleared. *)
Lemma land_high_mask w n x mask :
  0 <= n -> 0 <= w -> 0 <= x < 2 ^ w -> mask = Z.ldiff (Z.ones w) (Z.ones n) ->
  Z.land x mask = x - x mod 2 ^ n.
Proof.
  intros Hn Hw Hx ->. rewrite Z.ldiff_land, Z.land_assoc, Z.land_ones by done.
  rewrite (Z.mod_small x) by done. rewrite <- Z.ldiff_land, Z.ldiff_ones_r by done.
  rewrite Z.shiftl_mul_pow2, Z.shiftr_div_pow2 by done.
  pose proof (Z.div_mod x (2 ^ n) ltac:(lia)). lia.
Qed.

(** ** Lemmas on lists *)

Create Rewrite HintDb len.
#[export] Hint Rewrite @length_app @length_take @length_drop @length_replicate
  @length_insert @length_fmap @length_cons @length_nil : len.

Lemma length_splice {A} off (src l : list A) :
  (off + length src <= length l)%nat -> length (splice off src l) = length l.
Proof. intros. unfold splice. autorewrite with len. lia. Qed.

Lemma splice_lookup_out {A} off (src l : list A) i :
  (off + length src <= length l)%nat ->
  (i < off \/ off + length src <= i)%nat -> splice off src l !! i = l !! i.
Proof.
  intros Hlen [Hi|Hi]; unfold splice.
  - rewrite lookup_app_l by (autorewrite with len; lia). by apply lookup_take_lt.
  - rewrite lookup_app_r by (autorewrite with len; lia).
    rewrite lookup_app_r by (autorewrite with len; lia).
    rewrite lookup_drop. f_equal. autorewrite with len. lia.
Qed.

Lemma splice_lookup_in {A} off (src l : list A) i :
  (off + length src <= length l)%nat ->
  (off <= i < off + length src)%nat -> splice off src l !! i = src !! (i - off)%nat.
Proof.
  intros Hlen Hi. unfold splice.
  rewrite lookup_app_r by (autorewrite with len; lia).
  rewrite lookup_app_l by (autorewrite with len; lia).
  f_equal. autorewrite with len. lia.
Qed.

Lemma bytes_splice off src l : bytes src -> bytes l -> bytes (splice off src l).
Proof.
  intros. unfold splice, bytes. rewrite !Forall_app.
  auto using Forall_take, Forall_drop.
Qed.

Lemma slice_splice_same {A} off (src l : list A) :
  (off + length src <= length l)%nat ->
  take (length src) (drop off (splice off src l)) = src.
Proof.
  intros Hlen. unfold splice.
  rewrite drop_app_ge by (autorewrite with len; lia).
  replace (off - length (take off l))%nat with O by (autorewrite with len; lia).
  rewrite drop_0. apply take_app_length.
Qed.

Lemma slice_splice_other {A} off (src l : list A) o n :
  (off + length src <= length l)%nat -> (o + n <= length l)%nat ->
  (o + n <= off \/ off + length src <= o)%nat ->
  take n (drop o (splice off src l)) = take n (drop o l).
Proof.
  intros Hlen Ho Hd. apply list_eq. intros i.
  destruct (decide (i < n)%nat) as [Hi|Hi].
  - rewrite !lookup_take_lt by done. rewrite !lookup_drop.
    apply splice_lookup_out; lia.
  - rewrite !lookup_ge_None_2; [done| |]; autorewrite with len; lia.
Qed.

Lemma splice_app_l {A} off (src l r : list A) :
  (off + length src <= length l)%nat -> splice off src (l ++ r) = splice off src l ++ r.
Proof.
  intros Hlen. unfold splice. rewrite take_app_le, drop_app_le by lia. by rewrite !app_assoc.
Qed.

Lemma splice_app_r {A} off (src l r : list A) :
  splice (length l + off) src (l ++ r) = l ++ splice off src r.
Proof.
  unfold splice. rewrite take_app_add, <- Nat.add_assoc, drop_app_add. by rewrite <- !app_assoc.
Qed.

(** Two adjacent copies are one. *)
Lemma splice_next {A} off (a b l : list A) :
  (off + length a + length b <= length l)%nat ->
  splice (off + length a) b (splice off a l) = splice off (a ++ b) l.
Proof.
  intros Hlen. unfold splice at 1.
  assert (length (take off l) = off) as Ho by (rewrite length_take; lia).
  assert (take (off + length a) (splice off a l) = take off l ++ a) as ->.
  { unfold splice. rewrite app_assoc. apply take_app_length'. rewrite length_app. lia. }
  unfold splice. rewrite <- !app_assoc. do 3 f_equal. rewrite app_assoc.
  rewrite drop_app_ge by (rewrite length_app; lia). rewrite drop_drop. f_equal.
  rewrite !length_app. lia.
Qed.

(** The first bytes of a buffer that a copy may have grown. *)
Lemma take_splice_grow {A} p n (b l r : list A) :
  (p <= n)%nat -> (n <= length l)%nat -> (p + length b <= length (l ++ r))%nat ->
  take (Nat.max n (p + length b)) (splice p b (l ++ r)) =
  take p (take n l) ++ b ++ drop (p + length b) (take n l).
Proof.
  intros Hp Hn Hb. unfold splice. rewrite (take_take l), Nat.min_l by lia.
  rewrite (take_app_le l) by lia.
  replace (Nat.max n (p + length b)) with (length (take p l ++ b) + (n - (p + length b)))%nat
    by (autorewrite with len; lia).
  rewrite app_assoc, take_app_add, <- app_assoc, skipn_firstn_comm. do 2 f_equal.
  destruct (decide (p + length b <= n)%nat).
  - rewrite drop_app_le by lia. apply take_app_le. rewrite length_drop. lia.
  - by replace (n - (p + length b))%nat with O by lia.
Qed.

Lemma byte_at_lookup l i b : l !! i = Some b -> byte_at l i = b.
Proof. intros H. unfold byte_at. by rewrite H. Qed.

Lemma byte_at_is_byte l i : bytes l -> is_byte (byte_at l i).
Proof.
  intros Hl. unfold byte_at. destruct (l !! i) as [b|] eqn:Hb; simpl; [|unfold is_byte; lia].
  eapply Forall_lookup_1 in Hb; done.
Qed.

Lemma length_le_bytes n z : length (le_bytes n z) = n.
Proof. revert z. induction n; intros; simpl; auto. Qed.
#[export] Hint Rewrite length_le_bytes : len.

Lemma bytes_le_bytes n z : bytes (le_bytes n z).
Proof.
  revert z. induction n as [|n IH]; intros z; simpl; constructor; [|apply IH].
  unfold is_byte. apply Z.mod_pos_bound; lia.
Qed.

Lemma le_val_bytes n z : 0 <= z < 256 ^ Z.of_nat n -> le_val (le_bytes n z) = z.
Proof.
  revert z. induction n as [|n IH]; intros z Hz; simpl le_bytes; simpl le_val; [simpl in Hz; lia|].
  rewrite Nat2Z.inj_succ, Z.pow_succ_r in Hz by lia.
  rewrite IH; [pose proof (Z.div_mod z 256); lia|].
  split; [apply Z.div_pos; lia|apply Z.div_lt_upper_bound; lia].
Qed.

Lemma le_val_range l : bytes l -> 0 <= le_val l < 256 ^ Z.of_nat (length l).
Proof.
  induction 1 as [|b l Hb Hl IH]; simpl length; simpl le_val; [lia|].
  rewrite Nat2Z.inj_succ, Z.pow_succ_r by lia. unfold is_byte in Hb. nia.
Qed.

Lemma le_bytes_val l : bytes l -> le_bytes (length l) (le_val l) = l.
Proof.
  induction 1 as [|b l Hb Hl IH]; simpl; [done|]. unfold is_byte in Hb.
  replace (b + 256 * le_val l) with (b + le_val l * 256) by lia.
  rewrite Z.mod_add, Z.div_add, Z.mod_small, Z.div_small, Z.add_0_l, IH by lia. done.
Qed.

#[export] Hint Resolve bytes_splice bytes_le_bytes byte_at_is_byte : core.

Lemma position_Some {A} (p : A -> bool) l i :
  position p l = Some i ->
  exists x, l !! i = Some x /\ p x = true /\
            forall j y, (j < i)%nat -> l !! j = Some y -> p y = false.
Proof.
  revert i. induction l as [|x l IH]; intros i H; simpl in H; [done|].
  destruct (p x) eqn:Hp.
  - simplify_eq. exists x. split_and!; [done|done|lia].
  - destruct (position p l) as [j|] eqn:Hj; simplify_eq/=.
    destruct (IH j eq_refl) as (y & Hy & Hpy & Hmin). exists y. split_and!; [done|done|].
    intros [|k] z Hk Hz; simpl in Hz; [by simplify_eq|]. eapply Hmin; [|done]. lia.
Qed.

Lemma position_None {A} (p : A -> bool) l :
  position p l = None <-> Forall (fun x => p x = false) l.
Proof.
  induction l as [|x l IH]; simpl; [by split; constructor|].
  rewrite Forall_cons, <- IH. destruct (p x); [by split; [|intros []]|].
  destruct (position p l); simpl; split; [done|by intros []|done|done].
Qed.
