(* ===== verification/Hoare.v ===== *)
(** A small program logic for the computations of [Prelude]: invariants of the
    state with a postcondition on the result, whatever way the code ends. *)

From Stdlib Require Import ZArith Lia.
From stdpp Require Import base numbers list.
From S2P Require Import Prelude.

#[local] Open Scope Z_scope.

Section Keeps.
(** The invariant, and which ways of failing are allowed. *)
Context {S E : Type} (I : S -> Prop) (err_ok : E -> Prop) (panic_ok hang_ok : Prop).

Definition ends {A} (Q : A -> Prop) (r : outcome E A) : Prop :=
  match r with Ret a => Q a | Err e => err_ok e | Panic => panic_ok | Hang => hang_ok end.

Definition keeps {A} (m : M S E A) (Q : A -> Prop) : Prop :=
  forall s, I s -> I (m s).2 /\ ends Q (m s).1.

Lemma keeps_ret {A} (a : A) (Q : A -> Prop) : Q a -> keeps (ret a) Q.
Proof. by intros HQ s Hs. Qed.

Lemma keeps_weaken {A} (m : M S E A) (Q Q' : A -> Prop) :
  keeps m Q -> (forall a, Q a -> Q' a) -> keeps m Q'.
Proof.
  intros Hm HQ s Hs. destruct (Hm s Hs) as [HI He]. split; [done|].
  destruct (m s).1; cbn in *; auto.
Qed.

Lemma keeps_bind {A B} (m : M S E A) (k : A -> M S E B) Q Q' :
  keeps m Q -> (forall a, Q a -> keeps (k a) Q') -> keeps (bind m k) Q'.
Proof.
  intros Hm Hk s Hs. unfold bind. destruct (Hm s Hs) as [HI He].
  destruct (m s) as [[a|e| |] s']; cbn in *; [by apply Hk|done..].
Qed.

Lemma keeps_panic {A} (Q : A -> Prop) : panic_ok -> keeps panic Q.
Proof. by intros HP s Hs. Qed.

Lemma keeps_hang {A} (Q : A -> Prop) : hang_ok -> keeps hang Q.
Proof. by intros HP s Hs. Qed.

Lemma keeps_throw {A} e (Q : A -> Prop) : err_ok e -> keeps (throw e) Q.
Proof. by intros HP s Hs. Qed.

Lemma keeps_modify f (Q : unit -> Prop) : (forall s, I s -> I (f s)) -> Q tt -> keeps (modify f) Q.
Proof. intros Hf HQ s Hs. split; cbn; auto. Qed.

Lemma keeps_gets {A} (f : S -> A) (Q : A -> Prop) : (forall s, I s -> Q (f s)) -> keeps (gets f) Q.
Proof. intros Hf s Hs. split; cbn; auto. Qed.

Lemma keeps_get (Q : S -> Prop) : (forall s, I s -> Q s) -> keeps get Q.
Proof. intros Hf s Hs. split; cbn; auto. Qed.

Lemma keeps_ok_or {A} (o : option A) e (Q : A -> Prop) :
  err_ok e -> (forall a, o = Some a -> Q a) -> keeps (ok_or o e) Q.
Proof. intros He HQ s Hs. destruct o; cbn; auto. Qed.

Lemma keeps_or_panic {A} (o : option A) (Q : A -> Prop) a :
  o = Some a -> Q a -> keeps (or_panic o) Q.
Proof. intros -> HQ s Hs. split; cbn; auto. Qed.
End Keeps.

(** One step through the code: a bind, or a leaf. *)
Ltac keeps_step :=
  match goal with
  | |- keeps _ _ _ _ (if ?b then _ else _) _ => destruct b eqn:?
  | |- keeps _ _ _ _ (match ?o with Some _ => _ | None => _ end) _ => destruct o eqn:?
  | |- keeps _ _ _ _ (modify _) _ => apply keeps_modify; [|done]
  | |- keeps _ _ _ _ (ret _) _ => apply keeps_ret
  | |- keeps _ _ _ _ (bind _ _) _ => eapply keeps_bind
  end.
