(* ===== verification/Text.v ===== *)
(** Text as the kernel handles it: string literals, UTF-8 validation and
    numerals. The digit loops that several source files repeat are here once,
    with the decimal and hexadecimal notation they produce. *)

From Stdlib Require Import ZArith Lia Ascii String.
From stdpp Require Import base numbers list gmap.
From S2P Require Import Prelude.

#[local] Open Scope Z_scope.

(** A string literal's bytes. *)
Definition str (s : string) : list Z := (fun c => Z.of_nat (nat_of_ascii c)) <$> list_ascii_of_string s.

(** ** UTF-8 *)

Definition between (lo hi b : Z) : bool := (lo <=? b) && (b <=? hi).
Definition is_cont (b : Z) : bool := between 128 191 b.

(** The well-formed byte sequences, without overlong forms and surrogates. *)
Fixpoint valid_utf8 (l : list Z) : bool :=
  match l with
  | [] => true
  | a :: r1 =>
      if a <? 128 then valid_utf8 r1
      else
        match r1 with
        | [] => false
        | b :: r2 =>
            if between 194 223 a then is_cont b && valid_utf8 r2
            else
              match r2 with
              | [] => false
              | c :: r3 =>
                  if between 224 239 a then
                    between (if a =? 224 then 160 else 128) (if a =? 237 then 159 else 191) b
                    && is_cont c && valid_utf8 r3
                  else
                    match r3 with
                    | [] => false
                    | d :: r4 =>
                        between 240 244 a
                        && between (if a =? 240 then 144 else 128) (if a =? 244 then 143 else 191) b
                        && is_cont c && is_cont d && valid_utf8 r4
                    end
              end
        end
  end.

(** [core::str::from_utf8]. *)
Definition from_utf8 (s : list Z) : option (list Z) := if valid_utf8 s then Some s else None.

(** [from_utf8(s).unwrap_or("?")]. *)
Definition utf8_or_mark (s : list Z) : list Z := default [63] (from_utf8 s).

(** ** Digit loops *)

(** Digits from the last one, stored towards the front of a buffer with room
    for [fuel] of them; the loop also ends when the buffer is full. *)
Fixpoint dec_digits (fuel : nat) (n : Z) (acc : list Z) : list Z :=
  match fuel with
  | O => acc
  | S fuel =>
      let acc := n mod 10 + 48 :: acc in
      if n / 10 =? 0 then acc else dec_digits fuel (n / 10) acc
  end.

(** [while v > 0 { tmp[j] = b'0' + (v % 10) as u8; v /= 10; j += 1 }]: the bytes
    of [tmp] up to [j]; [None] is the panic of an index outside [tmp]. *)
Fixpoint dec_tmp (room : nat) (v : Z) : option (list Z) :=
  if v <=? 0 then Some []
  else
    match room with
    | O => None
    | S room => option_map (cons (48 + v mod 10)) (dec_tmp room (v / 10))
    end.

(** The digits of [v] in order, through a temporary buffer of 20 bytes. *)
Definition dec_text (v : Z) : option (list Z) :=
  if v =? 0 then Some [48] else option_map (@reverse Z) (dec_tmp 20 v).

(** ** Notation *)

Definition is_digit (c : Z) : Prop := 48 <= c <= 57.
Definition dec_value (l : list Z) : Z := fold_left (fun a c => 10 * a + (c - 48)) l 0.

(** [l] is the decimal numeral of [n]. *)
Definition decimal (n : Z) (l : list Z) : Prop :=
  dec_value l = n /\ Forall is_digit l /\ (l = [48] \/ exists c r, l = c :: r /\ c <> 48).

(** The value of a hexadecimal digit, of either case. *)
Definition hex_digit_value (c : Z) : Z :=
  if c <=? 57 then c - 48 else if c <=? 70 then c - 55 else c - 87.
Definition hex_value (l : list Z) : Z := fold_left (fun a c => 16 * a + hex_digit_value c) l 0.

(** ** Lemmas *)

Lemma dec_value_snoc l c : dec_value (l ++ [c]) = 10 * dec_value l + (c - 48).
Proof. unfold dec_value. by rewrite fold_left_app. Qed.

Lemma hex_value_snoc l c : hex_value (l ++ [c]) = 16 * hex_value l + hex_digit_value c.
Proof. unfold hex_value. by rewrite fold_left_app. Qed.

Lemma digit_mod n : 0 <= n -> is_digit (n mod 10 + 48).
Proof. intros. pose proof (Z.mod_pos_bound n 10). unfold is_digit. lia. Qed.

(** One more digit at the end of a numeral. *)
Lemma decimal_snoc n l d :
  decimal n l -> 0 < n -> is_digit d -> decimal (10 * n + (d - 48)) (l ++ [d]).
Proof.
  intros (Hv & Hd & Hlead) Hn Hdig. split_and!.
  - by rewrite dec_value_snoc, Hv.
  - apply Forall_app. split; [done|]. by apply Forall_singleton.
  - right. destruct Hlead as [->|(c & r & -> & Hc)]; [by rewrite <- Hv in Hn|]. by exists c, (r ++ [d]).
Qed.

Lemma decimal_digit n : 0 <= n < 10 -> decimal n [n + 48].
Proof.
  intros Hn. split_and!.
  - cbn. lia.
  - apply Forall_singleton. unfold is_digit. lia.
  - destruct (decide (n = 0)) as [->|]; [by left|]. right. exists (n + 48), []. split; [done|lia].
Qed.

Lemma div10_bound n k : 0 <= n < 10 ^ Z.of_nat (S k) -> 0 <= n / 10 < 10 ^ Z.of_nat k.
Proof.
  rewrite Nat2Z.inj_succ, Z.pow_succ_r by lia. intros Hn.
  split; [apply Z.div_pos; lia|apply Z.div_lt_upper_bound; lia].
Qed.

Lemma dec_digits_app fuel n acc :
  0 <= n < 10 ^ Z.of_nat fuel -> (0 < fuel)%nat ->
  exists l, dec_digits fuel n acc = l ++ acc /\ decimal n l /\ (length l <= fuel)%nat.
Proof.
  revert n acc. induction fuel as [|fuel IH]; intros n acc Hn Hf; [lia|]. cbn [dec_digits].
  pose proof (Z.div_mod n 10 ltac:(lia)) as Hdm. pose proof (Z.mod_pos_bound n 10 ltac:(lia)).
  destruct (Z.eqb_spec (n / 10) 0) as [Hz|Hnz].
  - exists [n mod 10 + 48]. split_and!; [done| |cbn; lia].
    replace (n mod 10) with n by lia. apply decimal_digit. lia.
  - pose proof (div10_bound _ _ Hn) as Hn'.
    destruct (IH (n / 10) (n mod 10 + 48 :: acc) Hn') as (l & -> & Hl & Hlen).
    { destruct fuel; [cbn in Hn'; lia|lia]. }
    exists (l ++ [n mod 10 + 48]). rewrite <- app_assoc. split_and!; [done| |].
    + replace n with (10 * (n / 10) + (n mod 10 + 48 - 48)) at 1 by lia.
      apply decimal_snoc; [done|lia|apply digit_mod; lia].
    + rewrite length_app. cbn [length]. lia.
Qed.

Lemma dec_digits_decimal fuel n :
  0 <= n < 10 ^ Z.of_nat fuel -> (0 < fuel)%nat -> decimal n (dec_digits fuel n []).
Proof. intros Hn Hf. destruct (dec_digits_app fuel n [] Hn Hf) as (l & -> & Hl & _). by rewrite app_nil_r. Qed.

Lemma dec_tmp_decimal room v :
  0 < v < 10 ^ Z.of_nat room ->
  exists l, dec_tmp room v = Some l /\ decimal v (reverse l) /\ (length l <= room)%nat.
Proof.
  revert v. induction room as [|room IH]; intros v Hv; [cbn in Hv; lia|]. cbn [dec_tmp].
  destruct (Z.leb_spec v 0); [lia|].
  pose proof (Z.div_mod v 10 ltac:(lia)) as Hdm. pose proof (Z.mod_pos_bound v 10 ltac:(lia)).
  rewrite (Z.add_comm 48). destruct (decide (v / 10 = 0)) as [Hz|Hnz].
  - rewrite Hz. assert (dec_tmp room 0 = Some []) as -> by (by destruct room).
    exists [v mod 10 + 48]. split_and!; [done| |cbn; lia].
    replace (v mod 10) with v by lia. apply decimal_digit. lia.
  - pose proof (div10_bound v room ltac:(lia)) as Hv'.
    destruct (IH (v / 10) ltac:(lia)) as (l & -> & Hl & Hlen). eexists. split_and!; [done| |cbn; lia].
    rewrite reverse_cons.
    replace v with (10 * (v / 10) + (v mod 10 + 48 - 48)) at 1 by lia.
    apply decimal_snoc; [done|lia|apply digit_mod; lia].
Qed.

(** Twenty digits are enough for 64 bits. *)
Lemma dec_text_decimal v :
  0 <= v < 2 ^ 64 -> exists l, dec_text v = Some l /\ decimal v l /\ (1 <= length l <= 20)%nat.
Proof.
  intros Hv. unfold dec_text. destruct (Z.eqb_spec v 0) as [->|Hnz].
  { exists [48]. split_and!; [done|by apply (decimal_digit 0)|cbn; lia..]. }
  destruct (dec_tmp_decimal 20 v) as (l & -> & Hl & Hlen); [lia|].
  exists (reverse l). rewrite length_reverse. split_and!; [done|done| |done].
  destruct l as [|x l]; [|cbn; lia]. destruct Hl as (_ & _ & [Hl|(c & r & Hl & _)]); done.
Qed.

(** A numeral determines its value and a value its numeral. *)
Lemma dec_value_bound l c r :
  Forall is_digit l -> l = c :: r -> c <> 48 ->
  10 ^ Z.of_nat (length r) <= dec_value l < 10 ^ Z.of_nat (length l).
Proof.
  intros Hl -> Hc. revert Hl. induction r as [|d r IH] using rev_ind; intros Hl.
  - apply Forall_cons in Hl as [Hl _]. unfold is_digit in Hl.
    change (1 <= 10 * 0 + (c - 48) < 10). lia.
  - rewrite app_comm_cons, dec_value_snoc. rewrite app_comm_cons in Hl.
    apply Forall_app in Hl as [Hl [Hd _]%Forall_cons]. specialize (IH Hl). unfold is_digit in Hd.
    assert (length (r ++ [d]) = S (length r)) as Hlen by (rewrite length_app; cbn; lia).
    rewrite length_cons in IH. cbn [app] in *. rewrite length_cons, Hlen.
    rewrite !Nat2Z.inj_succ in *. rewrite Z.pow_succ_r in * by lia.
    rewrite (Z.pow_succ_r 10 (Z.succ _)) by lia. rewrite Z.pow_succ_r by lia. lia.
Qed.

Lemma from_utf8_ascii l : Forall (fun b => b < 128) l -> from_utf8 l = Some l.
Proof.
  intros Hl. unfold from_utf8. assert (valid_utf8 l = true) as ->; [|done].
  induction Hl as [|b l Hb Hl IH]; [done|]. cbn [valid_utf8].
  by destruct (Z.ltb_spec b 128); [|lia].
Qed.
