(* ===== verification/Machine.v ===== *)
(** The machine under the drivers: port input and output and the time-stamp
    counter, as operations on a device state that the drivers only reach
    through them. *)

From Stdlib Require Import ZArith Lia.
From stdpp Require Import base numbers list.
From S2P Require Import Prelude.

#[local] Open Scope Z_scope.

(** The instructions [in], [out] (8 and 16 bits) and [rdtsc]. Reading may
    change the device. *)
Class Machine (D : Type) := {
  inb : Z -> D -> Z * D;
  outb : Z -> Z -> D -> D;
  inw : Z -> D -> Z * D;
  outw : Z -> Z -> D -> D;
  rdtsc : D -> Z * D;
}.

(** A machine that only records the writes to its ports. *)
#[export] Instance port_log : Machine (list (Z * Z)) := {
  inb _ d := (255, d);
  outb port v d := d ++ [(port, v)];
  inw _ d := (65535, d);
  outw port v d := d ++ [(port, v)];
  rdtsc d := (0, d);
}.

Section Instructions.
Context {D E : Type} `{Machine D}.

Definition inb_m (port : Z) : M D E Z := fun d => let '(v, d') := inb port d in (Ret v, d').
Definition outb_m (port v : Z) : M D E unit := fun d => (Ret tt, outb port v d).
Definition inw_m (port : Z) : M D E Z := fun d => let '(v, d') := inw port d in (Ret v, d').
Definition outw_m (port v : Z) : M D E unit := fun d => (Ret tt, outw port v d).
Definition rdtsc_m : M D E Z := fun d => let '(v, d') := rdtsc d in (Ret v, d').

(** [while (inb(port) & mask) == 0 {}], at most [fuel] reads. *)
Fixpoint wait_bits (fuel : nat) (port mask : Z) : M D E unit :=
  match fuel with
  | O => hang
  | S fuel =>
      let! v := inb_m port in
      if Z.land v mask =? 0 then wait_bits fuel port mask else ret tt
  end.

(** A register whose reads keep an invariant, and whose awaited bits come up
    within a number of reads that [wait] bounds. *)
Lemma wait_bits_ends (P : D -> Prop) (ready : D -> Prop) (wait : D -> nat) port mask :
  (forall d, P d -> P (inb port d).2 /\
    ((Z.land (inb port d).1 mask =? 0) = true /\ (wait (inb port d).2 < wait d)%nat
     \/ (Z.land (inb port d).1 mask =? 0) = false /\ ready (inb port d).2)) ->
  forall fuel d, P d -> (wait d < fuel)%nat ->
  exists d', wait_bits fuel port mask d = (Ret tt, d') /\ P d' /\ ready d'.
Proof.
  intros Hread. induction fuel as [|fuel IH]; intros d HP Hw; [lia|]. cbn [wait_bits].
  unfold bind, inb_m. destruct (Hread d HP) as [HP' Hcase]. destruct (inb port d) as [v d'].
  cbn [fst snd] in *. destruct Hcase as [[-> Hlt]|[-> Hr]].
  - apply IH; [done|lia].
  - by exists d'.
Qed.
End Instructions.
