(* ===== verification/Heap.v ===== *)
(** The boundary-tag heap allocator, [src/src/hal/heap.rs].

    Memory is a map from addresses to 64-bit words (the allocator only reads
    and writes whole aligned words); [HeapCore] is the allocator's own record.
    The operations of the Rust [impl HeapCore] are the definitions
    [init_region], [alloc], [dealloc] and [check_invariants], each over the
    pair of the record and the memory. *)

From stdpp Require Import base numbers list gmap.
From Stdlib Require Import ZArith Lia.
From S2P Require Import Prelude.

(** ** Constants and state *)

Definition CHUNK_ALIGN : Z := 16.
Definition MIN_CHUNK : Z := 32.
Definition MAX_SEGMENTS : Z := 16.

(** [!0x7] and [!SIZE_MASK] on [usize]. *)
Definition SIZE_MASK : Z := 18446744073709551608.
Definition NOT_SIZE_MASK : Z := 7.
Definition IN_USE : Z := 1.
Definition PREV_IN_USE : Z := 2.

Definition PROLOGUE_SIZE : Z := 16.
Definition EPILOGUE_SIZE : Z := 16.
Definition HEADER_SIZE : Z := 16.

Record Segment : Type := mkSegment { seg_base : Z; seg_end : Z }.

Record HeapCore : Type := mkHeapCore {
  segments : list Segment;
  seg_count : Z;
  free_bytes : Z;
  alloc_count : Z;
  oom_count : Z;
  align_fail_count : Z;
  bad_free_count : Z;
  double_free_count : Z;
}.

(** [core::alloc::Layout]. *)
Record Layout : Type := mkLayout { l_size : Z; l_align : Z }.

Definition HeapCore_new : HeapCore :=
  mkHeapCore (replicate 16 (mkSegment 0 0)) 0 0 0 0 0 0 0.

Abbreviation memory := (gmap Z Z) (only parsing).
Abbreviation heap_state := (HeapCore * gmap Z Z)%type (only parsing).

Definition load (m : memory) (a : Z) : Z := default 0 (m !! a).
Definition store (m : memory) (a v : Z) : memory := <[a := v]> m.

(** ** Chunk field accessors *)

Definition size_of (m : memory) (chunk : Z) : Z :=
  Z.land (load m (usize (chunk + 8))) SIZE_MASK.

Definition flags_of (m : memory) (chunk : Z) : Z :=
  Z.land (load m (usize (chunk + 8))) NOT_SIZE_MASK.

Definition set_header (m : memory) (chunk size flags : Z) : memory :=
  store m (usize (chunk + 8)) (Z.lor size flags).

Definition prev_size_of (m : memory) (chunk : Z) : Z :=
  Z.land (load m chunk) SIZE_MASK.

Definition set_prev_size (m : memory) (chunk size : Z) : memory :=
  store m chunk size.

Definition payload_of (chunk : Z) : Z := usize (chunk + HEADER_SIZE).

(** ** Helpers *)

(** [!(a - 1)] on [usize]. *)
Definition not_mask (a : Z) : Z := 18446744073709551615 - (a - 1).

Definition align_up (x a : Z) : Z := Z.land (usize (usize (x + a) - 1)) (not_mask a).

Definition checked_add (x y : Z) : option Z :=
  if x + y <? 18446744073709551616 then Some (x + y) else None.

Definition align_up_checked (x : option Z) (a : Z) : option Z :=
  match x with
  | None => None
  | Some x => option_map (fun v => Z.land v (not_mask a)) (checked_add x (a - 1))
  end.

(** Field updates of [HeapCore]. *)
Definition add_free (h : HeapCore) (d : Z) : HeapCore :=
  mkHeapCore (segments h) (seg_count h) (usize (free_bytes h + d)) (alloc_count h)
    (oom_count h) (align_fail_count h) (bad_free_count h) (double_free_count h).
Definition add_alloc (h : HeapCore) (d : Z) : HeapCore :=
  mkHeapCore (segments h) (seg_count h) (free_bytes h) (u64 (alloc_count h + d))
    (oom_count h) (align_fail_count h) (bad_free_count h) (double_free_count h).
Definition add_oom (h : HeapCore) : HeapCore :=
  mkHeapCore (segments h) (seg_count h) (free_bytes h) (alloc_count h)
    (u64 (oom_count h + 1)) (align_fail_count h) (bad_free_count h) (double_free_count h).
Definition add_align_fail (h : HeapCore) : HeapCore :=
  mkHeapCore (segments h) (seg_count h) (free_bytes h) (alloc_count h)
    (oom_count h) (u64 (align_fail_count h + 1)) (bad_free_count h) (double_free_count h).
Definition add_bad_free (h : HeapCore) : HeapCore :=
  mkHeapCore (segments h) (seg_count h) (free_bytes h) (alloc_count h)
    (oom_count h) (align_fail_count h) (u64 (bad_free_count h + 1)) (double_free_count h).
Definition add_double_free (h : HeapCore) : HeapCore :=
  mkHeapCore (segments h) (seg_count h) (free_bytes h) (alloc_count h)
    (oom_count h) (align_fail_count h) (bad_free_count h) (u64 (double_free_count h + 1)).
Definition push_segment (h : HeapCore) (s : Segment) : HeapCore :=
  mkHeapCore (<[Z.to_nat (seg_count h) := s]> (segments h)) (usize (seg_count h + 1))
    (free_bytes h) (alloc_count h)
    (oom_count h) (align_fail_count h) (bad_free_count h) (double_free_count h).

(** The installed segments: [self.segments[0..self.seg_count]]. *)
Definition live_segments (h : HeapCore) : list Segment :=
  take (Z.to_nat (seg_count h)) (segments h).

(** Fuel for a walk over a segment: every step of a walk advances by at least
    one chunk, and a chunk is at least [MIN_CHUNK] bytes. *)
Definition walk_fuel (s : Segment) : nat := S (Z.to_nat ((seg_end s - seg_base s) / 32)).

(** ** [HeapCore::init_region] *)

Definition init_region (base0 end0 : Z) (st : heap_state) : heap_state :=
  let '(h, m) := st in
  if MAX_SEGMENTS <=? seg_count h then st
  else
    let base := align_up base0 CHUNK_ALIGN in
    let end_ := Z.land end0 (not_mask CHUNK_ALIGN) in
    if end_ <? usize (base + MIN_CHUNK + PROLOGUE_SIZE + EPILOGUE_SIZE) then st
    else
      let free_size := usize (end_ - base - PROLOGUE_SIZE - EPILOGUE_SIZE) in
      let m := set_header m base PROLOGUE_SIZE (Z.lor IN_USE PREV_IN_USE) in
      let m := set_header m (usize (base + PROLOGUE_SIZE)) free_size PREV_IN_USE in
      let m := set_prev_size m (usize (end_ - EPILOGUE_SIZE)) free_size in
      let m := set_header m (usize (end_ - EPILOGUE_SIZE)) EPILOGUE_SIZE IN_USE in
      (add_free (push_segment h (mkSegment base end_)) free_size, m).

(** ** [HeapCore::alloc] *)

(** The body of the walk once a chunk fits: split it, or take it whole. *)
Definition take_chunk (needed chunk sz flags : Z) (st : heap_state) : Z * heap_state :=
  let '(h, m) := st in
  let rest := sz - needed in
  let '(h, m) :=
    if MIN_CHUNK <=? rest then
      let right := usize (chunk + needed) in
      let m := set_prev_size m right needed in
      let m := set_header m right rest PREV_IN_USE in
      let m := set_header m chunk needed (Z.lor (Z.land flags PREV_IN_USE) IN_USE) in
      let m := set_prev_size m (usize (chunk + sz)) rest in
      (add_free h (- needed), m)
    else
      let m := set_header m chunk sz (Z.lor (Z.land flags PREV_IN_USE) IN_USE) in
      let a := usize (chunk + sz) in
      let m := set_header m a (size_of m a) (Z.lor (Z.land (flags_of m a) IN_USE) PREV_IN_USE) in
      (add_free h (- sz), m) in
  (payload_of chunk, (add_alloc h 1, m)).

(** The inner [while] loop: [Some] is the [return] of a found chunk. *)
Fixpoint alloc_walk (fuel : nat) (needed epilogue chunk : Z) (st : heap_state)
  : outcome Empty_set (option (Z * heap_state)) :=
  match fuel with
  | O => Hang
  | S fuel =>
      if chunk <? epilogue then
        let sz := size_of (snd st) chunk in
        let flags := flags_of (snd st) chunk in
        if (sz <? MIN_CHUNK) || negb (sz mod CHUNK_ALIGN =? 0) then Ret None
        else if (Z.land flags IN_USE =? 0) && (needed <=? sz)
        then Ret (Some (take_chunk needed chunk sz flags st))
        else alloc_walk fuel needed epilogue (usize (chunk + sz)) st
      else Ret None
  end.

(** The outer [for seg_idx in 0..self.seg_count] loop. *)
Fixpoint alloc_segments (needed : Z) (segs : list Segment) (st : heap_state)
  : outcome Empty_set Z * heap_state :=
  match segs with
  | [] => (Ret 0, (add_oom (fst st), snd st))
  | s :: segs' =>
      match alloc_walk (walk_fuel s) needed (usize (seg_end s - EPILOGUE_SIZE))
              (usize (seg_base s + PROLOGUE_SIZE)) st with
      | Ret (Some (p, st')) => (Ret p, st')
      | Ret None => alloc_segments needed segs' st
      | Err e => (Err e, st)
      | Panic => (Panic, st)
      | Hang => (Hang, st)
      end
  end.

(** The chunk size needed for a layout, [None] on overflow. *)
Definition needed_size (size : Z) : option Z :=
  match checked_add (Z.max size 1) HEADER_SIZE with
  | None => None
  | Some payload_size =>
      option_map (fun n => Z.max n MIN_CHUNK) (align_up_checked (Some payload_size) CHUNK_ALIGN)
  end.

Definition alloc (layout : Layout) : M heap_state Empty_set Z := fun st =>
  if CHUNK_ALIGN <? l_align layout then (Ret 0, (add_align_fail (fst st), snd st))
  else
    match needed_size (l_size layout) with
    | None => (Ret 0, st)
    | Some needed => alloc_segments needed (live_segments (fst st)) st
    end.

(** ** [HeapCore::dealloc] *)

(** The loop locating the owning segment. *)
Definition owns (chunk_addr : Z) (s : Segment) : bool :=
  (usize (seg_base s + PROLOGUE_SIZE) <=? chunk_addr)
  && (chunk_addr <? usize (seg_end s - EPILOGUE_SIZE)).

(** The forward-coalescing loop: absorbs free chunks from [n] on. *)
Fixpoint absorb (fuel : nat) (seg_end n span_size : Z) (m : memory)
  : outcome Empty_set (Z * Z * memory) :=
  match fuel with
  | O => Hang
  | S fuel =>
      if (n <? seg_end) && (Z.land (flags_of m n) IN_USE =? 0) then
        let ns := size_of m n in
        if (ns <? MIN_CHUNK) || negb (ns mod CHUNK_ALIGN =? 0) then Ret (n, span_size, m)
        else absorb fuel seg_end (usize (n + ns)) (usize (span_size + ns)) (set_header m n 0 0)
      else Ret (n, span_size, m)
  end.

(** The part of [dealloc] after the backward step. *)
Definition dealloc_forward (seg : Segment) (c c_size span span_size : Z) (h : HeapCore)
    (m : memory) : outcome Empty_set unit * heap_state :=
  let fence := usize (seg_end seg - EPILOGUE_SIZE) in
  match absorb (walk_fuel seg) fence (usize (c + c_size)) span_size m with
  | Ret (n, span_size, m) =>
      if fence <? n then (Ret tt, (add_bad_free h, m))
      else
        let m := set_prev_size m n span_size in
        let m := set_header m span span_size (Z.land (flags_of m span) PREV_IN_USE) in
        let m := set_header m n (size_of m n) (Z.land (flags_of m n) IN_USE) in
        (Ret tt, (add_alloc (add_free h c_size) (-1), m))
  | Err e => (Err e, (h, m))
  | Panic => (Panic, (h, m))
  | Hang => (Hang, (h, m))
  end.

Definition dealloc (ptr : Z) : M heap_state Empty_set unit := fun '(h, m) =>
  if ptr =? 0 then (Ret tt, (add_bad_free h, m))
  else if negb (ptr mod CHUNK_ALIGN =? 0) then (Ret tt, (add_bad_free h, m))
  else
    let c := usize (ptr - HEADER_SIZE) in
    match list_find (fun s => owns c s = true) (live_segments h) with
    | None => (Ret tt, (add_bad_free h, m))
    | Some (_, seg) =>
        let cflags := flags_of m c in
        if Z.land cflags IN_USE =? 0 then (Ret tt, (add_double_free h, m))
        else
          let c_size := size_of m c in
          if negb (c_size mod CHUNK_ALIGN =? 0) || (c_size <? MIN_CHUNK)
          then (Ret tt, (add_bad_free h, m))
          else if Z.land cflags PREV_IN_USE =? 0 then
            let prev := saturating_sub c (prev_size_of m c) in
            if prev <? usize (seg_base seg + PROLOGUE_SIZE)
            then (Ret tt, (add_bad_free h, m))
            else dealloc_forward seg c c_size prev (usize (c_size + size_of m prev)) h
                   (set_header m c 0 0)
          else dealloc_forward seg c c_size c c_size h m
    end.

(** ** [HeapCore::check_invariants] *)

(** The loop over the chunks of a segment: [Some c] is its normal exit at [c],
    [None] a [return false]. *)
Fixpoint check_walk (fuel : nat) (m : memory) (fence c : Z) : outcome Empty_set (option Z) :=
  match fuel with
  | O => Hang
  | S fuel =>
      if fence <=? c then Ret (Some c)
      else
        let sz := size_of m c in
        if (sz <? MIN_CHUNK) || negb (sz mod CHUNK_ALIGN =? 0) then Ret None
        else if fence <? usize (c + sz) then Ret None
        else
          let cflags := flags_of m c in
          let next := usize (c + sz) in
          if next <? fence then
            if Z.land cflags IN_USE =? 0 then
              if negb (prev_size_of m next =? sz) then Ret None
              else if (Z.land (flags_of m next) IN_USE =? 0)
                      || negb (Z.land (flags_of m next) PREV_IN_USE =? 0)
              then Ret None
              else check_walk fuel m fence next
            else if Z.land (flags_of m next) PREV_IN_USE =? 0 then Ret None
            else check_walk fuel m fence next
          else if Z.land cflags IN_USE =? 0 then
            if negb (prev_size_of m next =? sz)
               || negb (Z.land (flags_of m next) PREV_IN_USE =? 0)
            then Ret None
            else check_walk fuel m fence next
          else check_walk fuel m fence next
  end.

Definition check_segment (m : memory) (s : Segment) : outcome Empty_set bool :=
  let both := Z.lor IN_USE PREV_IN_USE in
  let pro := seg_base s in
  if negb (size_of m pro =? PROLOGUE_SIZE) || negb (Z.land (flags_of m pro) both =? both)
  then Ret false
  else
    let fence := usize (seg_end s - EPILOGUE_SIZE) in
    match check_walk (S (walk_fuel s)) m fence (usize (seg_base s + PROLOGUE_SIZE)) with
    | Ret (Some c) =>
        if negb (c =? fence) then Ret false
        else if negb (size_of m c =? EPILOGUE_SIZE) || (Z.land (flags_of m c) IN_USE =? 0)
        then Ret false
        else Ret true
    | Ret None => Ret false
    | Err e => Err e
    | Panic => Panic
    | Hang => Hang
    end.

Fixpoint check_segments (m : memory) (segs : list Segment) : outcome Empty_set bool :=
  match segs with
  | [] => Ret true
  | s :: segs' =>
      match check_segment m s with
      | Ret true => check_segments m segs'
      | r => r
      end
  end.

Definition check_invariants (st : heap_state) : outcome Empty_set bool :=
  check_segments (snd st) (live_segments (fst st)).
