(* ===== verification/HeapSpec.v ===== *)
(** The heap allocator against an abstract layout.

    A segment is abstracted by the list of its blocks, sizes and use flags in
    address order ([seg_rep]); the operations of [Heap] are then functions on
    such lists: first fit with splitting, and release with coalescing. *)

From stdpp Require Import base numbers list gmap.
From Stdlib Require Import ZArith Lia.
From S2P Require Import Prelude Heap.

(** ** The abstract layout *)

Record block : Type := mkBlock { bsz : Z; bused : bool }.

(** Where a walk stands: the address, whether the block before is in use
    ([PREV_IN_USE]) and the size of the block before (the footer). *)
Record cursor : Type := mkCur { cur_at : Z; cur_pu : bool; cur_ps : Z }.

Definition step_cur (c : cursor) (b : block) : cursor :=
  mkCur (cur_at c + bsz b) (bused b) (bsz b).

Definition after (c : cursor) (bs : list block) : cursor := fold_left step_cur bs c.

(** The [size] word of a chunk. *)
Definition hdr (sz : Z) (used pu : bool) : Z :=
  sz + ((if used then 1 else 0) + (if pu then 2 else 0)).

(** The chunk at [c] is [b]: its header, its predecessor's footer when that is
    free, and no two free chunks are adjacent. *)
Definition node (m : memory) (c : cursor) (b : block) : Prop :=
  load m (cur_at c + 8) = hdr (bsz b) (bused b) (cur_pu c) /\
  (cur_pu c = false -> load m (cur_at c) = cur_ps c /\ bused b = true).

Fixpoint chunks (m : memory) (c : cursor) (bs : list block) : Prop :=
  match bs with
  | [] => True
  | b :: bs' => node m c b /\ chunks m (step_cur c b) bs'
  end.

Definition block_ok (b : block) : Prop := 32 <= bsz b /\ bsz b mod 16 = 0.

(** The epilogue is a permanent chunk in use. *)
Definition fence : block := mkBlock 16 true.

Definition start (s : Segment) : cursor := mkCur (seg_base s + 16) true 0.

Definition seg_bounds (s : Segment) : Prop :=
  0 < seg_base s /\ seg_base s + 64 <= seg_end s /\ seg_end s < 2 ^ 64 /\
  seg_base s mod 16 = 0 /\ seg_end s mod 16 = 0.

Record seg_rep (m : memory) (s : Segment) (bs : list block) : Prop := {
  rep_bounds : seg_bounds s;
  rep_prologue : load m (seg_base s + 8) = hdr 16 true true;
  rep_blocks : Forall block_ok bs;
  rep_chunks : chunks m (start s) (bs ++ [fence]);
  rep_end : cur_at (after (start s) bs) = seg_end s - 16;
}.

(** ** The abstract operations *)

Definition fits (needed : Z) (b : block) : bool := negb (bused b) && (needed <=? bsz b).

(** First fit: the blocks before, the block chosen, the blocks after. *)
Fixpoint first_fit (needed : Z) (bs : list block) : option (list block * block * list block) :=
  match bs with
  | [] => None
  | b :: bs' =>
      if fits needed b then Some ([], b, bs')
      else option_map (fun '(l, x, r) => (b :: l, x, r)) (first_fit needed bs')
  end.

(** What becomes of a free block that is handed out. *)
Definition carve (needed : Z) (b : block) : list block :=
  if 32 <=? bsz b - needed
  then [mkBlock needed true; mkBlock (bsz b - needed) false]
  else [mkBlock (bsz b) true].

Definition sum_sizes (bs : list block) : Z := foldr (fun b n => bsz b + n) 0 bs.

(** Pushes a free block in front of [bs], merging it with a free head. *)
Definition merge_right (n : Z) (bs : list block) : list block :=
  match bs with
  | b :: bs' => if bused b then mkBlock n false :: bs else mkBlock (n + bsz b) false :: bs'
  | [] => [mkBlock n false]
  end.

(** Releases the block of size [n] between [l] and [r]. *)
Definition release (l : list block) (n : Z) (r : list block) : list block :=
  match last l with
  | Some b =>
      if bused b then l ++ merge_right n r
      else take (length l - 1) l ++ merge_right (bsz b + n) r
  | None => merge_right n r
  end.

Definition free_of (bs : list block) : Z :=
  sum_sizes (filter (fun b : block => bused b = false) bs).
Definition used_of (bs : list block) : Z :=
  Z.of_nat (length (filter (fun b : block => bused b = true) bs)).

(** The chunk size [alloc] needs for a payload of [size] bytes. *)
Definition chunk_for (size : Z) : Z := Z.max 32 ((Z.max size 1 + 31) / 16 * 16).

(** The first segment with a fitting block, and its split. *)
Fixpoint fit_heap (needed : Z) (L : list (list block))
  : option (nat * (list block * block * list block)) :=
  match L with
  | [] => None
  | bs :: L' =>
      match first_fit needed bs with
      | Some x => Some (O, x)
      | None => option_map (fun '(i, x) => (S i, x)) (fit_heap needed L')
      end
  end.

(** ** The allocator state and its layouts, one per segment *)

Definition sum_over (f : list block -> Z) (L : list (list block)) : Z :=
  foldr (fun bs n => f bs + n) 0 L.

Definition disjoint_segs (segs : list Segment) : Prop :=
  forall i j si sj, i <> j -> segs !! i = Some si -> segs !! j = Some sj ->
    seg_end si <= seg_base sj \/ seg_end sj <= seg_base si.

Record heap_rep (st : heap_state) (L : list (list block)) : Prop := {
  hr_array : length (segments (fst st)) = 16%nat;
  hr_count : seg_count (fst st) = Z.of_nat (length L);
  hr_max : (length L <= 16)%nat;
  hr_segs : Forall2 (seg_rep (snd st)) (live_segments (fst st)) L;
  hr_disjoint : disjoint_segs (live_segments (fst st));
  hr_total : sum_over sum_sizes L < 2 ^ 64;
  hr_free : free_bytes (fst st) = sum_over free_of L;
  hr_alloc : alloc_count (fst st) = sum_over used_of L;
}.

(** Where a block's chunk starts. *)
Definition block_addr (s : Segment) (l : list block) : Z := cur_at (after (start s) l).

(** [p] is the payload of a block in use, [n] its payload size. *)
Definition live_block (h : HeapCore) (L : list (list block)) (p n : Z) : Prop :=
  exists i s l b r,
    live_segments h !! i = Some s /\ L !! i = Some (l ++ b :: r) /\
    bused b = true /\ p = block_addr s l + 16 /\ n = bsz b - 16.

(** ** Words and headers *)

Lemma hdr_lor sz (used pu : bool) fl :
  sz mod 16 = 0 -> fl = (if used then 1 else 0) + (if pu then 2 else 0) ->
  Z.lor sz fl = hdr sz used pu.
Proof.
  intros Hm ->. unfold hdr. apply (lor_add _ _ 4); [lia| |done].
  by destruct used, pu.
Qed.

Lemma size_of_hdr m p sz used pu :
  0 <= sz < 2 ^ 64 -> sz mod 16 = 0 -> 0 <= p -> p + 8 < 2 ^ 64 ->
  load m (p + 8) = hdr sz used pu -> size_of m p = sz.
Proof.
  intros Hs Hm Hp Hp' Hl. unfold size_of. rewrite usize_small by lia. rewrite Hl.
  rewrite (land_high_mask 64 3); [|lia|lia| |done]; unfold hdr; change (2 ^ 3) with 8.
  all: destruct used, pu; simpl; Z.to_euclidean_division_equations; lia.
Qed.

Lemma flags_of_hdr m p sz used pu :
  sz mod 16 = 0 -> 0 <= p -> p + 8 < 2 ^ 64 -> load m (p + 8) = hdr sz used pu ->
  flags_of m p = (if used then 1 else 0) + (if pu then 2 else 0).
Proof.
  intros Hm Hp Hp' Hl. unfold flags_of. rewrite usize_small by lia. rewrite Hl.
  unfold NOT_SIZE_MASK. change 7 with (Z.ones 3). rewrite Z.land_ones by lia.
  unfold hdr. change (2 ^ 3) with 8.
  destruct used, pu; simpl; Z.to_euclidean_division_equations; lia.
Qed.

Lemma prev_size_of_word m p n :
  0 <= n < 2 ^ 64 -> n mod 16 = 0 -> load m p = n -> prev_size_of m p = n.
Proof.
  intros Hn Hm Hl. unfold prev_size_of. rewrite Hl.
  rewrite (land_high_mask 64 3); [|lia|lia|lia|done].
  change (2 ^ 3) with 8. Z.to_euclidean_division_equations; lia.
Qed.

(** The two flag tests, on the flag word of a chunk. *)
Lemma in_use_test (used pu : bool) :
  (Z.land ((if used then 1 else 0) + (if pu then 2 else 0)) IN_USE =? 0) = negb used.
Proof. by destruct used, pu. Qed.

Lemma prev_in_use_test (used pu : bool) :
  (Z.land ((if used then 1 else 0) + (if pu then 2 else 0)) PREV_IN_USE =? 0) = negb pu.
Proof. by destruct used, pu. Qed.

Lemma load_store_eq m a v : load (store m a v) a = v.
Proof. unfold load, store. by rewrite lookup_insert_eq. Qed.

Lemma load_store_ne m a b v : a <> b -> load (store m a v) b = load m b.
Proof. intros. unfold load, store. by rewrite lookup_insert_ne. Qed.

(** Resolves loads through stores at addresses [lia] tells apart. *)
Ltac mem_simpl :=
  repeat first [ rewrite load_store_eq | rewrite load_store_ne by lia ].

(** ** Lemmas on layouts *)

Lemma after_app c l r : after c (l ++ r) = after (after c l) r.
Proof. unfold after. apply fold_left_app. Qed.

Lemma after_at c bs : cur_at (after c bs) = cur_at c + sum_sizes bs.
Proof.
  revert c. induction bs as [|b bs IH]; intros c; simpl; [lia|].
  change (fold_left step_cur bs (step_cur c b)) with (after (step_cur c b) bs).
  rewrite IH. simpl. lia.
Qed.

Lemma chunks_app m c l r : chunks m c (l ++ r) <-> chunks m c l /\ chunks m (after c l) r.
Proof.
  revert c. induction l as [|b l IH]; intros c; simpl; [tauto|].
  rewrite IH. tauto.
Qed.

Lemma sum_sizes_app l r : sum_sizes (l ++ r) = sum_sizes l + sum_sizes r.
Proof. induction l as [|b l IH]; simpl; [lia|]. lia. Qed.

Lemma sum_sizes_nonneg bs : Forall block_ok bs -> 0 <= sum_sizes bs.
Proof. induction 1 as [|b bs [? ?] _ IH]; simpl; lia. Qed.

Lemma sum_sizes_length bs : Forall block_ok bs -> 32 * Z.of_nat (length bs) <= sum_sizes bs.
Proof. induction 1 as [|b bs [? ?] _ IH]; simpl length; simpl sum_sizes; lia. Qed.

Lemma sum_sizes_mod bs : Forall block_ok bs -> sum_sizes bs mod 16 = 0.
Proof.
  induction 1 as [|b bs [? ?] _ IH]; simpl; [done|].
  rewrite Z.add_mod by lia. by rewrite IH, H0.
Qed.

(** A layout only depends on the words of its own chunks. *)
Lemma chunks_frame m m' c bs :
  Forall (fun b => 16 <= bsz b) bs -> chunks m c bs ->
  (forall x, cur_at c <= x < cur_at c + sum_sizes bs -> load m' x = load m x) ->
  chunks m' c bs.
Proof.
  intros Hok. revert c. induction Hok as [|b bs Hb Hok IH]; intros c; simpl; [done|].
  intros [[Hh Hp] Hc] Hf.
  assert (0 <= sum_sizes bs) by (clear -Hok; induction Hok; simpl; lia).
  split.
  - unfold node. rewrite !Hf by lia. done.
  - apply IH; [done|]. simpl. intros x Hx. apply Hf. lia.
Qed.

Lemma block_ok_16 bs : Forall block_ok bs -> Forall (fun b => 16 <= bsz b) bs.
Proof. intros H. eapply Forall_impl; [done|]. intros b [? ?]. lia. Qed.
