(* ===== verification/HeapAlloc.v ===== *)
(** [HeapCore::alloc] and [HeapCore::init_region] refine the abstract layout:
    the walk is first fit, and carving a chunk keeps the layout well formed. *)

From stdpp Require Import base numbers list gmap.
From Stdlib Require Import ZArith Lia.
From S2P Require Import Prelude Heap HeapSpec.

(** ** Reading the chunk under the cursor *)

Section Reading.
Context (m : memory) (c : cursor) (b : block).
Hypothesis Hnode : node m c b.
Hypothesis Hsize : 16 <= bsz b.
Hypothesis Hmod : bsz b mod 16 = 0.
Hypothesis Hlow : 0 <= cur_at c.
Hypothesis Hhigh : cur_at c + bsz b < 2 ^ 64.

Lemma node_size : size_of m (cur_at c) = bsz b.
Proof. destruct Hnode as [Hh _]. eapply size_of_hdr; [lia|done|lia|lia|done]. Qed.

Lemma node_flags :
  flags_of m (cur_at c) = (if bused b then 1 else 0) + (if cur_pu c then 2 else 0).
Proof. destruct Hnode as [Hh _]. eapply flags_of_hdr; [done|lia|lia|done]. Qed.

Lemma node_prev_size :
  cur_pu c = false -> 0 <= cur_ps c < 2 ^ 64 -> cur_ps c mod 16 = 0 ->
  prev_size_of m (cur_at c) = cur_ps c.
Proof. destruct Hnode as [_ Hp]. intros Hpu ? ?. apply prev_size_of_word; [done|done|]. by apply Hp. Qed.
End Reading.

(** ** The walk is first fit *)

Lemma first_fit_Some needed bs l b r :
  first_fit needed bs = Some (l, b, r) ->
  bs = l ++ b :: r /\ bused b = false /\ needed <= bsz b /\
  Forall (fun x => fits needed x = false) l.
Proof.
  revert l b r. induction bs as [|x bs IH]; intros l b r; simpl; [done|].
  destruct (fits needed x) eqn:Hx.
  - intros ?; simplify_eq. unfold fits in Hx. apply andb_true_iff in Hx as [Hu Hn].
    apply negb_true_iff in Hu. apply Z.leb_le in Hn. by split_and!.
  - destruct (first_fit needed bs) as [[[l' b'] r']|] eqn:Hf; intros ?; simplify_eq/=.
    destruct (IH _ _ _ eq_refl) as (-> & ? & ? & ?). split_and!; auto.
Qed.

Lemma first_fit_None needed bs :
  first_fit needed bs = None <-> Forall (fun x => fits needed x = false) bs.
Proof.
  induction bs as [|x bs IH]; simpl; [by split|].
  rewrite Forall_cons, <- IH. destruct (fits needed x); [by split; [|intros []]|].
  destruct (first_fit needed bs) as [[[? ?] ?]|]; simpl; split; [done|by intros []|done|done].
Qed.

Lemma alloc_walk_first_fit fuel needed c bs st :
  chunks (snd st) c (bs ++ [fence]) -> Forall block_ok bs -> 0 <= cur_at c ->
  cur_at c + sum_sizes bs + 16 < 2 ^ 64 -> (length bs < fuel)%nat ->
  alloc_walk fuel needed (cur_at c + sum_sizes bs) (cur_at c) st =
  Ret (option_map (fun '(l, b, r) =>
         take_chunk needed (cur_at (after c l)) (bsz b)
           (if cur_pu (after c l) then 2 else 0) st) (first_fit needed bs)).
Proof.
  intros Hc Hok. revert c fuel Hc.
  induction Hok as [|b bs [Hb Hbm] Hok IH]; intros c fuel Hc Hlow Hhigh Hfuel;
    (destruct fuel as [|fuel]; [simpl in Hfuel; lia|]); simpl in *.
  { rewrite Z.add_0_r, Z.ltb_irrefl. done. }
  destruct Hc as [Hn Hc]. pose proof (sum_sizes_nonneg _ Hok).
  destruct (Z.ltb_spec (cur_at c) (cur_at c + (bsz b + sum_sizes bs))); [|lia].
  erewrite node_size by (done || lia). erewrite node_flags by (done || lia).
  unfold MIN_CHUNK, CHUNK_ALIGN. rewrite Hbm, in_use_test.
  destruct (Z.ltb_spec (bsz b) 32); [lia|]. cbn [orb negb Z.eqb]. unfold fits.
  destruct (bused b) eqn:Hu; cbn [negb andb].
  2: destruct (needed <=? bsz b) eqn:Hfit; cbn [option_map fold_left]; [by rewrite Z.add_0_l|].
  all: rewrite usize_small by lia.
  all: specialize (IH (step_cur c b) fuel Hc); simpl in IH.
  all: rewrite Z.add_assoc, IH by lia.
  all: by destruct (first_fit needed bs) as [[[? ?] ?]|].
Qed.

(** ** Carving a chunk *)

Definition carved (needed : Z) (b : block) : Z :=
  if 32 <=? bsz b - needed then needed else bsz b.

(** The heap record after carving. *)
Definition after_carve (needed : Z) (b : block) (h : HeapCore) : HeapCore :=
  add_alloc (add_free h (- carved needed b)) 1.

Lemma take_chunk_local needed c b n rest h m :
  chunks m c (b :: n :: rest) -> block_ok b -> bused b = false ->
  16 <= bsz n -> bsz n mod 16 = 0 -> Forall (fun b => 16 <= bsz b) rest ->
  32 <= needed -> needed mod 16 = 0 -> needed <= bsz b -> 0 <= cur_at c ->
  cur_at c + bsz b + bsz n + sum_sizes rest < 2 ^ 64 ->
  exists m',
    take_chunk needed (cur_at c) (bsz b) (if cur_pu c then 2 else 0) (h, m) =
      (cur_at c + 16, (after_carve needed b h, m')) /\
    chunks m' c (carve needed b ++ n :: rest) /\
    (forall x, x < cur_at c \/ cur_at c + bsz b + 16 <= x -> load m' x = load m x).
Proof.
  intros (Hb & Hn & Hr) [Hb32 Hbm] Hfree Hn16 Hnm Hrest Hneed Hneedm Hle Hlow Hhigh.
  assert (0 <= sum_sizes rest) by (clear -Hrest; induction Hrest; simpl; lia).
  destruct Hb as [Hbh Hbp]. destruct Hn as [Hnh Hnp].
  simpl in Hnh, Hnp. rewrite Hfree in Hbh, Hbp, Hnh.
  destruct (Hnp Hfree) as [Hfoot Hnused]. rewrite Hnused in Hnh.
  assert (cur_pu c = true) as Hpu.
  { destruct (cur_pu c); [done|]. by destruct (Hbp eq_refl). }
  rewrite Hpu in Hbh. rewrite ?Hpu.
  unfold take_chunk, after_carve, carve, carved, MIN_CHUNK, payload_of, HEADER_SIZE.
  destruct (Z.leb_spec 32 (bsz b - needed)) as [Hsplit|Hwhole].
  - eexists. split; [rewrite !usize_small by lia; reflexivity|].
    unfold set_prev_size, set_header. rewrite !usize_small by lia. split.
    + cbn [app chunks step_cur cur_at cur_pu cur_ps bsz bused]. unfold node.
      cbn [step_cur cur_at cur_pu cur_ps bsz bused]. rewrite Hpu, Hnused.
      replace (cur_at c + needed + (bsz b - needed)) with (cur_at c + bsz b) by lia.
      mem_simpl. split_and!; try done.
      * by apply hdr_lor.
      * apply hdr_lor; [|done]. Z.to_euclidean_division_equations; lia.
      * replace (step_cur (step_cur (step_cur c _) _) n) with (step_cur (step_cur c b) n)
          by (unfold step_cur; simpl; f_equal; lia).
        eapply chunks_frame; [done|exact Hr|]. simpl. intros x Hx. by mem_simpl.
    + intros x Hx. by mem_simpl.
  - rewrite !usize_small by lia.
    unfold set_prev_size, set_header. rewrite !usize_small by lia.
    set (m1 := store m (cur_at c + 8) _).
    assert (load m1 (cur_at c + bsz b + 8) = hdr (bsz n) true false) as Hn1.
    { unfold m1. by mem_simpl. }
    rewrite (size_of_hdr m1 _ (bsz n) true false) by (done || lia).
    rewrite (flags_of_hdr m1 _ (bsz n) true false) by (done || lia).
    eexists. split; [reflexivity|]. split.
    + cbn [app chunks step_cur cur_at cur_pu cur_ps bsz bused]. unfold node.
      cbn [step_cur cur_at cur_pu cur_ps bsz bused]. rewrite Hpu, Hnused.
      unfold m1. mem_simpl. split_and!; try done.
      * by apply hdr_lor.
      * by apply hdr_lor.
      * eapply chunks_frame; [done|exact Hr|]. simpl. intros x Hx. by mem_simpl.
    + intros x Hx. unfold m1. by mem_simpl.
Qed.

(** ** Segments *)

Lemma seg_rep_total m s bs : seg_rep m s bs -> sum_sizes bs = seg_end s - seg_base s - 32.
Proof. intros [_ _ _ _ He]. rewrite after_at in He. simpl in He. lia. Qed.

Lemma seg_rep_frame m m' s bs :
  seg_rep m s bs -> (forall x, seg_base s <= x < seg_end s -> load m' x = load m x) ->
  seg_rep m' s bs.
Proof.
  intros Hrep Hf. pose proof (seg_rep_total _ _ _ Hrep). destruct Hrep as [Hb Hp Hok Hc He].
  destruct Hb as (? & ? & ? & ? & ?). pose proof (sum_sizes_nonneg _ Hok).
  split; try done.
  - rewrite Hf by lia. done.
  - eapply chunks_frame; [|done|].
    + rewrite Forall_app. split; [by apply block_ok_16|]. by repeat constructor.
    + rewrite sum_sizes_app. simpl. intros x Hx. apply Hf. lia.
Qed.

Lemma block_addr_bounds m s l b r :
  seg_rep m s (l ++ b :: r) ->
  seg_base s + 16 <= block_addr s l /\ block_addr s l + bsz b + 16 <= seg_end s /\
  block_addr s l mod 16 = 0.
Proof.
  intros Hrep. pose proof (seg_rep_total _ _ _ Hrep) as Ht.
  destruct Hrep as [(? & ? & ? & Hbm & ?) _ Hok _ _].
  apply Forall_app in Hok as [Hl Hbr]. apply Forall_cons in Hbr as [[? ?] Hr].
  unfold block_addr. rewrite after_at. rewrite sum_sizes_app in Ht. simpl in *.
  pose proof (sum_sizes_nonneg _ Hl). pose proof (sum_sizes_nonneg _ Hr).
  split_and!; [lia|lia|].
  pose proof (sum_sizes_mod _ Hl). Z.to_euclidean_division_equations; lia.
Qed.

Lemma carve_sum needed b : sum_sizes (carve needed b) = bsz b.
Proof. unfold carve. destruct (32 <=? bsz b - needed); simpl; lia. Qed.

Lemma carve_ok needed b :
  block_ok b -> 32 <= needed -> needed mod 16 = 0 -> Forall block_ok (carve needed b).
Proof.
  intros [? ?] ? ?. unfold carve. destruct (Z.leb_spec 32 (bsz b - needed)).
  - repeat constructor; simpl; try done. Z.to_euclidean_division_equations; lia.
  - by repeat constructor.
Qed.

Lemma take_chunk_seg needed s l b r h m :
  seg_rep m s (l ++ b :: r) -> bused b = false -> 32 <= needed -> needed mod 16 = 0 ->
  needed <= bsz b ->
  exists m',
    take_chunk needed (block_addr s l) (bsz b)
      (if cur_pu (after (start s) l) then 2 else 0) (h, m) =
      (block_addr s l + 16, (after_carve needed b h, m')) /\
    seg_rep m' s (l ++ carve needed b ++ r) /\
    (forall x, x < block_addr s l \/ block_addr s l + bsz b + 16 <= x -> load m' x = load m x).
Proof.
  intros Hrep Hfree H32 Hm16 Hle.
  pose proof (block_addr_bounds _ _ _ _ _ Hrep) as (Hlo & Hhi & _).
  pose proof (seg_rep_total _ _ _ Hrep) as Htot.
  destruct Hrep as [(Hb0 & Hb1 & Hb2 & Hb3 & Hb4) Hp Hok Hc He].
  apply Forall_app in Hok as [Hokl Hokbr]. apply Forall_cons in Hokbr as [Hokb Hokr].
  rewrite <- app_assoc in Hc. apply chunks_app in Hc as [Hcl Hcr].
  assert (exists n rest, r ++ [fence] = n :: rest /\ 16 <= bsz n /\ bsz n mod 16 = 0 /\
            Forall (fun b => 16 <= bsz b) rest) as (n & rest & Hr & Hn & Hnm & Hrest).
  { destruct r as [|n r]; simpl; eexists _, _; (split; [reflexivity|]); [by split_and!|].
    apply Forall_cons in Hokr as [[? ?] Hokr]. split_and!; [lia|done|].
    apply Forall_app. split; [by apply block_ok_16|]. by repeat constructor. }
  rewrite <- app_comm_cons, Hr in Hcr.
  assert (sum_sizes r + 16 = bsz n + sum_sizes rest) as Hsum.
  { pose proof (sum_sizes_app r [fence]) as Hs. rewrite Hr in Hs. simpl in Hs. lia. }
  unfold block_addr in *. rewrite after_at in *. rewrite sum_sizes_app in Htot. simpl in Htot, Hlo.
  destruct (take_chunk_local needed (after (start s) l) b n rest h m) as (m' & Ht & Hc' & Hf);
    [done..|rewrite after_at; simpl; lia|rewrite after_at; simpl; lia|].
  rewrite after_at in Ht, Hf. exists m'. split; [exact Ht|]. split; [|exact Hf].
  split; try done.
  - rewrite Hf by (simpl; lia). done.
  - apply Forall_app; split; [done|]. apply Forall_app; split; [by apply carve_ok|done].
  - rewrite <- !app_assoc, Hr. apply chunks_app. split; [|done].
    eapply chunks_frame; [by apply block_ok_16|done|]. intros x Hx. apply Hf. simpl in *. lia.
  - rewrite after_at, !sum_sizes_app, carve_sum. simpl. lia.
Qed.

(** ** The whole allocator *)

Lemma needed_size_chunk size :
  0 <= size -> size + 32 < 2 ^ 64 -> needed_size size = Some (chunk_for size).
Proof.
  intros H0 H1. unfold needed_size, checked_add, HEADER_SIZE, align_up_checked.
  destruct (Z.ltb_spec (Z.max size 1 + 16) 18446744073709551616); [|lia].
  unfold checked_add, CHUNK_ALIGN, MIN_CHUNK.
  destruct (Z.ltb_spec (Z.max size 1 + 16 + (16 - 1)) 18446744073709551616); [|lia].
  simpl. f_equal. unfold chunk_for.
  rewrite (land_high_mask 64 4); [|lia|lia|lia|done].
  change (2 ^ 4) with 16. Z.to_euclidean_division_equations; lia.
Qed.

Lemma chunk_for_ok size : 0 <= size ->
  32 <= chunk_for size /\ chunk_for size mod 16 = 0 /\ size + 16 <= chunk_for size.
Proof.
  intros. unfold chunk_for. split_and!; [lia| |].
  all: Z.to_euclidean_division_equations; lia.
Qed.

Lemma fit_heap_Some needed L i l b r :
  fit_heap needed L = Some (i, (l, b, r)) ->
  exists bs, L !! i = Some bs /\ first_fit needed bs = Some (l, b, r).
Proof.
  revert i. induction L as [|bs L IH]; intros i; simpl; [done|].
  destruct (first_fit needed bs) as [x|] eqn:Hf; intros H; simplify_eq; [eauto|].
  destruct (fit_heap needed L) as [[j y]|]; simplify_eq/=. eauto.
Qed.

Lemma fit_heap_None needed L i bs b :
  fit_heap needed L = None -> L !! i = Some bs -> b ∈ bs -> bused b = false -> bsz b < needed.
Proof.
  revert i. induction L as [|bs0 L IH]; intros i Hn Hi Hb Hu; [by destruct i|].
  simpl in Hn. destruct (first_fit needed bs0) as [x|] eqn:Hf; [done|].
  destruct (fit_heap needed L) as [[j y]|]; [done|].
  destruct i as [|i]; [|by eapply IH]. simplify_eq/=.
  apply first_fit_None in Hf. rewrite Forall_forall in Hf. pose proof (Hf _ Hb) as Hx.
  unfold fits in Hx. rewrite Hu in Hx. cbn in Hx. lia.
Qed.

Lemma walk_fuel_enough m s bs : seg_rep m s bs -> (length bs < walk_fuel s)%nat.
Proof.
  intros Hrep. pose proof (seg_rep_total _ _ _ Hrep). destruct Hrep as [_ _ Hok _ _].
  pose proof (sum_sizes_length _ Hok). unfold walk_fuel.
  Z.to_euclidean_division_equations; lia.
Qed.

Lemma walk_segment needed m s bs h :
  seg_rep m s bs ->
  alloc_walk (walk_fuel s) needed (usize (seg_end s - EPILOGUE_SIZE))
    (usize (seg_base s + PROLOGUE_SIZE)) (h, m) =
  Ret (option_map (fun '(l, b, r) =>
         take_chunk needed (block_addr s l) (bsz b)
           (if cur_pu (after (start s) l) then 2 else 0) (h, m)) (first_fit needed bs)).
Proof.
  intros Hrep. pose proof (walk_fuel_enough _ _ _ Hrep).
  pose proof (seg_rep_total _ _ _ Hrep) as Ht.
  destruct Hrep as [(? & ? & ? & ? & ?) _ Hok Hc _].
  unfold EPILOGUE_SIZE, PROLOGUE_SIZE. rewrite !usize_small by lia.
  replace (seg_end s - 16) with (cur_at (start s) + sum_sizes bs) by (simpl; lia).
  change (seg_base s + 16) with (cur_at (start s)).
  apply alloc_walk_first_fit; [done|done|simpl; lia|simpl; lia|done].
Qed.

Lemma alloc_segments_fit needed segs L h m :
  Forall2 (seg_rep m) segs L ->
  alloc_segments needed segs (h, m) =
  match fit_heap needed L with
  | None => (Ret 0, (add_oom h, m))
  | Some (i, (l, b, r)) =>
      match segs !! i with
      | None => (Ret 0, (h, m))
      | Some s =>
          let '(p, st) := take_chunk needed (block_addr s l) (bsz b)
                            (if cur_pu (after (start s) l) then 2 else 0) (h, m) in
          (Ret p, st)
      end
  end.
Proof.
  induction 1 as [|s bs segs L Hrep _ IH]; cbn [alloc_segments fit_heap]; [done|].
  rewrite (walk_segment needed m s bs h Hrep).
  destruct (first_fit needed bs) as [[[l b] r]|]; cbn [option_map].
  - change ((s :: segs) !! 0%nat) with (Some s). cbv beta iota zeta.
    by destruct (take_chunk _ _ _ _ _).
  - rewrite IH. by destruct (fit_heap needed L) as [[i [[l b] r]]|].
Qed.

(** ** Requests that are refused *)

Lemma alloc_over_aligned st size align :
  16 < align -> alloc (mkLayout size align) st = (Ret 0, (add_align_fail (fst st), snd st)).
Proof. intros. unfold alloc, CHUNK_ALIGN. cbn [l_align]. by destruct (Z.ltb_spec 16 align); [|lia]. Qed.

Lemma alloc_overflow st size align :
  0 <= size -> align <= 16 -> 2 ^ 64 <= size + 31 -> size < 2 ^ 64 ->
  alloc (mkLayout size align) st = (Ret 0, st).
Proof.
  intros H0 Hal Hov Hsz. unfold alloc, CHUNK_ALIGN. cbn [l_align l_size].
  destruct (Z.ltb_spec 16 align); [lia|].
  unfold needed_size, checked_add, HEADER_SIZE. rewrite Z.max_l by lia.
  destruct (Z.ltb_spec (size + 16) 18446744073709551616); [|done].
  cbn [align_up_checked]. unfold checked_add, CHUNK_ALIGN.
  destruct (Z.ltb_spec (size + 16 + (16 - 1)) 18446744073709551616); [lia|done].
Qed.
