(* ===== verification/HeapUpdate.v ===== *)
(** Changing one segment of a well-formed heap: the accounting of free bytes
    and live blocks, and the lemma every operation uses to rebuild [heap_rep]. *)

From stdpp Require Import base numbers list gmap.
From Stdlib Require Import ZArith Lia.
From S2P Require Import Prelude Heap HeapSpec HeapAlloc.

(** ** Sums over layouts *)

Lemma sum_over_insert f L i bs bs' :
  L !! i = Some bs -> sum_over f (<[i := bs']> L) = sum_over f L - f bs + f bs'.
Proof.
  revert i. induction L as [|x L IH]; intros [|i] H; simplify_eq/=; [lia|].
  rewrite (IH _ H). lia.
Qed.

Lemma free_of_app l r : free_of (l ++ r) = free_of l + free_of r.
Proof. unfold free_of. by rewrite filter_app, sum_sizes_app. Qed.

Lemma used_of_app l r : used_of (l ++ r) = used_of l + used_of r.
Proof. unfold used_of. rewrite filter_app, length_app. lia. Qed.

Lemma free_of_cons b r : free_of (b :: r) = (if bused b then 0 else bsz b) + free_of r.
Proof.
  unfold free_of. rewrite filter_cons. case_decide as H; [rewrite H; done|].
  destruct (bused b); [lia|done].
Qed.

Lemma used_of_cons b r : used_of (b :: r) = (if bused b then 1 else 0) + used_of r.
Proof.
  unfold used_of. rewrite filter_cons. case_decide as H; [rewrite H; simpl length; lia|].
  destruct (bused b); [done|lia].
Qed.

Lemma free_of_nil : free_of [] = 0.
Proof. done. Qed.
Lemma used_of_nil : used_of [] = 0.
Proof. done. Qed.

Create Rewrite HintDb layout.
#[export] Hint Rewrite free_of_app used_of_app free_of_cons used_of_cons
  free_of_nil used_of_nil sum_sizes_app : layout.

Lemma free_of_bounds bs : Forall block_ok bs -> 0 <= free_of bs <= sum_sizes bs.
Proof.
  induction 1 as [|b bs [? ?] _ IH]; autorewrite with layout; simpl sum_sizes; [lia|].
  destruct (bused b); lia.
Qed.

Lemma used_of_bounds bs :
  Forall block_ok bs -> 0 <= used_of bs /\ used_of bs + free_of bs <= sum_sizes bs.
Proof.
  induction 1 as [|b bs [? ?] _ IH]; autorewrite with layout; simpl sum_sizes; [lia|].
  destruct (bused b); lia.
Qed.

Lemma sum_over_bounds f m segs L :
  Forall2 (seg_rep m) segs L ->
  (forall bs, Forall block_ok bs -> 0 <= f bs <= sum_sizes bs) ->
  0 <= sum_over f L <= sum_over sum_sizes L.
Proof.
  intros H Hf. induction H as [|s bs segs L Hrep _ IH]; simpl; [lia|].
  pose proof (Hf _ (rep_blocks _ _ _ Hrep)). lia.
Qed.

Lemma heap_free_bounds st L : heap_rep st L -> 0 <= free_bytes (fst st) < 2 ^ 64.
Proof.
  intros []. pose proof (sum_over_bounds _ _ _ _ hr_segs free_of_bounds). lia.
Qed.

Lemma heap_alloc_bounds st L : heap_rep st L -> 0 <= alloc_count (fst st) < 2 ^ 64.
Proof.
  intros [].
  assert (forall bs, Forall block_ok bs -> 0 <= used_of bs <= sum_sizes bs) as Hf.
  { intros bs Hb. pose proof (used_of_bounds _ Hb). pose proof (free_of_bounds _ Hb). lia. }
  pose proof (sum_over_bounds _ _ _ _ hr_segs Hf). lia.
Qed.

(** ** Locating a segment *)

Lemma heap_seg st L i bs :
  heap_rep st L -> L !! i = Some bs ->
  exists s, live_segments (fst st) !! i = Some s /\ seg_rep (snd st) s bs.
Proof. intros Hrep Hi. destruct (Forall2_lookup_r _ _ _ _ _ (hr_segs _ _ Hrep) Hi) as (s & ? & ?). eauto. Qed.

Lemma heap_seg_rep st L i s bs :
  heap_rep st L -> live_segments (fst st) !! i = Some s -> L !! i = Some bs ->
  seg_rep (snd st) s bs.
Proof. intros Hrep ? ?. eapply Forall2_lookup_lr; [apply Hrep|done|done]. Qed.

(** ** Replacing one layout *)

Lemma heap_update h m L i s bs h' m' bs' :
  heap_rep (h, m) L -> live_segments h !! i = Some s -> L !! i = Some bs ->
  seg_rep m' s bs' ->
  (forall x, x < seg_base s \/ seg_end s <= x -> load m' x = load m x) ->
  sum_sizes bs' = sum_sizes bs ->
  segments h' = segments h -> seg_count h' = seg_count h ->
  free_bytes h' = free_bytes h - free_of bs + free_of bs' ->
  alloc_count h' = alloc_count h - used_of bs + used_of bs' ->
  heap_rep (h', m') (<[i := bs']> L).
Proof.
  intros Hrep Hs Hbs Hseg' Hframe Hsum Hsegs Hcnt Hfree Halloc.
  assert (live_segments h' = live_segments h) as Hlive.
  { unfold live_segments. by rewrite Hsegs, Hcnt. }
  destruct Hrep as [? ? ? Hf2 Hdisj ? ? ?].
  split; cbn [fst snd] in *.
  - by rewrite Hsegs.
  - by rewrite Hcnt, length_insert.
  - by rewrite length_insert.
  - rewrite Hlive. rewrite <- (list_insert_id _ _ _ Hs).
    apply Forall2_same_length_lookup. split.
    { rewrite !length_insert. eapply Forall2_length; done. }
    intros j sj bj Hj Hbj. destruct (decide (i = j)) as [<-|Hij].
    + rewrite list_lookup_insert_eq in Hj by (by eapply lookup_lt_Some).
      rewrite list_lookup_insert_eq in Hbj by (by eapply lookup_lt_Some). by simplify_eq.
    + rewrite list_lookup_insert_ne in Hj by done. rewrite list_lookup_insert_ne in Hbj by done.
      pose proof (Forall2_lookup_lr _ _ _ _ _ _ Hf2 Hj Hbj) as Hrj.
      eapply seg_rep_frame; [done|]. intros x Hx. apply Hframe.
      destruct (Hdisj i j s sj Hij Hs Hj); lia.
  - by rewrite Hlive.
  - rewrite (sum_over_insert _ _ _ _ _ Hbs). lia.
  - rewrite (sum_over_insert _ _ _ _ _ Hbs). lia.
  - rewrite (sum_over_insert _ _ _ _ _ Hbs). lia.
Qed.

(** ** Positions in a layout *)

Lemma split_compare {A} (l1 l2 : list A) b1 b2 r1 r2 :
  l1 ++ b1 :: r1 = l2 ++ b2 :: r2 ->
  (l1 = l2 /\ b1 = b2 /\ r1 = r2) \/
  (exists k, l2 = l1 ++ b1 :: k /\ r1 = k ++ b2 :: r2) \/
  (exists k, l1 = l2 ++ b2 :: k /\ r2 = k ++ b1 :: r1).
Proof.
  revert l2. induction l1 as [|x l1 IH]; intros [|y l2] H; simpl in H; injection H as Hx Hr; subst.
  - by left.
  - right; left. by exists l2.
  - right; right. by exists l1.
  - destruct (IH _ Hr) as [(-> & -> & ->)|[(k & -> & ->)|(k & -> & ->)]]; [by left| |].
    + right; left. by exists k.
    + right; right. by exists k.
Qed.

Lemma block_addr_cons s l b k : block_addr s (l ++ b :: k) = block_addr s l + bsz b + sum_sizes k.
Proof. unfold block_addr. rewrite !after_at, sum_sizes_app. simpl. lia. Qed.

(** Two blocks of one segment are the same block or do not overlap. *)
Lemma blocks_apart m s l1 b1 r1 l2 b2 r2 :
  seg_rep m s (l1 ++ b1 :: r1) -> l1 ++ b1 :: r1 = l2 ++ b2 :: r2 ->
  (l1 = l2 /\ b1 = b2 /\ r1 = r2) \/
  block_addr s l1 + bsz b1 <= block_addr s l2 \/
  block_addr s l2 + bsz b2 <= block_addr s l1.
Proof.
  intros Hrep Heq. pose proof (rep_blocks _ _ _ Hrep) as Hok.
  destruct (split_compare _ _ _ _ _ _ Heq) as [?|[(k & -> & ->)|(k & -> & ->)]]; [by left| |].
  - right; left. rewrite block_addr_cons.
    rewrite Forall_app, Forall_cons, Forall_app in Hok. destruct Hok as (_ & _ & Hk & _).
    pose proof (sum_sizes_nonneg _ Hk). lia.
  - right; right. rewrite block_addr_cons.
    rewrite Forall_app, Forall_app, Forall_cons in Hok. destruct Hok as ((_ & _ & Hk) & _).
    pose proof (sum_sizes_nonneg _ Hk). lia.
Qed.

(** ** Room in the counters *)

Lemma sum_over_plus f g L : sum_over (fun bs => f bs + g bs) L = sum_over f L + sum_over g L.
Proof. induction L as [|bs L IH]; simpl; lia. Qed.

Lemma sum_over_lookup f m segs L i bs :
  Forall2 (seg_rep m) segs L -> L !! i = Some bs ->
  (forall bs, Forall block_ok bs -> 0 <= f bs <= sum_sizes bs) -> f bs <= sum_over f L.
Proof.
  intros H Hi Hf. revert i Hi.
  induction H as [|s x segs L Hrep HF IH]; intros [|i] Hi; simplify_eq/=.
  - pose proof (sum_over_bounds _ _ _ _ HF Hf). lia.
  - pose proof (IH _ Hi). pose proof (Hf _ (rep_blocks _ _ _ Hrep)). lia.
Qed.

Lemma heap_free_ge st L i bs :
  heap_rep st L -> L !! i = Some bs -> free_of bs <= free_bytes (fst st).
Proof.
  intros Hrep Hi. rewrite (hr_free _ _ Hrep).
  eapply sum_over_lookup; [apply Hrep|done|apply free_of_bounds].
Qed.

Lemma heap_alloc_ge st L i bs :
  heap_rep st L -> L !! i = Some bs -> used_of bs <= alloc_count (fst st).
Proof.
  intros Hrep Hi. rewrite (hr_alloc _ _ Hrep).
  eapply sum_over_lookup; [apply Hrep|done|].
  intros x Hx. pose proof (used_of_bounds _ Hx). pose proof (free_of_bounds _ Hx). lia.
Qed.

Lemma heap_used_free_room st L :
  heap_rep st L -> alloc_count (fst st) + free_bytes (fst st) < 2 ^ 64.
Proof.
  intros []. rewrite hr_alloc, hr_free, <- sum_over_plus.
  assert (forall bs, Forall block_ok bs -> 0 <= used_of bs + free_of bs <= sum_sizes bs) as Hf.
  { intros bs Hb. pose proof (used_of_bounds _ Hb). pose proof (free_of_bounds _ Hb). lia. }
  pose proof (sum_over_bounds _ _ _ _ hr_segs Hf). lia.
Qed.

Lemma heap_free_room st L i bs :
  heap_rep st L -> L !! i = Some bs ->
  free_bytes (fst st) + (sum_sizes bs - free_of bs) < 2 ^ 64.
Proof.
  intros Hrep Hi. rewrite (hr_free _ _ Hrep).
  assert (forall bs, Forall block_ok bs -> 0 <= sum_sizes bs + - free_of bs <= sum_sizes bs) as Hf.
  { intros x Hx. pose proof (free_of_bounds _ Hx). lia. }
  pose proof (sum_over_lookup _ _ _ _ _ _ (hr_segs _ _ Hrep) Hi Hf) as Hl.
  rewrite sum_over_plus in Hl.
  assert (sum_over (fun bs => - free_of bs) L = - sum_over free_of L) as Hn.
  { clear. induction L as [|x L IH]; simpl; lia. }
  pose proof (hr_total _ _ Hrep). lia.
Qed.

Lemma free_of_ge_free l b r :
  Forall block_ok (l ++ b :: r) -> bused b = false -> bsz b <= free_of (l ++ b :: r).
Proof.
  rewrite Forall_app, Forall_cons. intros (Hl & _ & Hr) Hb. autorewrite with layout.
  rewrite Hb. pose proof (free_of_bounds _ Hl). pose proof (free_of_bounds _ Hr). lia.
Qed.

(** ** [alloc] on a well-formed heap *)

Lemma alloc_found h m L size align i l b r :
  heap_rep (h, m) L -> 0 <= size -> size + 32 < 2 ^ 64 -> align <= 16 ->
  fit_heap (chunk_for size) L = Some (i, (l, b, r)) ->
  exists s m',
    live_segments h !! i = Some s /\ L !! i = Some (l ++ b :: r) /\
    bused b = false /\ chunk_for size <= bsz b /\
    alloc (mkLayout size align) (h, m) =
      (Ret (block_addr s l + 16), (after_carve (chunk_for size) b h, m')) /\
    heap_rep (after_carve (chunk_for size) b h, m')
      (<[i := l ++ carve (chunk_for size) b ++ r]> L) /\
    (forall x, x < block_addr s l \/ block_addr s l + bsz b + 16 <= x -> load m' x = load m x).
Proof.
  intros Hrep H0 H1 Hal Hfit.
  destruct (chunk_for_ok size H0) as (Hc32 & Hcm & _).
  destruct (fit_heap_Some _ _ _ _ _ _ Hfit) as (bs & Hbs & Hff).
  destruct (first_fit_Some _ _ _ _ _ Hff) as (-> & Hfree & Hle & _).
  destruct (heap_seg _ _ _ _ Hrep Hbs) as (s & Hs & Hseg).
  destruct (take_chunk_seg (chunk_for size) s l b r h m) as (m' & Ht & Hseg' & Hf); [done..|].
  pose proof (block_addr_bounds _ _ _ _ _ Hseg) as (Ha1 & Ha2 & _).
  pose proof (free_of_ge_free _ _ _ (rep_blocks _ _ _ Hseg) Hfree) as Hfg.
  pose proof (heap_free_ge _ _ _ _ Hrep Hbs) as Hfh.
  pose proof (heap_used_free_room _ _ Hrep) as Hroom.
  pose proof (heap_free_bounds _ _ Hrep). pose proof (heap_alloc_bounds _ _ Hrep).
  exists s, m'. split_and!; [done|done|done|done| | |done].
  - unfold alloc, CHUNK_ALIGN. simpl l_align. simpl l_size.
    destruct (Z.ltb_spec 16 align); [lia|]. rewrite needed_size_chunk by done.
    cbn [fst]. rewrite (alloc_segments_fit _ _ _ _ _ (hr_segs _ _ Hrep)), Hfit.
    cbn [fst snd] in *. rewrite Hs. by rewrite Ht.
  - cbn [fst] in *.
    assert (carved (chunk_for size) b <= bsz b) by (unfold carved; destruct (32 <=? _); lia).
    assert (0 < carved (chunk_for size) b) by (unfold carved; destruct (32 <=? _); lia).
    eapply heap_update; try done.
    + intros x Hx. apply Hf. lia.
    + rewrite !sum_sizes_app, carve_sum. simpl. lia.
    + unfold after_carve, add_alloc, add_free. simpl. rewrite usize_small by lia.
      autorewrite with layout. rewrite Hfree. unfold carve, carved.
      destruct (32 <=? bsz b - chunk_for size); autorewrite with layout; simpl; lia.
    + unfold after_carve, add_alloc, add_free. simpl. rewrite u64_small by lia.
      autorewrite with layout. rewrite Hfree. unfold carve.
      destruct (32 <=? bsz b - chunk_for size); autorewrite with layout; simpl; lia.
Qed.

Lemma alloc_exhausted h m L size align :
  heap_rep (h, m) L -> 0 <= size -> size + 32 < 2 ^ 64 -> align <= 16 ->
  fit_heap (chunk_for size) L = None ->
  alloc (mkLayout size align) (h, m) = (Ret 0, (add_oom h, m)).
Proof.
  intros Hrep H0 H1 Hal Hfit. unfold alloc, CHUNK_ALIGN. simpl l_align. simpl l_size.
  destruct (Z.ltb_spec 16 align); [lia|]. rewrite needed_size_chunk by done. cbn [fst].
  by rewrite (alloc_segments_fit _ _ _ _ _ (hr_segs _ _ Hrep)), Hfit.
Qed.

(** The counters of failures are not part of the representation. *)
Lemma heap_rep_counters h h' m L :
  heap_rep (h, m) L -> segments h' = segments h -> seg_count h' = seg_count h ->
  free_bytes h' = free_bytes h -> alloc_count h' = alloc_count h -> heap_rep (h', m) L.
Proof.
  intros [] Hs Hc Hf Ha.
  assert (live_segments h' = live_segments h) as Hl by (unfold live_segments; by rewrite Hs, Hc).
  split; cbn [fst snd] in *; rewrite ?Hl, ?Hs, ?Hc, ?Hf, ?Ha; done.
Qed.
