(* ===== verification/HeapFree.v ===== *)
(** [HeapCore::dealloc] refines [release]: the two coalescing steps merge at
    most one free neighbour on each side, and leave a well-formed layout. *)

From stdpp Require Import base numbers list gmap.
From Stdlib Require Import ZArith Lia.
From S2P Require Import Prelude Heap HeapSpec HeapAlloc HeapUpdate.

(** The size of the free block [merge_right] puts first. *)
Definition merged_size (n : Z) (r : list block) : Z :=
  match r with
  | b :: _ => if bused b then n else n + bsz b
  | [] => n
  end.

(** The heap record after releasing [n] bytes. *)
Definition after_release (n : Z) (h : HeapCore) : HeapCore := add_alloc (add_free h n) (-1).

(** ** The layout function *)

Lemma merge_right_sum n r : sum_sizes (merge_right n r) = n + sum_sizes r.
Proof. destruct r as [|b r]; simpl; [lia|]. destruct (bused b); simpl; lia. Qed.

Lemma merge_right_ok n r :
  32 <= n -> n mod 16 = 0 -> Forall block_ok r -> Forall block_ok (merge_right n r).
Proof.
  intros ? ? Hr. destruct r as [|b r]; simpl; [by repeat constructor|].
  pose proof Hr as Hr'. apply Forall_cons in Hr' as [[? ?] ?].
  destruct (bused b); constructor; try done. split; simpl; [lia|].
  Z.to_euclidean_division_equations; lia.
Qed.

Lemma merge_right_free n r : free_of (merge_right n r) = n + free_of r.
Proof.
  destruct r as [|b r]; simpl; autorewrite with layout; simpl; [lia|].
  destruct (bused b) eqn:E; autorewrite with layout; simpl; rewrite ?E; lia.
Qed.

Lemma merge_right_used n r : used_of (merge_right n r) = used_of r.
Proof.
  destruct r as [|b r]; simpl; autorewrite with layout; simpl; [lia|].
  destruct (bused b) eqn:E; autorewrite with layout; simpl; rewrite ?E; lia.
Qed.

(** The two forms of [release], by the block before. *)
Lemma release_snoc l p n r :
  release (l ++ [p]) n r =
  if bused p then (l ++ [p]) ++ merge_right n r else l ++ merge_right (bsz p + n) r.
Proof.
  unfold release. rewrite last_snoc. destruct (bused p); [done|].
  f_equal. rewrite length_app. simpl. rewrite Nat.add_sub. apply take_app_length.
Qed.

Lemma release_nil n r : release [] n r = merge_right n r.
Proof. done. Qed.

Lemma release_cases l n r :
  (release l n r = l ++ merge_right n r) \/
  (exists l' p, l = l' ++ [p] /\ bused p = false /\ release l n r = l' ++ merge_right (bsz p + n) r).
Proof.
  destruct l as [|p l _] using rev_ind; [by left|]. rewrite release_snoc.
  destruct (bused p) eqn:Hp; [by left|]. right. eauto.
Qed.

Lemma release_sum l n r : sum_sizes (release l n r) = sum_sizes l + n + sum_sizes r.
Proof.
  destruct (release_cases l n r) as [->|(l' & p & -> & _ & ->)];
    rewrite ?sum_sizes_app, merge_right_sum; simpl; lia.
Qed.

Lemma release_free l n r : free_of (release l n r) = free_of l + n + free_of r.
Proof.
  destruct (release_cases l n r) as [->|(l' & p & -> & Hp & ->)];
    autorewrite with layout; rewrite merge_right_free, ?Hp; lia.
Qed.

Lemma release_used l n r : used_of (release l n r) = used_of l + used_of r.
Proof.
  destruct (release_cases l n r) as [->|(l' & p & -> & Hp & ->)];
    autorewrite with layout; rewrite merge_right_used, ?Hp; lia.
Qed.

(** ** The forward loop *)

Lemma absorb_once fuel m d r sp :
  chunks m d (r ++ [fence]) -> Forall block_ok r -> cur_pu d = true -> 0 <= cur_at d ->
  0 <= sp -> sp + sum_sizes r < 2 ^ 64 -> cur_at d + sum_sizes r + 16 < 2 ^ 64 ->
  absorb (S (S fuel)) (cur_at d + sum_sizes r) (cur_at d) sp m =
  Ret (cur_at d + (merged_size sp r - sp), merged_size sp r,
       if decide (merged_size sp r = sp) then m else set_header m (cur_at d) 0 0).
Proof.
  intros Hc Hok Hpu Hlow Hsp Hspr Hhigh. destruct r as [|f r]; simpl in *.
  { rewrite Z.add_0_r, Z.ltb_irrefl. rewrite decide_True by done. simpl. repeat f_equal. lia. }
  apply Forall_cons in Hok as [[Hf Hfm] Hok]. pose proof (sum_sizes_nonneg _ Hok).
  destruct Hc as [Hn Hc].
  destruct (Z.ltb_spec (cur_at d) (cur_at d + (bsz f + sum_sizes r))); [|lia].
  erewrite node_flags by (done || lia). erewrite node_size by (done || lia).
  unfold MIN_CHUNK, CHUNK_ALIGN.
  rewrite in_use_test, Hfm. destruct (bused f) eqn:Hu; cbn [andb negb].
  { rewrite decide_True by done. simpl. repeat f_equal. lia. }
  destruct (Z.ltb_spec (bsz f) 32); [lia|]. simpl.
  rewrite !usize_small by lia. rewrite decide_False by lia.
  assert (exists k rest, r ++ [fence] = k :: rest /\ bused k = true /\ 16 <= bsz k) as
    (k & rest & Hk & Hku & Hk16).
  { destruct r as [|k r]; simpl in *; eexists _, _; (split; [reflexivity|]); [done|].
    destruct Hc as [[_ Hkp] _]. simpl in Hkp. destruct (Hkp Hu) as [_ ?].
    apply Forall_cons in Hok as [[? ?] ?]. split; [done|lia]. }
  destruct (Z.ltb_spec (cur_at d + bsz f) (cur_at d + (bsz f + sum_sizes r))) as [Hlt|Hge];
    cbn [andb].
  2: { repeat f_equal; lia. }
  rewrite Hk in Hc. destruct Hc as [[Hkh _] _]. simpl in Hkh. rewrite Hku in Hkh.
  destruct r as [|k' r]; simpl in Hk, Hlt; [lia|]. injection Hk as -> _.
  apply Forall_cons in Hok as [[? Hkm] Hok].
  assert ((Z.land (flags_of (set_header m (cur_at d) 0 0) (cur_at d + bsz f)) IN_USE =? 0) = false)
    as ->; [|repeat f_equal; lia].
  rewrite (flags_of_hdr _ _ (bsz k) true (bused f)); [by rewrite Hu|done|lia| |].
  - simpl in *. pose proof (sum_sizes_nonneg _ Hok). lia.
  - unfold set_header. rewrite usize_small by lia. mem_simpl. done.
Qed.

(** What follows the free span that starts before [r]: a chunk in use, whose
    header the absorption of [r]'s head leaves alone. *)
Lemma after_span m d sp r :
  chunks m d (r ++ [fence]) -> Forall block_ok r -> cur_pu d = true ->
  exists k rest pu,
    merge_right sp r ++ [fence] = mkBlock (merged_size sp r) false :: k :: rest /\
    bused k = true /\ 16 <= bsz k /\ bsz k mod 16 = 0 /\
    Forall (fun b => 16 <= bsz b) rest /\
    load m (cur_at d + (merged_size sp r - sp) + 8) = hdr (bsz k) true pu /\
    merged_size sp r - sp + bsz k + sum_sizes rest = sum_sizes r + 16 /\
    chunks m (mkCur (cur_at d + (merged_size sp r - sp) + bsz k) true (bsz k)) rest.
Proof.
  intros Hc Hok Hpu.
  destruct r as [|f r]; simpl merge_right; simpl merged_size; simpl app in *.
  { exists fence, [], (cur_pu d). destruct Hc as [[Hfh _] _].
    rewrite Z.sub_diag, Z.add_0_r. by split_and!. }
  apply Forall_cons in Hok as [[Hf32 Hfm] Hok]. destruct Hc as [[Hfh Hfp] Hc].
  destruct (bused f) eqn:Hu.
  { exists f, (r ++ [fence]), (cur_pu d). rewrite Z.sub_diag, Z.add_0_r.
    split_and!; try done; [lia| | |].
    - apply Forall_app. split; [by apply block_ok_16|by repeat constructor].
    - rewrite sum_sizes_app. simpl. lia.
    - rewrite <- Hu at 1. exact Hc. }
  assert (exists k rest, r ++ [fence] = k :: rest /\ 16 <= bsz k /\ bsz k mod 16 = 0 /\
            Forall (fun b => 16 <= bsz b) rest) as (k & rest & Hk & Hk16 & Hkm & Hrest).
  { destruct r as [|k r]; simpl; eexists _, _; (split; [reflexivity|]); [by split_and!|].
    apply Forall_cons in Hok as [[? ?] Hok]. split_and!; [lia|done|].
    apply Forall_app. split; [by apply block_ok_16|by repeat constructor]. }
  rewrite <- app_comm_cons. rewrite Hk in Hc |- *. destruct Hc as [[Hkh Hkp] Hc].
  simpl in Hkh, Hkp. destruct (Hkp Hu) as [_ Hku]. rewrite Hku in Hkh.
  assert (sum_sizes r + 16 = bsz k + sum_sizes rest) as Hs.
  { pose proof (sum_sizes_app r [fence]) as Hs. rewrite Hk in Hs. simpl in Hs. lia. }
  exists k, rest, (bused f). replace (sp + bsz f - sp) with (bsz f) by lia.
  split_and!; try done; [simpl; lia|]. rewrite <- Hku at 1. exact Hc.
Qed.

Lemma merged_size_bounds sp r :
  Forall block_ok r -> sp mod 16 = 0 ->
  sp <= merged_size sp r <= sp + sum_sizes r /\ merged_size sp r mod 16 = 0 /\
  (merged_size sp r = sp \/ sp + 32 <= merged_size sp r).
Proof.
  intros Hok Hm. destruct r as [|f r]; simpl; [lia|].
  apply Forall_cons in Hok as [[? ?] Hr]. pose proof (sum_sizes_nonneg _ Hr).
  destruct (bused f); [lia|]. split_and!; [lia|lia| |lia].
  Z.to_euclidean_division_equations; lia.
Qed.

(** The tail of [dealloc], from the start [c0] of the free span. *)
Lemma forward_local s fuel c0 d m h sp z u r c c_size :
  cur_pu c0 = true -> load m (cur_at c0 + 8) = hdr z u true -> z mod 16 = 0 ->
  chunks m d (r ++ [fence]) -> cur_pu d = true -> cur_at d = cur_at c0 + sp ->
  32 <= sp -> sp mod 16 = 0 -> Forall block_ok r -> 0 <= cur_at c0 ->
  seg_end s = cur_at d + sum_sizes r + 16 -> seg_end s < 2 ^ 64 ->
  usize (c + c_size) = cur_at d -> walk_fuel s = S (S fuel) ->
  exists m',
    dealloc_forward s c c_size (cur_at c0) sp h m = (Ret tt, (after_release c_size h, m')) /\
    chunks m' c0 (merge_right sp r ++ [fence]) /\
    (forall x, x <> cur_at c0 + 8 -> x <> cur_at d + 8 -> x <> cur_at c0 + merged_size sp r ->
       x <> cur_at c0 + merged_size sp r + 8 -> load m' x = load m x).
Proof.
  intros Hpu0 Hh0 Hz Hc Hpud Hd Hsp Hspm Hok Hlow Hend Hmax Hcc Hfuel.
  pose proof (sum_sizes_nonneg _ Hok).
  destruct (merged_size_bounds sp r Hok Hspm) as ((Hm1 & Hm2) & Hm3 & Hm4).
  destruct (after_span m d sp r Hc Hok Hpud) as
    (k & rest & pu & Hmr & Hku & Hk16 & Hkm & Hrest & Hkh & Hsum & Hcr).
  assert (0 <= sum_sizes rest) by (clear -Hrest; induction Hrest; simpl; lia).
  unfold dealloc_forward, EPILOGUE_SIZE. rewrite Hcc, Hfuel, (usize_small (seg_end s - 16)) by lia.
  replace (seg_end s - 16) with (cur_at d + sum_sizes r) by lia.
  rewrite absorb_once by (done || lia).
  destruct (Z.ltb_spec (cur_at d + sum_sizes r) (cur_at d + (merged_size sp r - sp))); [lia|].
  set (m1 := if decide _ then m else _).
  replace (cur_at d + (merged_size sp r - sp)) with (cur_at c0 + merged_size sp r) in * by lia.
  set (n := cur_at c0 + merged_size sp r) in *.
  assert (forall x, x <> cur_at d + 8 \/ n <= x -> load m1 x = load m x) as Hf1.
  { intros x Hx. unfold m1. destruct (decide _); [done|]. unfold set_header.
    rewrite usize_small by lia. by mem_simpl. }
  unfold set_prev_size, set_header. rewrite !usize_small by lia.
  set (m2 := store m1 n (merged_size sp r)).
  rewrite (flags_of_hdr m2 _ z u true); [|done|lia|lia|].
  2: { unfold m2. mem_simpl. rewrite Hf1 by lia. done. }
  set (m3 := store m2 _ _).
  assert (load m3 (n + 8) = hdr (bsz k) true pu) as Hk3.
  { unfold m3, m2. mem_simpl. rewrite Hf1 by lia. done. }
  rewrite (size_of_hdr m3 n (bsz k) true pu), (flags_of_hdr m3 n (bsz k) true pu) by (done || lia).
  eexists. split; [reflexivity|]. unfold m3, m2. split.
  - rewrite Hmr. cbn [chunks]. unfold node. cbn [step_cur cur_at cur_pu cur_ps bsz bused].
    fold n. rewrite Hpu0. mem_simpl. split_and!; try done.
    + apply hdr_lor; [done|]. by destruct u.
    + rewrite Hku. apply hdr_lor; [done|]. by destruct pu.
    + rewrite <- Hku in Hcr. eapply chunks_frame; [done|exact Hcr|]. simpl. intros x Hx.
      mem_simpl. apply Hf1. lia.
  - intros x Hx1 Hx2 Hx3 Hx4. mem_simpl. apply Hf1. by left.
Qed.

(** ** Segments *)

Lemma walk_fuel_two s : seg_bounds s -> exists fuel, walk_fuel s = S (S fuel).
Proof.
  intros (? & ? & _). unfold walk_fuel. exists (pred (Z.to_nat ((seg_end s - seg_base s) / 32))).
  Z.to_euclidean_division_equations; lia.
Qed.

(** The predecessor of a chunk whose [PREV_IN_USE] is clear. *)
Lemma prev_free_split s l :
  cur_pu (after (start s) l) = false ->
  exists l' p, l = l' ++ [p] /\ bused p = false /\ cur_ps (after (start s) l) = bsz p.
Proof.
  destruct l as [|p l _] using rev_ind; [done|]. rewrite after_app. simpl. eauto.
Qed.

(** Zeroing the header of the chunk between [l] and [r] leaves both sides. *)
Lemma zero_header_sides m s l b r :
  seg_rep m s (l ++ b :: r) ->
  let m' := set_header m (block_addr s l) 0 0 in
  chunks m' (start s) l /\ chunks m' (after (start s) (l ++ [b])) (r ++ [fence]) /\
  (forall x, x <> block_addr s l + 8 -> load m' x = load m x).
Proof.
  intros Hrep. pose proof (block_addr_bounds _ _ _ _ _ Hrep) as (? & ? & _).
  destruct Hrep as [(? & ? & ? & _) _ Hok Hc _].
  apply Forall_app in Hok as [Hokl Hokbr]. apply Forall_cons in Hokbr as [[? ?] Hokr].
  rewrite <- app_assoc in Hc. apply chunks_app in Hc as [Hcl Hcr].
  rewrite <- app_comm_cons in Hcr. destruct Hcr as [_ Hcr]. simpl.
  assert (forall x, x <> block_addr s l + 8 ->
    load (set_header m (block_addr s l) 0 0) x = load m x) as Hf.
  { intros x Hx. unfold set_header. rewrite usize_small by lia. by mem_simpl. }
  split_and!; [| |done].
  - eapply chunks_frame; [by apply block_ok_16|done|]. intros x Hx. apply Hf.
    unfold block_addr. rewrite after_at. simpl in *. lia.
  - rewrite after_app. simpl. eapply chunks_frame; [|exact Hcr|].
    + apply Forall_app. split; [by apply block_ok_16|by repeat constructor].
    + simpl. intros x Hx. apply Hf. unfold block_addr. lia.
Qed.

Lemma after_snoc s l b :
  after (start s) (l ++ [b]) = mkCur (block_addr s l + bsz b) (bused b) (bsz b).
Proof. by rewrite after_app. Qed.

(** Rebuilding the segment around a merged free block. *)
Lemma release_rep m m' s n r l0 :
  seg_bounds s -> load m (seg_base s + 8) = hdr 16 true true ->
  Forall block_ok l0 -> Forall block_ok r -> 32 <= n -> n mod 16 = 0 ->
  chunks m (start s) l0 ->
  chunks m' (after (start s) l0) (merge_right n r ++ [fence]) ->
  (forall x, x < block_addr s l0 -> load m' x = load m x) ->
  sum_sizes l0 + n + sum_sizes r = seg_end s - seg_base s - 32 ->
  seg_rep m' s (l0 ++ merge_right n r).
Proof.
  intros Hb Hp Hok0 Hokr Hn Hnm Hc0 Hc Hf Hsum. pose proof Hb as (? & ? & _).
  pose proof (sum_sizes_nonneg _ Hok0). unfold block_addr in Hf. rewrite after_at in Hf.
  simpl in Hf. split; try done.
  - rewrite Hf by lia. done.
  - apply Forall_app. split; [done|]. by apply merge_right_ok.
  - rewrite <- app_assoc. apply chunks_app. split; [|done].
    eapply chunks_frame; [by apply block_ok_16|done|]. simpl. intros x Hx. apply Hf. lia.
  - rewrite after_at, sum_sizes_app, merge_right_sum. simpl. lia.
Qed.

(** Releasing a chunk whose predecessor is in use. *)
Lemma free_no_prev m s l b r h :
  seg_rep m s (l ++ b :: r) -> bused b = true -> cur_pu (after (start s) l) = true ->
  let c := block_addr s l in
  exists m',
    dealloc_forward s c (bsz b) c (bsz b) h m = (Ret tt, (after_release (bsz b) h, m')) /\
    seg_rep m' s (l ++ merge_right (bsz b) r) /\
    (forall x, x < c \/ c + merged_size (bsz b) r + 16 <= x -> load m' x = load m x).
Proof.
  intros Hrep Hu Hpu c. pose proof (seg_rep_total _ _ _ Hrep) as Htot.
  pose proof (block_addr_bounds _ _ _ _ _ Hrep) as (? & ? & _).
  destruct Hrep as [Hb Hp Hok Hc _]. destruct (walk_fuel_two _ Hb) as [fuel Hfuel].
  apply Forall_app in Hok as [Hokl Hokbr]. apply Forall_cons in Hokbr as [[Hb32 Hbm] Hokr].
  rewrite <- app_assoc in Hc. apply chunks_app in Hc as [Hcl Hcr].
  rewrite <- app_comm_cons in Hcr. destruct Hcr as [[Hbh _] Hcr].
  rewrite sum_sizes_app in Htot. simpl in Htot. pose proof Hb as (? & ? & ? & _).
  unfold block_addr in *. rewrite Hpu, Hu in Hbh. pose proof (sum_sizes_nonneg _ Hokl).
  destruct (forward_local s fuel (after (start s) l) (step_cur (after (start s) l) b) m h (bsz b)
              (bsz b) true r (cur_at (after (start s) l)) (bsz b)) as (m' & Hrun & Hc' & Hf);
    try done; try (simpl; rewrite after_at; simpl; lia).
  { apply usize_small. simpl. lia. }
  destruct (merged_size_bounds (bsz b) r Hokr Hbm) as ((? & ?) & _ & _). simpl in Hf.
  exists m'. split_and!; [exact Hrun| |intros x Hx; apply Hf; unfold c in *; lia].
  eapply release_rep; try done; [|lia]. unfold block_addr. intros x Hx. apply Hf; lia.
Qed.

(** Releasing a chunk whose predecessor [p] is free. *)
Lemma free_with_prev m s l p b r h :
  seg_rep m s ((l ++ [p]) ++ b :: r) -> bused b = true -> bused p = false ->
  let c := block_addr s (l ++ [p]) in
  exists m',
    dealloc_forward s c (bsz b) (block_addr s l) (bsz p + bsz b) h (set_header m c 0 0) =
      (Ret tt, (after_release (bsz b) h, m')) /\
    seg_rep m' s (l ++ merge_right (bsz p + bsz b) r) /\
    load m' (c + 8) = 0 /\
    (forall x, x < block_addr s l \/ block_addr s l + merged_size (bsz p + bsz b) r + 16 <= x ->
       load m' x = load m x).
Proof.
  intros Hrep Hu Hpf c. pose proof (seg_rep_total _ _ _ Hrep) as Htot.
  pose proof (block_addr_bounds _ _ _ _ _ Hrep) as (Ha1 & Ha2 & _).
  fold c in Ha1, Ha2.
  destruct (zero_header_sides _ _ _ _ _ Hrep) as (Hcl & Hcr & Hf0). fold c in Hcl, Hcr, Hf0.
  destruct Hrep as [Hb Hp Hok _ _]. destruct (walk_fuel_two _ Hb) as [fuel Hfuel].
  apply Forall_app in Hok as [Hoklp Hokbr]. apply Forall_cons in Hokbr as [[Hb32 Hbm] Hokr].
  apply Forall_app in Hoklp as [Hokl Hokp]. apply Forall_cons in Hokp as [[Hp32 Hpm] _].
  rewrite !sum_sizes_app in Htot. simpl in Htot. pose proof Hb as (? & ? & ? & _).
  assert (c = block_addr s l + bsz p) as Hcp.
  { unfold c. rewrite block_addr_cons. simpl. lia. }
  apply chunks_app in Hcl as [Hcl [[Hph Hpp] _]]. rewrite Hpf in Hph.
  assert (cur_pu (after (start s) l) = true) as Hpu.
  { destruct (cur_pu (after (start s) l)); [done|]. destruct (Hpp eq_refl). by rewrite Hpf in *. }
  rewrite Hpu in Hph. rewrite after_snoc, Hu in Hcr. fold c in Hcr.
  assert (block_addr s l = seg_base s + 16 + sum_sizes l) as Hal.
  { unfold block_addr. rewrite after_at. done. }
  pose proof (sum_sizes_nonneg _ Hokl).
  destruct (forward_local s fuel (after (start s) l) (mkCur (c + bsz b) true (bsz b))
              (set_header m c 0 0) h (bsz p + bsz b) (bsz p) false r c (bsz b))
    as (m' & Hrun & Hc' & Hf); try done; try (fold (block_addr s l); simpl; lia).
  { Z.to_euclidean_division_equations; lia. }
  { apply usize_small. simpl. lia. }
  assert ((bsz p + bsz b) mod 16 = 0) as Hpbm by (Z.to_euclidean_division_equations; lia).
  destruct (merged_size_bounds (bsz p + bsz b) r Hokr Hpbm) as ((? & ?) & _ & _).
  change (cur_at (after (start s) l)) with (block_addr s l) in Hf. simpl in Hf.
  exists m'. split_and!; [exact Hrun| | |].
  - eapply (release_rep (set_header m c 0 0)); try done; try lia.
    + rewrite Hf0 by lia. done.
    + intros x Hx. apply Hf; lia.
  - rewrite Hf by lia. unfold set_header. rewrite usize_small by lia. by mem_simpl.
  - intros x Hx. rewrite Hf by lia. apply Hf0. lia.
Qed.

(** ** [dealloc] on a well-formed heap *)

Lemma owns_iff s c : seg_bounds s -> owns c s = true <-> seg_base s + 16 <= c < seg_end s - 16.
Proof.
  intros (? & ? & ? & _). unfold owns, PROLOGUE_SIZE, EPILOGUE_SIZE.
  rewrite !usize_small by lia. rewrite andb_true_iff, Z.leb_le, Z.ltb_lt. lia.
Qed.

Lemma heap_bounds st L i s : heap_rep st L -> live_segments (fst st) !! i = Some s -> seg_bounds s.
Proof.
  intros Hrep Hi. destruct (Forall2_lookup_l _ _ _ _ _ (hr_segs _ _ Hrep) Hi) as (bs & _ & Hs).
  apply Hs.
Qed.

Lemma owner_unique st L i s c :
  heap_rep st L -> live_segments (fst st) !! i = Some s ->
  seg_base s + 16 <= c < seg_end s - 16 ->
  list_find (fun s => owns c s = true) (live_segments (fst st)) = Some (i, s).
Proof.
  intros Hrep Hi Hc. apply list_find_Some. split_and!; [done| |].
  - apply owns_iff; [by eapply heap_bounds|done].
  - intros j sj Hj Hlt Ho. apply owns_iff in Ho; [|by eapply heap_bounds].
    destruct (hr_disjoint _ _ Hrep i j s sj); [lia|done|done|lia|lia].
Qed.

Lemma owner_none st L c :
  heap_rep st L ->
  (forall i s, live_segments (fst st) !! i = Some s -> ~ (seg_base s + 16 <= c < seg_end s - 16)) ->
  list_find (fun s => owns c s = true) (live_segments (fst st)) = None.
Proof.
  intros Hrep Hn. apply list_find_None, Forall_lookup. intros i s Hi Ho.
  apply owns_iff in Ho; [|by eapply heap_bounds]. by eapply Hn.
Qed.

(** [merge_right] merges a prefix of free blocks (at most one). *)
Lemma merge_right_head n r : exists mid hi,
  r = mid ++ hi /\ merge_right n r = mkBlock (n + sum_sizes mid) false :: hi /\
  merged_size n r = n + sum_sizes mid /\ Forall (fun b => bused b = false) mid.
Proof.
  destruct r as [|b r]; simpl.
  - exists [], []. simpl. rewrite Z.add_0_r. by split_and!.
  - destruct (bused b) eqn:Hb.
    + exists [], (b :: r). simpl. rewrite Z.add_0_r. by split_and!.
    + exists [b], r. simpl. rewrite Z.add_0_r. split_and!; (done || by repeat constructor).
Qed.

Lemma release_prev_used s l n r :
  cur_pu (after (start s) l) = true -> release l n r = l ++ merge_right n r.
Proof.
  destruct l as [|p l _] using rev_ind; [done|]. rewrite after_snoc. simpl. intros Hp.
  by rewrite release_snoc, Hp.
Qed.

(** What releasing [b] does to its segment: [b] and its free neighbours, the
    blocks [mid] after [lo], become one free block, the header at [b] loses its
    use flag, and only words of [mid] and of the next header change. *)
Definition released (s : Segment) (m m' : memory) (l : list block) (b : block) (r : list block)
    : Prop :=
  seg_rep m' s (release l (bsz b) r) /\
  Z.land (flags_of m' (block_addr s l)) IN_USE = 0 /\
  exists lo mid hi,
    l ++ b :: r = lo ++ mid ++ hi /\
    release l (bsz b) r = lo ++ [mkBlock (sum_sizes mid) false] ++ hi /\
    (forall l2 b2 r2, mid = l2 ++ b2 :: r2 -> bused b2 = true -> l = lo ++ l2) /\
    (forall x, x < block_addr s lo \/ block_addr s lo + sum_sizes mid + 16 <= x ->
       load m' x = load m x).

Lemma used_in_mid mid l2 (b2 : block) r2 :
  Forall (fun b => bused b = false) mid -> mid = l2 ++ b2 :: r2 -> bused b2 = true -> False.
Proof.
  intros Hf -> Hb. apply Forall_app in Hf as [_ Hf]. apply Forall_cons in Hf as [Hf _]. congruence.
Qed.

(** The header of a free block does not carry [IN_USE]. *)
Lemma free_head_flags m s l n hi :
  seg_rep m s (l ++ mkBlock n false :: hi) -> Z.land (flags_of m (block_addr s l)) IN_USE = 0.
Proof.
  intros Hseg. pose proof (block_addr_bounds _ _ _ _ _ Hseg) as (? & ? & _).
  destruct Hseg as [(? & ? & ? & _) _ Hok Hc _].
  apply Forall_app in Hok as [_ Hok]. apply Forall_cons in Hok as [[? ?] _].
  rewrite <- app_assoc in Hc. apply chunks_app in Hc as [_ [[Hh _] _]]. simpl in *.
  unfold block_addr in *. rewrite (flags_of_hdr m _ n false (cur_pu (after (start s) l))) by (done || lia).
  by destruct (cur_pu _).
Qed.

Lemma dealloc_segment s m l b r h :
  seg_rep m s (l ++ b :: r) -> bused b = true ->
  let c := block_addr s l in
  exists m',
    (if Z.land (flags_of m c) PREV_IN_USE =? 0 then
       let prev := saturating_sub c (prev_size_of m c) in
       if prev <? usize (seg_base s + PROLOGUE_SIZE) then (Ret tt, (add_bad_free h, m))
       else dealloc_forward s c (bsz b) prev (usize (bsz b + size_of m prev)) h (set_header m c 0 0)
     else dealloc_forward s c (bsz b) c (bsz b) h m)
    = (Ret tt, (after_release (bsz b) h, m')) /\
    released s m m' l b r.
Proof.
  intros Hseg Hu c.
  pose proof (block_addr_bounds _ _ _ _ _ Hseg) as (Ha1 & Ha2 & _).
  pose proof (rep_bounds _ _ _ Hseg) as (Hb1 & Hb2 & Hb3 & _).
  pose proof (rep_blocks _ _ _ Hseg) as Hok. apply Forall_app in Hok as [Hokl Hokb].
  apply Forall_cons in Hokb as [[Hb32 Hbm] Hokr].
  pose proof (rep_chunks _ _ _ Hseg) as Hc. rewrite <- app_assoc in Hc.
  apply chunks_app in Hc as [Hcl [Hnode _]].
  unfold c, block_addr in *.
  rewrite (node_flags m _ b) by (done || lia). rewrite prev_in_use_test.
  destruct (cur_pu (after (start s) l)) eqn:Hpu; cbn [negb].
  - destruct (free_no_prev m s l b r h Hseg Hu Hpu) as (m' & Hrun & Hseg' & Hf).
    exists m'. split; [exact Hrun|]. unfold released.
    rewrite (release_prev_used s _ _ _ Hpu).
    destruct (merge_right_head (bsz b) r) as (mid & hi & -> & Hm & Hs & Hfree).
    rewrite Hm, Hs in *. split_and!; [done|by eapply free_head_flags|].
    exists l, (b :: mid), hi. split_and!; [done|done| |exact Hf].
    intros [|x l2] b2 r2 Heq Hbu; simplify_eq/=.
    + by rewrite app_nil_r.
    + exfalso. by eapply used_in_mid.
  - destruct (prev_free_split _ _ Hpu) as (l' & p & -> & Hpf & Hps).
    apply Forall_app in Hokl as [Hokl Hokp]. apply Forall_cons in Hokp as [[Hp32 Hpm] _].
    apply chunks_app in Hcl as [Hcl [Hnp _]].
    change (cur_at (after (start s) (l' ++ [p]))) with (block_addr s (l' ++ [p])) in *.
    pose proof (block_addr_cons s l' p []) as Hbc. simpl in Hbc.
    assert (seg_base s + 16 <= block_addr s l').
    { unfold block_addr. rewrite after_at. pose proof (sum_sizes_nonneg _ Hokl). simpl. lia. }
    assert (prev_size_of m (block_addr s (l' ++ [p])) = bsz p) as ->.
    { rewrite <- Hps. apply (node_prev_size m _ b); rewrite ?Hps; done || lia. }
    replace (saturating_sub (block_addr s (l' ++ [p])) (bsz p)) with (block_addr s l')
      by (unfold saturating_sub; lia).
    unfold PROLOGUE_SIZE. rewrite usize_small by lia.
    destruct (Z.ltb_spec (block_addr s l') (seg_base s + 16)); [lia|].
    change (size_of m (block_addr s l')) with (size_of m (cur_at (after (start s) l'))).
    rewrite (node_size m _ p) by (done || (fold (block_addr s l'); lia)).
    rewrite usize_small by lia. rewrite (Z.add_comm (bsz b)).
    destruct (free_with_prev m s l' p b r h Hseg Hu Hpf) as (m' & Hrun & Hseg' & Hz & Hf).
    exists m'. split; [exact Hrun|]. unfold released. rewrite release_snoc, Hpf.
    split_and!; [done| |].
    + unfold flags_of. rewrite usize_small by lia. by rewrite Hz.
    + destruct (merge_right_head (bsz p + bsz b) r) as (mid & hi & -> & Hm & Hs & Hfree).
      rewrite Hm, Hs in *.
      assert (bsz p + bsz b + sum_sizes mid = sum_sizes (p :: b :: mid)) as Hpb by (simpl; lia).
      rewrite Hpb in *. exists l', (p :: b :: mid), hi.
      split_and!; [by rewrite <- app_assoc|done| |exact Hf].
      intros [|x [|y l2]] b2 r2 Heq Hbu; simplify_eq/=.
      * congruence.
      * done.
      * exfalso. by eapply used_in_mid.
Qed.

(** The block between [l] and [r] of segment [i] is released. *)
Lemma dealloc_live h m L i s l b r :
  heap_rep (h, m) L -> live_segments h !! i = Some s -> L !! i = Some (l ++ b :: r) ->
  bused b = true ->
  exists m',
    dealloc (block_addr s l + 16) (h, m) = (Ret tt, (after_release (bsz b) h, m')) /\
    heap_rep (after_release (bsz b) h, m') (<[i := release l (bsz b) r]> L) /\
    released s m m' l b r.
Proof.
  intros Hrep Hs HL Hu.
  pose proof (heap_seg_rep _ _ _ _ _ Hrep Hs HL) as Hseg. cbn [snd] in Hseg.
  pose proof (block_addr_bounds _ _ _ _ _ Hseg) as (Ha1 & Ha2 & Ham).
  pose proof (rep_bounds _ _ _ Hseg) as (Hb1 & Hb2 & Hb3 & _).
  pose proof (rep_blocks _ _ _ Hseg) as Hok. apply Forall_app in Hok as [Hokl Hokb].
  apply Forall_cons in Hokb as [[Hb32 Hbm] Hokr].
  pose proof (rep_chunks _ _ _ Hseg) as Hc. rewrite <- app_assoc in Hc.
  apply chunks_app in Hc as [_ [Hnode _]].
  destruct (dealloc_segment s m l b r h Hseg Hu) as (m' & Hrun & Hrel). cbv zeta in Hrun.
  exists m'. split_and!; [| |done].
  - unfold dealloc, HEADER_SIZE, CHUNK_ALIGN.
    destruct (Z.eqb_spec (block_addr s l + 16) 0); [lia|].
    assert ((block_addr s l + 16) mod 16 = 0) as -> by (Z.to_euclidean_division_equations; lia).
    cbn [Z.eqb negb]. rewrite usize_small by lia.
    replace (block_addr s l + 16 - 16) with (block_addr s l) by lia.
    change (live_segments h) with (live_segments (fst (h, m))).
    rewrite (owner_unique _ _ _ _ _ Hrep Hs) by lia.
    rewrite <- Hrun. unfold block_addr in *.
    rewrite (node_size m _ b) by (done || lia). rewrite (node_flags m _ b) by (done || lia).
    rewrite in_use_test, Hu, Hbm. unfold MIN_CHUNK. cbn [negb orb Z.eqb].
    by destruct (Z.ltb_spec (bsz b) 32); [lia|].
  - destruct Hrel as (Hseg' & _ & lo & mid & hi & _ & Hr & _ & Hf). rewrite Hr in Hseg'.
    pose proof (block_addr_bounds _ _ _ _ _ Hseg') as (? & ? & _). simpl in *.
    rewrite <- Hr in Hseg'.
    pose proof (heap_used_free_room _ _ Hrep). pose proof (heap_free_bounds _ _ Hrep).
    pose proof (heap_alloc_ge _ _ _ _ Hrep HL) as Hge.
    pose proof (heap_alloc_bounds _ _ Hrep).
    pose proof (used_of_bounds _ Hokl) as [Hul _]. pose proof (used_of_bounds _ Hokr) as [Hur _].
    autorewrite with layout in Hge. rewrite Hu in Hge. cbn [fst] in *.
    eapply heap_update; try done.
    + intros x Hx. apply Hf. lia.
    + rewrite release_sum, sum_sizes_app. simpl. lia.
    + unfold after_release, add_alloc, add_free. simpl.
      pose proof (heap_free_room _ _ _ _ Hrep HL) as Hroom.
      pose proof (free_of_bounds _ Hokl). pose proof (free_of_bounds _ Hokr).
      autorewrite with layout in Hroom |- *. rewrite Hu, release_free in *. simpl in *.
      rewrite usize_small by lia. lia.
    + unfold after_release, add_alloc, add_free. simpl. rewrite u64_small by lia.
      autorewrite with layout. rewrite Hu, release_used. simpl. lia.
Qed.
