(* ===== verification/HeapCheck.v ===== *)
(** [HeapCore::check_invariants] accepts every well-formed heap, and
    [HeapCore::init_region] creates one. *)

From stdpp Require Import base numbers list gmap.
From Stdlib Require Import ZArith Lia.
From S2P Require Import Prelude Heap HeapSpec HeapAlloc HeapUpdate HeapFree.

(** The chunk after [b]: the head of the remaining layout. *)
Lemma next_node m c b bs :
  chunks m c ((b :: bs) ++ [fence]) -> Forall block_ok bs ->
  exists k, node m (step_cur c b) k /\ 16 <= bsz k /\ bsz k mod 16 = 0 /\
            bsz k <= sum_sizes bs + 16.
Proof.
  intros [_ Hc] Hok. destruct bs as [|k bs]; simpl in Hc; destruct Hc as [Hk _].
  - exists fence. by split_and!.
  - apply Forall_cons in Hok as [[? ?] Hok]. pose proof (sum_sizes_nonneg _ Hok).
    exists k. simpl. split_and!; (done || lia).
Qed.

Lemma check_walk_complete fuel m c bs :
  chunks m c (bs ++ [fence]) -> Forall block_ok bs -> 0 <= cur_at c ->
  cur_at c + sum_sizes bs + 16 < 2 ^ 64 -> (length bs < fuel)%nat ->
  check_walk fuel m (cur_at c + sum_sizes bs) (cur_at c) = Ret (Some (cur_at c + sum_sizes bs)).
Proof.
  intros Hc Hok. revert c fuel Hc.
  induction Hok as [|b bs [Hb Hbm] Hok IH]; intros c fuel Hc Hlow Hhigh Hfuel;
    (destruct fuel as [|fuel]; [simpl in Hfuel; lia|]); cbn [check_walk].
  { simpl. rewrite Z.add_0_r, Z.leb_refl. done. }
  pose proof (next_node _ _ _ _ Hc Hok) as (k & Hk & Hk16 & Hkm & Hks).
  simpl in Hc. destruct Hc as [Hn Hc]. simpl in Hhigh, Hfuel.
  pose proof (sum_sizes_nonneg _ Hok). simpl sum_sizes.
  destruct (Z.leb_spec (cur_at c + (bsz b + sum_sizes bs)) (cur_at c)); [lia|].
  rewrite (node_size m c b), (node_flags m c b) by (done || lia).
  unfold MIN_CHUNK, CHUNK_ALIGN. rewrite Hbm, in_use_test.
  destruct (Z.ltb_spec (bsz b) 32); [lia|]. cbn [orb negb Z.eqb].
  rewrite usize_small by lia.
  destruct (Z.ltb_spec (cur_at c + (bsz b + sum_sizes bs)) (cur_at c + bsz b)); [lia|].
  pose proof (node_flags m _ k Hk Hk16 Hkm ltac:(simpl; lia) ltac:(simpl; lia)) as Hkf.
  simpl in Hkf. rewrite Hkf, in_use_test, prev_in_use_test.
  specialize (IH (step_cur c b) fuel Hc). simpl in IH.
  rewrite Z.add_assoc. rewrite IH by lia.
  destruct (bused b) eqn:Hu; cbn [negb].
  { by destruct (_ <? _). }
  pose proof (node_prev_size m _ k Hk Hu ltac:(simpl; lia) Hbm) as Hkp. simpl in Hkp.
  destruct Hk as [_ Hk]. destruct (Hk Hu) as [_ ->]. rewrite Hkp, Z.eqb_refl.
  by destruct (_ <? _).
Qed.

Lemma check_segment_complete m s bs : seg_rep m s bs -> check_segment m s = Ret true.
Proof.
  intros Hrep. pose proof (walk_fuel_enough _ _ _ Hrep). pose proof (seg_rep_total _ _ _ Hrep) as Ht.
  destruct Hrep as [(? & ? & ? & ? & ?) Hp Hok Hc He].
  unfold check_segment, PROLOGUE_SIZE, EPILOGUE_SIZE.
  rewrite (size_of_hdr m _ 16 true true), (flags_of_hdr m _ 16 true true) by (done || lia).
  cbn [Z.eqb negb]. simpl (Z.land _ _).
  change (negb (16 =? 16) || negb (3 =? 3)) with false. cbn iota.
  rewrite !usize_small by lia.
  replace (seg_end s - 16) with (cur_at (start s) + sum_sizes bs) in He |- * by (simpl; lia).
  change (seg_base s + 16) with (cur_at (start s)).
  rewrite check_walk_complete by (done || (simpl; lia)).
  apply chunks_app in Hc as [_ [Hf _]]. rewrite <- He.
  pose proof (sum_sizes_nonneg _ Hok). rewrite after_at in He.
  rewrite (node_size m _ fence), (node_flags m _ fence); try done.
  all: try (rewrite after_at; simpl; lia).
  by rewrite in_use_test, (Z.eqb_refl (cur_at _)).
Qed.

Lemma check_segments_complete m segs L :
  Forall2 (seg_rep m) segs L -> check_segments m segs = Ret true.
Proof.
  induction 1 as [|s bs segs L Hrep _ IH]; simpl; [done|].
  by rewrite (check_segment_complete _ _ _ Hrep).
Qed.

(** ** [init_region] *)

(** The region [init_region] installs, and the block it starts with. *)
Definition region (base0 end0 : Z) : Segment :=
  mkSegment ((base0 + 15) / 16 * 16) (end0 / 16 * 16).

Definition region_block (s : Segment) : block := mkBlock (seg_end s - seg_base s - 32) false.

Lemma init_segment_rep base0 end0 m :
  0 < base0 -> base0 + 15 < 2 ^ 64 -> 0 <= end0 < 2 ^ 64 ->
  let s := region base0 end0 in
  seg_base s + 64 <= seg_end s ->
  let m1 := set_header m (seg_base s) PROLOGUE_SIZE (Z.lor IN_USE PREV_IN_USE) in
  let m2 := set_header m1 (usize (seg_base s + PROLOGUE_SIZE)) (bsz (region_block s)) PREV_IN_USE in
  let m3 := set_prev_size m2 (usize (seg_end s - EPILOGUE_SIZE)) (bsz (region_block s)) in
  let m4 := set_header m3 (usize (seg_end s - EPILOGUE_SIZE)) EPILOGUE_SIZE IN_USE in
  seg_rep m4 s [region_block s] /\
  (forall x, x < seg_base s \/ seg_end s <= x -> load m4 x = load m x).
Proof.
  intros Hb0 Hb1 He s Hroom. cbv zeta.
  unfold set_prev_size, set_header, PROLOGUE_SIZE, EPILOGUE_SIZE.
  assert (seg_bounds s) as Hbounds.
  { unfold seg_bounds, s, region in *. simpl in *.
    split_and!; Z.to_euclidean_division_equations; lia. }
  clearbody s. pose proof Hbounds as (Hs1 & Hs2 & Hs3 & Hs4 & Hs5).
  rewrite (usize_small (seg_base s + 16)), (usize_small (seg_end s - 16)) by lia.
  rewrite !usize_small by lia. unfold region_block. cbn [bsz].
  assert ((seg_end s - seg_base s - 32) mod 16 = 0) by (Z.to_euclidean_division_equations; lia).
  replace (seg_end s - 16) with (seg_base s + 16 + (seg_end s - seg_base s - 32)) by lia.
  split.
  - split; [done| | | |].
    + mem_simpl. done.
    + repeat constructor; simpl; [lia|done].
    + cbn [chunks app fence]. unfold node. cbn [step_cur start cur_at cur_pu cur_ps bsz bused].
      mem_simpl. split_and!; try done. by apply hdr_lor.
    + simpl. lia.
  - intros x Hx. by mem_simpl.
Qed.

Lemma take_snoc_lookup {A} (l : list A) n x :
  (n < length l)%nat -> take (S n) (<[n := x]> l) = take n l ++ [x].
Proof.
  intros Hn. rewrite (take_S_r _ _ x) by (by rewrite list_lookup_insert_eq).
  by rewrite take_insert_ge.
Qed.

Lemma sum_over_snoc f L bs : sum_over f (L ++ [bs]) = sum_over f L + f bs.
Proof. induction L as [|x L IH]; simpl; lia. Qed.

Lemma disjoint_segs_snoc segs s :
  disjoint_segs segs ->
  (forall i si, segs !! i = Some si -> seg_end si <= seg_base s \/ seg_end s <= seg_base si) ->
  disjoint_segs (segs ++ [s]).
Proof.
  intros Hd Hs i j si sj Hij Hi Hj.
  apply lookup_snoc_Some in Hi as [[Hi1 Hi]|[-> <-]]; apply lookup_snoc_Some in Hj as [[Hj1 Hj]|[-> <-]].
  - by eapply Hd.
  - by eapply Hs.
  - destruct (Hs _ _ Hj); lia.
  - done.
Qed.

Lemma init_region_run base0 end0 h m :
  0 < base0 -> base0 + 15 < 2 ^ 64 -> 0 <= end0 < 2 ^ 64 -> seg_count h < 16 ->
  let s := region base0 end0 in
  seg_base s + 64 < 2 ^ 64 ->
  init_region base0 end0 (h, m) =
  if seg_end s <? seg_base s + 64 then (h, m)
  else
    let m1 := set_header m (seg_base s) PROLOGUE_SIZE (Z.lor IN_USE PREV_IN_USE) in
    let m2 := set_header m1 (usize (seg_base s + PROLOGUE_SIZE)) (bsz (region_block s)) PREV_IN_USE in
    let m3 := set_prev_size m2 (usize (seg_end s - EPILOGUE_SIZE)) (bsz (region_block s)) in
    (add_free (push_segment h s) (bsz (region_block s)),
     set_header m3 (usize (seg_end s - EPILOGUE_SIZE)) EPILOGUE_SIZE IN_USE).
Proof.
  intros Hb0 Hb1 He Hcnt s Hs.
  assert (align_up base0 CHUNK_ALIGN = seg_base s) as Hbase.
  { unfold align_up, CHUNK_ALIGN. destruct (decide (base0 + 16 < 2 ^ 64)).
    - rewrite (usize_small (base0 + 16)), usize_small by lia.
      rewrite (land_high_mask 64 4); [|lia|lia|lia|done]. unfold s, region. simpl.
      Z.to_euclidean_division_equations; lia.
    - unfold s, region in Hs. simpl in Hs. exfalso. Z.to_euclidean_division_equations; lia. }
  assert (Z.land end0 (not_mask CHUNK_ALIGN) = seg_end s) as Hend.
  { rewrite (land_high_mask 64 4); [|lia|lia|lia|done]. unfold s, region. simpl.
    Z.to_euclidean_division_equations; lia. }
  unfold init_region, MAX_SEGMENTS. rewrite Hbase, Hend.
  destruct (Z.leb_spec 16 (seg_count h)); [lia|].
  assert (0 < seg_base s) by (unfold s, region; simpl; Z.to_euclidean_division_equations; lia).
  assert (seg_end s < 2 ^ 64) by (unfold s, region; simpl; Z.to_euclidean_division_equations; lia).
  unfold MIN_CHUNK, PROLOGUE_SIZE, EPILOGUE_SIZE.
  rewrite (usize_small (seg_base s + 32 + 16 + 16)) by lia.
  replace (seg_base s + 32 + 16 + 16) with (seg_base s + 64) by lia.
  destruct (Z.ltb_spec (seg_end s) (seg_base s + 64)); [done|].
  rewrite (usize_small (seg_end s - seg_base s - 16 - 16)) by lia.
  unfold region_block. cbn [bsz]. clearbody s.
  replace (seg_end s - seg_base s - 16 - 16) with (seg_end s - seg_base s - 32) by lia.
  by destruct s.
Qed.

Lemma init_region_rep base0 end0 h m L :
  heap_rep (h, m) L -> (length L < 16)%nat ->
  0 < base0 -> base0 + 15 < 2 ^ 64 -> 0 <= end0 < 2 ^ 64 ->
  let s := region base0 end0 in
  seg_base s + 64 <= seg_end s ->
  (forall i si, live_segments h !! i = Some si -> seg_end si <= seg_base s \/ seg_end s <= seg_base si) ->
  sum_over sum_sizes L + bsz (region_block s) < 2 ^ 64 ->
  heap_rep (init_region base0 end0 (h, m)) (L ++ [[region_block s]]).
Proof.
  intros Hrep Hlen Hb0 Hb1 He s Hroom Hdisj Htot.
  assert (seg_end s < 2 ^ 64) by (unfold s, region; simpl; Z.to_euclidean_division_equations; lia).
  destruct (init_segment_rep base0 end0 m Hb0 Hb1 He Hroom) as [Hseg Hf]. fold s in Hseg, Hf.
  pose proof (heap_free_bounds _ _ Hrep) as Hfb.
  assert (sum_over free_of L <= sum_over sum_sizes L) as Hle.
  { eapply sum_over_bounds; [apply Hrep|apply free_of_bounds]. }
  destruct Hrep as [Harr Hcnt Hmax Hsegs Hd Ht Hfree Halloc]. cbn [fst snd] in *.
  rewrite init_region_run by (done || (fold s; lia)). fold s.
  destruct (Z.ltb_spec (seg_end s) (seg_base s + 64)); [lia|]. cbv zeta.
  assert (live_segments (add_free (push_segment h s) (bsz (region_block s))) = live_segments h ++ [s]) as Hlive.
  { unfold live_segments, add_free, push_segment. simpl. rewrite usize_small by lia.
    rewrite Hcnt. replace (Z.to_nat (Z.of_nat (length L) + 1)) with (S (length L)) by lia.
    rewrite Nat2Z.id. apply take_snoc_lookup. lia. }
  split; cbn [fst snd]; rewrite ?Hlive.
  - simpl. by rewrite length_insert.
  - simpl. rewrite usize_small by lia. rewrite length_app. simpl. lia.
  - rewrite length_app. simpl. lia.
  - apply Forall2_app; [|constructor; [exact Hseg|constructor]].
    apply Forall2_same_length_lookup. split; [by eapply Forall2_length|].
    intros i si bi Hi Hbi. pose proof (Forall2_lookup_lr _ _ _ _ _ _ Hsegs Hi Hbi) as Hri.
    eapply seg_rep_frame; [done|]. intros x Hx. apply Hf. destruct (Hdisj _ _ Hi); lia.
  - by apply disjoint_segs_snoc.
  - rewrite sum_over_snoc. simpl. unfold region_block in *. simpl in *. lia.
  - rewrite sum_over_snoc. autorewrite with layout. unfold region_block in *. simpl in *.
    rewrite usize_small by lia. lia.
  - rewrite sum_over_snoc. autorewrite with layout. simpl. lia.
Qed.

(** The record of [HeapCore::new()] represents the heap without segments. *)
Lemma heap_rep_new : heap_rep (HeapCore_new, ∅) [].
Proof.
  split; simpl; [done|done|lia|constructor| |lia|done|done]. intros i j si sj _ Hi.
  by destruct i.
Qed.
