(* ===== verification/HeapCorrect.v ===== *)
(** What the heap allocator promises its clients: the properties of [alloc],
    [dealloc], [init_region] and [check_invariants], and of every sequence of
    client operations. *)

From stdpp Require Import base numbers list gmap.
From Stdlib Require Import ZArith Lia.
From S2P Require Import Prelude Heap HeapSpec HeapAlloc HeapUpdate HeapFree HeapCheck.

(** ** The allocator as a transition system

    The state is the allocator's together with the client's view: the payload
    pointers it holds and the size it asked for. *)

Definition client_state : Type := heap_state * gmap Z Z.

Definition sane_request (size align : Z) : Prop :=
  0 <= size /\ size + 32 < 2 ^ 64 /\ align <= 16.

Inductive heap_step : client_state -> client_state -> Prop :=
| step_alloc st held size align p st' :
    sane_request size align ->
    alloc (mkLayout size align) st = (Ret p, st') -> p <> 0 ->
    heap_step (st, held) (st', <[p := size]> held)
| step_alloc_null st held size align st' :
    sane_request size align ->
    alloc (mkLayout size align) st = (Ret 0, st') ->
    heap_step (st, held) (st', held)
| step_dealloc st held p size st' :
    held !! p = Some size ->
    dealloc p st = (Ret tt, st') ->
    heap_step (st, held) (st', delete p held)
| step_write h m held p size x v :
    held !! p = Some size -> x mod 8 = 0 -> p <= x -> x + 8 <= p + size ->
    heap_step ((h, m), held) ((h, store m x v), held).

Inductive heap_steps : client_state -> client_state -> Prop :=
| steps_refl st : heap_steps st st
| steps_cons st1 st2 st3 : heap_step st1 st2 -> heap_steps st2 st3 -> heap_steps st1 st3.

(** Every pointer the client holds is a live block with room for what it asked,
    and nothing else is allocated. *)
Definition client_ok (st : client_state) : Prop :=
  exists L, heap_rep (fst st) L /\ alloc_count (fst (fst st)) = Z.of_nat (size (snd st)) /\
    forall p n, snd st !! p = Some n ->
      exists k, live_block (fst (fst st)) L p k /\ n <= k.

(** A heap over the single region 0x1000 .. 0x2000, and one allocation in it. *)
Definition demo_heap : heap_state := init_region 4096 8192 (HeapCore_new, ∅).
Definition demo_layout : list (list block) := [[mkBlock 4064 false]].
Definition demo_used : heap_state := snd (alloc (mkLayout 100 8) demo_heap).

(** ** Live blocks under a change of layout *)

Lemma live_payload h m L p n :
  heap_rep (h, m) L -> live_block h L p n -> p mod 16 = 0 /\ 0 < p - 16 /\ 16 <= n /\ p + n < 2 ^ 64.
Proof.
  intros Hrep (i & s & l & b & r & Hs & HL & Hb & -> & ->).
  pose proof (heap_seg_rep _ _ _ _ _ Hrep Hs HL) as Hseg.
  pose proof (block_addr_bounds _ _ _ _ _ Hseg) as (? & ? & ?).
  pose proof (rep_bounds _ _ _ Hseg) as (? & ? & ? & _).
  pose proof (rep_blocks _ _ _ Hseg) as Hok. apply Forall_app in Hok as [_ Hok].
  apply Forall_cons in Hok as [[? ?] _].
  split_and!; [Z.to_euclidean_division_equations; lia|lia|lia|lia].
Qed.

Lemma app_cons_inv {A} (a b c : list A) x d :
  a ++ b = c ++ x :: d ->
  (exists k, a = c ++ x :: k /\ d = k ++ b) \/ (exists k, b = k ++ x :: d /\ c = a ++ k).
Proof.
  revert c. induction a as [|y a IH]; intros c Heq; simpl in *; [right; eauto|].
  destruct c as [|z c]; simpl in Heq; injection Heq as -> Heq; [left; eauto|].
  destruct (IH _ Heq) as [(k & -> & ->)|(k & -> & ->)]; [left|right]; eauto.
Qed.

(** A live block outside the blocks [mid] survives their replacement, in the
    same place, and lies outside the bytes they cover. *)
Lemma live_replace h h' m L i s l mid mid' r q k :
  heap_rep (h, m) L -> live_segments h' = live_segments h ->
  live_segments h !! i = Some s -> L !! i = Some (l ++ mid ++ r) ->
  sum_sizes mid' = sum_sizes mid -> live_block h L q k ->
  (forall l2 b2 r2, mid = l2 ++ b2 :: r2 -> bused b2 = true -> q <> block_addr s (l ++ l2) + 16) ->
  live_block h' (<[i := l ++ mid' ++ r]> L) q k /\
  (q + k <= block_addr s l \/ block_addr s l + sum_sizes mid + 16 <= q).
Proof.
  intros Hrep Hsegs Hs HL Hsum (j & sj & l2 & b2 & r2 & Hj & HLj & Hu & -> & ->) Hout.
  pose proof (heap_seg_rep _ _ _ _ _ Hrep Hj HLj) as Hsegj.
  pose proof (block_addr_bounds _ _ _ _ _ Hsegj) as (? & ? & _).
  pose proof (heap_seg_rep _ _ _ _ _ Hrep Hs HL) as Hsegi.
  pose proof (rep_blocks _ _ _ Hsegi) as Hok.
  apply Forall_app in Hok as [Hl Hok]. apply Forall_app in Hok as [Hm Hr].
  assert (seg_base s + 16 <= block_addr s l /\ block_addr s l + sum_sizes mid + 16 <= seg_end s) as [? ?].
  { pose proof (seg_rep_total _ _ _ Hsegi) as Ht. rewrite !sum_sizes_app in Ht.
    unfold block_addr. rewrite after_at. simpl.
    pose proof (sum_sizes_nonneg _ Hl). pose proof (sum_sizes_nonneg _ Hr). lia. }
  destruct (decide (i = j)) as [<-|Hij].
  2: { split.
       - exists j, sj, l2, b2, r2. rewrite Hsegs, list_lookup_insert_ne by done. by split_and!.
       - destruct (hr_disjoint _ _ Hrep i j s sj Hij Hs Hj); lia. }
  assert (sj = s) as -> by congruence.
  assert (l ++ mid ++ r = l2 ++ b2 :: r2) as Heq by congruence.
  pose proof (lookup_lt_Some _ _ _ HL) as Hlt.
  rewrite <- Hsegs in Hs.
  apply app_cons_inv in Heq as [(k1 & -> & ->)|(k1 & Heq & ->)].
  { split.
    - exists i, s, l2, b2, (k1 ++ mid' ++ r).
      rewrite list_lookup_insert_eq by done. split_and!; try done. by rewrite <- (app_assoc l2 (b2 :: k1)).
    - left. rewrite block_addr_cons. apply Forall_app in Hl as [_ Hl].
      apply Forall_cons in Hl as [_ Hl]. pose proof (sum_sizes_nonneg _ Hl). lia. }
  apply app_cons_inv in Heq as [(k2 & -> & ->)|(k2 & -> & ->)].
  { exfalso. by eapply Hout. }
  assert (block_addr s (l ++ mid ++ k2) = block_addr s l + sum_sizes mid + sum_sizes k2 /\
          block_addr s (l ++ mid' ++ k2) = block_addr s l + sum_sizes mid + sum_sizes k2) as [Ha Ha'].
  { unfold block_addr. rewrite !after_at, !sum_sizes_app. lia. }
  apply Forall_app in Hr as [Hk2 _]. pose proof (sum_sizes_nonneg _ Hk2). split; [|lia].
  exists i, s, (l ++ mid' ++ k2), b2, r2. rewrite Ha, Ha'.
  rewrite list_lookup_insert_eq by done. split_and!; try done. by rewrite <- !app_assoc.
Qed.

(** ** What an allocation does to the other blocks *)

Lemma alloc_live h m L size align i l b r :
  heap_rep (h, m) L -> 0 <= size -> size + 32 < 2 ^ 64 -> align <= 16 ->
  fit_heap (chunk_for size) L = Some (i, (l, b, r)) ->
  let h' := after_carve (chunk_for size) b h in
  exists m' L' p k,
    alloc (mkLayout size align) (h, m) = (Ret p, (h', m')) /\
    heap_rep (h', m') L' /\ live_block h' L' p k /\ size <= k /\
    (forall q n, live_block h L q n ->
       live_block h' L' q n /\ (q + n <= p - 16 \/ p + k + 16 <= q) /\
       (forall x, q <= x < q + n -> load m' x = load m x)).
Proof.
  intros Hrep H0 H1 Hal Hfit h'.
  destruct (alloc_found _ _ _ _ _ _ _ _ _ Hrep H0 H1 Hal Hfit)
    as (s & m' & Hs & HL & Hfree & Hle & Hrun & Hrep' & Hf).
  destruct (chunk_for_ok size H0) as (Hc1 & Hc2 & Hc3).
  fold h' in Hrun, Hrep'.
  assert (exists b0 rest, carve (chunk_for size) b = b0 :: rest /\ bused b0 = true /\
            chunk_for size <= bsz b0 <= bsz b) as (b0 & rest & Hcv & Hb0 & Hbs).
  { unfold carve. destruct (Z.leb_spec 32 (bsz b - chunk_for size)); eexists _, _; split; try done.
    all: simpl; split; [done|lia]. }
  exists m', (<[i := l ++ carve (chunk_for size) b ++ r]> L), (block_addr s l + 16), (bsz b0 - 16).
  split_and!; [done|done| |lia|].
  - exists i, s, l, b0, (rest ++ r). rewrite list_lookup_insert_eq by (by eapply lookup_lt_Some).
    rewrite Hcv. by split_and!.
  - intros q n Hq.
    destruct (live_replace h h' m L i s l [b] (carve (chunk_for size) b) r q n)
      as [Hlive Hapart]; try done.
    { rewrite carve_sum. simpl. lia. }
    { intros l2 b2 r2 Heq Hb2. symmetry in Heq. destruct l2 as [|? [|]]; simplify_eq/=; congruence. }
    simpl in Hapart. split_and!; [done|lia|]. intros x Hx. apply Hf. lia.
Qed.

Lemma alloc_count_found h m L size i l b r :
  heap_rep (h, m) L -> 0 <= size -> fit_heap (chunk_for size) L = Some (i, (l, b, r)) ->
  alloc_count (after_carve (chunk_for size) b h) = alloc_count h + 1.
Proof.
  intros Hrep H0 Hfit.
  destruct (fit_heap_Some _ _ _ _ _ _ Hfit) as (bs & HL & Hff).
  apply first_fit_Some in Hff as (-> & Hb & Hle & _).
  destruct (chunk_for_ok size H0) as (Hc1 & _).
  pose proof (heap_free_ge _ _ _ _ Hrep HL) as Hge. pose proof (heap_used_free_room _ _ Hrep).
  pose proof (heap_alloc_bounds _ _ Hrep).
  pose proof (Forall2_lookup_r _ _ _ _ _ (hr_segs _ _ Hrep) HL) as (s & Hs & Hseg).
  pose proof (rep_blocks _ _ _ Hseg) as Hok. apply Forall_app in Hok as [Hl Hr].
  apply Forall_cons in Hr as [_ Hr].
  pose proof (free_of_bounds _ Hl). pose proof (free_of_bounds _ Hr).
  autorewrite with layout in Hge. rewrite Hb in Hge. cbn [fst] in *.
  unfold after_carve, add_alloc, add_free. simpl. rewrite u64_small by lia. done.
Qed.

(** ** What a release does to the other blocks *)

Lemma live_apart h m L p n q k :
  heap_rep (h, m) L -> live_block h L p n -> live_block h L q k -> p <> q ->
  p + n + 16 <= q \/ q + k + 16 <= p.
Proof.
  intros Hrep (i & s & l & b & r & Hs & HL & Hb & -> & ->)
    (j & s2 & l2 & b2 & r2 & Hs2 & HL2 & Hb2 & -> & ->) Hne.
  pose proof (heap_seg_rep _ _ _ _ _ Hrep Hs HL) as Hseg.
  pose proof (heap_seg_rep _ _ _ _ _ Hrep Hs2 HL2) as Hseg2.
  destruct (decide (i = j)) as [<-|Hij].
  - assert (s2 = s) as -> by congruence.
    destruct (blocks_apart _ s l b r l2 b2 r2 Hseg) as [(<- & <- & _)|[?|?]];
      [congruence|congruence|lia|lia].
  - pose proof (block_addr_bounds _ _ _ _ _ Hseg) as (? & ? & _).
    pose proof (block_addr_bounds _ _ _ _ _ Hseg2) as (? & ? & _).
    destruct (hr_disjoint _ _ Hrep i j s s2 Hij Hs Hs2); lia.
Qed.

Lemma dealloc_others h m L p n :
  heap_rep (h, m) L -> live_block h L p n ->
  exists m' L',
    dealloc p (h, m) = (Ret tt, (after_release (n + 16) h, m')) /\
    heap_rep (after_release (n + 16) h, m') L' /\
    Z.land (flags_of m' (p - 16)) IN_USE = 0 /\
    (forall q k, live_block h L q k -> q <> p ->
       live_block (after_release (n + 16) h) L' q k /\
       forall x, q <= x < q + k -> load m' x = load m x).
Proof.
  intros Hrep Hlive. pose proof Hlive as (i & s & l & b & r & Hs & HL & Hb & -> & ->).
  destruct (dealloc_live _ _ _ _ _ _ _ _ Hrep Hs HL Hb) as (m' & Hrun & Hrep' & Hrel).
  replace (bsz b - 16 + 16) with (bsz b) by lia.
  replace (block_addr s l + 16 - 16) with (block_addr s l) by lia.
  destruct Hrel as (_ & Hflag & lo & mid & hi & Heq & Hr & Hin & Hf).
  exists m', (<[i := release l (bsz b) r]> L). split_and!; [done|done|done|].
  intros q k Hq Hne. rewrite Heq in HL. rewrite Hr.
  destruct (live_replace h (after_release (bsz b) h) m L i s lo mid [mkBlock (sum_sizes mid) false]
              hi q k) as [Hl Hapart]; try done.
  - simpl. lia.
  - intros l2 b2 r2 Hmid Hb2. rewrite <- (Hin _ _ _ Hmid Hb2). done.
  - split; [done|]. intros x Hx. apply Hf. lia.
Qed.

Lemma alloc_count_released h m L p n :
  heap_rep (h, m) L -> live_block h L p n ->
  alloc_count (after_release (n + 16) h) = alloc_count h - 1.
Proof.
  intros Hrep (i & s & l & b & r & Hs & HL & Hb & -> & ->).
  pose proof (heap_alloc_ge _ _ _ _ Hrep HL) as Hge. pose proof (heap_alloc_bounds _ _ Hrep).
  pose proof (heap_seg_rep _ _ _ _ _ Hrep Hs HL) as Hseg.
  pose proof (rep_blocks _ _ _ Hseg) as Hok. apply Forall_app in Hok as [Hl Hr].
  apply Forall_cons in Hr as [_ Hr].
  pose proof (used_of_bounds _ Hl) as [? _]. pose proof (used_of_bounds _ Hr) as [? _].
  autorewrite with layout in Hge. rewrite Hb in Hge. cbn [fst] in *.
  unfold after_release, add_alloc, add_free. simpl. rewrite u64_small by lia. lia.
Qed.

(** ** What a client's write does to the layout *)

Lemma write_chunks m c bs1 b bs2 x v :
  chunks m c (bs1 ++ b :: bs2) -> Forall (fun b => 16 <= bsz b) (bs1 ++ b :: bs2) -> bused b = true ->
  cur_at (after c bs1) + 16 <= x -> x < cur_at (after c bs1) + bsz b ->
  chunks (store m x v) c (bs1 ++ b :: bs2).
Proof.
  intros Hc Hok Hb Hlo Hhi. apply chunks_app in Hc as [H1 [Hn H2]].
  apply Forall_app in Hok as [Hok1 Hok2]. apply Forall_cons in Hok2 as [Hokb Hok2].
  rewrite after_at in *.
  apply chunks_app. split_and!; [|split].
  - eapply chunks_frame; [done|done|]. intros y Hy. apply load_store_ne. lia.
  - unfold node in *. rewrite after_at in *. mem_simpl. done.
  - eapply chunks_frame; [done|done|]. simpl. rewrite after_at.
    intros y Hy. apply load_store_ne. lia.
Qed.

Lemma write_live h m L p n x v :
  heap_rep (h, m) L -> live_block h L p n -> p <= x -> x < p + n ->
  heap_rep (h, store m x v) L.
Proof.
  intros Hrep (i & s & l & b & r & Hs & HL & Hb & -> & ->) Hlo Hhi.
  pose proof (heap_seg_rep _ _ _ _ _ Hrep Hs HL) as Hseg.
  pose proof (block_addr_bounds _ _ _ _ _ Hseg) as (? & ? & _).
  rewrite <- (list_insert_id L i (l ++ b :: r)) by done.
  eapply heap_update; try done; try lia.
  - destruct Hseg as [Hbd Hpro Hok Hch Hend]. split; try done.
    + rewrite load_store_ne by lia. done.
    + pose proof (block_ok_16 _ Hok) as Hok16. unfold block_addr in *.
      rewrite <- app_assoc in Hch |- *. apply write_chunks; try done; try lia.
      rewrite app_comm_cons, app_assoc. apply Forall_app. by split; [|constructor].
  - intros y Hy. apply load_store_ne. lia.
Qed.

(** ** Freeing what was just allocated *)

Lemma release_carved m s l b r needed :
  seg_rep m s (l ++ b :: r) -> bused b = false ->
  exists b0 rest,
    carve needed b = b0 :: rest /\ bused b0 = true /\ bsz b0 = carved needed b /\
    release l (bsz b0) (rest ++ r) = l ++ b :: r.
Proof.
  intros Hseg Hb. pose proof (rep_chunks _ _ _ Hseg) as Hc. rewrite <- app_assoc in Hc.
  apply chunks_app in Hc as [_ Hc]. cbn [app chunks] in Hc. destruct Hc as [[_ Hpu] Hc].
  assert (forall n, n = bsz b -> merge_right n r = b :: r) as Hm.
  { intros n ->. destruct b as [z u]; simpl in *. subst u. destruct r as [|y r]; [done|].
    cbn [app chunks] in Hc. destruct Hc as [[_ Hy] _]. destruct (Hy eq_refl) as [_ Hy'].
    simpl. by rewrite Hy'. }
  assert (forall n rs, release l n rs = l ++ merge_right n rs) as Hrel.
  { intros n rs. unfold release. destruct (last l) as [x|] eqn:Hx.
    - apply last_Some in Hx as (l' & ->). rewrite after_app in Hpu. simpl in Hpu.
      destruct (bused x); [done|]. destruct (Hpu eq_refl). congruence.
    - apply last_None in Hx as ->. done. }
  unfold carve, carved. destruct (Z.leb_spec 32 (bsz b - needed)).
  - eexists _, _. split_and!; [done|done|done|]. rewrite Hrel. simpl. destruct b as [z u].
    simpl in *. subst u. do 3 f_equal. lia.
  - eexists _, _. split_and!; [done|done|done|]. rewrite Hrel. simpl. by rewrite Hm.
Qed.

Lemma counters_restored h m L n :
  heap_rep (h, m) L -> after_release n (add_alloc (add_free h (- n)) 1) = h.
Proof.
  intros Hrep. pose proof (heap_free_bounds _ _ Hrep). pose proof (heap_alloc_bounds _ _ Hrep).
  destruct h. unfold after_release, add_alloc, add_free, usize, u64. cbn in *.
  rewrite !Z.add_mod_idemp_l by lia. f_equal; rewrite Z.mod_small; lia.
Qed.

(** ** The client's invariant *)

Lemma alloc_request h m L size align :
  heap_rep (h, m) L -> sane_request size align ->
  (exists i l b r, fit_heap (chunk_for size) L = Some (i, (l, b, r))) \/
  alloc (mkLayout size align) (h, m) = (Ret 0, (add_oom h, m)).
Proof.
  intros Hrep (H0 & H1 & Hal).
  destruct (fit_heap (chunk_for size) L) as [[i [[l b] r]]|] eqn:Hfit; [left; eauto|right].
  by eapply alloc_exhausted.
Qed.

Lemma add_oom_rep h m L : heap_rep (h, m) L -> heap_rep (add_oom h, m) L.
Proof. intros H. by eapply heap_rep_counters. Qed.

Lemma client_ok_alloc st held size align p st' :
  client_ok (st, held) -> sane_request size align ->
  alloc (mkLayout size align) st = (Ret p, st') -> p <> 0 ->
  client_ok (st', <[p := size]> held).
Proof.
  destruct st as [h m]. intros (L & Hrep & Hcount & Hheld) Hreq Hrun Hp. cbn [fst snd] in *.
  destruct (alloc_request _ _ _ _ _ Hrep Hreq) as [(i & l & b & r & Hfit)|Hnull];
    [|congruence].
  pose proof Hreq as (H0 & H1 & Hal).
  destruct (alloc_live _ _ _ _ align _ _ _ _ Hrep H0 H1 Hal Hfit)
    as (m' & L' & p' & k & Hrun' & Hrep' & Hlive & Hk & Hoth).
  rewrite Hrun' in Hrun. simplify_eq.
  assert (held !! p = None) as Hfresh.
  { destruct (held !! p) as [n|] eqn:Hn; [|done].
    destruct (Hheld _ _ Hn) as (n' & Hl & _). destruct (Hoth _ _ Hl) as (_ & Hap & _).
    destruct (live_payload _ _ _ _ _ Hrep Hl) as (_ & _ & ? & _). lia. }
  exists L'. cbn [fst snd]. split_and!; [done| |].
  - rewrite (alloc_count_found _ _ _ _ _ _ _ _ Hrep H0 Hfit), map_size_insert_None by done. lia.
  - intros q n. destruct (decide (q = p)) as [->|Hne].
    + rewrite lookup_insert_eq. intros [= <-]. eauto.
    + rewrite lookup_insert_ne by done. intros Hq. destruct (Hheld _ _ Hq) as (n' & Hl & ?).
      exists n'. split; [apply (Hoth _ _ Hl)|done].
Qed.

Lemma client_ok_alloc_null st held size align st' :
  client_ok (st, held) -> sane_request size align ->
  alloc (mkLayout size align) st = (Ret 0, st') -> client_ok (st', held).
Proof.
  destruct st as [h m]. intros (L & Hrep & Hcount & Hheld) Hreq Hrun. cbn [fst snd] in *.
  destruct (alloc_request _ _ _ _ _ Hrep Hreq) as [(i & l & b & r & Hfit)|Hnull].
  - destruct Hreq as (H0 & H1 & Hal).
    destruct (alloc_live _ _ _ _ align _ _ _ _ Hrep H0 H1 Hal Hfit)
      as (m' & L' & p' & k & Hrun' & Hrep' & Hlive & _).
    destruct (live_payload _ _ _ _ _ Hrep' Hlive) as (_ & ? & _). rewrite Hrun' in Hrun.
    simplify_eq. lia.
  - rewrite Hnull in Hrun. simplify_eq. exists L. by split; [apply add_oom_rep|].
Qed.

Lemma client_ok_dealloc st held p size st' :
  client_ok (st, held) -> held !! p = Some size -> dealloc p st = (Ret tt, st') ->
  client_ok (st', delete p held).
Proof.
  destruct st as [h m]. intros (L & Hrep & Hcount & Hheld) Hp Hrun. cbn [fst snd] in *.
  destruct (Hheld _ _ Hp) as (n & Hl & Hn).
  destruct (dealloc_others _ _ _ _ _ Hrep Hl) as (m' & L' & Hrun' & Hrep' & _ & Hoth).
  rewrite Hrun' in Hrun. simplify_eq. exists L'. cbn [fst snd]. split_and!; [done| |].
  - rewrite (alloc_count_released _ _ _ _ _ Hrep Hl), map_size_delete, Hp. cbn.
    assert (base.size held <> O) by (intros H0%map_size_empty_inv; by subst). lia.
  - intros q k. destruct (decide (q = p)) as [->|Hne]; [by rewrite lookup_delete_eq|].
    rewrite lookup_delete_ne by done. intros Hq. destruct (Hheld _ _ Hq) as (k' & Hlq & ?).
    exists k'. split; [apply (Hoth _ _ Hlq Hne)|done].
Qed.

Lemma client_ok_step st st' : heap_step st st' -> client_ok st -> client_ok st'.
Proof.
  destruct 1; intros Hok; [by eapply client_ok_alloc|by eapply client_ok_alloc_null|
                           by eapply client_ok_dealloc|].
  destruct Hok as (L & Hrep & Hcount & Hheld). cbn [fst snd] in *.
  destruct (Hheld _ _ H) as (n & Hl & Hn). exists L. split_and!; [|done|done].
  eapply write_live; [done|done|done|cbn [fst snd]; lia].
Qed.

Lemma client_ok_steps st st' : heap_steps st st' -> client_ok st -> client_ok st'.
Proof. induction 1; eauto using client_ok_step. Qed.

Lemma demo_heap_rep : heap_rep demo_heap demo_layout.
Proof.
  apply (init_region_rep 4096 8192 HeapCore_new ∅ []);
    [apply heap_rep_new|simpl; lia|lia|lia|lia|by vm_compute|by intros [|i]|by vm_compute].
Qed.
