(* ===== verification/HeapTheorems.v ===== *)
(** The contract of the kernel allocator: what [alloc], [dealloc],
    [init_region] and [check_invariants] promise a client. *)

From stdpp Require Import base numbers list gmap.
From Stdlib Require Import ZArith Lia.
From S2P Require Import Prelude Heap HeapSpec HeapAlloc HeapUpdate HeapFree HeapCheck HeapCorrect.

(** ** Witness inputs *)

Lemma demo_sane : sane_request 100 8.
Proof. unfold sane_request. lia. Qed.

Lemma demo_fit : fit_heap (chunk_for 100) demo_layout = Some (O, ([], mkBlock 4064 false, [])).
Proof. by vm_compute. Qed.

Lemma demo_alloc : exists m' k,
  alloc (mkLayout 100 8) demo_heap = (Ret 4128, (after_carve 128 (mkBlock 4064 false) (fst demo_heap), m')) /\
  demo_used = (after_carve 128 (mkBlock 4064 false) (fst demo_heap), m') /\
  exists L, heap_rep demo_used L /\ live_block (fst demo_used) L 4128 k.
Proof.
  destruct (alloc_live (fst demo_heap) (snd demo_heap) demo_layout 100 8 _ _ _ _
              demo_heap_rep ltac:(lia) ltac:(lia) ltac:(lia) demo_fit)
    as (m' & L' & p & k & Hrun & Hrep & Hl & _).
  exists m', k. change (alloc (mkLayout 100 8) (fst demo_heap, snd demo_heap)) with
    (alloc (mkLayout 100 8) demo_heap) in Hrun.
  assert (p = 4128) as -> by (pose proof (f_equal fst Hrun) as Hp; vm_compute in Hp; congruence).
  assert (demo_used = (after_carve (chunk_for 100) (mkBlock 4064 false) (fst demo_heap), m')) as Hd
    by (unfold demo_used; by rewrite Hrun).
  split_and!; [done|done|]. exists L'. by rewrite Hd.
Qed.

(** ** Allocation *)

(** C9: [alloc] is first-fit on the abstract layout, for every request that
    does not overflow: it takes the lowest fitting free block of the first
    segment that has one, splits it when the remainder is a chunk, returns that
    block's payload and leaves a well-formed heap whose layout is the split; if
    no free block is large enough it returns null, counts an out-of-memory and
    changes nothing else. *)
Theorem alloc_first_fit h m L size align :
  heap_rep (h, m) L -> 0 <= size -> size + 32 < 2 ^ 64 -> align <= 16 ->
  match fit_heap (chunk_for size) L with
  | Some (i, (l, b, r)) =>
      exists s m',
        live_segments h !! i = Some s /\ L !! i = Some (l ++ b :: r) /\
        bused b = false /\ chunk_for size <= bsz b /\
        alloc (mkLayout size align) (h, m) =
          (Ret (block_addr s l + 16), (after_carve (chunk_for size) b h, m')) /\
        heap_rep (after_carve (chunk_for size) b h, m')
          (<[i := l ++ carve (chunk_for size) b ++ r]> L)
  | None =>
      alloc (mkLayout size align) (h, m) = (Ret 0, (add_oom h, m)) /\
      forall i bs b, L !! i = Some bs -> b ∈ bs -> bused b = false -> bsz b < chunk_for size
  end.
Proof.
  intros Hrep H0 H1 Hal.
  destruct (fit_heap (chunk_for size) L) as [[i [[l b] r]]|] eqn:Hfit.
  - destruct (alloc_found _ _ _ _ _ _ _ _ _ Hrep H0 H1 Hal Hfit) as (s & m' & ? & ? & ? & ? & ? & ? & _).
    exists s, m'. by split_and!.
  - split; [by eapply alloc_exhausted|]. intros i bs b Hi Hb Hu.
    by eapply fit_heap_None.
Qed.

Lemma alloc_first_fit_witness :
  exists m', alloc (mkLayout 100 8) demo_heap =
    (Ret 4128, (after_carve 128 (mkBlock 4064 false) (fst demo_heap), m')).
Proof.
  destruct (alloc_first_fit (fst demo_heap) (snd demo_heap) demo_layout 100 8
              demo_heap_rep ltac:(lia) ltac:(lia) ltac:(lia))
    as (s & m' & Hs & _ & _ & _ & Hrun & _).
  exists m'. vm_compute in Hs. injection Hs as <-. exact Hrun.
Defined.

(** A successful [alloc] returns a non-null, 16-byte aligned payload of at
    least the requested size inside the address space, which overlaps no live
    payload nor its header, and every live block stays live with its contents
    unchanged. *)
Theorem alloc_safe h m L size align p st' :
  heap_rep (h, m) L -> sane_request size align ->
  alloc (mkLayout size align) (h, m) = (Ret p, st') -> p <> 0 ->
  exists L' k,
    heap_rep st' L' /\ live_block (fst st') L' p k /\ size <= k /\
    p mod 16 = 0 /\ p + k < 2 ^ 64 /\
    forall q n, live_block h L q n ->
      live_block (fst st') L' q n /\ (q + n <= p - 16 \/ p + k + 16 <= q) /\
      forall x, q <= x < q + n -> load (snd st') x = load m x.
Proof.
  intros Hrep Hreq Hrun Hp.
  destruct (alloc_request _ _ _ _ _ Hrep Hreq) as [(i & l & b & r & Hfit)|Hnull]; [|congruence].
  destruct Hreq as (H0 & H1 & Hal).
  destruct (alloc_live _ _ _ _ align _ _ _ _ Hrep H0 H1 Hal Hfit)
    as (m' & L' & p' & k & Hrun' & Hrep' & Hlive & Hk & Hoth).
  rewrite Hrun' in Hrun. simplify_eq.
  destruct (live_payload _ _ _ _ _ Hrep' Hlive) as (? & _ & _ & ?).
  exists L', k. by split_and!.
Qed.

Lemma alloc_safe_witness : exists L' k, heap_rep demo_used L' /\ live_block (fst demo_used) L' 4128 k.
Proof.
  destruct (alloc_safe (fst demo_heap) (snd demo_heap) demo_layout 100 8 4128 demo_used)
    as (L' & k & H1 & H2 & _).
  - exact demo_heap_rep.
  - exact demo_sane.
  - destruct demo_alloc as (m' & k & H & -> & _). exact H.
  - discriminate.
  - exists L', k. exact (conj H1 H2).
Defined.

(** Requests [alloc] refuses change no memory and no layout: an alignment
    above 16 counts an alignment failure, and a size whose chunk would overflow
    [usize] returns null without counting anything. *)
Theorem alloc_refused st size align :
  0 <= size ->
  (16 < align -> alloc (mkLayout size align) st = (Ret 0, (add_align_fail (fst st), snd st))) /\
  (align <= 16 -> 2 ^ 64 <= size + 31 -> size < 2 ^ 64 ->
   alloc (mkLayout size align) st = (Ret 0, st)).
Proof.
  intros H0. split; [apply alloc_over_aligned|].
  intros Hal Hov Hmax. by apply alloc_overflow.
Qed.

Lemma alloc_refused_witness :
  alloc (mkLayout 10 4096) demo_heap = (Ret 0, (add_align_fail (fst demo_heap), snd demo_heap)) /\
  alloc (mkLayout 18446744073709551600 8) demo_heap = (Ret 0, demo_heap).
Proof.
  split.
  - apply (alloc_refused demo_heap 10 4096); lia.
  - apply (alloc_refused demo_heap 18446744073709551600 8); lia.
Defined.

(** ** Release *)

(** C10: Freeing a live block succeeds, merges it with its free neighbours in
    the abstract layout (so that no two free blocks are adjacent), credits
    exactly its size and its count, and leaves every other live block live with
    its contents unchanged. *)
Theorem dealloc_correct h m L i s l b r :
  heap_rep (h, m) L -> live_segments h !! i = Some s -> L !! i = Some (l ++ b :: r) ->
  bused b = true ->
  exists m',
    dealloc (block_addr s l + 16) (h, m) = (Ret tt, (after_release (bsz b) h, m')) /\
    heap_rep (after_release (bsz b) h, m') (<[i := release l (bsz b) r]> L) /\
    forall q k, live_block h L q k -> q <> block_addr s l + 16 ->
      forall x, q <= x < q + k -> load m' x = load m x.
Proof.
  intros Hrep Hs HL Hb.
  assert (live_block h L (block_addr s l + 16) (bsz b - 16)) as Hl
    by (exists i, s, l, b, r; by split_and!).
  destruct (dealloc_live _ _ _ _ _ _ _ _ Hrep Hs HL Hb) as (m' & Hrun & Hrep' & _).
  destruct (dealloc_others _ _ _ _ _ Hrep Hl) as (m2 & L2 & Hrun2 & _ & _ & Hoth).
  rewrite Hrun2 in Hrun. replace (bsz b - 16 + 16) with (bsz b) in * by lia. simplify_eq.
  exists m'. split_and!; [done|done|]. intros q k Hq Hne. apply (Hoth _ _ Hq Hne).
Qed.

Lemma demo_used_rep : heap_rep demo_used [[mkBlock 128 true; mkBlock 3936 false]].
Proof.
  destruct (alloc_found (fst demo_heap) (snd demo_heap) demo_layout 100 8 _ _ _ _
              demo_heap_rep ltac:(lia) ltac:(lia) ltac:(lia) demo_fit)
    as (s & m' & _ & _ & _ & _ & Hrun & Hrep & _).
  assert (demo_used = (after_carve (chunk_for 100) (mkBlock 4064 false) (fst demo_heap), m')) as ->
    by (unfold demo_used; change demo_heap with (fst demo_heap, snd demo_heap) at 1; by rewrite Hrun).
  exact Hrep.
Qed.

Lemma dealloc_correct_witness : exists m',
  dealloc 4128 demo_used = (Ret tt, (after_release 128 (fst demo_used), m')) /\
  heap_rep (after_release 128 (fst demo_used), m') demo_layout.
Proof.
  destruct (dealloc_correct (fst demo_used) (snd demo_used) _ 0 (mkSegment 4096 8192)
              [] (mkBlock 128 true) [mkBlock 3936 false] demo_used_rep) as (m' & H1 & H2 & _).
  - vm_compute. reflexivity.
  - reflexivity.
  - reflexivity.
  - exists m'. exact (conj H1 H2).
Defined.

(** Allocating and freeing the block just obtained is the identity on the
    allocator: same layout and same counters. *)
Theorem alloc_dealloc_inverse h m L size align p st' :
  heap_rep (h, m) L -> sane_request size align ->
  alloc (mkLayout size align) (h, m) = (Ret p, st') -> p <> 0 ->
  exists m', dealloc p st' = (Ret tt, (h, m')) /\ heap_rep (h, m') L.
Proof.
  intros Hrep Hreq Hrun Hp.
  destruct (alloc_request _ _ _ _ _ Hrep Hreq) as [(i & l & b & r & Hfit)|Hnull]; [|congruence].
  destruct Hreq as (H0 & H1 & Hal).
  destruct (alloc_found _ _ _ _ _ _ _ _ _ Hrep H0 H1 Hal Hfit)
    as (s & m1 & Hs & HL & Hfree & Hle & Hrun' & Hrep1 & _).
  rewrite Hrun' in Hrun. simplify_eq. clear Hp.
  pose proof (heap_seg_rep _ _ _ _ _ Hrep Hs HL) as Hseg.
  destruct (release_carved _ _ l b r (chunk_for size) Hseg Hfree) as (b0 & rest & Hcv & Hb0 & Hsz & Hr).
  rewrite Hcv in Hrep1.
  assert (<[i := l ++ (b0 :: rest) ++ r]> L !! i = Some (l ++ b0 :: rest ++ r)) as HL1
    by (by rewrite list_lookup_insert_eq by (by eapply lookup_lt_Some)).
  destruct (dealloc_live _ _ _ _ _ _ _ _ Hrep1 Hs HL1 Hb0) as (m2 & Hrun2 & Hrep2 & _).
  rewrite list_insert_insert_eq, Hr, list_insert_id in Hrep2 by done.
  unfold after_carve in *. rewrite Hsz in *. rewrite (counters_restored _ _ _ _ Hrep) in *.
  by exists m2.
Qed.

Lemma alloc_dealloc_inverse_witness : exists m',
  dealloc 4128 demo_used = (Ret tt, (fst demo_heap, m')) /\ heap_rep (fst demo_heap, m') demo_layout.
Proof.
  apply (alloc_dealloc_inverse (fst demo_heap) (snd demo_heap) demo_layout 100 8 4128 demo_used).
  - exact demo_heap_rep.
  - exact demo_sane.
  - destruct demo_alloc as (m' & k & H & -> & _). exact H.
  - discriminate.
Defined.

(** A double free is caught: freeing the same live pointer twice in a row
    releases it once, and the second call only increments
    [double_free_count]. *)
Theorem double_free_detected h m L p n :
  heap_rep (h, m) L -> live_block h L p n ->
  exists h' m',
    dealloc p (h, m) = (Ret tt, (h', m')) /\
    dealloc p (h', m') = (Ret tt, (add_double_free h', m')).
Proof.
  intros Hrep Hlive. pose proof Hlive as (i & s & l & b & r & Hs & HL & Hb & Hp & Hn).
  destruct (dealloc_others _ _ _ _ _ Hrep Hlive) as (m' & L' & Hrun & Hrep' & Hflag & _).
  exists (after_release (n + 16) h), m'. split; [done|].
  destruct (live_payload _ _ _ _ _ Hrep Hlive) as (Hmod & H0 & _ & Hmax).
  pose proof (heap_seg_rep _ _ _ _ _ Hrep Hs HL) as Hseg.
  pose proof (block_addr_bounds _ _ _ _ _ Hseg) as (? & ? & _).
  pose proof (rep_blocks _ _ _ Hseg) as Hok. apply Forall_app in Hok as [_ Hok].
  apply Forall_cons in Hok as [[? ?] _].
  unfold dealloc, HEADER_SIZE, CHUNK_ALIGN. destruct (Z.eqb_spec p 0); [lia|]. rewrite Hmod.
  cbn [Z.eqb negb]. rewrite usize_small by lia.
  change (live_segments (after_release (n + 16) h))
    with (live_segments (fst (after_release (n + 16) h, m'))).
  rewrite (owner_unique _ _ i s _ Hrep' Hs) by lia. by rewrite Hflag.
Qed.

Lemma double_free_detected_witness : exists h' m',
  dealloc 4128 demo_used = (Ret tt, (h', m')) /\
  dealloc 4128 (h', m') = (Ret tt, (add_double_free h', m')).
Proof.
  apply (double_free_detected (fst demo_used) (snd demo_used) _ 4128 112 demo_used_rep).
  exists O, (mkSegment 4096 8192), [], (mkBlock 128 true), [mkBlock 3936 false].
  split_and!; vm_compute; reflexivity.
Defined.

(** A pointer that cannot be a payload (null, not 16-byte aligned, or in no
    installed segment) is counted as a bad free; nothing else changes. *)
Theorem dealloc_invalid h m L p :
  heap_rep (h, m) L -> 0 <= p < 2 ^ 64 ->
  (p = 0 \/ p mod 16 <> 0 \/
   forall i s, live_segments h !! i = Some s -> ~ (seg_base s + 32 <= p < seg_end s)) ->
  dealloc p (h, m) = (Ret tt, (add_bad_free h, m)).
Proof.
  intros Hrep Hp Hbad. unfold dealloc, CHUNK_ALIGN, HEADER_SIZE.
  destruct (Z.eqb_spec p 0) as [->|Hne]; [done|].
  destruct (Z.eqb_spec (p mod 16) 0) as [Hmod|]; [cbn [negb]|done].
  rewrite usize_small by (Z.to_euclidean_division_equations; lia).
  change (live_segments h) with (live_segments (fst (h, m))).
  rewrite (owner_none _ _ _ Hrep); [done|]. intros i s Hs Hin.
  destruct Hbad as [?|[?|Hout]]; [done|done|]. apply (Hout _ _ Hs). lia.
Qed.

Lemma dealloc_invalid_witness :
  dealloc 4129 demo_heap = (Ret tt, (add_bad_free (fst demo_heap), snd demo_heap)).
Proof.
  apply (dealloc_invalid (fst demo_heap) (snd demo_heap) demo_layout 4129 demo_heap_rep);
    [lia|right; left; discriminate].
Defined.

(** ** The heap as a whole *)

Lemma client_ok_safe h m held :
  client_ok ((h, m), held) ->
  check_invariants (h, m) = Ret true /\ alloc_count h = Z.of_nat (size held) /\
  forall p n, held !! p = Some n ->
    p mod 16 = 0 /\ 16 < p /\ p + n < 2 ^ 64 /\
    forall q k, held !! q = Some k -> p <> q -> p + n <= q \/ q + k <= p.
Proof.
  intros (L & Hrep & Hcount & Hheld). cbn [fst snd] in *. split_and!; [|done|].
  - by eapply check_segments_complete, hr_segs.
  - intros p n Hp. destruct (Hheld _ _ Hp) as (n' & Hl & Hn).
    destruct (live_payload _ _ _ _ _ Hrep Hl) as (? & ? & ? & ?).
    split_and!; [done|lia|lia|]. intros q k Hq Hne. destruct (Hheld _ _ Hq) as (k' & Hlq & Hk).
    destruct (live_apart _ _ _ _ _ _ _ Hrep Hl Hlq Hne); lia.
Qed.

Lemma client_ok_start h m L : heap_rep (h, m) L -> alloc_count h = 0 -> client_ok ((h, m), ∅).
Proof. intros Hrep Hc. exists L. split_and!; [done|done|]. intros p n Hp. cbn [snd] in Hp. by rewrite lookup_empty in Hp. Qed.

(** C1: However a client allocates, frees what it holds and writes inside what
    it holds, the allocator keeps its promises: [check_invariants] accepts, the
    allocation counter is the number of pointers held, and the payloads held
    are aligned, non-null and pairwise disjoint. *)
Theorem heap_client_safe h m L h' m' held :
  heap_rep (h, m) L -> alloc_count h = 0 -> heap_steps ((h, m), ∅) ((h', m'), held) ->
  check_invariants (h', m') = Ret true /\
  alloc_count h' = Z.of_nat (size held) /\
  forall p n, held !! p = Some n ->
    p mod 16 = 0 /\ 16 < p /\ p + n < 2 ^ 64 /\
    forall q k, held !! q = Some k -> p <> q -> p + n <= q \/ q + k <= p.
Proof.
  intros Hrep Hcount Hsteps. apply client_ok_safe, (client_ok_steps _ _ Hsteps). by eapply client_ok_start.
Qed.

Lemma heap_client_safe_witness :
  check_invariants demo_used = Ret true /\ alloc_count (fst demo_used) = 1.
Proof.
  destruct (heap_client_safe (fst demo_heap) (snd demo_heap) demo_layout
              (fst demo_used) (snd demo_used) {[4128 := 100]}) as (H1 & H2 & _).
  - exact demo_heap_rep.
  - reflexivity.
  - eapply steps_cons; [|apply steps_refl]. destruct demo_alloc as (m' & k & H & -> & _).
    eapply step_alloc; [exact demo_sane|exact H|discriminate].
  - split; [exact H1|exact H2].
Defined.

(** [init_region] installs the region, rounded inwards to 16 bytes, as one
    free block of everything but the two sentinels; a region too small for a
    chunk, or a full segment table, changes nothing. *)
Theorem init_region_correct base0 end0 h m L :
  heap_rep (h, m) L -> 0 < base0 -> base0 + 128 < 2 ^ 64 -> 0 <= end0 < 2 ^ 64 ->
  let s := region base0 end0 in
  (forall i si, live_segments h !! i = Some si -> seg_end si <= seg_base s \/ seg_end s <= seg_base si) ->
  sum_over sum_sizes L + bsz (region_block s) < 2 ^ 64 ->
  if decide ((length L < 16)%nat /\ seg_base s + 64 <= seg_end s)
  then heap_rep (init_region base0 end0 (h, m)) (L ++ [[region_block s]])
  else init_region base0 end0 (h, m) = (h, m).
Proof.
  intros Hrep Hb Hb' He s Hdisj Htot.
  destruct (decide _) as [[Hlen Hroom]|Hno]; [by apply init_region_rep; try done; lia|].
  pose proof (hr_count _ _ Hrep) as Hc. cbn [fst] in Hc.
  destruct (decide (length L < 16)%nat) as [Hlen|Hfull].
  - rewrite init_region_run by (try done; try lia; simpl; Z.to_euclidean_division_equations; lia).
    fold s. destruct (Z.ltb_spec (seg_end s) (seg_base s + 64)); [done|]. destruct Hno. lia.
  - unfold init_region, MAX_SEGMENTS. by destruct (Z.leb_spec 16 (seg_count h)); [|lia].
Qed.

Lemma init_region_correct_witness : heap_rep (init_region 4099 8195 (HeapCore_new, ∅))
  [[mkBlock 4048 false]].
Proof.
  apply (init_region_correct 4099 8195 HeapCore_new ∅ [] heap_rep_new);
    [lia|lia|lia|by intros [|i]|by vm_compute].
Defined.
