(* ===== verification/HeapTests.v ===== *)
(** The allocator's test suite ([src/tests/allocator/src/main.rs]), which runs
    the kernel's allocator on the host: arenas, the generator of pseudo-random
    numbers, canaries, and every test as a program that panics where an assert
    fails. Bytes are written through the words that hold them; an arena is its
    base and length, the host's allocator being outside the model. *)

From Stdlib Require Import ZArith Lia.
From stdpp Require Import base numbers list gmap.
From S2P Require Import Prelude Heap.

#[local] Open Scope Z_scope.

Definition ARENA_SIZE : Z := 4 * 1024 * 1024.

Record Arena : Type := mkArena { a_base : Z; a_len : Z }.

(** [raw] is where the host put the backing vector. *)
Definition Arena_new (raw len : Z) : Arena := mkArena (align_up raw CHUNK_ALIGN) len.

Definition contains (a : Arena) (ptr : Z) : bool := (a_base a <=? ptr) && (ptr <? usize (a_base a + a_len a)).

(** ** The generator *)

Definition Lcg_next (s : Z) : Z := u64 (u64 (s * 6364136223846793005) + 1442695040888963407).

Definition Lcg_below (n s : Z) : Z * Z := let s := Lcg_next s in (s mod n, s).

(** ** Canaries *)

Definition canary_seed (ptr seed : Z) : Z := u64 (u64 (ptr * 0x9E3779B97F4A7C15) + seed).

(** The first [k] bytes of the word at [a]. *)
Definition set_bytes (m : memory) (a k v : Z) : memory :=
  store m a (if k =? 8 then v else Z.lor (v mod 2 ^ (8 * k)) (Z.shiftl (Z.shiftr (load m a) (8 * k)) (8 * k))).
Definition get_bytes (m : memory) (a k : Z) : Z := load m a mod 2 ^ (8 * k).

(** [for chunk in bytes.chunks_mut(8)]; [n] chunks are left, of [left] bytes. *)
Fixpoint fill_chunks (n : nat) (a left rng : Z) (m : memory) : memory :=
  match n with
  | O => m
  | S n =>
      let rng := Lcg_next rng in
      fill_chunks n (a + 8) (left - 8) rng (set_bytes m a (Z.min 8 left) rng)
  end.

Fixpoint check_chunks (n : nat) (a left rng : Z) (m : memory) : bool :=
  match n with
  | O => true
  | S n =>
      let rng := Lcg_next rng in
      let k := Z.min 8 left in
      (get_bytes m a k =? rng mod 2 ^ (8 * k)) && check_chunks n (a + 8) (left - 8) rng m
  end.

Definition chunk_count (size : Z) : nat := Z.to_nat ((size + 7) / 8).

Definition fill_canary (ptr size seed : Z) (m : memory) : memory :=
  fill_chunks (chunk_count size) ptr size (canary_seed ptr seed) m.

Definition check_canary (ptr size seed : Z) (m : memory) : bool :=
  check_chunks (chunk_count size) ptr size (canary_seed ptr seed) m.

(** ** Programs on the heap *)

Abbreviation TM := (M (HeapCore * gmap Z Z) Empty_set).

(** A false assertion panics. *)
Definition assert_true (b : bool) : TM unit := if b then ret tt else panic.

Definition assert_invariants : TM unit := fun st =>
  match check_invariants st with
  | Ret true => (Ret tt, st)
  | Ret false => (Panic, st)
  | Err e => match e with end
  | Panic => (Panic, st)
  | Hang => (Hang, st)
  end.

Definition core : TM HeapCore := gets fst.
Definition fill (ptr size seed : Z) : TM unit := modify (fun '(h, m) => (h, fill_canary ptr size seed m)).
Definition assert_canary (ptr size seed : Z) : TM unit :=
  let! m := gets snd in assert_true (check_canary ptr size seed m).

(** [HeapCore::new()], and a region for it. *)
Definition reset : TM unit := modify (fun '(_, m) => (HeapCore_new, m)).
Definition add_region (lo hi : Z) : TM unit := modify (init_region lo hi).
Definition arena_core (a : Arena) : TM unit := do! reset in add_region (a_base a) (usize (a_base a + a_len a)).

(** [for x in l { .. }] with the state of the loop. *)
Fixpoint loop {A B} (f : A -> B -> TM B) (l : list A) (b : B) : TM B :=
  match l with
  | [] => ret b
  | x :: l => let! b := f x b in loop f l b
  end.

Definition each {A} (f : A -> TM unit) (l : list A) : TM unit := loop (fun x _ => f x) l tt.

Definition assert_core (p : HeapCore -> bool) : TM unit := let! h := core in assert_true (p h).

Definition assert_free (n : Z) : TM unit := assert_core (fun h => free_bytes h =? n).
Definition assert_count (n : Z) : TM unit := assert_core (fun h => alloc_count h =? n).

Definition alloc_ok (size align : Z) : TM Z :=
  let! p := alloc (mkLayout size align) in
  do! assert_true (negb (p =? 0)) in
  ret p.

(** [loop { let p = alloc(..); if p.is_null() { break; } .. }]: at most [n]
    turns, each with its check. *)
Fixpoint fill_up (n : nat) (layout : Layout) (f : Z -> TM unit) (ptrs : list Z) : TM (list Z) :=
  match n with
  | O => hang
  | S n =>
      let! p := alloc layout in
      if p =? 0 then ret ptrs else do! f p in fill_up n layout f (ptrs ++ [p])
  end.

(** The pointers whose index is [r] modulo [n]. *)
Definition every (n r : nat) (ptrs : list Z) : list Z :=
  (imap (fun i p => (i, p)) ptrs) ≫= (fun '(i, p) => if (i mod n =? r)%nat then [p] else []).

(** ** The randomized stress test *)

Record Live : Type := mkLive { lv_ptr : Z; lv_size : Z; lv_seed : Z }.

(** [Vec::swap_remove] *)
Definition swap_remove (i : nat) (l : list Live) : list Live :=
  match last l with
  | Some x => removelast (<[i := x]> l)
  | None => l
  end.

Definition stress_size (rng : Z) : Z * Z :=
  let '(kind, rng) := Lcg_below 10 rng in
  let '(n, rng) := Lcg_below (if kind <=? 5 then 256 else if kind <=? 7 then 4096 else 65536) rng in
  (1 + n, rng).

Definition stress_free (live : list Live) (rng : Z) : TM (list Live * Z) :=
  let '(idx, rng) := Lcg_below (Z.of_nat (length live)) rng in
  let! x := or_panic (live !! Z.to_nat idx) in
  do! assert_canary (lv_ptr x) (lv_size x) (lv_seed x) in
  do! dealloc (lv_ptr x) in
  ret (swap_remove (Z.to_nat idx) live, rng).

(** The result is [None] where the source continues with the next turn. *)
Definition stress_alloc (a : Arena) (live : list Live) (rng : Z) : TM (option (list Live) * Z) :=
  let '(size, rng) := stress_size rng in
  let '(ai, rng) := Lcg_below 5 rng in
  let! align := or_panic ([1; 2; 4; 8; 16] !! Z.to_nat ai) in
  let! p := alloc (mkLayout size align) in
  let seed := Lcg_next rng in
  if p =? 0 then ret (None, seed)
  else
    do! assert_true (contains a p) in
    do! assert_true (p mod align =? 0) in
    do! fill p size seed in
    ret (Some (live ++ [mkLive p size seed]), seed).

(** The counters that only a panic's message shows are left out. *)
Definition stress_turn (a : Arena) (it : Z) (st : list Live * Z) : TM (list Live * Z) :=
  let '(live, rng) := st in
  let balance := Z.min (Z.of_nat (length live)) 2000 in
  let '(r, rng) := Lcg_below 100 rng in
  let do_free := negb (length live =? 0)%nat && ((r <? 30) || (1500 <? balance)) in
  let! '(live', rng) :=
    (if do_free then let! '(l, rng) := stress_free live rng in ret (Some l, rng)
     else stress_alloc a live rng) in
  match live' with
  | None => ret (live, rng)
  | Some live =>
      do! (if it mod 4096 =? 0 then assert_invariants else ret tt) in
      ret (live, rng)
  end.

Definition initial_total (h : HeapCore) : Z :=
  foldr (fun s n => usize (usize (usize (seg_end s - seg_base s) - 32) + n)) 0 (live_segments h).

Definition stress (rng : Z) (iterations : nat) (a : Arena) : TM Z :=
  let! '(live, rng) := loop (stress_turn a) (seqZ 0 (Z.of_nat iterations)) ([], rng) in
  do! assert_invariants in
  do! each (fun x => do! assert_canary (lv_ptr x) (lv_size x) (lv_seed x) in dealloc (lv_ptr x)) live in
  do! assert_core (fun h => free_bytes h =? initial_total h) in
  do! assert_count 0 in
  do! assert_core (fun h => double_free_count h =? 0) in
  do! assert_core (fun h => bad_free_count h =? 0) in
  ret rng.

(** One turn of [randomized_stress_bounded], which runs it for five seeds and
    200000 iterations; [raw] is where the host put the arena. *)
Definition stress_seed (raw : Z) (iterations : nat) (seed : Z) : TM unit :=
  let a := Arena_new raw ARENA_SIZE in
  do! arena_core a in
  do! stress seed iterations a in
  assert_invariants.

Definition stress_seeds : list Z := [1; 2; 0x12345678; 0xDEADBEEF; 0xFFFFFFFFFFFFFFFF].

Definition randomized_stress_bounded (raw : Z) : TM unit := each (stress_seed raw (Z.to_nat 200000)) stress_seeds.

(** ** The other tests

    Where a test makes an arena, its program takes the address at which the
    host puts it; the tests that fill an arena also take its size, [1 << 20] in
    the source, and those with many blocks their numbers: 200 and 500 for the
    canaries, 2000 for the two segments. *)

Definition MIB : Z := Z.shiftl 1 20.

Definition init_region_creates_single_free_chunk (raw : Z) : TM unit :=
  let a := Arena_new raw ARENA_SIZE in
  do! arena_core a in
  do! assert_core (fun h => seg_count h =? 1) in
  do! assert_core (fun h => match segments h !! 0%nat with
                            | Some s => (seg_base s =? a_base a) && (seg_end s =? a_base a + ARENA_SIZE)
                            | None => false end) in
  do! assert_free (ARENA_SIZE - 32) in
  do! assert_count 0 in
  do! assert_invariants in
  let! m := gets snd in
  let c := a_base a + PROLOGUE_SIZE in
  do! assert_true (size_of m c =? ARENA_SIZE - 32) in
  do! assert_true (Z.land (flags_of m c) IN_USE =? 0) in
  do! assert_true (negb (Z.land (flags_of m c) PREV_IN_USE =? 0)) in
  assert_true (prev_size_of m (a_base a + ARENA_SIZE - EPILOGUE_SIZE) =? ARENA_SIZE - 32).

Definition init_region_rejects_tiny_regions (raw_a raw_b : Z) : TM unit :=
  let a := a_base (Arena_new raw_a ARENA_SIZE) in
  let b := a_base (Arena_new raw_b ARENA_SIZE) in
  do! reset in
  do! add_region a (a + 16) in
  do! add_region a (a + 63) in
  do! add_region a (a + 64) in
  do! add_region (b + 1) (b + 1000001) in
  do! assert_core (fun h => seg_count h =? 2) in
  let b_base := align_up (b + 1) CHUNK_ALIGN in
  let b_end := Z.land (b + 1000001) (not_mask CHUNK_ALIGN) in
  do! assert_free (32 + (b_end - b_base - 32)) in
  assert_invariants.

(** Twenty arenas, [0x80000] bytes each, one behind the other. *)
Definition segment_exhaustion_ignored (raw : Z) : TM unit :=
  let size := 0x80000 in
  do! reset in
  do! each (fun i => let b := a_base (Arena_new (raw + i * (size + CHUNK_ALIGN)) size) in add_region b (b + size))
        (seqZ 0 (MAX_SEGMENTS + 4)) in
  do! assert_core (fun h => seg_count h =? MAX_SEGMENTS) in
  do! assert_free (MAX_SEGMENTS * (size - 32)) in
  assert_invariants.

Definition alloc_minimum_block (raw : Z) : TM unit :=
  let a := Arena_new raw ARENA_SIZE in
  do! arena_core a in
  let! p := alloc_ok 1 1 in
  do! assert_true (contains a p) in
  do! assert_true (p mod CHUNK_ALIGN =? 0) in
  do! assert_free (ARENA_SIZE - 32 - MIN_CHUNK) in
  do! assert_count 1 in
  do! assert_invariants in
  do! dealloc p in
  do! assert_free (ARENA_SIZE - 32) in
  do! assert_count 0 in
  assert_invariants.

(** How most tests end: nothing is allocated and [(1 << 20) - 32] bytes are
    free. *)
Definition all_free : TM unit :=
  do! assert_count 0 in
  do! assert_free (MIB - 32) in
  assert_invariants.

Definition alloc_payload_alignment (raw : Z) : TM unit :=
  do! arena_core (Arena_new raw MIB) in
  do! each (fun align =>
        let! p := alloc_ok 7 align in
        do! assert_true (p mod align =? 0) in
        dealloc p) [1; 2; 4; 8; 16] in
  all_free.

Definition align_above_16_rejected (raw : Z) : TM unit :=
  do! arena_core (Arena_new raw MIB) in
  do! each (fun align =>
        let! before := gets (fun st => align_fail_count st.1) in
        let! p := alloc (mkLayout 16 align) in
        do! assert_true (p =? 0) in
        assert_core (fun h => align_fail_count h =? before + 1)) [32; 64; 4096] in
  all_free.

Definition zero_size_alloc_ok (raw : Z) : TM unit :=
  do! arena_core (Arena_new raw MIB) in
  let! p := alloc_ok 0 1 in
  do! assert_count 1 in
  do! dealloc p in
  all_free.

Definition overflow_size_returns_null_no_panic (raw : Z) : TM unit :=
  do! arena_core (Arena_new raw MIB) in
  let! p := alloc (mkLayout (Z.land 9223372036854775807 (18446744073709551615 - 7)) 8) in
  do! assert_true (p =? 0) in
  do! assert_count 0 in
  do! assert_core (fun h => oom_count h =? 1) in
  assert_invariants.

(** Payloads stay between the fences. *)
Definition in_fences (a : Arena) (size p : Z) : bool :=
  (a_base a + PROLOGUE_SIZE + CHUNK_ALIGN <=? p) && (p <? a_base a + size - EPILOGUE_SIZE).

Definition oom_when_exhausted_then_recovery (size raw : Z) : TM unit :=
  let a := Arena_new raw size in
  let layout := mkLayout (MIN_CHUNK - 16) 1 in
  do! arena_core a in
  let! ptrs := fill_up (Z.to_nat size) layout (fun p =>
    do! assert_true (contains a p) in
    do! assert_true (p mod CHUNK_ALIGN =? 0) in
    assert_invariants) [] in
  do! assert_true (size - 0x1000 <=? Z.of_nat (length ptrs) * MIN_CHUNK) in
  do! assert_free 0 in
  do! assert_core (fun h => oom_count h =? 1) in
  do! each (fun p =>
        do! assert_true (in_fences a size p) in
        assert_true ((p - PROLOGUE_SIZE - a_base a) mod CHUNK_ALIGN =? 0)) ptrs in
  do! each dealloc (every 2 0 ptrs) in
  let! p := alloc_ok (MIN_CHUNK - 16) 1 in
  do! dealloc p in
  do! each dealloc (every 2 1 ptrs) in
  do! assert_free (size - 32) in
  do! assert_count 0 in
  assert_invariants.

Definition split_and_recoalesce_roundtrip (raw : Z) : TM unit :=
  do! arena_core (Arena_new raw MIB) in
  let! big := alloc_ok 1000 8 in
  do! assert_free (MIB - 32 - 1024) in
  do! assert_invariants in
  let! small := alloc_ok 8 8 in
  do! assert_free (MIB - 32 - 1024 - MIN_CHUNK) in
  do! assert_invariants in
  do! dealloc small in
  do! dealloc big in
  all_free.

(** The scramble: [for i in (1..n).rev() { order.swap(i, rng.below(i + 1)) }]. *)
Fixpoint scramble (i : nat) (order : list nat) (rng : Z) : list nat :=
  match i with
  | O => order
  | S i' =>
      let '(j, rng) := Lcg_below (Z.of_nat i + 1) rng in
      let j := Z.to_nat j in
      let x := default O (order !! i) in
      let y := default O (order !! j) in
      scramble i' (<[j := x]> (<[i := y]> order)) rng
  end.

Definition free_out_of_order_recoalesces (raw : Z) : TM unit :=
  do! arena_core (Arena_new raw MIB) in
  let! '(allocs, rng) := loop (fun _ '(allocs, rng) =>
      let '(k, rng) := Lcg_below 256 rng in
      let! p := alloc_ok (16 + k * 16) 16 in
      ret (allocs ++ [p], rng)) (seqZ 0 64) ([], 0xDEADBEEF) in
  let order := scramble (length allocs - 1) (seq 0 (length allocs)) rng in
  do! each (fun i => let! p := or_panic (allocs !! i) in dealloc p) order in
  do! assert_free (MIB - 32) in
  do! assert_count 0 in
  do! assert_core (fun h => double_free_count h =? 0) in
  assert_invariants.

(** [core.alloc(..)], whatever it returns. *)
Definition alloc_16 (size : Z) : TM Z := alloc (mkLayout size 16).

Definition middle_free_creates_hole_then_reused (raw : Z) : TM unit :=
  do! arena_core (Arena_new raw MIB) in
  let! a := alloc_16 128 in
  let! b := alloc_16 128 in
  let! c := alloc_16 128 in
  do! assert_true ((a <? b) && (b <? c)) in
  do! dealloc b in
  let! b2 := alloc_16 128 in
  do! assert_true (b2 =? b) in
  do! dealloc a in
  do! dealloc b2 in
  do! dealloc c in
  do! assert_free (MIB - 32) in
  assert_invariants.

(** [(i + round) % n == 0] *)
Definition striped (n round : nat) (ptrs : list Z) : list Z :=
  (imap (fun i p => (i, p)) ptrs) ≫= (fun '(i, p) => if ((i + round) mod n =? 0)%nat then [p] else []).

Definition adjacent_free_chunks_never_coexist (raw : Z) : TM unit :=
  do! arena_core (Arena_new raw MIB) in
  let! ptrs := loop (fun _ ptrs => let! p := alloc_ok 64 16 in ret (ptrs ++ [p])) (seqZ 0 48) [] in
  do! each (fun round => do! each dealloc (striped 3 round ptrs) in assert_invariants) (seq 0 6) in
  do! each dealloc ptrs in
  do! assert_free (MIB - 32) in
  do! assert_count 0 in
  assert_invariants.

Definition double_free_detected_test (raw : Z) : TM unit :=
  do! arena_core (Arena_new raw MIB) in
  let! p := alloc_16 32 in
  do! dealloc p in
  let! before := gets (fun st => free_bytes st.1) in
  do! dealloc p in
  do! assert_core (fun h => double_free_count h =? 1) in
  do! assert_free before in
  do! assert_count 0 in
  assert_invariants.

Definition bogus_frees_detected (raw : Z) : TM unit :=
  let a := Arena_new raw MIB in
  do! arena_core a in
  let! p := alloc_16 32 in
  do! dealloc 0 in
  do! dealloc (p + 1) in
  do! dealloc (a_base a + 2) in
  do! dealloc (a_base a) in
  do! dealloc (a_base a + 16) in
  do! dealloc (a_base a + MIB - EPILOGUE_SIZE) in
  do! dealloc (a_base a + MIB) in
  do! dealloc (a_base a + MIB - 32) in
  do! dealloc (a_base a + PROLOGUE_SIZE + 32) in
  let! bad := gets (fun st => bad_free_count st.1) in
  do! assert_core (fun h => double_free_count h =? 3) in
  do! assert_count 1 in
  do! assert_free (MIB - 32 - 48) in
  do! assert_true (bad =? 6) in
  do! dealloc p in
  all_free.

Definition payload_canaries_survive (blocks churn raw : Z) : TM unit :=
  do! arena_core (Arena_new raw MIB) in
  let! '(seeded, rng) := loop (fun _ '(seeded, rng) =>
      let '(k, rng) := Lcg_below 8 rng in
      let size := 8 + k * 16 in
      let seed := Lcg_next rng in
      let! p := alloc_ok size 16 in
      do! fill p size seed in
      ret (seeded ++ [mkLive p size seed], seed)) (seqZ 0 blocks) ([], 0xF00D) in
  let! _ := loop (fun _ rng =>
      let '(k, rng) := Lcg_below 16 rng in
      let size := 8 + k * 16 in
      let! p := alloc_ok size 16 in
      let rng := Lcg_next rng in
      do! fill p size rng in
      do! dealloc p in
      ret rng) (seqZ 0 churn) rng in
  do! each (fun x => assert_canary (lv_ptr x) (lv_size x) (lv_seed x)) seeded in
  do! each (fun x => dealloc (lv_ptr x)) seeded in
  do! assert_free (MIB - 32) in
  assert_invariants.

Definition tiny_block_fragmentation_storm (size raw : Z) : TM unit :=
  let tiny := mkLayout 2 2 in
  do! arena_core (Arena_new raw size) in
  let! live := fill_up (Z.to_nat size) tiny (fun _ => ret tt) [] in
  do! assert_free 0 in
  do! each (fun round =>
        do! each dealloc (striped 2 round live) in
        let! refilled := fill_up (Z.to_nat size) tiny (fun _ => ret tt) [] in
        do! assert_true (0 <? length refilled)%nat in
        assert_invariants) (seq 0 3) in
  do! each dealloc live in
  do! assert_free (size - 32) in
  do! assert_count 0 in
  assert_invariants.

Definition multi_segment_roundtrip (blocks raw_a raw_b : Z) : TM unit :=
  let a := Arena_new raw_a MIB in
  let b := Arena_new raw_b MIB in
  do! reset in
  do! add_region (a_base a) (a_base a + a_len a) in
  do! add_region (a_base b) (a_base b + a_len b) in
  do! assert_core (fun h => seg_count h =? 2) in
  do! assert_free (2 * (MIB - 32)) in
  let! '(ptrs, _) := loop (fun _ '(ptrs, rng) =>
      let '(k, rng) := Lcg_below 50 rng in
      let! p := alloc_ok (8 + k * 16) 8 in
      do! assert_true (contains a p || contains b p) in
      ret (ptrs ++ [p], rng)) (seqZ 0 blocks) ([], 0xABCD) in
  do! assert_invariants in
  do! each dealloc (every 2 0 ptrs) in
  do! assert_invariants in
  do! each dealloc (every 2 1 ptrs) in
  do! assert_free (2 * (MIB - 32)) in
  do! assert_count 0 in
  assert_invariants.

Definition full_fill_preserves_fences (size raw : Z) : TM unit :=
  let a := Arena_new raw size in
  do! arena_core a in
  do! fill_up (Z.to_nat size) (mkLayout (MIN_CHUNK - 16) 8) (fun p =>
    do! fill p (MIN_CHUNK - 16) 0x7777 in
    do! assert_canary p (MIN_CHUNK - 16) 0x7777 in
    assert_true (in_fences a size p)) [] in
  assert_invariants.

Definition suite (size blocks churn many raw raw2 : Z) : list (TM unit) :=
  [init_region_creates_single_free_chunk raw; init_region_rejects_tiny_regions raw raw2;
   segment_exhaustion_ignored raw; alloc_minimum_block raw; alloc_payload_alignment raw;
   align_above_16_rejected raw; zero_size_alloc_ok raw; overflow_size_returns_null_no_panic raw;
   oom_when_exhausted_then_recovery size raw; split_and_recoalesce_roundtrip raw;
   free_out_of_order_recoalesces raw; middle_free_creates_hole_then_reused raw;
   adjacent_free_chunks_never_coexist raw; double_free_detected_test raw; bogus_frees_detected raw;
   payload_canaries_survive blocks churn raw; tiny_block_fragmentation_storm size raw;
   multi_segment_roundtrip many raw raw2; full_fill_preserves_fences size raw].
