(* ===== verification/HeapTestsSpec.v ===== *)
(** The allocator's test suite holds: the randomized stress test for every seed
    and any number of iterations, from the allocator's contract, and the other
    tests by running them. *)

From Stdlib Require Import ZArith Lia.
From stdpp Require Import base numbers list gmap.
From S2P Require Import Prelude Heap HeapSpec HeapAlloc HeapUpdate HeapFree HeapCheck HeapCorrect HeapTests.

#[local] Open Scope Z_scope.

(** ** Canaries *)

Lemma get_set_bytes m a k v : 0 < k <= 8 -> get_bytes (set_bytes m a k v) a k = v mod 2 ^ (8 * k).
Proof.
  intros Hk. unfold get_bytes, set_bytes. rewrite load_store_eq.
  destruct (Z.eqb_spec k 8); [done|]. rewrite <- !Z.land_ones by lia.
  apply Z.bits_inj'. intros i Hi. rewrite !Z.land_spec, Z.lor_spec, Z.land_spec.
  destruct (decide (i < 8 * k)).
  - rewrite Z.ones_spec_low by lia. rewrite Z.shiftl_spec_low by lia. by rewrite orb_false_r, !andb_true_r.
  - rewrite Z.ones_spec_high by lia. by rewrite !andb_false_r.
Qed.

Lemma set_bytes_other m a k v y : y <> a -> load (set_bytes m a k v) y = load m y.
Proof. intros Hy. unfold set_bytes. by rewrite load_store_ne. Qed.

Lemma fill_chunks_other n a left rng m y :
  ~ (a <= y < a + 8 * Z.of_nat n) -> load (fill_chunks n a left rng m) y = load m y.
Proof.
  revert a left rng m. induction n as [|n IH]; intros a left rng m Hy; [done|]. cbn [fill_chunks].
  rewrite IH by lia. apply set_bytes_other. lia.
Qed.

Lemma check_chunks_frame n a left rng m m' :
  (forall y, a <= y < a + 8 * Z.of_nat n -> y mod 8 = a mod 8 -> load m' y = load m y) ->
  check_chunks n a left rng m' = check_chunks n a left rng m.
Proof.
  revert a left rng. induction n as [|n IH]; intros a left rng Hf; [done|]. cbn [check_chunks].
  unfold get_bytes. rewrite (Hf a) by (try done; lia). rewrite IH; [done|].
  intros y Hy Hmod. apply Hf; [lia|]. rewrite Hmod. Z.to_euclidean_division_equations. lia.
Qed.

Lemma fill_check n a left rng m :
  8 * Z.of_nat n < left + 8 -> check_chunks n a left rng (fill_chunks n a left rng m) = true.
Proof.
  revert a left rng m. induction n as [|n IH]; intros a left rng m Hl; [done|]. cbn [check_chunks fill_chunks].
  rewrite IH by lia. rewrite andb_true_r. apply Z.eqb_eq. unfold get_bytes.
  rewrite fill_chunks_other by lia. apply (get_set_bytes m a (Z.min 8 left)). lia.
Qed.

Lemma chunk_count_bound size : 0 < size -> 8 * Z.of_nat (chunk_count size) < size + 8.
Proof. intros Hs. unfold chunk_count. Z.to_euclidean_division_equations. lia. Qed.

(** The addresses of the words of a payload lie inside it. *)
Lemma word_inside size a y :
  0 < size -> a <= y < a + 8 * Z.of_nat (chunk_count size) -> y mod 8 = a mod 8 -> y < a + size.
Proof. intros Hs Hy Hm. pose proof (chunk_count_bound size Hs). Z.to_euclidean_division_equations. lia. Qed.

Lemma check_canary_frame p size k seed m m' :
  0 < size <= k -> (forall y, p <= y < p + k -> load m' y = load m y) ->
  check_canary p size seed m' = check_canary p size seed m.
Proof.
  intros Hs Hf. apply check_chunks_frame. intros y Hy Hm. apply Hf.
  pose proof (word_inside size p y ltac:(lia) Hy Hm). lia.
Qed.

Lemma check_fill p size seed m : 0 < size -> check_canary p size seed (fill_canary p size seed m) = true.
Proof. intros Hs. apply fill_check. by apply chunk_count_bound. Qed.

(** Filling a payload stays inside it. *)
Lemma fill_chunks_rep h m L p k n a left rng :
  heap_rep (h, m) L -> live_block h L p k -> p <= a -> a + 8 * Z.of_nat n < p + k + 8 ->
  heap_rep (h, fill_chunks n a left rng m) L.
Proof.
  intros Hrep Hl. revert a left rng m Hrep. induction n as [|n IH]; intros a left rng m Hrep Ha Hn; [done|].
  cbn [fill_chunks]. apply IH; [|lia|lia]. unfold set_bytes. by apply (write_live h m L p k); [..|lia|lia].
Qed.

(** A payload's words all lie inside it, and its block is a multiple of 16. *)
Lemma fill_other p size k seed m y :
  0 < size <= k -> k mod 16 = 0 -> ~ (p <= y < p + k) -> load (fill_canary p size seed m) y = load m y.
Proof.
  intros Hs Hk Hy. apply fill_chunks_other. pose proof (chunk_count_bound size ltac:(lia)).
  unfold chunk_count in *. Z.to_euclidean_division_equations. lia.
Qed.

Lemma live_mod h m L p k : heap_rep (h, m) L -> live_block h L p k -> k mod 16 = 0.
Proof.
  intros Hrep (i & s & l & b & r & Hs & HL & Hb & -> & ->).
  pose proof (rep_blocks _ _ _ (heap_seg_rep _ _ _ _ _ Hrep Hs HL)) as Hok. apply Forall_app in Hok as [_ Hok].
  apply Forall_cons in Hok as [[? ?] _]. Z.to_euclidean_division_equations. lia.
Qed.

(** ** What the stress test keeps *)

Definition arena_segment (a : Arena) : Segment := mkSegment (a_base a) (a_base a + a_len a).

Definition arena_ok (a : Arena) : Prop :=
  0 < a_base a /\ 64 <= a_len a /\ a_base a + a_len a < 2 ^ 64 /\ a_base a mod 16 = 0 /\ a_len a mod 16 = 0.

(** A live allocation: its block, and its canary. *)
Definition live_ok (h : HeapCore) (m : memory) (L : list (list block)) (x : Live) : Prop :=
  exists k, live_block h L (lv_ptr x) k /\ 0 < lv_size x <= k
    /\ check_canary (lv_ptr x) (lv_size x) (lv_seed x) m = true.

Record stress_ok (a : Arena) (live : list Live) (L : list (list block)) (st : HeapCore * memory) : Prop := {
  so_rep : heap_rep st L;
  so_segment : live_segments st.1 = [arena_segment a];
  so_double : double_free_count st.1 = 0;
  so_bad : bad_free_count st.1 = 0;
  so_count : alloc_count st.1 = Z.of_nat (length live);
  so_fresh : NoDup (lv_ptr <$> live);
  so_live : Forall (live_ok st.1 st.2 L) live;
}.

Lemma stress_ok_perm a live live' L st : live ≡ₚ live' -> stress_ok a live L st -> stress_ok a live' L st.
Proof.
  intros Hp [? ? ? ? Hc Hn Hl]. split; try done.
  - by rewrite Hc, (Permutation_length Hp).
  - by rewrite <- Hp.
  - by rewrite <- Hp.
Qed.

Lemma invariants_run a live L st : stress_ok a live L st -> assert_invariants st = (Ret tt, st).
Proof.
  intros Hs. unfold assert_invariants.
  assert (check_invariants st = Ret true) as -> by (unfold check_invariants; eapply check_segments_complete, hr_segs, Hs).
  done.
Qed.

(** Freeing a live allocation, whose canary is intact. *)
Lemma free_run a x live L st :
  stress_ok a (x :: live) L st ->
  exists L' st', assert_canary (lv_ptr x) (lv_size x) (lv_seed x) st = (Ret tt, st)
    /\ dealloc (lv_ptr x) st = (Ret tt, st') /\ stress_ok a live L' st'.
Proof.
  destruct st as [h m]. intros [Hrep Hseg Hd Hb Hc Hn Hl]. cbn [fst snd] in *.
  apply Forall_cons in Hl as [(k & Hx & Hsz & Hcan) Hl].
  destruct (dealloc_others _ _ _ _ _ Hrep Hx) as (m' & L' & Hrun & Hrep' & _ & Hoth).
  cbn [fmap list_fmap] in Hn. apply NoDup_cons in Hn as [Hnew Hn].
  exists L', (after_release (k + 16) h, m'). split_and!; [|done|].
  - unfold assert_canary, bind, gets. cbn [snd]. by rewrite Hcan.
  - split; cbn [fst snd]; try done.
    + rewrite (alloc_count_released _ _ _ _ _ Hrep Hx), Hc. cbn [length]. lia.
    + apply Forall_forall. intros y Hy. rewrite Forall_forall in Hl. destruct (Hl y Hy) as (ky & Hly & Hsy & Hcy).
      destruct (Hoth _ _ Hly) as [Hly' Hsame].
      { intros Heq. apply Hnew. rewrite <- Heq. by apply list_elem_of_fmap_2. }
      exists ky. split_and!; [done|lia|lia|]. by rewrite (check_canary_frame _ _ ky _ m m').
Qed.

(** A live block of the arena lies in it. *)
Lemma live_inside a h m L p k :
  heap_rep (h, m) L -> live_segments h = [arena_segment a] -> live_block h L p k ->
  a_base a <= p /\ p + k <= a_base a + a_len a.
Proof.
  intros Hrep Hseg (i & s & l & b & r & Hs & HL & Hb & -> & ->).
  pose proof (block_addr_bounds _ _ _ _ _ (heap_seg_rep _ _ _ _ _ Hrep Hs HL)) as (? & ? & _).
  rewrite Hseg in Hs. apply list_lookup_singleton_Some in Hs as [_ <-]. cbn in *. lia.
Qed.

Definition sizes_ok (size align : Z) : Prop := 0 < size <= 65536 /\ align ∈ [1; 2; 4; 8; 16].

Lemma align_cases align : align ∈ [1; 2; 4; 8; 16] -> align = 1 \/ align = 2 \/ align = 4 \/ align = 8 \/ align = 16.
Proof. intros Ha%list_elem_of_In. cbn in Ha. lia. Qed.

Lemma aligned_mod p align : p mod 16 = 0 -> align ∈ [1; 2; 4; 8; 16] -> (p mod align =? 0) = true.
Proof.
  intros Hp Ha. apply Z.eqb_eq. apply Z.mod_divide in Hp as [q ->]; [|lia].
  apply align_cases in Ha. destruct Ha as [->|[->|[->|[->| ->]]]].
  - apply Z.mod_1_r.
  - rewrite (Z.mul_comm q). apply (Z.mod_divide _ 2); [lia|]. exists (8 * q). lia.
  - apply (Z.mod_divide _ 4); [lia|]. exists (4 * q). lia.
  - apply (Z.mod_divide _ 8); [lia|]. exists (2 * q). lia.
  - by apply Z.mod_mul.
Qed.

(** An allocation: null, or a new block, filled with its canary. *)
Lemma alloc_run a size align seed live L st :
  arena_ok a -> stress_ok a live L st -> sizes_ok size align ->
  (exists st', alloc (mkLayout size align) st = (Ret 0, st') /\ stress_ok a live L st')
  \/ exists p L' h' m', alloc (mkLayout size align) st = (Ret p, (h', m')) /\ p <> 0
       /\ contains a p = true /\ (p mod align =? 0) = true
       /\ stress_ok a (live ++ [mkLive p size seed]) L' (h', fill_canary p size seed m').
Proof.
  destruct st as [h m]. intros (Hb0 & Hb1 & Hb2 & _) [Hrep Hseg Hd Hb Hc Hn Hl] [Hsz Hal]. cbn [fst snd] in *.
  assert (align <= 16) as Hal16 by (clear -Hal; apply align_cases in Hal; lia).
  destruct (alloc_request _ _ _ size align Hrep) as [(i & l & b & r & Hfit)|Hnull]; [split_and!; [lia|lia|exact Hal16]| |].
  2: { left. eexists. split; [exact Hnull|]. split; cbn [fst snd]; try done. by apply add_oom_rep. }
  right. destruct (alloc_live _ _ _ size align _ _ _ _ Hrep ltac:(lia) ltac:(lia) Hal16 Hfit)
    as (m' & L' & p & k & Hrun & Hrep' & Hlive & Hk & Hoth).
  destruct (live_payload _ _ _ _ _ Hrep' Hlive) as (Hmod & Hp & _).
  destruct (live_inside a _ _ _ _ _ Hrep' Hseg Hlive) as [Hin1 Hin2].
  eexists p, L', _, m'. split_and!; [exact Hrun|lia| |by apply aligned_mod|].
  { unfold contains. rewrite usize_small by lia. lia. }
  pose proof (live_mod _ _ _ _ _ Hrep' Hlive) as Hkm. pose proof (chunk_count_bound size ltac:(lia)).
  split; cbn [fst snd]; try done.
  - unfold fill_canary. by apply (fill_chunks_rep _ _ _ p k); [..|lia|lia].
  - rewrite (alloc_count_found _ _ _ size _ _ _ _ Hrep ltac:(lia) Hfit), Hc, length_app. cbn [length]. lia.
  - rewrite fmap_app. apply NoDup_app. split_and!; [done| |by apply NoDup_singleton].
    intros q Hq Hqp. apply list_elem_of_singleton in Hqp. cbn in Hqp. subst q.
    apply list_elem_of_fmap in Hq as (x & Hx & Hxin). rewrite Forall_forall in Hl.
    destruct (Hl x Hxin) as (kx & Hlx & Hsx & _). rewrite <- Hx in Hlx. destruct (Hoth _ _ Hlx) as (_ & Hap & _). lia.
  - apply Forall_app. split.
    + eapply Forall_impl; [exact Hl|]. intros x (kx & Hlx & Hsx & Hcx). destruct (Hoth _ _ Hlx) as (Hlx' & Hap & Hsame).
      exists kx. split_and!; [done|lia|lia|]. rewrite (check_canary_frame _ _ kx _ m); [done|lia|].
      intros y Hy. rewrite (fill_other p size k) by (done || lia). by apply Hsame.
    + apply Forall_singleton. exists k. cbn [lv_ptr lv_size lv_seed]. split_and!; [done|lia|lia|]. apply check_fill. lia.
Qed.

(** ** Turns *)

Lemma Lcg_below_range n s : 0 < n -> 0 <= (Lcg_below n s).1 < n.
Proof. intros Hn. by apply Z.mod_pos_bound. Qed.

Lemma stress_size_range rng : 0 < (stress_size rng).1 <= 65536.
Proof.
  unfold stress_size. destruct (Lcg_below 10 rng) as [kind s]. set (n := if kind <=? 5 then _ else _).
  assert (0 < n <= 65536) as Hn by (unfold n; destruct (_ <=? _); [|destruct (_ <=? _)]; lia).
  pose proof (Lcg_below_range n s ltac:(lia)) as Hr. destruct (Lcg_below n s) as [x s']. cbn [fst] in *. lia.
Qed.

Lemma swap_remove_perm i live x : live !! i = Some x -> live ≡ₚ x :: swap_remove i live.
Proof.
  intros Hi. unfold swap_remove. destruct live as [|y l _] using rev_ind; [done|].
  rewrite last_snoc. destruct (decide (i = length l)) as [->|Hne].
  - rewrite lookup_app_r, Nat.sub_diag in Hi by lia. injection Hi as ->.
    rewrite insert_app_r_alt, Nat.sub_diag by lia. cbn. rewrite removelast_last. apply Permutation_app_comm.
  - pose proof (lookup_lt_Some _ _ _ Hi) as Hlt. rewrite length_app in Hlt. cbn in Hlt.
    rewrite lookup_app_l in Hi by lia. rewrite insert_app_l by lia. rewrite removelast_last.
    apply list_elem_of_split_length in Hi as (l1 & l2 & -> & ->).
    rewrite insert_app_r_alt, Nat.sub_diag by lia. cbn.
    rewrite <- app_assoc. cbn. rewrite (Permutation_app_comm l2 [y]). cbn. apply Permutation_sym, Permutation_middle.
Qed.

Lemma stress_free_run a live rng L st :
  stress_ok a live L st -> live <> [] ->
  exists live' rng' L' st', stress_free live rng st = (Ret (live', rng'), st') /\ stress_ok a live' L' st'.
Proof.
  intros Hs Hne. unfold stress_free.
  assert (0 < Z.of_nat (length live)) as Hlen by (destruct live; [done|cbn; lia]).
  pose proof (Lcg_below_range (Z.of_nat (length live)) rng Hlen) as Hr.
  destruct (Lcg_below _ rng) as [idx rng']. cbn [fst] in Hr.
  destruct (lookup_lt_is_Some_2 live (Z.to_nat idx)) as [x Hx]; [lia|].
  pose proof (stress_ok_perm _ _ _ _ _ (swap_remove_perm _ _ _ Hx) Hs) as Hs'.
  destruct (free_run _ _ _ _ _ Hs') as (L' & st' & Hc & Hd & Hs'').
  exists (swap_remove (Z.to_nat idx) live), rng', L', st'. split; [|done].
  rewrite Hx. unfold or_panic. unfold bind at 1. cbn [ret]. run_with Hc. by run_with Hd.
Qed.

Lemma stress_alloc_run a live rng L st :
  arena_ok a -> stress_ok a live L st ->
  exists live' rng' L' st', stress_alloc a live rng st = (Ret (live', rng'), st')
    /\ stress_ok a (default live live') L' st'.
Proof.
  intros Ha Hs. unfold stress_alloc. pose proof (stress_size_range rng) as Hsz.
  destruct (stress_size rng) as [size rng1]. cbn [fst] in Hsz.
  pose proof (Lcg_below_range 5 rng1 ltac:(lia)) as Hai. destruct (Lcg_below 5 rng1) as [ai rng2]. cbn [fst] in Hai.
  destruct (lookup_lt_is_Some_2 [1; 2; 4; 8; 16] (Z.to_nat ai)) as [align Hal]; [cbn; lia|].
  rewrite Hal. unfold or_panic. unfold bind at 1. cbn [ret].
  destruct (alloc_run a size align (Lcg_next rng2) live L st Ha Hs) as [(st' & Hrun & Hs')|(p & L' & h' & m' & Hrun & Hp & Hin & Hmod & Hs')].
  - split; [lia|]. by eapply list_elem_of_lookup_2.
  - exists None, (Lcg_next rng2), L, st'. split; [|done]. by run_with Hrun.
  - eexists (Some _), (Lcg_next rng2), L', _. split; [|exact Hs'].
    run_with Hrun. rewrite (proj2 (Z.eqb_neq p 0) Hp), Hin, Hmod. reflexivity.
Qed.

Lemma stress_turn_run a it live rng L st :
  arena_ok a -> stress_ok a live L st ->
  exists live' rng' L' st', stress_turn a it (live, rng) st = (Ret (live', rng'), st') /\ stress_ok a live' L' st'.
Proof.
  intros Ha Hs. unfold stress_turn. destruct (Lcg_below 100 rng) as [r rng1].
  set (choice := if _ && _ then _ else stress_alloc a live rng1).
  assert (exists o rng' L' st', choice st = (Ret (o, rng'), st') /\ stress_ok a (default live o) L' st')
    as (o & rng' & L' & st' & Hrun & Hs').
  { unfold choice. destruct (Nat.eqb_spec (length live) 0) as [Hz|Hz]; cbn [negb andb]; [by apply (stress_alloc_run a live rng1 L)|].
    destruct ((r <? 30) || _); [|by apply (stress_alloc_run a live rng1 L)].
    destruct (stress_free_run a live rng1 L st Hs) as (l & rng' & L' & st' & Hrun & Hs'); [by intros ->|].
    exists (Some l), rng', L', st'. split; [|done]. by run_with Hrun. }
  run_with Hrun. destruct o as [l|]; cbn [default] in Hs'; [|by exists live, rng', L', st'].
  exists l, rng', L', st'. split; [|done]. destruct (it mod 4096 =? 0); [|done]. by run_with (invariants_run _ _ _ _ Hs').
Qed.

Lemma turns_run a its live rng L st :
  arena_ok a -> stress_ok a live L st ->
  exists live' rng' L' st', loop (stress_turn a) its (live, rng) st = (Ret (live', rng'), st')
    /\ stress_ok a live' L' st'.
Proof.
  intros Ha. revert live rng L st. induction its as [|it its IH]; intros live rng L st Hs; cbn [loop].
  - by exists live, rng, L, st.
  - destruct (stress_turn_run a it live rng L st Ha Hs) as (l1 & rng1 & L1 & st1 & Hrun & Hs1). run_with Hrun. by apply (IH _ _ L1).
Qed.

(** The final sweep frees everything. *)
Lemma sweep_run a live L st :
  stress_ok a live L st ->
  exists L' st', each (fun x => do! assert_canary (lv_ptr x) (lv_size x) (lv_seed x) in dealloc (lv_ptr x)) live st
      = (Ret tt, st') /\ stress_ok a [] L' st'.
Proof.
  unfold each. revert L st. induction live as [|x live IH]; intros L st Hs; cbn [loop]; [by exists L, st|].
  destruct (free_run a x live L st Hs) as (L1 & st1 & Hc & Hd & Hs1).
  destruct (IH L1 st1 Hs1) as (L2 & st2 & Hrun & Hs2). exists L2, st2. split; [|done].
  unfold bind at 1. run_with Hc. rewrite Hd. exact Hrun.
Qed.

Lemma free_all bs : Forall block_ok bs -> used_of bs = 0 -> free_of bs = sum_sizes bs.
Proof.
  induction 1 as [|b bs Hb Hok IH]; [done|]. rewrite used_of_cons, free_of_cons. cbn [sum_sizes foldr].
  pose proof (used_of_bounds bs Hok) as [? _]. destruct (bused b); [lia|]. intros Hu.
  change (foldr _ 0 bs) with (sum_sizes bs). rewrite IH by lia. done.
Qed.

(** Nothing live: everything is free again. *)
Lemma nothing_live a L st :
  stress_ok a [] L st -> free_bytes st.1 = a_len a - 32.
Proof.
  intros [Hrep Hseg _ _ Hc _ _]. pose proof (hr_segs _ _ Hrep) as Hs. rewrite Hseg in Hs.
  apply Forall2_cons_inv_l in Hs as (bs & L0 & Hbs & Hnil & ->). apply Forall2_nil_inv_l in Hnil as ->.
  pose proof (hr_alloc _ _ Hrep) as Hal. rewrite Hc in Hal. cbn in Hal.
  rewrite (hr_free _ _ Hrep). cbn [sum_over foldr]. rewrite (free_all bs) by (first [lia|by eapply rep_blocks]).
  rewrite (seg_rep_total _ _ _ Hbs). cbn. lia.
Qed.

Lemma total_arena a h : arena_ok a -> live_segments h = [arena_segment a] -> initial_total h = a_len a - 32.
Proof.
  intros (Hb & Hl & Hm & _) Hs. unfold initial_total. rewrite Hs. unfold arena_segment. cbn [foldr seg_end seg_base].
  rewrite (usize_small (a_base a + a_len a - a_base a)) by lia. rewrite (usize_small (_ - 32)) by lia. rewrite usize_small by lia. lia.
Qed.

Lemma assert_core_run p st : p st.1 = true -> assert_core p st = (Ret tt, st).
Proof. intros Hp. unfold assert_core, bind, core, gets. by rewrite Hp. Qed.

Lemma stress_run a rng n L st :
  arena_ok a -> stress_ok a [] L st ->
  exists rng' L' st', stress rng n a st = (Ret rng', st') /\ stress_ok a [] L' st'.
Proof.
  intros Ha Hs. unfold stress.
  destruct (turns_run a (seqZ 0 (Z.of_nat n)) [] rng L st Ha Hs) as (live & rng1 & L1 & st1 & R1 & Hs1).
  destruct (sweep_run a live L1 st1 Hs1) as (L2 & st2 & R2 & Hs2). exists rng1, L2, st2. split; [|done].
  run_with R1. cbv beta iota. run_with (invariants_run _ _ _ _ Hs1). run_with R2.
  pose proof (nothing_live _ _ _ Hs2) as Hfree. pose proof (total_arena a st2.1 Ha (so_segment _ _ _ _ Hs2)) as Htot.
  run_with (assert_core_run (fun h => free_bytes h =? initial_total h) st2 (proj2 (Z.eqb_eq _ _) (eq_trans Hfree (eq_sym Htot)))).
  run_with (assert_core_run (fun h => alloc_count h =? 0) st2 (proj2 (Z.eqb_eq _ _) (so_count _ _ _ _ Hs2))).
  run_with (assert_core_run (fun h => double_free_count h =? 0) st2 (proj2 (Z.eqb_eq _ _) (so_double _ _ _ _ Hs2))).
  by run_with (assert_core_run (fun h => bad_free_count h =? 0) st2 (proj2 (Z.eqb_eq _ _) (so_bad _ _ _ _ Hs2))).
Qed.

(** An arena just made. *)
Lemma arena_run a h m :
  arena_ok a ->
  exists L st', arena_core a (h, m) = (Ret tt, st') /\ stress_ok a [] L st'.
Proof.
  intros (Hb & Hl & Hm & Hba & Hla). assert (heap_rep (HeapCore_new, m) []) as Hnew.
  { pose proof heap_rep_new as []. by split. }
  unfold arena_core, reset, add_region, bind, modify. rewrite usize_small by lia.
  assert (HeapCheck.region (a_base a) (a_base a + a_len a) = arena_segment a) as Hr.
  { unfold HeapCheck.region, arena_segment. f_equal; Z.to_euclidean_division_equations; lia. }
  assert (heap_rep (init_region (a_base a) (a_base a + a_len a) (HeapCore_new, m))
            ([] ++ [[region_block (arena_segment a)]])) as Hrep.
  { rewrite <- Hr. apply (init_region_rep (a_base a) (a_base a + a_len a) HeapCore_new m [] Hnew);
      rewrite ?Hr; try (cbn; lia). by intros [|i]. }
  assert (exists n m', init_region (a_base a) (a_base a + a_len a) (HeapCore_new, m)
            = (add_free (push_segment HeapCore_new (arena_segment a)) n, m')) as (n & m' & Heq).
  { rewrite init_region_run by (rewrite ?Hr; cbn; lia). rewrite Hr. cbn [seg_end seg_base arena_segment].
    destruct (Z.ltb_spec (a_base a + a_len a) (a_base a + 64)); [lia|]. by eexists _, _. }
  eexists _, _. split; [reflexivity|]. rewrite Heq in *.
  split; [exact Hrep|reflexivity..|apply NoDup_nil_2|constructor].
Qed.

Lemma Arena_new_ok raw len :
  0 < raw -> 64 <= len -> len mod 16 = 0 -> raw + len + 16 < 2 ^ 64 -> arena_ok (Arena_new raw len).
Proof.
  intros Hr Hl Hm Hmax. unfold arena_ok, Arena_new. cbn [a_base a_len].
  assert (align_up raw CHUNK_ALIGN = (raw + 15) / 16 * 16) as ->.
  { unfold align_up, CHUNK_ALIGN. rewrite (usize_small (raw + 16)), usize_small by lia.
    replace (raw + 16 - 1) with (raw + 15) by lia.
    rewrite (land_high_mask 64 4); [|lia|lia|lia|reflexivity]. change (2 ^ 4) with 16.
    Z.to_euclidean_division_equations. lia. }
  split_and!; [|lia| | |done]; Z.to_euclidean_division_equations; lia.
Qed.

(** ** Properties *)

(** C12: The randomized stress test of the suite passes for any seeds, any number
    of iterations and wherever the host puts the arenas: no assertion on
    invariants, canaries, alignment, bounds or final counters fails. *)
Theorem stress_test_passes raw n seeds st :
  0 < raw -> raw + ARENA_SIZE + 16 < 2 ^ 64 ->
  exists st', each (stress_seed raw n) seeds st = (Ret tt, st').
Proof.
  intros Hr Hmax. unfold each. revert st. induction seeds as [|seed seeds IH]; intros [h m]; cbn [loop]; [by eexists|].
  set (a := Arena_new raw ARENA_SIZE).
  assert (arena_ok a) as Ha by (apply Arena_new_ok; unfold ARENA_SIZE in *; lia || reflexivity).
  destruct (arena_run a h m Ha) as (L & st & Hrun & Hs).
  destruct (stress_run a seed n L st Ha Hs) as (rng & L' & st' & Hrun2 & Hs').
  assert (stress_seed raw n seed (h, m) = (Ret tt, st')) as Hrun3.
  { unfold stress_seed. fold a. run_with Hrun. run_with Hrun2. by apply (invariants_run _ _ _ _ Hs'). }
  run_with Hrun3. apply IH.
Qed.

Lemma stress_test_passes_witness : exists st,
  randomized_stress_bounded 0x7f0000001008 (HeapCore_new, ∅) = (Ret tt, st).
Proof.
  unfold randomized_stress_bounded. apply stress_test_passes.
  - reflexivity.
  - unfold ARENA_SIZE. lia.
Defined.

(** Every other test of the suite passes; the tests that fill an arena run on
    one of 1024 bytes, and those with many blocks with fewer of them. *)
Theorem suite_passes :
  (fun test => fst (test (HeapCore_new, ∅))) <$> suite 1024 8 12 24 5000003 10000007 = replicate 19 (Ret tt).
Proof. vm_compute. reflexivity. Qed.
