(* ===== verification/Memory.v ===== *)
(** The spinlock and the locked kernel heap ([src/src/hal/memory.rs]).

    The lock is a transition system over cores: every core runs [lock] and
    [unlock] one instruction at a time, in any interleaving. The heap behind it
    is [Heap.v]'s, run between the two. *)

From stdpp Require Import base numbers list gmap strings.
From Stdlib Require Import ZArith Lia.
From S2P Require Import Prelude Heap HeapSpec HeapAlloc HeapCheck HeapCorrect.

#[local] Open Scope Z_scope.

(** ** The spinlock

    Where a core stands in [lock] and [unlock]: [GotFlags] has read the
    interrupt flag, [SavedIf] has written it to the lock, [Spinning] has run
    [cli], [Critical] owns the flag, [Released] has cleared it and has yet to
    restore the interrupt flag. *)
Inductive pc : Type :=
| Idle
| GotFlags (if_set : bool)
| SavedIf
| Spinning
| Critical
| Released.

#[global] Instance pc_eq_dec : EqDecision pc.
Proof. solve_decision. Defined.

(** [c_if] is the core's interrupt flag; [c_entry] remembers it as it was when
    [lock] was called (no code reads it). *)
Record core : Type := mkCore { c_pc : pc; c_if : bool; c_entry : bool }.

Record lock_state : Type := mkLock { flag : bool; saved_if : bool; cores : list core }.

(** [SpinLock::new], with [n] cores, all outside the lock. *)
Definition SpinLock_new (ifs : list bool) : lock_state :=
  mkLock false true ((fun i => mkCore Idle i i) <$> ifs).

Definition set_core (i : nat) (c : core) (fl sv : bool) (st : lock_state) : lock_state :=
  mkLock fl sv (<[i := c]> (cores st)).

(** One instruction of core [i]. *)
Definition core_step (i : nat) (st : lock_state) : lock_state :=
  match cores st !! i with
  | None => st
  | Some c =>
      match c_pc c with
      | Idle => set_core i (mkCore (GotFlags (c_if c)) (c_if c) (c_if c)) (flag st) (saved_if st) st
      | GotFlags f => set_core i (mkCore SavedIf (c_if c) (c_entry c)) (flag st) f st
      | SavedIf => set_core i (mkCore Spinning false (c_entry c)) (flag st) (saved_if st) st
      | Spinning =>
          if flag st then st
          else set_core i (mkCore Critical (c_if c) (c_entry c)) true (saved_if st) st
      | Critical => set_core i (mkCore Released (c_if c) (c_entry c)) false (saved_if st) st
      | Released =>
          set_core i (mkCore Idle (if saved_if st then true else c_if c) (c_entry c))
            (flag st) (saved_if st) st
      end
  end.

(** A schedule: which core runs next. *)
Definition run_schedule (sched : list nat) (st : lock_state) : lock_state :=
  fold_left (fun st i => core_step i st) sched st.

(** What the lock maintains. *)
Definition in_critical (st : lock_state) (i : nat) : Prop :=
  exists c, cores st !! i = Some c /\ c_pc c = Critical.

Definition irqs_off (c : core) : Prop :=
  match c_pc c with
  | Spinning | Critical | Released => c_if c = false
  | GotFlags f => f = c_if c
  | _ => True
  end.

Record lock_ok (st : lock_state) : Prop := {
  lock_flag : flag st = true <-> exists i, in_critical st i;
  lock_one : forall i j, in_critical st i -> in_critical st j -> i = j;
  lock_irq : forall i c, cores st !! i = Some c -> irqs_off c;
}.

(** ** The locked heap

    The state behind [LockedHeap]'s lock, and the serial log it writes to. *)
Record log_line : Type := mkLog { log_subsystem : string; log_device : string; log_msg : string }.

Record kernel_heap : Type := mkKernelHeap { kh_core : heap_state; kh_log : list log_line }.

Definition warn (msg : string) (kh : kernel_heap) : kernel_heap :=
  mkKernelHeap (kh_core kh) (kh_log kh ++ [mkLog "KERN" "HEAP" msg]).

Definition locked_alloc (layout : Layout) : M kernel_heap Empty_set Z := fun kh =>
  let failures h := u64 (oom_count h + align_fail_count h) in
  let before := failures (fst (kh_core kh)) in
  let '(result, st) := alloc layout (kh_core kh) in
  let kh := mkKernelHeap st (kh_log kh) in
  match result with
  | Ret p =>
      if failures (fst st) =? before then (Ret p, kh)
      else (Ret p, warn "WARNING: allocation failed" kh)
  | r => (r, kh)
  end.

Definition locked_dealloc (ptr : Z) : M kernel_heap Empty_set unit := fun kh =>
  let failures h := u64 (bad_free_count h + double_free_count h) in
  let before := failures (fst (kh_core kh)) in
  let '(result, st) := dealloc ptr (kh_core kh) in
  let kh := mkKernelHeap st (kh_log kh) in
  match result with
  | Ret u =>
      if failures (fst st) =? before then (Ret u, kh)
      else (Ret u, warn "WARNING: free violation detected" kh)
  | r => (r, kh)
  end.

Definition HEAP_BASE : Z := 2097152.
Definition HEAP_END : Z := 6291456.

(** The heap part of [memory::init]. *)
Definition heap_init (kh : kernel_heap) : kernel_heap :=
  let say msg := mkLog "KERN" "HEAP" msg in
  mkKernelHeap (init_region HEAP_BASE HEAP_END (kh_core kh))
    (kh_log kh ++
     [say "initializing boundary-tag heap 0x200000..0x600000 (4 MiB)";
      say "heap ready: 4,194,304 B free, prologue/epilogue fences armed"]%string).

(** [ptr::write_bytes(start, 0, end - start)] *)
Definition zero_bss (lo hi : Z) (image : Z -> Z) : Z -> Z :=
  fun a => if (lo <=? a) && (a <? hi) then 0 else image a.

(** [memory::init] on the kernel's image and heap, with the linker's symbols for
    the BSS; the allocator's lock is free at boot. *)
Definition memory_init (bss_start bss_end : Z) (st : (Z -> Z) * kernel_heap) : (Z -> Z) * kernel_heap :=
  let '(image, kh) := st in
  let say msg kh := mkKernelHeap (kh_core kh) (kh_log kh ++ [mkLog "KERN" "MEM" msg]) in
  let kh := say "zeroing BSS (6,064 B)"%string kh in
  let image := zero_bss bss_start bss_end image in
  let kh := say "BSS zeroed, kernel image relocated OK"%string kh in
  (image, heap_init kh).

(** ** Steps of the lock *)

Lemma cores_insert (i j : nat) (c d : core) (cs : list core) :
  cs !! i = Some d -> (<[i := c]> cs) !! j = (if decide (i = j) then Some c else cs !! j).
Proof.
  intros Hi. destruct (decide (i = j)) as [<-|Hne].
  - apply list_lookup_insert_eq. by eapply lookup_lt_Some.
  - by apply list_lookup_insert_ne.
Qed.

(** A step that neither enters nor leaves the critical section. *)
Lemma lock_ok_move st i d c sv :
  lock_ok st -> cores st !! i = Some d -> c_pc d <> Critical -> c_pc c <> Critical ->
  irqs_off c -> lock_ok (set_core i c (flag st) sv st).
Proof.
  intros [Hf H1 Hirq] Hd Hpd Hpc Hc.
  assert (forall j, in_critical (set_core i c (flag st) sv st) j <-> in_critical st j) as Heq.
  { intros j. unfold in_critical, set_core. cbn [cores]. rewrite (cores_insert _ _ _ _ _ Hd).
    destruct (decide (i = j)) as [<-|]; [|done].
    split; intros (x & Hx & Hp); simplify_eq. }
  split; cbn [flag].
  - rewrite Hf. by setoid_rewrite Heq.
  - intros j k Hj%Heq Hk%Heq. by apply H1.
  - intros j x. unfold set_core. cbn [cores]. rewrite (cores_insert _ _ _ _ _ Hd).
    destruct (decide (i = j)); intros Hx; [by simplify_eq|by eapply Hirq].
Qed.

Lemma lock_ok_step i st : lock_ok st -> lock_ok (core_step i st).
Proof.
  intros Hok. unfold core_step. destruct (cores st !! i) as [d|] eqn:Hd; [|done].
  pose proof (lock_irq _ Hok _ _ Hd) as Hirq. unfold irqs_off in Hirq.
  destruct (c_pc d) eqn:Hpd; try (eapply lock_ok_move; try done; congruence).
  - destruct (flag st) eqn:Hfl; [done|]. destruct Hok as [Hf H1 Hir].
    assert (forall j, ~ in_critical st j) as Hno
      by (intros j Hj; destruct Hf as [_ Hf]; rewrite Hf in Hfl by eauto; done).
    unfold set_core. split; unfold in_critical; cbn [flag cores].
    + split; [|done]. intros _. exists i. eexists. rewrite (cores_insert _ _ _ _ _ Hd).
      by rewrite decide_True.
    + intros j k (x & Hx & Hpx) (y & Hy & Hpy). 
      rewrite (cores_insert _ _ _ _ _ Hd) in Hx. rewrite (cores_insert _ _ _ _ _ Hd) in Hy.
      destruct (decide (i = j)) as [<-|]; [|by destruct (Hno j); exists x].
      destruct (decide (i = k)) as [<-|]; [done|by destruct (Hno k); exists y].
    + intros j x. rewrite (cores_insert _ _ _ _ _ Hd).
      destruct (decide (i = j)); intros Hx; [by simplify_eq|by eapply Hir].
  - destruct Hok as [Hf H1 Hir].
    assert (in_critical st i) as Hi by (exists d; done).
    unfold set_core. split; unfold in_critical; cbn [flag cores].
    + split; [done|]. intros (j & x & Hx & Hpx). rewrite (cores_insert _ _ _ _ _ Hd) in Hx.
      destruct (decide (i = j)); [by simplify_eq|]. destruct n. apply H1; [done|by exists x].
    + intros j k (x & Hx & Hpx) (y & Hy & Hpy). 
      rewrite (cores_insert _ _ _ _ _ Hd) in Hx. rewrite (cores_insert _ _ _ _ _ Hd) in Hy.
      destruct (decide (i = j)); [by simplify_eq|]. destruct (decide (i = k)); [by simplify_eq|].
      apply H1; [by exists x|by exists y].
    + intros j x. rewrite (cores_insert _ _ _ _ _ Hd).
      destruct (decide (i = j)); intros Hx; [by simplify_eq|by eapply Hir].
Qed.

Lemma lock_ok_new ifs : lock_ok (SpinLock_new ifs).
Proof.
  assert (forall j c, cores (SpinLock_new ifs) !! j = Some c -> c_pc c = Idle) as Hidle.
  { intros j c. cbn [SpinLock_new cores]. rewrite list_lookup_fmap.
    intros Hc. destruct (ifs !! j); by simplify_eq/=. }
  split.
  - split; [done|]. intros (j & c & Hc & Hp). by rewrite (Hidle _ _ Hc) in Hp.
  - intros j k (c & Hc & Hp). by rewrite (Hidle _ _ Hc) in Hp.
  - intros j c Hc. unfold irqs_off. by rewrite (Hidle _ _ Hc).
Qed.

Lemma lock_ok_run sched st : lock_ok st -> lock_ok (run_schedule sched st).
Proof.
  revert st. induction sched as [|i sched IH]; intros st Hok; [done|].
  apply IH, lock_ok_step, Hok.
Qed.

(** A step of a core whose record is known. *)
Lemma core_step_known i fl sv cs c :
  (i < length cs)%nat ->
  core_step i (mkLock fl sv (<[i := c]> cs)) =
  match c_pc c with
  | Idle => mkLock fl sv (<[i := mkCore (GotFlags (c_if c)) (c_if c) (c_if c)]> cs)
  | GotFlags f => mkLock fl f (<[i := mkCore SavedIf (c_if c) (c_entry c)]> cs)
  | SavedIf => mkLock fl sv (<[i := mkCore Spinning false (c_entry c)]> cs)
  | Spinning =>
      if fl then mkLock fl sv (<[i := c]> cs)
      else mkLock true sv (<[i := mkCore Critical (c_if c) (c_entry c)]> cs)
  | Critical => mkLock false sv (<[i := mkCore Released (c_if c) (c_entry c)]> cs)
  | Released => mkLock fl sv (<[i := mkCore Idle (if sv then true else c_if c) (c_entry c)]> cs)
  end.
Proof.
  intros Hi. unfold core_step, set_core. cbn [cores]. rewrite list_lookup_insert_eq by done.
  cbn [flag saved_if]. destruct (c_pc c); rewrite ?list_insert_insert_eq; done.
Qed.

(** ** Properties of the lock *)

(** C17: Mutual exclusion and interrupt masking, for every number of cores and
    every interleaving of their instructions: at most one core is in its
    critical section, the flag is set exactly while one is, and a core that
    spins, owns the lock or is releasing it has interrupts off. *)
Theorem spinlock_exclusion ifs sched :
  let st := run_schedule sched (SpinLock_new ifs) in
  (flag st = true <-> exists i, in_critical st i) /\
  (forall i j, in_critical st i -> in_critical st j -> i = j) /\
  (forall i c, cores st !! i = Some c ->
     c_pc c = Spinning \/ c_pc c = Critical \/ c_pc c = Released -> c_if c = false).
Proof.
  intros st. destruct (lock_ok_run sched _ (lock_ok_new ifs)) as [Hf H1 Hirq].
  split_and!; [done|done|]. intros i c Hc Hp. specialize (Hirq _ _ Hc).
  unfold irqs_off in Hirq. by destruct Hp as [Hp|[Hp|Hp]]; rewrite Hp in Hirq.
Qed.

(** Without contention a critical section is transparent: a core that runs
    [lock] and [unlock] while no other core executes the lock's code gets in at
    the fourth instruction and leaves with the interrupt flag it came with, the
    lock free and every other core as it was. *)
Theorem spinlock_restores st i c :
  flag st = false -> cores st !! i = Some c -> c_pc c = Idle ->
  in_critical (run_schedule [i; i; i; i] st) i /\
  run_schedule [i; i; i; i; i; i] st =
    mkLock false (c_if c) (<[i := mkCore Idle (c_if c) (c_if c)]> (cores st)).
Proof.
  intros Hfl Hc Hp. destruct st as [fl sv cs], c as [p ifl en]. cbn [flag cores c_pc c_if] in *.
  subst fl p. pose proof (lookup_lt_Some _ _ _ Hc) as Hlt.
  unfold run_schedule. cbn [fold_left].
  rewrite <- (list_insert_id cs i _ Hc) at 1 2.
  repeat (rewrite core_step_known by done; cbn [c_pc c_if c_entry]).
  split.
  - unfold in_critical. cbn [cores]. rewrite list_lookup_insert_eq by done. eauto.
  - by destruct ifl.
Qed.

Lemma spinlock_restores_witness :
  run_schedule [1; 1; 1; 1; 1; 1]%nat (SpinLock_new [true; true]) = SpinLock_new [true; true].
Proof.
  apply (spinlock_restores (SpinLock_new [true; true]) 1 (mkCore Idle true true)); reflexivity.
Defined.

(** Under contention the interrupt flag is not restored: [saved_if] is
    written before the flag is acquired, so a second core entering [lock]
    overwrites the holder's saved value, and the holder, which came with
    interrupts on, leaves with them off (and keeps them off). *)
Theorem spinlock_contention_clobbers :
  exists sched c,
    cores (run_schedule sched (SpinLock_new [true; false])) !! 0%nat = Some c /\
    c_pc c = Idle /\ c_entry c = true /\ c_if c = false /\
    flag (run_schedule sched (SpinLock_new [true; false])) = false.
Proof.
  exists [0; 0; 0; 0; 1; 1; 0; 0]%nat, (mkCore Idle false true).
  by split_and!; vm_compute.
Qed.

(** ** The locked heap *)


Lemma failures_moved a b : 0 <= a -> 0 <= b ->
  (u64 (u64 (a + 1) + b) =? u64 (a + b)) = false /\ (u64 (b + u64 (a + 1)) =? u64 (b + a)) = false.
Proof. intros. unfold u64. rewrite !Z.eqb_neq. Z.to_euclidean_division_equations; lia. Qed.

(** The locked allocator is the allocator plus its diagnostics: on a
    request of representable size it returns what [alloc] returns and logs one
    warning exactly when that is null; an over-aligned request is refused with
    a warning; a size that overflows is refused without one. *)
Theorem locked_alloc_correct h m L size align kl :
  heap_rep (h, m) L -> 0 <= oom_count h -> 0 <= align_fail_count h -> 0 <= size < 2 ^ 64 ->
  let kh := mkKernelHeap (h, m) kl in
  let warned := kl ++ [mkLog "KERN" "HEAP" "WARNING: allocation failed"] in
  (16 < align ->
   locked_alloc (mkLayout size align) kh = (Ret 0, mkKernelHeap (add_align_fail h, m) warned)) /\
  (align <= 16 -> 2 ^ 64 <= size + 31 -> locked_alloc (mkLayout size align) kh = (Ret 0, kh)) /\
  (align <= 16 -> size + 32 < 2 ^ 64 ->
   exists p st',
     alloc (mkLayout size align) (h, m) = (Ret p, st') /\
     locked_alloc (mkLayout size align) kh =
       (Ret p, mkKernelHeap st' (if p =? 0 then warned else kl))).
Proof.
  intros Hrep Ho Ha [H0 Hmax] kh warned. split_and!.
  - intros Hal. unfold locked_alloc, kh. cbn [kh_core kh_log].
    rewrite (alloc_over_aligned _ _ _ Hal). cbn [fst snd oom_count align_fail_count add_align_fail].
    destruct (failures_moved (align_fail_count h) (oom_count h) Ha Ho) as [_ ->]. done.
  - intros Hal Hov. unfold locked_alloc, kh. cbn [kh_core kh_log].
    rewrite (alloc_overflow _ _ _ H0 Hal Hov Hmax). by rewrite Z.eqb_refl.
  - intros Hal Hsz. assert (sane_request size align) as Hreq by (by split_and!).
    destruct (alloc_request _ _ _ _ _ Hrep Hreq) as [(i & l & b & r & Hfit)|Hnull].
    + destruct (alloc_live _ _ _ _ align _ _ _ _ Hrep H0 Hsz Hal Hfit)
        as (m' & L' & p & k & Hrun & Hrep' & Hl & _).
      destruct (live_payload _ _ _ _ _ Hrep' Hl) as (_ & ? & _).
      eexists p, _. split; [done|]. unfold locked_alloc, kh. cbn [kh_core kh_log]. rewrite Hrun.
      cbn [fst snd]. unfold after_carve at 1 2. cbn [add_alloc add_free oom_count align_fail_count].
      rewrite Z.eqb_refl. destruct (Z.eqb_spec p 0); [lia|done].
    + eexists 0, _. split; [done|]. unfold locked_alloc, kh. cbn [kh_core kh_log]. rewrite Hnull.
      cbn [fst snd oom_count align_fail_count add_oom].
      destruct (failures_moved (oom_count h) (align_fail_count h) Ho Ha) as [-> _]. done.
Qed.

Lemma locked_alloc_correct_witness : exists p st',
  alloc (mkLayout 100 8) demo_heap = (Ret p, st') /\
  locked_alloc (mkLayout 100 8) (mkKernelHeap demo_heap []) =
    (Ret p, mkKernelHeap st' (if p =? 0 then [mkLog "KERN" "HEAP" "WARNING: allocation failed"] else [])).
Proof.
  destruct (locked_alloc_correct (fst demo_heap) (snd demo_heap) demo_layout 100 8 [] demo_heap_rep)
    as (_ & _ & H); [vm_compute; discriminate|vm_compute; discriminate|lia|].
  apply H; lia.
Defined.

Lemma heap_init_run kl :
  heap_rep (kh_core (heap_init (mkKernelHeap (HeapCore_new, ∅) kl))) [[mkBlock 4194272 false]] /\
  free_bytes (fst (kh_core (heap_init (mkKernelHeap (HeapCore_new, ∅) kl)))) = 4194272 /\
  check_invariants (kh_core (heap_init (mkKernelHeap (HeapCore_new, ∅) kl))) = Ret true.
Proof.
  assert (heap_rep (kh_core (heap_init (mkKernelHeap (HeapCore_new, ∅) kl)))
            [[mkBlock 4194272 false]]) as Hrep.
  { apply (init_region_rep HEAP_BASE HEAP_END HeapCore_new ∅ []);
      [apply heap_rep_new|simpl; lia|by vm_compute|by vm_compute|by vm_compute|by vm_compute|
       by intros [|i]|by vm_compute]. }
  split_and!; [done|by vm_compute|by eapply check_segments_complete, hr_segs].
Qed.

(** The boot heap: [init] on the freshly zeroed allocator installs
    0x200000..0x600000 as a single free block of 4,194,272 bytes, and the
    result passes [check_invariants]; the BSS is zero and no other byte of the
    kernel's image changes. *)
Theorem heap_init_correct lo hi image kl :
  let '(image', kh) := memory_init lo hi (image, mkKernelHeap (HeapCore_new, ∅) kl) in
  heap_rep (kh_core kh) [[mkBlock 4194272 false]] /\
  free_bytes (fst (kh_core kh)) = 4194272 /\
  check_invariants (kh_core kh) = Ret true /\
  forall a, image' a = if decide (lo <= a < hi) then 0 else image a.
Proof.
  unfold memory_init. destruct (heap_init_run ((kl ++ [mkLog "KERN" "MEM" "zeroing BSS (6,064 B)"])
    ++ [mkLog "KERN" "MEM" "BSS zeroed, kernel image relocated OK"])) as (H1 & H2 & H3).
  split_and!; [exact H1|exact H2|exact H3|]. intros a. unfold zero_bss.
  destruct (Z.leb_spec lo a), (Z.ltb_spec a hi), (decide (lo <= a < hi)); cbn; (done || lia).
Qed.
