(* ===== verification/HeapSmp.v ===== *)
(** The kernel heap shared by the cores ([LockedHeap] of [src/src/hal/memory.rs]
    under contention): the instructions of the spinlock and the parts of the
    critical sections interleave in any order, and the requests take effect one
    at a time. *)

From stdpp Require Import base numbers list gmap strings.
From Stdlib Require Import ZArith Lia.
From S2P Require Import Prelude Heap HeapSpec HeapAlloc HeapCheck HeapCorrect HeapTheorems Memory.

#[local] Open Scope Z_scope.

(** ** Cores at the allocator *)

(** A request to the global allocator. *)
Inductive heap_op : Type :=
| OpAlloc (layout : Layout)
| OpDealloc (ptr : Z).

(** The counters that [LockedHeap] reads before and after. *)
Definition failures (op : heap_op) (h : HeapCore) : Z :=
  match op with
  | OpAlloc _ => u64 (oom_count h + align_fail_count h)
  | OpDealloc _ => u64 (bad_free_count h + double_free_count h)
  end.

Definition warning (op : heap_op) : log_line :=
  match op with
  | OpAlloc _ => mkLog "KERN" "HEAP" "WARNING: allocation failed"
  | OpDealloc _ => mkLog "KERN" "HEAP" "WARNING: free violation detected"
  end.

(** The request on the heap; a release returns no pointer. *)
Definition run_op (op : heap_op) : M heap_state Empty_set Z :=
  match op with
  | OpAlloc layout => alloc layout
  | OpDealloc ptr => do! dealloc ptr in ret 0
  end.

(** The request as one piece, with its warning. *)
Definition locked_op (op : heap_op) : M kernel_heap Empty_set Z :=
  match op with
  | OpAlloc layout => locked_alloc layout
  | OpDealloc ptr => do! locked_dealloc ptr in ret 0
  end.

(** Where a core stands between [lock] and the end of the request: [Counted] has
    read the counters, [Loaded] has read the heap, [Applied] has written the
    heap back, [Checked] has read the counters again; [Crashed] has panicked
    and holds the lock. *)
Inductive work : Type :=
| Outside
| Counted (before : Z)
| Loaded (before : Z) (st : heap_state)
| Applied (before : Z) (result : Z)
| Checked (failed : bool) (result : Z)
| Crashed.

(** A core's requests, the first one under way, and those it is done with: the
    result and whether it warned. *)
Record cpu : Type := mkCpu { todo : list heap_op; doing : work; done : list (heap_op * Z * bool) }.

(** A request that took effect: the core, the request, what the heap returned
    and the warning to come. *)
Record entry : Type := mkEntry {
  e_core : nat; e_op : heap_op; e_result : outcome Empty_set Z; e_lines : list log_line;
}.

(** The lock, the cores, the heap behind the lock and the log; [s_hist] lists the
    requests as they took effect (no code reads it). *)
Record system : Type := mkSystem {
  s_lock : lock_state;
  s_cpus : list cpu;
  s_heap : heap_state;
  s_log : list log_line;
  s_hist : list entry;
}.

Definition boot (st : heap_state) (ifs : list bool) (progs : list (list heap_op)) : system :=
  mkSystem (SpinLock_new ifs) ((fun p => mkCpu p Outside []) <$> progs) st [] [].

(** Core [i] runs one instruction of [lock] or [unlock]. *)
Definition lock_instr (i : nat) (s : system) : system :=
  mkSystem (core_step i (s_lock s)) (s_cpus s) (s_heap s) (s_log s) (s_hist s).

Definition set_cpu (i : nat) (c : cpu) (s : system) : system :=
  mkSystem (s_lock s) (<[i := c]> (s_cpus s)) (s_heap s) (s_log s) (s_hist s).

Definition set_work (i : nat) (c : cpu) (w : work) (s : system) : system :=
  set_cpu i (mkCpu (todo c) w (done c)) s.

(** The warning if the counters moved. *)
Definition warnings (op : heap_op) (failed : bool) : list log_line := if failed then [warning op] else [].

(** The request takes effect on the heap that the core has read. *)
Definition apply_op (i : nat) (c : cpu) (op : heap_op) (before : Z) (st : heap_state) (s : system) : system :=
  let '(result, st') := run_op op st in
  let w := match result with Ret p => Applied before p | _ => Crashed end in
  let lines := match result with
               | Ret _ => warnings op (negb (failures op (fst st') =? failures op (fst st)))
               | _ => []
               end in
  let s := set_work i c w s in
  mkSystem (s_lock s) (s_cpus s) st' (s_log s) (s_hist s ++ [mkEntry i op result lines]).

(** The request is over, its warning written. *)
Definition finish (i : nat) (c : cpu) (op : heap_op) (rest : list heap_op) (failed : bool) (result : Z) (s : system) : system :=
  let s := set_cpu i (mkCpu rest Outside (done c ++ [(op, result, failed)])) s in
  mkSystem (s_lock s) (s_cpus s) (s_heap s) (s_log s ++ warnings op failed) (s_hist s).

(** One step of core [i]. *)
Definition sys_step (i : nat) (s : system) : system :=
  match s_cpus s !! i, cores (s_lock s) !! i with
  | Some c, Some k =>
      match c_pc k, doing c, todo c with
      | Idle, Outside, [] => s
      | Idle, Checked failed result, op :: rest => finish i c op rest failed result s
      | Critical, Outside, op :: _ => set_work i c (Counted (failures op (fst (s_heap s)))) s
      | Critical, Counted before, _ => set_work i c (Loaded before (s_heap s)) s
      | Critical, Loaded before st, op :: _ => apply_op i c op before st s
      | Critical, Applied before result, op :: _ =>
          set_work i c (Checked (negb (failures op (fst (s_heap s)) =? before)) result) s
      | Critical, Crashed, _ => s
      | _, _, _ => lock_instr i s
      end
  | _, _ => s
  end.

Definition run_system (sched : list nat) (s : system) : system := fold_left (fun s i => sys_step i s) sched s.

(** ** The sequential heap *)

(** The history, one request after the other, takes the heap from [st] to
    [st']. *)
Fixpoint replays (hist : list entry) (st st' : heap_state) : Prop :=
  match hist with
  | [] => st = st'
  | e :: hist => exists st1, locked_op (e_op e) (mkKernelHeap st []) = (e_result e, mkKernelHeap st1 (e_lines e))
      /\ replays hist st1 st'
  end.

(** What a core did, in its order. *)
Definition record_of (e : entry) := (e_op e, e_result e, e_lines e).
Definition history_of (i : nat) (hist : list entry) : list (heap_op * outcome Empty_set Z * list log_line) :=
  record_of <$> filter (fun e => e_core e = i) hist.

Definition shown (x : heap_op * Z * bool) : heap_op * outcome Empty_set Z * list log_line :=
  let '(op, result, failed) := x in (op, Ret result, warnings op failed).

Definition logged (c : cpu) : list log_line := done c ≫= fun x => (shown x).2.

(** ** The invariant *)

(** A core, with its history and the heap. *)
Definition cpu_ok (c : cpu) (p : pc) (heap : heap_state) (hist : list (heap_op * outcome Empty_set Z * list log_line))
    (prog : list heap_op) : Prop :=
  let past := shown <$> done c in
  (done c).*1.*1 ++ todo c = prog /\
  match doing c, todo c with
  | Outside, [] => p = Idle /\ hist = past
  | Outside, _ :: _ => p <> Released /\ hist = past
  | Counted before, op :: _ => p = Critical /\ hist = past /\ before = failures op (fst heap)
  | Loaded before st, op :: _ => p = Critical /\ hist = past /\ before = failures op (fst heap) /\ st = heap
  | Applied before result, op :: _ =>
      p = Critical /\ hist = past ++ [shown (op, result, negb (failures op (fst heap) =? before))]
  | Checked failed result, op :: _ =>
      (p = Critical \/ p = Released \/ p = Idle) /\ hist = past ++ [shown (op, result, failed)]
  | Crashed, op :: _ => p = Critical /\ exists result lines, hist = past ++ [(op, result, lines)] /\ forall x, result <> Ret x
  | _, [] => False
  end.

Record system_ok (heap0 : heap_state) (progs : list (list heap_op)) (s : system) : Prop := {
  so_lock : lock_ok (s_lock s);
  so_replays : replays (s_hist s) heap0 (s_heap s);
  so_cpus : forall i c, s_cpus s !! i = Some c -> exists k prog,
    cores (s_lock s) !! i = Some k /\ progs !! i = Some prog
    /\ cpu_ok c (c_pc k) (s_heap s) (history_of i (s_hist s)) prog;
  so_log : s_log s ≡ₚ s_cpus s ≫= logged;
}.

(** ** Lemmas *)

Lemma locked_op_run op st r st' :
  run_op op st = (r, st') ->
  locked_op op (mkKernelHeap st []) = (r, mkKernelHeap st' match r with
    | Ret _ => warnings op (negb (failures op (fst st') =? failures op (fst st)))
    | _ => []
    end).
Proof.
  intros R. destruct op as [l|p]; cbn [locked_op failures] in *.
  - unfold locked_alloc. cbn [run_op kh_core kh_log] in *. rewrite R. cbv zeta.
    destruct r; try done. by destruct (_ =? _).
  - unfold bind, locked_dealloc. cbn [run_op kh_core kh_log] in *. unfold bind in R.
    destruct (dealloc p st) as [[[]| | |] st1]; cbn in R; injection R as <- <-; try done. cbv zeta.
    cbn [fst]. by destruct (_ =? _).
Qed.

Lemma replays_snoc hist st st1 e st2 :
  replays hist st st1 -> locked_op (e_op e) (mkKernelHeap st1 []) = (e_result e, mkKernelHeap st2 (e_lines e)) ->
  replays (hist ++ [e]) st st2.
Proof.
  revert st. induction hist as [|x hist IH]; intros st; cbn [replays app].
  - intros <- R. by exists st2.
  - intros (st' & R1 & Hr) R. exists st'. eauto.
Qed.

Lemma history_snoc i hist e :
  history_of i (hist ++ [e]) = if decide (e_core e = i) then history_of i hist ++ [record_of e] else history_of i hist.
Proof.
  unfold history_of. rewrite filter_app, fmap_app. destruct (decide (e_core e = i)) as [He|He].
  - by rewrite filter_cons_True by done.
  - rewrite filter_cons_False by done. by rewrite app_nil_r.
Qed.

(** What one instruction of the lock does to the core that runs it. *)
Definition next_pc (fl : bool) (f : bool) (p : pc) : pc :=
  match p with
  | Idle => GotFlags f
  | GotFlags _ => SavedIf
  | SavedIf => Spinning
  | Spinning => if fl then Spinning else Critical
  | Critical => Released
  | Released => Idle
  end.

Lemma core_step_cores i j st k :
  cores st !! i = Some k ->
  exists k', cores (core_step i st) !! i = Some k' /\ c_pc k' = next_pc (flag st) (c_if k) (c_pc k)
  /\ (j <> i -> cores (core_step i st) !! j = cores st !! j).
Proof.
  intros Hk. pose proof (lookup_lt_Some _ _ _ Hk) as Hlt. unfold core_step. rewrite Hk. unfold set_core.
  destruct (c_pc k) eqn:Hp; try destruct (flag st) eqn:Hf; cbn [cores next_pc];
    try (eexists; split_and!; [by apply list_lookup_insert_eq|done|intros Hne; by apply list_lookup_insert_ne]).
  exists k. by split_and!.
Qed.

(** A core outside its critical section does not depend on the heap. *)
Lemma cpu_ok_heap c p heap heap' hist prog : cpu_ok c p heap hist prog -> p <> Critical -> cpu_ok c p heap' hist prog.
Proof.
  unfold cpu_ok. destruct (doing c), (todo c); try done; intros (? & ? & ?) ?; done.
Qed.

Lemma logged_update cpus i c c' ex :
  cpus !! i = Some c -> logged c' = logged c ++ ex -> <[i := c']> cpus ≫= logged ≡ₚ (cpus ≫= logged) ++ ex.
Proof.
  intros Hi Hl. pose proof (lookup_lt_Some _ _ _ Hi) as Hlt. rewrite insert_take_drop by done.
  rewrite <- (take_drop_middle cpus i c Hi) at 3. rewrite !bind_app, !bind_cons, Hl, <- !app_assoc.
  do 2 apply Permutation_app_head. apply Permutation_app_comm.
Qed.

(** A step of core [i]: what it must show. *)
Lemma system_step_ok heap0 progs i s s' c k c' k' ex :
  system_ok heap0 progs s -> s_cpus s !! i = Some c -> cores (s_lock s) !! i = Some k ->
  lock_ok (s_lock s') -> replays (s_hist s') heap0 (s_heap s') ->
  s_cpus s' = <[i := c']> (s_cpus s) -> cores (s_lock s') !! i = Some k' ->
  (forall j, j <> i -> cores (s_lock s') !! j = cores (s_lock s) !! j /\ history_of j (s_hist s') = history_of j (s_hist s)) ->
  s_heap s' = s_heap s \/ c_pc k = Critical ->
  (forall prog, cpu_ok c (c_pc k) (s_heap s) (history_of i (s_hist s)) prog ->
     cpu_ok c' (c_pc k') (s_heap s') (history_of i (s_hist s')) prog) ->
  s_log s' = s_log s ++ ex -> logged c' = logged c ++ ex ->
  system_ok heap0 progs s'.
Proof.
  intros [Hl Hr Hcpu Hlog] Hi Hk Hl' Hr' Hcs Hk' Hoth Hheap Hc' Hlog' Hlc. split; [done|done| |].
  - intros j cj. rewrite Hcs. destruct (decide (j = i)) as [->|Hne].
    + rewrite list_lookup_insert_eq by (by eapply lookup_lt_Some). intros [= <-].
      destruct (Hcpu i c Hi) as (k0 & prog & Hk0 & Hp & Hok). rewrite Hk in Hk0. injection Hk0 as <-.
      exists k', prog. split_and!; [done|done|by apply Hc'].
    + rewrite list_lookup_insert_ne by done. intros Hj. destruct (Hcpu j cj Hj) as (kj & prog & Hkj & Hp & Hok).
      destruct (Hoth j Hne) as [-> ->]. exists kj, prog. split_and!; [done|done|].
      destruct Hheap as [->|Hcrit]; [done|]. apply (cpu_ok_heap _ _ (s_heap s)); [done|]. intros Hcj.
      apply Hne. apply (lock_one _ Hl); [by exists kj|by exists k].
  - rewrite Hlog', Hcs, Hlog. symmetry. by apply (logged_update _ i c).
Qed.

(** One instruction of the lock. *)
Lemma lock_instr_ok heap0 progs i s c k :
  system_ok heap0 progs s -> s_cpus s !! i = Some c -> cores (s_lock s) !! i = Some k ->
  (forall prog, cpu_ok c (c_pc k) (s_heap s) (history_of i (s_hist s)) prog ->
     cpu_ok c (next_pc (flag (s_lock s)) (c_if k) (c_pc k)) (s_heap s) (history_of i (s_hist s)) prog) ->
  system_ok heap0 progs (lock_instr i s).
Proof.
  intros Hok Hi Hk Hn. destruct (core_step_cores i i _ _ Hk) as (k' & Hk' & Hp & _).
  eapply (system_step_ok heap0 progs i s _ c k c k' []); cbn [lock_instr s_lock s_cpus s_heap s_log s_hist];
    try done.
  - apply lock_ok_step, Hok.
  - apply Hok.
  - by rewrite list_insert_id.
  - intros j Hne. destruct (core_step_cores i j _ _ Hk) as (_ & _ & _ & Hj). auto.
  - by left.
  - by rewrite Hp.
  - by rewrite app_nil_r.
  - by rewrite app_nil_r.
Qed.

(** A step inside the critical section that keeps the heap. *)
Lemma set_work_ok heap0 progs i s c k w :
  system_ok heap0 progs s -> s_cpus s !! i = Some c -> cores (s_lock s) !! i = Some k ->
  (forall prog, cpu_ok c (c_pc k) (s_heap s) (history_of i (s_hist s)) prog ->
     cpu_ok (mkCpu (todo c) w (done c)) (c_pc k) (s_heap s) (history_of i (s_hist s)) prog) ->
  system_ok heap0 progs (set_work i c w s).
Proof.
  intros Hok Hi Hk Hn.
  eapply (system_step_ok heap0 progs i s _ c k _ k []); cbn [set_work set_cpu s_lock s_cpus s_heap s_log s_hist];
    try done; [apply Hok|apply Hok|by left|by rewrite app_nil_r|by rewrite app_nil_r].
Qed.

(** The request takes effect: the history grows by it. *)
Lemma apply_op_ok heap0 progs i s c k op rest before :
  system_ok heap0 progs s -> s_cpus s !! i = Some c -> cores (s_lock s) !! i = Some k ->
  c_pc k = Critical -> doing c = Loaded before (s_heap s) -> todo c = op :: rest ->
  system_ok heap0 progs (apply_op i c op before (s_heap s) s).
Proof.
  intros Hok Hi Hk Hp Hw Ht. unfold apply_op. destruct (run_op op (s_heap s)) as [r st'] eqn:R.
  pose proof (locked_op_run _ _ _ _ R) as Hrun.
  apply (system_step_ok heap0 progs i s _ c k
    (mkCpu (todo c) (match r with Ret p => Applied before p | _ => Crashed end) (done c)) k []); cbn [set_work set_cpu s_lock s_cpus s_heap s_log s_hist]; try done.
  - apply Hok.
  - apply (replays_snoc _ _ (s_heap s)); [apply Hok|exact Hrun].
  - intros j Hne. split; [done|]. rewrite history_snoc. cbn [e_core]. by rewrite decide_False by congruence.
  - by right.
  - intros prog. rewrite history_snoc. cbn [e_core]. rewrite decide_True by done. unfold cpu_ok, record_of.
    rewrite Hw, Ht. cbn [done todo doing e_op e_result e_lines]. intros (? & _ & Hh & Hb & _).
    destruct r as [x|[]| |]; (split_and!; [done|done|]); [by rewrite Hh, Hb|by exists Panic, []; rewrite Hh|by exists Hang, []; rewrite Hh].
  - by rewrite app_nil_r.
  - by rewrite app_nil_r.
Qed.

Lemma finish_ok heap0 progs i s c k op rest failed r :
  system_ok heap0 progs s -> s_cpus s !! i = Some c -> cores (s_lock s) !! i = Some k ->
  c_pc k = Idle -> doing c = Checked failed r -> todo c = op :: rest ->
  system_ok heap0 progs (finish i c op rest failed r s).
Proof.
  intros Hok Hi Hk Hp Hw Ht.
  eapply (system_step_ok heap0 progs i s _ c k _ k (warnings op failed));
    cbn [finish set_cpu s_lock s_cpus s_heap s_log s_hist]; try done; [apply Hok|apply Hok|by left| |].
  - intros prog. unfold cpu_ok. rewrite Hw, Ht, Hp. cbn [done todo doing]. intros (Hpr & _ & Hh).
    rewrite !fmap_app, <- app_assoc. split; [exact Hpr|]. by destruct rest.
  - unfold logged. cbn [done]. by rewrite bind_app, bind_singleton.
Qed.

Lemma sys_step_ok heap0 progs i s : system_ok heap0 progs s -> system_ok heap0 progs (sys_step i s).
Proof.
  intros Hok. unfold sys_step. destruct (s_cpus s !! i) as [c|] eqn:Hi; [|done].
  destruct (so_cpus _ _ _ Hok i c Hi) as (k & prog0 & Hk & _ & Hc0). rewrite Hk. unfold cpu_ok in Hc0.
  destruct (c_pc k) eqn:Hp, (doing c) eqn:Hw, (todo c) as [|op rest] eqn:Ht; try (by exfalso; naive_solver); try done.
  all: try (by eapply lock_instr_ok; [done|done|done|]; rewrite Hp; cbn [next_pc]; unfold cpu_ok; rewrite Hw, Ht;
    intros prog; destruct (flag (s_lock s)); naive_solver).
  all: try (by eapply set_work_ok; [done|done|done|]; rewrite Hp; unfold cpu_ok; rewrite Hw, Ht; cbn [done todo doing];
    naive_solver).
  - by eapply finish_ok.
  - destruct Hc0 as (_ & _ & _ & _ & ->). by eapply apply_op_ok.
Qed.

Lemma run_system_ok heap0 progs sched s : system_ok heap0 progs s -> system_ok heap0 progs (run_system sched s).
Proof.
  revert s. induction sched as [|i sched IH]; intros s Hok; [done|]. cbn [run_system fold_left]. by apply IH, sys_step_ok.
Qed.

Lemma boot_ok heap0 ifs progs : length ifs = length progs -> system_ok heap0 progs (boot heap0 ifs progs).
Proof.
  intros Hlen. split; cbn [boot s_lock s_cpus s_heap s_log s_hist].
  - apply lock_ok_new.
  - done.
  - intros i c. rewrite list_lookup_fmap. destruct (progs !! i) as [prog|] eqn:Hp; [|done]. intros [= <-].
    destruct (lookup_lt_is_Some_2 ifs i) as [b Hb]; [rewrite Hlen; by eapply lookup_lt_Some|].
    exists (mkCore Idle b b), prog. split_and!; [|done|].
    + unfold SpinLock_new. cbn [cores]. by rewrite list_lookup_fmap, Hb.
    + unfold cpu_ok. cbn. by destruct prog.
  - clear Hlen. by induction progs as [|p progs IH]; [|apply IH].
Qed.

(** ** Clients on several cores *)

(** The payloads held after a request. *)
Definition held_after (held : gmap Z Z) (e : entry) : gmap Z Z :=
  match e_op e, e_result e with
  | OpAlloc l, Ret p => if p =? 0 then held else <[p := l_size l]> held
  | OpAlloc _, _ => held
  | OpDealloc p, _ => delete p held
  end.

Definition held_by (hist : list entry) : gmap Z Z := fold_left held_after hist ∅.

(** Every request is of a representable size, and what is freed is held when the
    request takes effect, by whichever core. *)
Fixpoint legal (held : gmap Z Z) (hist : list entry) : Prop :=
  match hist with
  | [] => True
  | e :: hist =>
      match e_op e with
      | OpAlloc l => sane_request (l_size l) (l_align l)
      | OpDealloc p => is_Some (held !! p)
      end /\ legal (held_after held e) hist
  end.

Lemma locked_op_inv op st r st' lines :
  locked_op op (mkKernelHeap st []) = (r, mkKernelHeap st' lines) -> run_op op st = (r, st').
Proof.
  intros R. destruct (run_op op st) as [r0 st0] eqn:R0. rewrite (locked_op_run _ _ _ _ R0) in R. by injection R as <- <- _.
Qed.

(** A legal request returns, and the client's view of the heap stays right. *)
Lemma legal_step st held e st' :
  client_ok (st, held) -> locked_op (e_op e) (mkKernelHeap st []) = (e_result e, mkKernelHeap st' (e_lines e)) ->
  match e_op e with OpAlloc l => sane_request (l_size l) (l_align l) | OpDealloc p => is_Some (held !! p) end ->
  client_ok (st', held_after held e) /\ exists p, e_result e = Ret p.
Proof.
  intros Hok R%locked_op_inv Hlegal. destruct e as [i op r lines]. cbn [e_op e_result e_lines] in *. unfold held_after.
  cbn [e_op e_result]. destruct st as [h m]. pose proof Hok as (L & Hrep & _ & Hheld). cbn [fst snd] in *.
  destruct op as [[size align]|p]; cbn [run_op l_size l_align] in *.
  - destruct (alloc_request _ _ _ _ _ Hrep Hlegal) as [(j & l & b & t & Hfit)|Hnull].
    + pose proof Hlegal as (H0 & H1 & Hal).
      destruct (alloc_live _ _ _ _ align _ _ _ _ Hrep H0 H1 Hal Hfit) as (m' & L' & p & k & Hrun & Hrep' & Hl & _).
      destruct (live_payload _ _ _ _ _ Hrep' Hl) as (_ & ? & _). rewrite R in Hrun. injection Hrun as -> ->.
      destruct (Z.eqb_spec p 0); [lia|]. split; [by eapply client_ok_alloc|by exists p].
    + rewrite R in Hnull. injection Hnull as -> ->. cbn. split; [by eapply client_ok_alloc_null|by exists 0].
  - destruct Hlegal as [n Hp]. destruct (Hheld _ _ Hp) as (k & Hl & _).
    destruct (dealloc_others _ _ _ _ _ Hrep Hl) as (m' & L' & Hrun & _). unfold bind in R. rewrite Hrun in R.
    injection R as <- <-. split; [by eapply client_ok_dealloc|by exists 0].
Qed.

Lemma legal_replays hist st held st' :
  client_ok (st, held) -> replays hist st st' -> legal held hist ->
  client_ok (st', fold_left held_after hist held) /\ Forall (fun e => exists p, e_result e = Ret p) hist.
Proof.
  revert st held. induction hist as [|e hist IH]; intros st held Hok; cbn [replays legal fold_left].
  - intros <- _. by split.
  - intros (st1 & R & Hr) [He Hl]. destruct (legal_step _ _ _ _ Hok R He) as [Hok1 Hret].
    destruct (IH st1 _ Hok1 Hr Hl) as [Hok' Hall]. split; [done|by constructor].
Qed.

(** What a core has done and what it is about to be told. *)
Lemma cpu_ok_pending c p heap hist prog :
  cpu_ok c p heap hist prog ->
  exists pending, (done c).*1.*1 ++ todo c = prog /\ hist = (shown <$> done c) ++ pending /\ (length pending <= 1)%nat
    /\ (doing c = Outside -> pending = []).
Proof.
  intros [Hp Hw].
  assert (hist = (shown <$> done c) \/ doing c <> Outside /\ exists x, hist = (shown <$> done c) ++ [x]) as [->|[Hd [x ->]]].
  { destruct (doing c), (todo c); naive_solver. }
  - exists []. rewrite app_nil_r. split_and!; [done|done|cbn; lia|done].
  - exists [x]. split_and!; [done|done|cbn; lia|done].
Qed.

Lemma crashed_entry c p heap hist prog i es :
  cpu_ok c p heap hist prog -> doing c = Crashed -> hist = history_of i es -> exists e, e ∈ es /\ forall x, e_result e <> Ret x.
Proof.
  intros [_ Hw] Hc Hh. rewrite Hc in Hw. destruct (todo c) as [|op rest]; [done|].
  destruct Hw as (_ & r & lines & He & Hr). rewrite He in Hh.
  assert ((op, r, lines) ∈ history_of i es) as (e & Hre & [_ Hin]%list_elem_of_filter)%list_elem_of_fmap.
  { rewrite <- Hh. apply elem_of_app. right. by apply list_elem_of_singleton. }
  exists e. split; [done|]. injection Hre as _ <- _. exact Hr.
Qed.

(** ** Properties *)

(** C15: The locked heap is linearizable: for any number of cores, any requests
    and any interleaving of their instructions, the requests take effect one
    after the other as [locked_alloc] and [locked_dealloc] do when run alone, each
    core's in its own order; every core gets the results of that sequence, and
    the log has exactly the warnings of the requests that are over. *)
Theorem locked_heap_linearizable heap0 ifs progs sched :
  length ifs = length progs ->
  let s := run_system sched (boot heap0 ifs progs) in
  replays (s_hist s) heap0 (s_heap s) /\
  (forall i c, s_cpus s !! i = Some c -> exists pending,
     progs !! i = Some ((done c).*1.*1 ++ todo c) /\
     history_of i (s_hist s) = (shown <$> done c) ++ pending /\ (length pending <= 1)%nat /\
     (doing c = Outside -> pending = [])) /\
  s_log s ≡ₚ s_cpus s ≫= logged.
Proof.
  intros Hlen s. destruct (run_system_ok heap0 progs sched _ (boot_ok heap0 ifs progs Hlen)) as [_ Hr Hc Hl].
  split_and!; [done| |done]. intros i c Hi. destruct (Hc i c Hi) as (k & prog & _ & -> & Hok).
  destruct (cpu_ok_pending _ _ _ _ _ Hok) as (pending & <- & Hh & Hpend). by exists pending.
Qed.

(** C16: Cores that share the kernel heap and free only what is held keep it
    sound, in every interleaving: no core panics, [check_invariants] accepts, the
    allocation counter is the number of payloads held, and the payloads that the
    cores hold are aligned and pairwise disjoint. *)
Theorem shared_heap_safe h m L ifs progs sched :
  heap_rep (h, m) L -> alloc_count h = 0 -> length ifs = length progs ->
  let s := run_system sched (boot (h, m) ifs progs) in
  legal ∅ (s_hist s) ->
  (forall i c, s_cpus s !! i = Some c -> doing c <> Crashed) /\
  check_invariants (s_heap s) = Ret true /\
  alloc_count (fst (s_heap s)) = Z.of_nat (size (held_by (s_hist s))) /\
  forall p n, held_by (s_hist s) !! p = Some n ->
    p mod 16 = 0 /\ 16 < p /\ p + n < 2 ^ 64 /\
    forall q k, held_by (s_hist s) !! q = Some k -> p <> q -> p + n <= q \/ q + k <= p.
Proof.
  intros Hrep Hcount Hlen s Hlegal. destruct (run_system_ok (h, m) progs sched _ (boot_ok (h, m) ifs progs Hlen)) as [_ Hr Hc _].
  destruct (legal_replays _ _ _ _ (client_ok_start _ _ _ Hrep Hcount) Hr Hlegal) as [Hok Hret]. fold s in Hr, Hc, Hok, Hret.
  split; [|destruct (s_heap s); by apply client_ok_safe].
  intros i c Hi Hw. destruct (Hc i c Hi) as (k & prog & _ & _ & Hcpu).
  destruct (crashed_entry _ _ _ _ _ i (s_hist s) Hcpu Hw eq_refl) as (e & Hin & Hn).
  destruct (proj1 (Forall_forall _ _) Hret e Hin) as [x Hx]. by apply (Hn x).
Qed.

(** ** Two cores *)

(** Two cores allocate; the second comes to the lock while the first holds it,
    and the first frees what the second got. *)
Definition demo_progs : list (list heap_op) :=
  [[OpAlloc (mkLayout 100 8); OpDealloc 4256]; [OpAlloc (mkLayout 50 8)]].
Definition demo_sched : list nat :=
  [0; 0; 0; 0; 1; 1; 1; 1; 0; 0; 1; 0; 0; 1; 0; 1; 0; 0; 1; 1; 1; 1; 1; 1; 1; 0; 0; 0; 0; 0; 0; 0; 0; 0; 0; 0; 0; 0; 0]%nat.
Definition demo_smp : system := run_system demo_sched (boot demo_heap [true; true] demo_progs).

Lemma locked_heap_linearizable_witness :
  replays (s_hist demo_smp) demo_heap (s_heap demo_smp) /\ s_log demo_smp ≡ₚ s_cpus demo_smp ≫= logged.
Proof.
  destruct (locked_heap_linearizable demo_heap [true; true] demo_progs demo_sched) as (H1 & _ & H2); [reflexivity|].
  exact (conj H1 H2).
Defined.

Lemma demo_history : record_of <$> s_hist demo_smp =
  [(OpAlloc (mkLayout 100 8), Ret 4128, []); (OpAlloc (mkLayout 50 8), Ret 4256, []); (OpDealloc 4256, Ret 0, [])].
Proof. vm_compute. reflexivity. Qed.

Lemma demo_legal : legal ∅ (s_hist demo_smp) /\ held_by (s_hist demo_smp) = {[4128 := 100]}.
Proof.
  pose proof demo_history as Hh. unfold held_by.
  destruct (s_hist demo_smp) as [|e1 [|e2 [|e3 [|]]]]; try done. destruct e1, e2, e3. injection Hh as -> -> -> -> -> -> -> -> ->.
  split; [|by vm_compute]. cbn [legal e_op]. split_and!; try (unfold sane_request; cbn; lia). vm_compute. by eexists.
Qed.

Lemma shared_heap_safe_witness :
  check_invariants (s_heap demo_smp) = Ret true /\ held_by (s_hist demo_smp) = {[4128 := 100]}.
Proof.
  pose proof (shared_heap_safe (fst demo_heap) (snd demo_heap) demo_layout [true; true] demo_progs demo_sched) as Hs.
  cbv zeta in Hs.
  assert (run_system demo_sched (boot (fst demo_heap, snd demo_heap) [true; true] demo_progs) = demo_smp) as He
    by (unfold demo_smp; by rewrite <- surjective_pairing).
  rewrite He, <- (surjective_pairing demo_heap) in Hs.
  destruct (Hs demo_heap_rep ltac:(vm_compute; reflexivity) eq_refl (proj1 demo_legal)) as (_ & H & _).
  exact (conj H (proj2 demo_legal)).
Defined.
