(* ===== verification/Block.v ===== *)
(** The block device the file system runs on ([src/src/hal/block.rs]).

    [BlockDevice] is the trait; what the driver relies on is the law class
    [ReliableDevice]; [RamDisk] is an implementation of both, which the
    concrete runs use. *)

From stdpp Require Import base numbers list gmap.
From Stdlib Require Import ZArith Lia.
From S2P Require Import Prelude.

Definition SECTOR_SIZE : nat := 512.

(** A 512-byte sector buffer, [[u8; 512]]. *)
Definition sector (b : list Z) : Prop := length b = SECTOR_SIZE /\ bytes b.

(** [read_sector] is [None] where the source returns [false]; [write_sector]
    returns the source's flag and the device after the attempt. *)
Class BlockDevice (D : Type) : Type := {
  read_sector : D -> Z -> option (list Z);
  write_sector : D -> Z -> list Z -> bool * D;
  sector_count : D -> Z;
}.

(** A device that does not fail inside its bounds. *)
Class ReliableDevice (D : Type) `{BlockDevice D} : Prop := {
  read_valid d lba b : read_sector d lba = Some b -> sector b;
  read_in_range d lba : 0 <= lba < sector_count d -> is_Some (read_sector d lba);
  write_in_range d lba b :
    0 <= lba < sector_count d -> sector b -> fst (write_sector d lba b) = true;
  write_count d lba b : sector_count (snd (write_sector d lba b)) = sector_count d;
  read_written d lba b :
    0 <= lba < sector_count d -> sector b ->
    read_sector (snd (write_sector d lba b)) lba = Some b;
  read_other d lba lba' b :
    lba' <> lba -> read_sector (snd (write_sector d lba b)) lba' = read_sector d lba';
}.

(** ** A RAM disk *)

Record RamDisk : Type := mkRamDisk { rd_count : Z; rd_data : gmap Z (list Z) }.

Definition zero_sector : list Z := replicate SECTOR_SIZE 0.

(** Any list as a sector: cut or zero-padded to 512 bytes. *)
Definition to_sector (b : list Z) : list Z :=
  take SECTOR_SIZE ((u8 <$> b) ++ zero_sector).

Definition rd_in_range (d : RamDisk) (lba : Z) : bool := (0 <=? lba) && (lba <? rd_count d).

#[export] Instance RamDisk_device : BlockDevice RamDisk := {
  read_sector d lba :=
    if rd_in_range d lba then Some (to_sector (default [] (rd_data d !! lba))) else None;
  write_sector d lba b :=
    if rd_in_range d lba then (true, mkRamDisk (rd_count d) (<[lba := b]> (rd_data d)))
    else (false, d);
  sector_count d := rd_count d;
}.

Lemma sector_to_sector b : sector (to_sector b).
Proof.
  unfold to_sector, zero_sector. split.
  - autorewrite with len. lia.
  - apply Forall_take, Forall_app. split.
    + apply Forall_fmap, Forall_true. intros x. apply u8_range.
    + apply Forall_replicate. unfold is_byte. lia.
Qed.

Lemma to_sector_id b : sector b -> to_sector b = b.
Proof.
  intros [Hl Hb]. unfold to_sector.
  assert (u8 <$> b = b) as ->.
  { clear Hl. induction Hb as [|x b Hx Hb IH]; [done|]. cbn. f_equal; [by apply u8_small|done]. }
  rewrite <- Hl. apply take_app_length.
Qed.

Lemma rd_in_range_iff d lba : rd_in_range d lba = true <-> 0 <= lba < rd_count d.
Proof. unfold rd_in_range. lia. Qed.

#[export] Instance RamDisk_reliable : ReliableDevice RamDisk.
Proof.
  split; cbn.
  - intros d lba b. destruct (rd_in_range d lba); intros H; simplify_eq. apply sector_to_sector.
  - intros d lba H. rewrite (proj2 (rd_in_range_iff d lba) H). by eexists.
  - intros d lba b H _. by rewrite (proj2 (rd_in_range_iff d lba) H).
  - intros d lba b. by destruct (rd_in_range d lba).
  - intros d lba b H Hb. rewrite (proj2 (rd_in_range_iff d lba) H). cbn.
    rewrite (proj2 (rd_in_range_iff (mkRamDisk (rd_count d) _) lba) H), lookup_insert_eq.
    f_equal. by apply to_sector_id.
  - intros d lba lba' b Hne. destruct (rd_in_range d lba) eqn:Hr; cbn; [|done].
    unfold rd_in_range. cbn. by rewrite lookup_insert_ne.
Qed.
