(* ===== verification/Fat32.v ===== *)
(** The FAT32 volume layer ([src/src/hal/fat32.rs], lines 1 to 299): the mounted
    volume, the FAT and cluster access. *)

From stdpp Require Import base numbers list gmap.
From Stdlib Require Import ZArith Lia.
From S2P Require Import Prelude Block.

(** ** Errors and constants *)

Inductive FError : Type :=
| FOk | DiskErr | NoFile | NoPath | NotFound | Denied | Exists | Invalid | WriteProtected
| MkfsAborted | Timeout | Locked | NotEnabled | TooManyOpenFiles | InvalidParameter.

#[global] Instance FError_eq_dec : EqDecision FError.
Proof. solve_decision. Defined.

Definition FA_READ : Z := 1.
Definition FA_WRITE : Z := 2.
Definition FA_CREATE_NEW : Z := 4.
Definition FA_CREATE_ALWAYS : Z := 8.
Definition FA_OPEN_ALWAYS : Z := 16.

Definition ATTR_VOLUME : Z := 8.
Definition ATTR_DIRECTORY : Z := 16.
Definition ATTR_ARCHIVE : Z := 32.
Definition ATTR_LFN : Z := 15.

(** End of chain: every test is [>= END_OF_CHAIN]; chains are closed with
    [CHAIN_END]. *)
Definition END_OF_CHAIN : Z := 268435448.
Definition CHAIN_END : Z := 268435455.

(** [clu >= 2 && clu < 0xFFFFFF8]. *)
Definition is_cluster (clu : Z) : bool := (2 <=? clu) && (clu <? END_OF_CHAIN).

(** ** The volume and the world around it *)

(** [FatVolume], less the device reference and the unused [sector_buf]. *)
Record FatVolume : Type := mkVol {
  sectors_per_cluster : Z;
  reserved_sectors : Z;
  num_fats : Z;
  sectors_per_fat : Z;
  root_cluster : Z;
  data_region_lba : Z;
  fat_region_lba : Z;
}.

(** The statics of the driver ([VOL], [CWD_CLUSTER], [CWD_PATH], the buffer of
    [f_sync]), the device and the interrupt flag. The strings [f_mount] prints
    before it fails are left out. *)
Record World (D : Type) : Type := mkWorld {
  w_dev : D;
  w_vol : option FatVolume;
  w_cwd_cluster : Z;
  w_cwd_path : list Z;
  w_sync_buf : list Z;
  w_if : bool;
}.
Arguments mkWorld {D}.
Arguments w_dev {D}.
Arguments w_vol {D}.
Arguments w_cwd_cluster {D}.
Arguments w_cwd_path {D}.
Arguments w_sync_buf {D}.
Arguments w_if {D}.

Definition set_dev {D} (d : D) (w : World D) : World D :=
  mkWorld d (w_vol w) (w_cwd_cluster w) (w_cwd_path w) (w_sync_buf w) (w_if w).
Definition set_vol {D} (v : option FatVolume) (w : World D) : World D :=
  mkWorld (w_dev w) v (w_cwd_cluster w) (w_cwd_path w) (w_sync_buf w) (w_if w).
Definition set_cwd_cluster {D} (c : Z) (w : World D) : World D :=
  mkWorld (w_dev w) (w_vol w) c (w_cwd_path w) (w_sync_buf w) (w_if w).
Definition set_cwd_path {D} (p : list Z) (w : World D) : World D :=
  mkWorld (w_dev w) (w_vol w) (w_cwd_cluster w) p (w_sync_buf w) (w_if w).
Definition set_sync_buf {D} (b : list Z) (w : World D) : World D :=
  mkWorld (w_dev w) (w_vol w) (w_cwd_cluster w) (w_cwd_path w) b (w_if w).
Definition set_if {D} (i : bool) (w : World D) : World D :=
  mkWorld (w_dev w) (w_vol w) (w_cwd_cluster w) (w_cwd_path w) (w_sync_buf w) i.

(** Bytes of a cluster buffer. *)
Definition cluster_size (v : FatVolume) : nat := (Z.to_nat (sectors_per_cluster v) * SECTOR_SIZE)%nat.

(** [u16::from_le_bytes([b[i], b[i + 1]])] and the 32-bit version. *)
Definition le16_at (b : list Z) (i : nat) : Z := le_val (take 2 (drop i b)).
Definition le32_at (b : list Z) (i : nat) : Z := le_val (take 4 (drop i b)).

(** [spc.is_power_of_two()] on a byte. *)
Definition is_power_of_two (z : Z) : bool := Z.land z (z - 1) =? 0.

(** ** The volume layer *)

Section Volume.
Context {D : Type} `{BlockDevice D}.
#[local] Abbreviation FAT := (M (World D) FError).

Definition dev_read (lba : Z) : FAT (list Z) := fun w =>
  match read_sector (w_dev w) lba with
  | Some b => (Ret b, w)
  | None => (Err DiskErr, w)
  end.

Definition dev_write (lba : Z) (b : list Z) : FAT unit := fun w =>
  let '(ok, d) := write_sector (w_dev w) lba b in
  (if ok : bool then Ret tt else Err DiskErr, set_dev d w).

(** [cwd_init]. *)
Definition cwd_init : FAT unit :=
  modify (fun w => set_cwd_path (47 :: replicate 255 0) (set_cwd_cluster 2 w)).

(** The checks of [f_mount] on the boot sector, in order. *)
Definition parse_bpb (buf : list Z) : FatVolume + FError :=
  if negb (byte_at buf 510 =? 85) || negb (byte_at buf 511 =? 170) then inr MkfsAborted
  else if negb (le16_at buf 11 =? 512) then inr Invalid
  else
    let spc := byte_at buf 13 in
    if (spc =? 0) || negb (is_power_of_two spc) then inr Invalid
    else
      let reserved := le16_at buf 14 in
      let nfats := byte_at buf 16 in
      let root_ent_cnt := le16_at buf 17 in
      let fatsz := le32_at buf 36 in
      let root := le32_at buf 44 in
      if negb (root_ent_cnt =? 0) || (fatsz =? 0) then inr Invalid
      else inl (mkVol spc reserved nfats fatsz root
                  (u32 (reserved + u32 (nfats * fatsz))) reserved).

Definition f_mount : FAT unit :=
  let! dev := gets w_dev in
  if sector_count dev =? 0 then throw DiskErr
  else
    let! buf := dev_read 0 in
    match parse_bpb buf with
    | inr e => throw e
    | inl v => do! modify (set_vol (Some v)) in cwd_init
    end.

Definition f_unmount : FAT unit := modify (set_vol None).

Definition with_vol {A} (f : FatVolume -> FAT A) : FAT A := fun w =>
  match w_vol w with
  | Some v => f v w
  | None => (Err NotEnabled, w)
  end.

Definition cluster_to_lba (v : FatVolume) (cluster : Z) : Z :=
  u32 (data_region_lba v + u32 (u32 (cluster - 2) * sectors_per_cluster v)).

(** The sector and the byte offset of a FAT entry. *)
Definition fat_sector (v : FatVolume) (cluster : Z) : Z :=
  u32 (fat_region_lba v + u32 (cluster * 4) / 512).
Definition fat_offset (cluster : Z) : nat := Z.to_nat (u32 (cluster * 4) mod 512).

Definition read_fat_entry (v : FatVolume) (cluster : Z) : FAT Z :=
  let! buf := dev_read (fat_sector v cluster) in
  ret (Z.land (le32_at buf (fat_offset cluster)) 268435455).

(** The sector with the entry replaced, its four reserved bits kept. *)
Definition merge_entry (buf : list Z) (off : nat) (val : Z) : list Z :=
  let masked := Z.land val 268435455 in
  let merged := Z.lor (Z.land (le32_at buf off) 4026531840) masked in
  splice off (le_bytes 4 merged) buf.

(** [for fat_idx in 0..self.num_fats], from [fat_idx] on. *)
Fixpoint write_fats (n : nat) (v : FatVolume) (fat_idx sector : Z) (buf : list Z) : FAT unit :=
  match n with
  | O => ret tt
  | S n =>
      let fat_start := u32 (fat_region_lba v + u32 (fat_idx * sectors_per_fat v)) in
      do! dev_write (u32 (u32 (fat_start + sector) - fat_region_lba v)) buf in
      write_fats n v (fat_idx + 1) sector buf
  end.

Definition write_fat_entry (v : FatVolume) (cluster val : Z) : FAT unit :=
  let sector := fat_sector v cluster in
  let! buf := dev_read sector in
  write_fats (Z.to_nat (num_fats v)) v 0 sector (merge_entry buf (fat_offset cluster) val).

(** [n] consecutive sectors from [lba] on. *)
Fixpoint read_sectors (n : nat) (lba : Z) : FAT (list Z) :=
  match n with
  | O => ret []
  | S n =>
      let! b := dev_read lba in
      let! rest := read_sectors n (u32 (lba + 1)) in
      ret (b ++ rest)
  end.

Definition read_cluster (v : FatVolume) (cluster : Z) : FAT (list Z) :=
  read_sectors (Z.to_nat (sectors_per_cluster v)) (cluster_to_lba v cluster).

Fixpoint write_sectors (n : nat) (lba : Z) (buf : list Z) : FAT unit :=
  match n with
  | O => ret tt
  | S n =>
      do! dev_write lba (take SECTOR_SIZE buf) in
      write_sectors n (u32 (lba + 1)) (drop SECTOR_SIZE buf)
  end.

Definition write_cluster (v : FatVolume) (cluster : Z) (buf : list Z) : FAT unit :=
  write_sectors (Z.to_nat (sectors_per_cluster v)) (cluster_to_lba v cluster) buf.

(** One past the last entry of the FAT. *)
Definition max_cluster (v : FatVolume) : Z := u32 (sectors_per_fat v * 512) / 4.

(** [for c in c..c + n]: the first entry that is 0. *)
Fixpoint scan_free (n : nat) (v : FatVolume) (c : Z) : FAT Z :=
  match n with
  | O => throw MkfsAborted
  | S n =>
      let! e := read_fat_entry v c in
      if e =? 0 then ret c else scan_free n v (c + 1)
  end.

Definition find_free_cluster (v : FatVolume) : FAT Z :=
  scan_free (Z.to_nat (max_cluster v - 2)) v 2.

Fixpoint scan_count (n : nat) (v : FatVolume) (c count : Z) : FAT Z :=
  match n with
  | O => ret count
  | S n =>
      let! e := read_fat_entry v c in
      scan_count n v (c + 1) (if e =? 0 then u32 (count + 1) else count)
  end.

Definition count_free_clusters (v : FatVolume) : FAT Z :=
  scan_count (Z.to_nat (max_cluster v - 2)) v 2 0.

(** The loop that frees a chain, written out in [f_open], [f_truncate] and
    [f_unlink]. *)
Fixpoint free_chain (fuel : nat) (v : FatVolume) (clu : Z) : FAT unit :=
  match fuel with
  | O => hang
  | S fuel =>
      if is_cluster clu then
        let! next := read_fat_entry v clu in
        do! write_fat_entry v clu 0 in
        free_chain fuel v next
      else ret tt
  end.

(** [find_free_cluster] and closing the new cluster's chain, the allocation
    sequence of [f_open], [f_write], [f_expand] and [f_mkdir]. *)
Definition alloc_cluster (v : FatVolume) : FAT Z :=
  let! c := find_free_cluster v in
  do! write_fat_entry v c CHAIN_END in
  ret c.

Definition f_getfree : FAT (Z * Z) :=
  with_vol (fun v =>
    let! free := count_free_clusters v in
    ret (free, u32 (max_cluster v - 2))).
End Volume.
