(* ===== verification/Fat32Dir.v ===== *)
(** FAT32 directories ([src/src/hal/fat32.rs]): names, the search for an entry,
    paths, and the operations on directory entries. *)

From stdpp Require Import base numbers list gmap.
From Stdlib Require Import ZArith Lia.
From S2P Require Import Prelude Block Fat32.

Definition SPACE : Z := 32.
Definition DOT : Z := 46.
Definition SLASH : Z := 47.

(** ** 8.3 names *)

(** [while j < n && entry[j] != b' ' && entry[j] != 0]. *)
Fixpoint take_name (l : list Z) : list Z :=
  match l with
  | [] => []
  | b :: l' => if (b =? SPACE) || (b =? 0) then [] else b :: take_name l'
  end.

(** [read_dir_entry_name]: the 13-byte, NUL-padded name. *)
Definition read_dir_entry_name (entry : list Z) : option (list Z) :=
  let base := take_name (take 8 entry) in
  let ext_byte := byte_at entry 8 in
  let name :=
    if negb (ext_byte =? SPACE) && negb (ext_byte =? 0)
    then base ++ DOT :: take_name (take 3 (drop 8 entry))
    else base in
  if decide (name = []) then None else Some (name ++ replicate (13 - length name) 0).

(** The comparison of [find_entry_in_dir]: the target against the first
    [target.len()] bytes of the name; [None] is the panic past byte 13. *)
Fixpoint name_matches (name target : list Z) {struct target} : option bool :=
  match target with
  | [] => Some true
  | t :: target' =>
      match name with
      | [] => None
      | n :: name' => if eq_ignore_ascii_case n t then name_matches name' target' else Some false
      end
  end.

(** The name field written by [f_open] and [f_rename]: the first dot splits the
    name, at most eight and three bytes are kept, space-filled. *)
Definition pad (n : nat) (l : list Z) : list Z := l ++ replicate (n - length l) SPACE.

Definition encode_name (name : list Z) : list Z :=
  let dot := position (Z.eqb DOT) name in
  let name_end := Nat.min (default (length name) dot) 8 in
  let ext := match dot with Some d => take 3 (drop (d + 1) name) | None => [] end in
  pad 8 (take name_end name) ++ pad 3 ext.

(** ** Entries of a directory cluster *)

Definition entry_at (buf : list Z) (k : nat) : list Z := take 32 (drop (32 * k) buf).

Definition entry_start (e : list Z) : Z := le_val (take 2 (drop 26 e) ++ take 2 (drop 20 e)).
Definition entry_size (e : list Z) : Z := le32_at e 28.
Definition entry_attr (e : list Z) : Z := byte_at e 11.

(** Long-name entries and volume labels, which every scan skips. *)
Definition is_hidden (attr : Z) : bool := (attr =? ATTR_LFN) || negb (Z.land attr ATTR_VOLUME =? 0).

(** The scan of one cluster buffer: a match at entry [k], the end marker, no
    match in the cluster, or the panic of the comparison. *)
Inductive scan_result : Type :=
| ScanFound (k : nat)
| ScanEnd
| ScanNext
| ScanPanic.

Fixpoint scan_entries (n k : nat) (target buf : list Z) : scan_result :=
  match n with
  | O => ScanNext
  | S n =>
      let e := entry_at buf k in
      if is_hidden (entry_attr e) then scan_entries n (S k) target buf
      else if byte_at e 0 =? 0 then ScanEnd
      else if byte_at e 0 =? 229 then scan_entries n (S k) target buf
      else
        match read_dir_entry_name e with
        | None => scan_entries n (S k) target buf
        | Some name =>
            match name_matches name target with
            | None => ScanPanic
            | Some true => ScanFound k
            | Some false => scan_entries n (S k) target buf
            end
        end
  end.

(** The first entry whose first byte is 0 or 0xE5. *)
Fixpoint find_slot (n k : nat) (buf : list Z) : option nat :=
  match n with
  | O => None
  | S n =>
      let b := byte_at buf (32 * k) in
      if (b =? 0) || (b =? 229) then Some k else find_slot n (S k) buf
  end.

Definition entries_per_cluster (v : FatVolume) : nat := (cluster_size v / 32)%nat.

(** [buf[off + i..off + i + 2].copy_from_slice(&x.to_le_bytes())]. *)
Definition put16 (i : nat) (x : Z) (buf : list Z) : list Z := splice i (le_bytes 2 x) buf.

(** The two halves of a start cluster in the entry at [off]. *)
Definition put_cluster (off : nat) (c : Z) (buf : list Z) : list Z :=
  put16 (off + 20) (Z.shiftr c 16) (put16 (off + 26) (Z.land c 65535) buf).

(** ** Paths *)

(** [path.trim_start_matches('/')]. *)
Fixpoint trim_slashes (p : list Z) : list Z :=
  match p with
  | [] => []
  | b :: p' => if b =? SLASH then trim_slashes p' else p
  end.

(** [path.split('/')]. *)
Fixpoint split_slash (p : list Z) : list (list Z) :=
  match p with
  | [] => [[]]
  | b :: p' =>
      if b =? SLASH then [] :: split_slash p'
      else
        match split_slash p' with
        | [] => [[b]]
        | c :: cs => (b :: c) :: cs
        end
  end.

Section Directory.
Context {D : Type} `{BlockDevice D}.
(** Fuel for every walk along a cluster chain. *)
Context (fuel : nat).
#[local] Abbreviation FAT := (M (World D) FError).

Fixpoint find_in_chain (fuel : nat) (v : FatVolume) (cluster : Z) (target : list Z)
  : FAT (option (Z * nat)) :=
  match fuel with
  | O => hang
  | S fuel =>
      if is_cluster cluster then
        let! buf := read_cluster v cluster in
        match scan_entries (entries_per_cluster v) 0 target buf with
        | ScanFound k => ret (Some (cluster, k))
        | ScanEnd => ret None
        | ScanPanic => panic
        | ScanNext => let! next := read_fat_entry v cluster in find_in_chain fuel v next target
        end
      else ret None
  end.

Definition find_entry_in_dir (v : FatVolume) (dir_cluster : Z) (target : list Z)
  : FAT (option (Z * nat)) := find_in_chain fuel v dir_cluster target.

Definition read_entry_data (v : FatVolume) (dir_cluster : Z) (entry_idx : nat) : FAT (list Z) :=
  let! buf := read_cluster v dir_cluster in
  or_panic (slice (32 * entry_idx) 32 buf).

(** The loop of [resolve_path] over the components. *)
Fixpoint walk_path (v : FatVolume) (cluster : Z) (last : list Z) (cs : list (list Z))
  : FAT (Z * list Z) :=
  match cs with
  | [] => ret (cluster, last)
  | c :: rest =>
      if decide (c = []) then walk_path v cluster last rest
      else
        match rest with
        | [] => walk_path v cluster c rest
        | _ =>
            let! found := find_entry_in_dir v cluster c in
            match found with
            | None => throw NoPath
            | Some (dir_cluster, idx) =>
                let! entry := read_entry_data v dir_cluster idx in
                walk_path v (entry_start entry) last rest
            end
        end
  end.

Definition resolve_path (v : FatVolume) (path : list Z) : FAT (Z * list Z) :=
  let path := trim_slashes path in
  if decide (path = []) then ret (root_cluster v, [])
  else walk_path v (root_cluster v) [] (split_slash path).

(** The loop that looks for a slot along a directory, of [f_open], [f_mkdir]
    and [f_rename]: the cluster, the entry index and the cluster's buffer. *)
Fixpoint slot_in_chain (fuel : nat) (v : FatVolume) (cluster : Z) : FAT (Z * nat * list Z) :=
  match fuel with
  | O => hang
  | S fuel =>
      let! buf := read_cluster v cluster in
      match find_slot (entries_per_cluster v) 0 buf with
      | Some k => ret (cluster, k, buf)
      | None =>
          let! next := read_fat_entry v cluster in
          if END_OF_CHAIN <=? next then throw DiskErr else slot_in_chain fuel v next
      end
  end.

(** ** Entry operations *)

Record FileInfo : Type := mkInfo {
  fi_size : Z; fi_attributes : Z; fi_start_cluster : Z; fi_write_time : Z; fi_write_date : Z;
}.

Definition f_stat (path : list Z) : FAT FileInfo :=
  with_vol (fun v =>
    let! '(parent, name) := resolve_path v path in
    if decide (name = []) then ret (mkInfo 0 ATTR_DIRECTORY (root_cluster v) 0 0)
    else
      let! found := find_entry_in_dir v parent name in
      let! '(entry_cluster, entry_idx) := ok_or found NoFile in
      let! e := read_entry_data v entry_cluster entry_idx in
      ret (mkInfo (entry_size e) (entry_attr e) (entry_start e) (le16_at e 22) (le16_at e 24))).

(** Rewrites the cluster that holds the entry of [path]: the common body of
    [f_chmod] and [f_utime]. *)
Definition update_entry (path : list Z) (f : nat -> list Z -> list Z) : FAT unit :=
  with_vol (fun v =>
    let! '(parent, name) := resolve_path v path in
    let! found := find_entry_in_dir v parent name in
    let! '(entry_cluster, entry_idx) := ok_or found NoFile in
    let! buf := read_cluster v entry_cluster in
    write_cluster v entry_cluster (f (32 * entry_idx)%nat buf)).

(** [attrs & !ATTR_LFN] on a byte. *)
Definition f_chmod (path : list Z) (attrs : Z) : FAT unit :=
  update_entry path (fun off buf => <[(off + 11)%nat := Z.land attrs 240]> buf).

Definition f_utime (path : list Z) (time date : Z) : FAT unit :=
  update_entry path (fun off buf => put16 (off + 24) date (put16 (off + 22) time buf)).

Definition f_unlink (path : list Z) : FAT unit :=
  with_vol (fun v =>
    let! '(parent_cluster, name) := resolve_path v path in
    if decide (name = []) then throw Invalid
    else
      let! found := find_entry_in_dir v parent_cluster name in
      match found with
      | None => throw NoFile
      | Some (entry_cluster, entry_idx) =>
          let! buf := read_cluster v entry_cluster in
          let off := (32 * entry_idx)%nat in
          let start_cluster := entry_start (entry_at buf entry_idx) in
          do! write_cluster v entry_cluster (<[off := 229]> buf) in
          free_chain fuel v start_cluster
      end).

Definition f_rename (old_path new_path : list Z) : FAT unit :=
  with_vol (fun v =>
    let! '(old_parent, old_name) := resolve_path v old_path in
    let! found := find_entry_in_dir v old_parent old_name in
    match found with
    | None => throw NoFile
    | Some (entry_cluster, entry_idx) =>
        let! buf := read_cluster v entry_cluster in
        let entry_data := entry_at buf entry_idx in
        let! '(new_parent, new_name) := resolve_path v new_path in
        if decide (new_name = []) then throw Invalid
        else
          let! exists_ := find_entry_in_dir v new_parent new_name in
          match exists_ with
          | Some _ => throw Exists
          | None =>
              let! '(dest_cluster, k, dest_buf) := slot_in_chain fuel v new_parent in
              let dest_buf := splice (32 * k) (encode_name new_name ++ drop 11 entry_data) dest_buf in
              do! write_cluster v dest_cluster dest_buf in
              let! old_buf := read_cluster v entry_cluster in
              write_cluster v entry_cluster (<[(32 * entry_idx)%nat := 229]> old_buf)
          end
    end).

(** The cluster of a new directory: zeroes, ["."] and [".."]. *)
Definition dir_cluster_buf (v : FatVolume) (new_cluster parent_cluster : Z) : list Z :=
  let buf := replicate (cluster_size v) 0 in
  let buf := splice 0 (DOT :: replicate 10 SPACE ++ [ATTR_DIRECTORY]) buf in
  let buf := put_cluster 0 new_cluster buf in
  let buf := splice 32 (DOT :: DOT :: replicate 9 SPACE ++ [ATTR_DIRECTORY]) buf in
  put_cluster 32 parent_cluster buf.

(** The name bytes [f_mkdir] writes at [off]: the base up to the first dot,
    space-filled to 8; the extension only cleared when the name is longer than 8
    bytes, only written when there is a dot. *)
Definition put_dir_name (off : nat) (name buf : list Z) : list Z :=
  let base := take (Nat.min 8 (default (length name) (position (Z.eqb DOT) name))) name in
  let buf := splice off base buf in
  let buf := if (8 <? length name)%nat then splice (off + 8) (replicate 3 SPACE) buf else buf in
  let buf := splice (off + length base) (replicate (8 - length base) SPACE) buf in
  match position (Z.eqb DOT) name with
  | Some dot => splice (off + 8) (pad 3 (take 3 (drop (dot + 1) name))) buf
  | None => buf
  end.

Definition f_mkdir (path : list Z) : FAT unit :=
  with_vol (fun v =>
    let! '(parent_cluster, name) := resolve_path v path in
    if decide (name = []) then throw Invalid
    else if (11 <? length name)%nat then throw Invalid
    else
      let! exists_ := find_entry_in_dir v parent_cluster name in
      match exists_ with
      | Some _ => throw Exists
      | None =>
          let! new_cluster := alloc_cluster v in
          do! write_cluster v new_cluster (dir_cluster_buf v new_cluster parent_cluster) in
          let! '(slot_cluster, k, parent_buf) := slot_in_chain fuel v parent_cluster in
          let off := (32 * k)%nat in
          let parent_buf := put_dir_name off name parent_buf in
          let parent_buf := <[(off + 11)%nat := ATTR_DIRECTORY]> parent_buf in
          write_cluster v slot_cluster (put_cluster off new_cluster parent_buf)
      end).

(** ** The current directory *)

(** [f_chdir]: [CWD_PATH] is cleared before a relative path is appended to it,
    so the appended-to path is empty and no separator is written. *)
Definition f_chdir (path : list Z) : FAT unit :=
  with_vol (fun v =>
    let! '(cluster, _) := resolve_path v path in
    do! modify (set_cwd_cluster cluster) in
    do! modify (set_cwd_path (replicate 256 0)) in
    if decide (head path = Some SLASH) then
      modify (fun w => set_cwd_path (splice 0 (take 255 path) (w_cwd_path w)) w)
    else
      let! cwd := gets w_cwd_path in
      let cwd_len := default O (position (Z.eqb 0) cwd) in
      if (0 <? cwd_len)%nat && negb (byte_at cwd (cwd_len - 1) =? SLASH) then
        let bytes := take (255 - cwd_len - 1) path in
        modify (set_cwd_path (splice (cwd_len + 1) bytes (<[cwd_len := SLASH]> cwd)))
      else
        let bytes := take (255 - cwd_len) path in
        modify (set_cwd_path (splice cwd_len bytes cwd))).

Definition f_getcwd (buf : list Z) : FAT (list Z) :=
  let! cwd := gets w_cwd_path in
  let len := default O (position (Z.eqb 0) cwd) in
  if (0 <? len)%nat then
    let copy_len := Nat.min len (length buf) in
    let buf := splice 0 (take copy_len cwd) buf in
    ret (if (copy_len <? length buf)%nat then <[copy_len := 0]> buf else buf)
  else
    match buf with
    | [] => panic
    | _ => ret (let buf := <[0%nat := SLASH]> buf in
                if (1 <? length buf)%nat then <[1%nat := 0]> buf else buf)
    end.
End Directory.
