(* ===== verification/Fat32File.v ===== *)
(** FAT32 files ([src/src/hal/fat32.rs], [f_open] to [f_printf]). An operation
    on an open file runs on the world together with the [File] object. *)

From stdpp Require Import base numbers list gmap.
From Stdlib Require Import ZArith Lia.
From S2P Require Import Prelude Text Block Fat32 Fat32Dir.

(** ** File objects *)

Record File : Type := mkFile {
  f_size : Z;
  f_position : Z;
  f_start_cluster : Z;
  f_current_cluster : Z;
  f_sector_in_cluster : Z;
  f_byte_in_sector : Z;
  f_flags : Z;
  f_dir_sector : Z;
  f_dir_offset : Z;
  f_modified : bool;
  f_error_code : FError;
}.

Definition set_error (e : FError) (f : File) : File :=
  mkFile (f_size f) (f_position f) (f_start_cluster f) (f_current_cluster f)
    (f_sector_in_cluster f) (f_byte_in_sector f) (f_flags f) (f_dir_sector f) (f_dir_offset f)
    (f_modified f) e.
Definition set_size (s : Z) (m : bool) (f : File) : File :=
  mkFile s (f_position f) (f_start_cluster f) (f_current_cluster f)
    (f_sector_in_cluster f) (f_byte_in_sector f) (f_flags f) (f_dir_sector f) (f_dir_offset f)
    m (f_error_code f).
(** The cursor: position, current cluster, sector and byte. *)
Definition set_cursor (p c s b : Z) (f : File) : File :=
  mkFile (f_size f) p (f_start_cluster f) c s b (f_flags f) (f_dir_sector f) (f_dir_offset f)
    (f_modified f) (f_error_code f).
Definition set_start (c : Z) (f : File) : File :=
  mkFile (f_size f) (f_position f) c c
    (f_sector_in_cluster f) (f_byte_in_sector f) (f_flags f) (f_dir_sector f) (f_dir_offset f)
    (f_modified f) (f_error_code f).

(** [file.flags & flag == 0]. *)
Definition lacks (f : File) (flag : Z) : bool := Z.land (f_flags f) flag =? 0.

(** ** Observers *)

Definition f_tell (f : File) : Z := f_position f.
Definition f_eof (f : File) : bool := f_size f <=? f_position f.
Definition f_error (f : File) : bool := negb (bool_decide (f_error_code f = FOk)).

(** Formatting arguments, [FmtArg]. *)
Inductive FmtArg : Type :=
| FmtChar (c : Z)
| FmtStr (s : list Z)
| FmtInt (z : Z)
| FmtHex (z : Z).

Definition hex_digit (d : Z) : Z := if d <? 10 then d + 48 else d + 55.

(** The digit loop of [%x]; that of [%d] is [dec_digits]. *)
Fixpoint hex_digits (fuel : nat) (n : Z) (acc : list Z) : list Z :=
  match fuel with
  | O => acc
  | S fuel =>
      let acc := hex_digit (Z.land n 15) :: acc in
      if Z.shiftr n 4 =? 0 then acc else hex_digits fuel (Z.shiftr n 4) acc
  end.

Definition FMT_BUF_SIZE : nat := 64.

(** [%d]: [unsigned_abs], digits, sign. *)
Definition fmt_int (val : Z) : list Z :=
  let digits := dec_digits FMT_BUF_SIZE (Z.abs val) [] in
  if val <? 0 then 45 :: digits else digits.

Definition fmt_hex (val : Z) : list Z := hex_digits FMT_BUF_SIZE val [].

Section Files.
Context {D : Type} `{BlockDevice D}.
Context (fuel : nat).
#[local] Abbreviation FAT := (M (World D) FError).
#[local] Abbreviation FIO := (M (World D * File) FError).

(** [match with_vol(..) { Ok(x) => x, Err(e) => { file.error = e; return Err(e) } }]. *)
Definition vol_io {A} (m : FatVolume -> FAT A) : FIO A :=
  on_err (zoom (with_vol m)) (fun e '(w, f) => (w, set_error e f)).

Definition get_file : FIO File := gets snd.
Definition put_file (g : File -> File) : FIO unit := modify (fun '(w, f) => (w, g f)).

(** [file.error = e; return Err(e)]. *)
Definition fail {A} (e : FError) : FIO A :=
  do! put_file (set_error e) in throw e.

(** ** Opening *)

Definition file_of_entry (start size current flags parent : Z) (idx : nat) : File :=
  mkFile size 0 start current 0 0 flags parent (Z.of_nat idx) false FOk.

(** The entry [f_open] writes for a new file at [off]: the name, the archive
    attribute and the start cluster; the other bytes of the slot stay. *)
Definition new_entry (off : nat) (name : list Z) (c : Z) (buf : list Z) : list Z :=
  put_cluster off c (splice off (encode_name name ++ [ATTR_ARCHIVE]) buf).

Definition f_open (name : list Z) (flags : Z) : FAT File :=
  with_vol (fun v =>
    let! '(dir_cluster, name_bytes) := resolve_path fuel v name in
    let! found := find_entry_in_dir fuel v dir_cluster name_bytes in
    match found with
    | Some (parent_cluster, entry_idx) =>
        if negb (Z.land flags FA_CREATE_NEW =? 0) then throw Exists
        else
          let! e := read_entry_data v parent_cluster entry_idx in
          let start_cluster := entry_start e in
          if negb (Z.land flags FA_CREATE_ALWAYS =? 0) then
            do! free_chain fuel v start_cluster in
            ret (file_of_entry start_cluster 0 0 flags parent_cluster entry_idx)
          else
            ret (file_of_entry start_cluster (entry_size e) start_cluster flags parent_cluster entry_idx)
    | None =>
        if Z.land flags (Z.lor (Z.lor FA_CREATE_NEW FA_CREATE_ALWAYS) FA_OPEN_ALWAYS) =? 0
        then throw NoFile
        else
          let! new_cluster := alloc_cluster v in
          let! '(dest_cluster, k, dest_buf) := slot_in_chain fuel v dir_cluster in
          do! write_cluster v dest_cluster (new_entry (32 * k) name_bytes new_cluster dest_buf) in
          ret (mkFile 0 0 new_cluster new_cluster 0 0 flags dest_cluster (Z.of_nat k) true FOk)
    end).

(** ** Reading *)

(** The sector the cursor is in. *)
Definition cursor_lba (v : FatVolume) (f : File) : Z :=
  u32 (cluster_to_lba v (f_current_cluster f) + f_sector_in_cluster f).

(** The end of an iteration of [f_read]: moves to the next sector when the
    current one is used up; [false] is the [break] at the end of the chain. *)
Definition read_advance : FIO bool :=
  let! f := get_file in
  if f_byte_in_sector f <? 512 then ret true
  else
    let s := u16 (f_sector_in_cluster f + 1) in
    do! put_file (set_cursor (f_position f) (f_current_cluster f) s 0) in
    let! spc := vol_io (fun v => ret (sectors_per_cluster v)) in
    if s <? spc then ret true
    else
      do! put_file (set_cursor (f_position f) (f_current_cluster f) 0 0) in
      let! next := vol_io (fun v => read_fat_entry v (f_current_cluster f)) in
      if END_OF_CHAIN <=? next then
        do! put_file (set_cursor (f_position f) 0 0 0) in ret false
      else
        do! put_file (set_cursor (f_position f) next 0 0) in ret true.

(** One iteration: [to_copy] bytes of the current sector, [rest] of the request
    being left. *)
Definition read_chunk (rest : Z) : FIO (list Z) :=
  let! f := get_file in
  let! sector_buf := vol_io (fun v => dev_read (cursor_lba v f)) in
  let to_copy := Z.min (usize (512 - f_byte_in_sector f)) rest in
  let! data := or_panic (slice (Z.to_nat (f_byte_in_sector f)) (Z.to_nat to_copy) sector_buf) in
  do! put_file (set_cursor (u32 (f_position f + to_copy)) (f_current_cluster f)
                  (f_sector_in_cluster f) (u16 (f_byte_in_sector f + to_copy))) in
  ret data.

(** The loop of [f_read]: the bytes read, in order. *)
Fixpoint read_loop (fuel : nat) (rest : Z) : FIO (list Z) :=
  match fuel with
  | O => hang
  | S fuel =>
      if rest <=? 0 then ret []
      else
        let! data := read_chunk rest in
        let! more := read_advance in
        if more : bool then
          let! tail := read_loop fuel (rest - Z.of_nat (length data)) in
          ret (data ++ tail)
        else ret data
  end.

(** [f_read(file, buf)] with [buf.len() = n]: the bytes stored at the start of
    [buf], whose number is the result. Every iteration reads a byte, so [n]
    bounds the loop. *)
Definition f_read (n : Z) : FIO (list Z) :=
  let! f := get_file in
  if lacks f FA_READ then fail Denied
  else
    let remaining := u32 (f_size f - f_position f) in
    let to_read := Z.min n remaining in
    if to_read =? 0 then ret []
    else
      let! _ := vol_io (fun v => ret (sectors_per_cluster v)) in
      read_loop (S (Z.to_nat to_read)) to_read.

(** ** Writing *)

(** Closes the chain of a fresh cluster before it is linked after [tail]. *)
Definition extend_chain (tail : Z) : FIO Z :=
  let! c := vol_io find_free_cluster in
  do! vol_io (fun v => write_fat_entry v c CHAIN_END) in
  do! vol_io (fun v => write_fat_entry v tail c) in
  ret c.

(** The first cluster of an empty file. *)
Definition first_cluster : FIO unit :=
  let! c := vol_io find_free_cluster in
  do! vol_io (fun v => write_fat_entry v c CHAIN_END) in
  put_file (set_start c).

(** The end of an iteration of [f_write]. *)
Definition write_advance : FIO unit :=
  let! f := get_file in
  if f_byte_in_sector f <? 512 then ret tt
  else
    let s := u16 (f_sector_in_cluster f + 1) in
    do! put_file (set_cursor (f_position f) (f_current_cluster f) s 0) in
    let! spc := vol_io (fun v => ret (sectors_per_cluster v)) in
    if s <? spc then ret tt
    else
      do! put_file (set_cursor (f_position f) (f_current_cluster f) 0 0) in
      let! next := vol_io (fun v => read_fat_entry v (f_current_cluster f)) in
      if END_OF_CHAIN <=? next then
        let! c := extend_chain (f_current_cluster f) in
        put_file (set_cursor (f_position f) c 0 0)
      else put_file (set_cursor (f_position f) next 0 0).

(** One iteration: read, modify and write back the current sector. *)
Definition write_chunk (buf : list Z) : FIO nat :=
  let! f := get_file in
  let! sector_buf := vol_io (fun v => dev_read (cursor_lba v f)) in
  let space := Z.min (usize (512 - f_byte_in_sector f)) (Z.of_nat (length buf)) in
  let! sector_buf :=
    or_panic (copy_into (Z.to_nat (f_byte_in_sector f)) (take (Z.to_nat space) buf) sector_buf) in
  do! vol_io (fun v => dev_write (cursor_lba v f) sector_buf) in
  let position := u32 (f_position f + space) in
  do! put_file (fun f =>
        set_size (Z.max (f_size f) position) true
          (set_cursor position (f_current_cluster f) (f_sector_in_cluster f)
             (u16 (f_byte_in_sector f + space)) f)) in
  ret (Z.to_nat space).

Fixpoint write_loop (fuel : nat) (buf : list Z) : FIO unit :=
  match fuel with
  | O => hang
  | S fuel =>
      if decide (buf = []) then ret tt
      else
        let! n := write_chunk buf in
        do! write_advance in
        write_loop fuel (drop n buf)
  end.

Definition f_write (buf : list Z) : FIO Z :=
  let! f := get_file in
  if lacks f FA_WRITE then fail Denied
  else if decide (buf = []) then ret 0
  else
    do! (if f_current_cluster f =? 0 then first_cluster else ret tt) in
    do! write_loop (S (length buf)) buf in
    ret (Z.of_nat (length buf)).

(** ** Seeking and resizing *)

(** The loop of [f_lseek]: [None] when the chain ends early. *)
Fixpoint seek_chain (n : nat) (clu : Z) : FIO (option Z) :=
  match n with
  | O => ret (Some clu)
  | S n =>
      let! next := vol_io (fun v => read_fat_entry v clu) in
      if END_OF_CHAIN <=? next then ret None else seek_chain n next
  end.

Definition f_lseek (offset : Z) : FIO unit :=
  let! f := get_file in
  if (f_size f <? offset) && lacks f FA_WRITE then fail Denied
  else if offset =? f_position f then ret tt
  else
    let! spc := vol_io (fun v => ret (sectors_per_cluster v)) in
    let csize := spc * 512 in
    let! found := seek_chain (Z.to_nat (offset / csize)) (f_start_cluster f) in
    match found with
    | None => put_file (set_cursor (offset / csize) 0 0 0)
    | Some clu =>
        let o := offset mod csize in
        put_file (set_cursor offset clu (o / 512) (o mod 512))
    end.

(** [f_truncate]'s loop passes errors through [file.error]. *)
Definition f_truncate : FIO unit :=
  let! f := get_file in
  if lacks f FA_WRITE then fail Denied
  else
    let! clu := vol_io (fun v => read_fat_entry v (f_current_cluster f)) in
    do! vol_io (fun v => free_chain fuel v clu) in
    do! (if 2 <=? f_current_cluster f
         then vol_io (fun v => write_fat_entry v (f_current_cluster f) CHAIN_END)
         else ret tt) in
    put_file (fun f => set_size (f_position f) true f).

(** The two walks to the end of the chain of [f_expand]: the last cluster and
    the number of clusters. *)
Fixpoint chain_tail (fuel : nat) (clu count : Z) : FIO (Z * Z) :=
  match fuel with
  | O => hang
  | S fuel =>
      let! next := vol_io (fun v => read_fat_entry v clu) in
      if END_OF_CHAIN <=? next then ret (clu, count) else chain_tail fuel next (u32 (count + 1))
  end.

Fixpoint append_clusters (n : nat) (tail : Z) : FIO unit :=
  match n with
  | O => ret tt
  | S n => let! c := extend_chain tail in append_clusters n c
  end.

Definition f_expand (size : Z) : FIO unit :=
  let! f := get_file in
  if lacks f FA_WRITE then fail Denied
  else
    let! spc := vol_io (fun v => ret (sectors_per_cluster v)) in
    let csize := spc * 512 in
    if size <=? f_size f then ret tt
    else
      let! current_clusters :=
        (if f_start_cluster f =? 0 then ret 0
         else let! '(_, n) := chain_tail fuel (f_start_cluster f) 1 in ret n) in
      let needed_clusters := Z.max (u32 (u32 (size + csize) - 1) / csize) 1 in
      let to_add := saturating_sub needed_clusters current_clusters in
      if to_add =? 0 then ret tt
      else
        do! (if f_start_cluster f =? 0 then
               do! first_cluster in
               let! f := get_file in
               append_clusters (Z.to_nat (to_add - 1)) (f_start_cluster f)
             else
               let! '(tail, _) := chain_tail fuel (f_start_cluster f) 1 in
               append_clusters (Z.to_nat to_add) tail) in
        put_file (set_size size true).

(** ** Writing the directory entry back *)

(** [with_vol(|vol| Ok(vol.dev().read_sector(lba, sc)))], on the static buffer. *)
Definition sync_read (lba : Z) : FAT bool := fun w =>
  match read_sector (w_dev w) lba with
  | Some b => (Ret true, set_sync_buf b w)
  | None => (Ret false, w)
  end.

Definition sync_write (lba : Z) : FAT bool := fun w =>
  let '(ok, d) := write_sector (w_dev w) lba (w_sync_buf w) in (Ret ok, set_dev d w).

Definition f_sync : FIO unit :=
  let! f := get_file in
  if negb (f_modified f) then ret tt
  else
    let! lba := vol_io (fun v => ret (cluster_to_lba v (f_dir_sector f))) in
    let off := Z.to_nat (f_dir_offset f * 32) in
    do! zoom (modify (set_if false)) in
    let! ok := zoom (with_vol (fun _ => sync_read lba)) in
    if negb ok then
      do! put_file (set_error DiskErr) in
      do! zoom (modify (set_if true)) in
      throw DiskErr
    else
      let! sc := zoom (gets w_sync_buf) in
      let! sc := or_panic (copy_into (off + 28) (le_bytes 4 (f_size f)) sc) in
      let! sc := or_panic (copy_into (off + 26) (le_bytes 2 (Z.land (f_start_cluster f) 65535)) sc) in
      let! sc := or_panic (copy_into (off + 20) (le_bytes 2 (Z.shiftr (f_start_cluster f) 16)) sc) in
      do! zoom (modify (set_sync_buf sc)) in
      let! wrote := zoom (with_vol (fun _ => sync_write lba)) in
      if negb wrote then
        do! put_file (set_error DiskErr) in
        do! zoom (modify (set_if true)) in
        throw DiskErr
      else
        do! zoom (modify (set_if true)) in
        put_file (fun f => set_size (f_size f) false f).

(** ** Text *)

(** The loop of [f_gets]: the characters stored, carriage returns dropped. *)
Fixpoint gets_loop (fuel : nat) (max : Z) (line : list Z) : FIO (list Z) :=
  match fuel with
  | O => hang
  | S fuel =>
      if Z.of_nat (length line) <? max then
        let! c := f_read 1 in
        match c with
        | [] => ret line
        | c :: _ =>
            if c =? 13 then gets_loop fuel max line
            else if c =? 10 then ret (line ++ [c])
            else gets_loop fuel max (line ++ [c])
        end
      else ret line
  end.

(** [f_gets(buf, n, file)]: the buffer afterwards and the number of characters. *)
Definition f_gets (buf : list Z) (n : Z) : FIO (Z * list Z) :=
  let max := Z.min (usize (n - 1)) (saturating_sub (Z.of_nat (length buf)) 1) in
  let! line := gets_loop fuel max [] in
  let i := length line in
  let buf := splice 0 line buf in
  ret (Z.of_nat i, if (i <? length buf)%nat then <[i := 0]> buf else buf).

Definition f_putc (c : Z) : FIO Z := f_write [c].

(** The part of a buffer before its first NUL. *)
Definition c_string (s : list Z) : list Z := take (default (length s) (position (Z.eqb 0) s)) s.

Definition f_puts (s : list Z) : FIO Z :=
  if (0 <? length (c_string s))%nat then f_write (c_string s) else ret 0.

(** What one conversion writes, from the argument in its turn; [None] when the
    argument is missing or of another kind. *)
Definition convert (c : Z) (arg : option FmtArg) : option (FIO Z) :=
  if c =? 99 then match arg with Some (FmtChar x) => Some (f_putc x) | _ => None end
  else if c =? 115 then match arg with Some (FmtStr s) => Some (f_puts s) | _ => None end
  else if c =? 100 then match arg with Some (FmtInt z) => Some (f_write (fmt_int z)) | _ => None end
  else match arg with Some (FmtHex z) => Some (f_write (fmt_hex z)) | _ => None end.

Definition is_conversion (c : Z) : bool :=
  (c =? 99) || (c =? 115) || (c =? 100) || (c =? 120) || (c =? 88).

Fixpoint printf_loop (fmt : list Z) (args : list FmtArg) (arg_idx : nat) (written : Z) : FIO Z :=
  match fmt with
  | [] => ret written
  | c :: fmt' =>
      if negb (c =? 37) then
        let! n := f_write [c] in printf_loop fmt' args arg_idx (usize (written + n))
      else
        match fmt' with
        | [] => ret written
        | d :: fmt'' =>
            if is_conversion d then
              let! n := match convert d (args !! arg_idx) with Some m => m | None => ret 0 end in
              printf_loop fmt'' args (S arg_idx) (usize (written + n))
            else
              let! n := f_write (if d =? 37 then [37] else [37; d]) in
              printf_loop fmt'' args arg_idx (usize (written + n))
        end
  end.

Definition f_printf (fmt : list Z) (args : list FmtArg) : FIO Z := printf_loop fmt args 0 0.
End Files.
