(* ===== verification/Fat32List.v ===== *)
(** FAT32 directory listings and the volume label ([src/src/hal/fat32.rs],
    [match_pattern] to [f_findnext], [f_getlabel], [f_setlabel]). *)

From stdpp Require Import base numbers list gmap.
From Stdlib Require Import ZArith Lia.
From S2P Require Import Prelude Block Fat32 Fat32Dir.

Record Dir : Type := mkDir {
  d_start_cluster : Z;
  d_current_cluster : Z;
  d_sector_in_cluster : Z;
  d_entry_index : Z;
  d_ended : bool;
  d_pattern : list Z;
  d_pat_len : nat;
}.

Definition set_dir_at (c s i : Z) (d : Dir) : Dir :=
  mkDir (d_start_cluster d) c s i (d_ended d) (d_pattern d) (d_pat_len d).
Definition set_ended (d : Dir) : Dir :=
  mkDir (d_start_cluster d) (d_current_cluster d) (d_sector_in_cluster d) (d_entry_index d) true
    (d_pattern d) (d_pat_len d).
Definition set_pattern (p : list Z) (n : nat) (d : Dir) : Dir :=
  mkDir (d_start_cluster d) (d_current_cluster d) (d_sector_in_cluster d) (d_entry_index d)
    (d_ended d) p n.

(** ** Patterns *)

Definition STAR : Z := 42.
Definition QUESTION : Z := 63.

(** [name[n] == 0 || name[n] == b' ']; [None] is the panic past byte 13. *)
Definition name_ends (name : list Z) (n : nat) : option bool :=
  option_map (fun b => (b =? 0) || (b =? SPACE)) (name !! n).

(** [match_pattern_inner]: [pat] is the pattern from [p] on. *)
Fixpoint match_pattern_inner (name : list Z) (n : nat) (pat : list Z) : option bool :=
  match pat with
  | [] => name_ends name n
  | c :: pat' =>
      if c =? STAR then
        (fix star (k n : nat) : option bool :=
           match k with
           | O => match_pattern_inner name n pat'
           | S k =>
               if byte_at name n =? 0 then match_pattern_inner name n pat'
               else
                 match match_pattern_inner name n pat' with
                 | Some false => star k (S n)
                 | r => r
                 end
           end) (11 - n)%nat n
      else if c =? QUESTION then
        match name_ends name n with
        | Some false => match_pattern_inner name (S n) pat'
        | Some true => Some false
        | None => None
        end
      else
        match name !! n with
        | None => None
        | Some b => if b =? c then match_pattern_inner name (S n) pat' else Some false
        end
  end.

(** [match_pattern]: its loop is [match_pattern_inner]'s, from the start. *)
Definition match_pattern (name pattern : list Z) (pat_len : nat) : option bool :=
  if (pat_len =? 0)%nat then Some true
  else match_pattern_inner name 0 (take pat_len pattern).

(** ** The volume label *)

Definition label_field (label : list Z) : list Z := pad 11 (take 11 label).

(** The scan of [f_setlabel]: a free entry to create the label in, an existing
    label, or the next cluster with the [found_slot] flag. *)
Inductive label_scan : Type :=
| LabelNew (k : nat)
| LabelOld (k : nat)
| LabelNext (found_slot : bool).

Fixpoint scan_label (n k : nat) (found_slot : bool) (buf : list Z) : label_scan :=
  match n with
  | O => LabelNext found_slot
  | S n =>
      let b := byte_at buf (32 * k) in
      if (b =? 0) && negb found_slot then LabelNew k
      else if (b =? 229) && negb found_slot then scan_label n (S k) true buf
      else if byte_at buf (32 * k + 11) =? ATTR_VOLUME then LabelOld k
      else scan_label n (S k) found_slot buf
  end.

(** The scan of [f_getlabel]: the label's entry, the end marker, or neither. *)
Fixpoint find_label (n k : nat) (buf : list Z) : option (option nat) :=
  match n with
  | O => None
  | S n =>
      let b := byte_at buf (32 * k) in
      if b =? 0 then Some None
      else if b =? 229 then find_label n (S k) buf
      else if byte_at buf (32 * k + 11) =? ATTR_VOLUME then Some (Some k)
      else find_label n (S k) buf
  end.

(** The label without its spaces, zero-filled to 12 bytes. *)
Definition squeeze_label (field : list Z) : list Z :=
  let l := filter (fun b => b <> SPACE) field in l ++ replicate (12 - length l) 0.

Section Listing.
Context {D : Type} `{BlockDevice D}.
Context (fuel : nat).
#[local] Abbreviation FAT := (M (World D) FError).
#[local] Abbreviation DIO := (M (World D * Dir) FError).

Definition f_opendir (path : list Z) : FAT Dir :=
  with_vol (fun v =>
    let! '(dir_cluster, _) := resolve_path fuel v path in
    ret (mkDir dir_cluster dir_cluster 0 0 false (replicate 11 0) 0)).

Definition put_dir (g : Dir -> Dir) : DIO unit := modify (fun '(w, d) => (w, g d)).

(** Moves to the next cluster when the current one is used up; [false] at the
    end of the directory. *)
Definition next_dir_cluster (v : FatVolume) : DIO bool :=
  let! d := gets snd in
  if d_entry_index d <? Z.of_nat (entries_per_cluster v) then ret true
  else
    do! put_dir (set_dir_at (d_current_cluster d) 0 0) in
    let! next := zoom (read_fat_entry v (d_current_cluster d)) in
    if END_OF_CHAIN <=? next then do! put_dir set_ended in ret false
    else do! put_dir (set_dir_at next 0 0) in ret true.

(** [f_readdir(dir, out_name)]: the name of the next entry that matches, [None]
    where the source returns [Ok(false)]. *)
Fixpoint readdir_loop (fuel : nat) (v : FatVolume) : DIO (option (list Z)) :=
  match fuel with
  | O => hang
  | S fuel =>
      let! d := gets snd in
      if d_ended d then ret None
      else
        let! more := next_dir_cluster v in
        if negb more then ret None
        else
          let! d := gets snd in
          let! buf := zoom (read_cluster v (d_current_cluster d)) in
          do! put_dir (set_dir_at (d_current_cluster d) (d_sector_in_cluster d)
                      (u16 (d_entry_index d + 1))) in
          let e := entry_at buf (Z.to_nat (d_entry_index d)) in
          if byte_at e 0 =? 0 then do! put_dir set_ended in ret None
          else if (byte_at e 0 =? 229) || is_hidden (entry_attr e) then readdir_loop fuel v
          else
            match read_dir_entry_name e with
            | None => readdir_loop fuel v
            | Some name =>
                let! ok := or_panic (match_pattern name (d_pattern d) (d_pat_len d)) in
                if ok : bool then ret (Some name) else readdir_loop fuel v
            end
  end.

Definition f_readdir : DIO (option (list Z)) := fun st =>
  match w_vol (fst st) with
  | Some v => readdir_loop fuel v st
  | None => (Err NotEnabled, st)
  end.

Definition f_findfirst (path pattern : list Z) : FAT Dir :=
  let! d := f_opendir path in
  let pat_len := Nat.min (length pattern) 11 in
  ret (set_pattern (splice 0 (take pat_len pattern) (d_pattern d)) pat_len d).

Definition f_findnext : DIO (option (list Z)) := f_readdir.

Fixpoint getlabel_loop (fuel : nat) (v : FatVolume) (clu : Z) (label : list Z) : FAT (list Z) :=
  match fuel with
  | O => hang
  | S fuel =>
      let! buf := read_cluster v clu in
      match find_label (entries_per_cluster v) 0 buf with
      | Some None => ret label
      | Some (Some k) => ret (squeeze_label (take 11 (entry_at buf k)))
      | None =>
          let! next := read_fat_entry v clu in
          if END_OF_CHAIN <=? next then ret (replicate 12 0) else getlabel_loop fuel v next label
      end
  end.

(** [f_getlabel(label)]: the caller's array afterwards. *)
Definition f_getlabel (label : list Z) : FAT (list Z) :=
  with_vol (fun v => getlabel_loop fuel v (root_cluster v) label).

Fixpoint setlabel_loop (fuel : nat) (v : FatVolume) (clu : Z) (found_slot : bool) (label : list Z)
  : FAT unit :=
  match fuel with
  | O => hang
  | S fuel =>
      let! buf := read_cluster v clu in
      match scan_label (entries_per_cluster v) 0 found_slot buf with
      | LabelNew k =>
          let! _ := or_panic (head label) in
          write_cluster v clu (splice (32 * k) (label_field label ++ [ATTR_VOLUME]) buf)
      | LabelOld k => write_cluster v clu (splice (32 * k) (label_field label) buf)
      | LabelNext found_slot =>
          let! next := read_fat_entry v clu in
          if END_OF_CHAIN <=? next then ret tt else setlabel_loop fuel v next found_slot label
      end
  end.

Definition f_setlabel (label : list Z) : FAT unit :=
  with_vol (fun v => setlabel_loop fuel v (root_cluster v) false label).
End Listing.
