(* ===== verification/FatSpec.v ===== *)
(** The file allocation table as a function from clusters to entries: what
    [read_fat_entry] and [write_fat_entry] do to it, on a reliable device. *)

From stdpp Require Import base numbers list gmap.
From Stdlib Require Import ZArith Lia.
From S2P Require Import Prelude Block Fat32.

(** ** Geometry *)

(** One past the last entry, for a FAT of representable size. *)
Definition entries (v : FatVolume) : Z := sectors_per_fat v * 128.

(** The volume lies inside a device of [n] sectors, and no address wraps. *)
Record geometry (v : FatVolume) (n : Z) : Prop := {
  g_fats : 1 <= num_fats v <= 255;
  g_spf : 1 <= sectors_per_fat v;
  g_spc : 1 <= sectors_per_cluster v <= 128;
  g_fat : 0 <= fat_region_lba v;
  g_data : data_region_lba v = fat_region_lba v + num_fats v * sectors_per_fat v;
  g_dev : data_region_lba v <= n <= 2 ^ 32;
  g_entries : entries v <= END_OF_CHAIN;
}.

(** A cluster that exists on the device. *)
Definition on_disk (v : FatVolume) (n c : Z) : Prop :=
  2 <= c < entries v /\ data_region_lba v + (c - 1) * sectors_per_cluster v <= n.

Section Spec.
Context {D : Type} `{ReliableDevice D}.
Implicit Types (d : D) (v : FatVolume) (w : World D).

(** ** The table on a device *)

Definition fat_entry v d (c : Z) : Z :=
  Z.land (le32_at (default [] (read_sector d (fat_sector v c))) (fat_offset c)) 268435455.

(** Every copy of the table equals the first. *)
Definition mirrored v d : Prop :=
  forall i k, 0 <= i < num_fats v -> 0 <= k < sectors_per_fat v ->
    read_sector d (fat_region_lba v + i * sectors_per_fat v + k) =
    read_sector d (fat_region_lba v + k).

(** [d'] is [d] with entry [c] set to [val]: nothing else changes in the table
    or outside it, and the copies stay equal. *)
Record fat_set v d d' (c val : Z) : Prop := {
  fs_count : sector_count d' = sector_count d;
  fs_same : fat_entry v d' c = Z.land val 268435455;
  fs_other : forall c', 0 <= c' < entries v -> c' <> c -> fat_entry v d' c' = fat_entry v d c';
  fs_frame : forall lba, lba < fat_region_lba v \/ data_region_lba v <= lba ->
    read_sector d' lba = read_sector d lba;
  fs_mirror : mirrored v d -> mirrored v d';
}.

(** ** Devices *)

Lemma dev_read_run w lba :
  0 <= lba < sector_count (w_dev w) ->
  exists b, dev_read lba w = (Ret b, w) /\ read_sector (w_dev w) lba = Some b /\ sector b.
Proof.
  intros Hr. destruct (read_in_range (w_dev w) lba Hr) as [b Hb]. exists b.
  unfold dev_read. rewrite Hb. by eauto using read_valid.
Qed.

Lemma dev_write_run w lba b :
  0 <= lba < sector_count (w_dev w) -> sector b ->
  dev_write lba b w = (Ret tt, set_dev (snd (write_sector (w_dev w) lba b)) w).
Proof.
  intros Hr Hb. unfold dev_write. pose proof (write_in_range _ _ _ Hr Hb) as Hok.
  destruct (write_sector (w_dev w) lba b) as [ok d']. cbn in *. by subst ok.
Qed.

(** ** Entries inside a sector *)

Lemma lor_lt a b n : 0 <= n -> 0 <= a < 2 ^ n -> 0 <= b < 2 ^ n -> 0 <= Z.lor a b < 2 ^ n.
Proof.
  intros Hn Ha Hb. assert (Z.lor a b = Z.lor a b mod 2 ^ n) as ->; [|apply Z.mod_pos_bound; lia].
  rewrite <- Z.land_ones, Z.land_lor_distr_l, !Z.land_ones by done. by rewrite !Z.mod_small.
Qed.

Lemma merged_range old val :
  0 <= Z.lor (Z.land old 4026531840) (Z.land val 268435455) < 2 ^ 32.
Proof.
  apply lor_lt; [lia| |].
  - assert (Z.land old 4026531840 = Z.land old 4026531840 mod 2 ^ 32) as ->.
    { rewrite <- Z.land_ones, <- Z.land_assoc by lia. done. }
    by apply Z.mod_pos_bound.
  - change 268435455 with (Z.ones 28). rewrite Z.land_ones by lia.
    pose proof (Z.mod_pos_bound val (2 ^ 28) ltac:(lia)). lia.
Qed.

Lemma merged_entry old val :
  Z.land (Z.lor (Z.land old 4026531840) (Z.land val 268435455)) 268435455 = Z.land val 268435455.
Proof.
  rewrite Z.land_lor_distr_l, <- !Z.land_assoc.
  change (Z.land 4026531840 268435455) with 0. change (Z.land 268435455 268435455) with 268435455.
  by rewrite Z.land_0_r.
Qed.

Lemma sector_merge buf off val :
  sector buf -> (off + 4 <= 512)%nat -> sector (merge_entry buf off val).
Proof.
  intros [Hl Hb] Ho. unfold merge_entry, SECTOR_SIZE in *. split.
  - rewrite length_splice; [done|]. rewrite length_le_bytes. lia.
  - auto.
Qed.

Lemma merge_entry_same buf off val :
  length buf = 512%nat -> (off + 4 <= 512)%nat ->
  Z.land (le32_at (merge_entry buf off val) off) 268435455 = Z.land val 268435455.
Proof.
  intros Hl Ho. unfold le32_at at 1, merge_entry.
  pose proof (slice_splice_same off (le_bytes 4 (Z.lor (Z.land (le32_at buf off) 4026531840)
                 (Z.land val 268435455))) buf) as Hs.
  rewrite length_le_bytes in Hs. rewrite Hs by lia.
  rewrite le_val_bytes; [apply merged_entry|].
  change (256 ^ Z.of_nat 4) with (2 ^ 32). apply merged_range.
Qed.

Lemma merge_entry_other buf off off' val :
  length buf = 512%nat -> (off + 4 <= 512)%nat -> (off' + 4 <= 512)%nat ->
  (off' + 4 <= off \/ off + 4 <= off')%nat ->
  le32_at (merge_entry buf off val) off' = le32_at buf off'.
Proof.
  intros Hl Ho Ho' Hd. unfold le32_at at 1, merge_entry.
  rewrite slice_splice_other; [done| | |]; rewrite ?length_le_bytes; lia.
Qed.

(** ** Where entries are *)

Lemma max_cluster_entries v n : geometry v n -> max_cluster v = entries v.
Proof.
  intros []. unfold max_cluster, entries, END_OF_CHAIN in *. rewrite u32_small by lia.
  Z.to_euclidean_division_equations; lia.
Qed.

(** The sector of an entry relative to its table, and the byte in it. *)
Lemma fat_place v n c :
  geometry v n -> 0 <= c < entries v ->
  exists k j, 0 <= k < sectors_per_fat v /\ 0 <= j < 128 /\ c = k * 128 + j /\
    fat_sector v c = fat_region_lba v + k /\ fat_offset c = (4 * Z.to_nat j)%nat.
Proof.
  intros [] Hc. unfold entries, END_OF_CHAIN in *. exists (c / 128), (c mod 128).
  assert (c * 4 / 512 = c / 128) as Hq by (change 512 with (128 * 4); by rewrite Z.div_mul_cancel_r).
  assert (c * 4 mod 512 = 4 * (c mod 128)) as Hm.
  { change 512 with (128 * 4). rewrite Z.mul_mod_distr_r by lia. lia. }
  pose proof (Z.mod_pos_bound c 128 ltac:(lia)).
  assert (0 <= c / 128 < sectors_per_fat v) as Hk.
  { split; [apply Z.div_pos; lia|apply Z.div_lt_upper_bound; lia]. }
  split_and!; try lia.
  - pose proof (Z.div_mod c 128). lia.
  - unfold fat_sector. rewrite (u32_small (c * 4)), Hq by lia. apply u32_small. nia.
  - unfold fat_offset. rewrite u32_small, Hm by lia. lia.
Qed.

Lemma fat_entry_range v d c : 0 <= fat_entry v d c < 268435456.
Proof.
  unfold fat_entry. change 268435455 with (Z.ones 28). rewrite Z.land_ones by lia.
  by apply Z.mod_pos_bound.
Qed.

(** Sectors at different places of two copies differ. *)
Lemma copies_apart s i j k l :
  0 <= k < s -> 0 <= l < s -> k <> l -> i * s + k <> j * s + l.
Proof.
  intros Hk Hl Hne Heq. destruct (Z.lt_trichotomy i j) as [?|[->|?]]; [nia|lia|nia].
Qed.

(** ** The table operations *)

Lemma read_fat_run v w c :
  geometry v (sector_count (w_dev w)) -> 0 <= c < entries v ->
  read_fat_entry v c w = (Ret (fat_entry v (w_dev w) c), w).
Proof.
  intros Hg Hc. destruct (fat_place _ _ _ Hg Hc) as (k & j & Hk & Hj & -> & Hs & Ho).
  pose proof Hg as []. unfold read_fat_entry, fat_entry. rewrite Hs, Ho.
  destruct (dev_read_run w (fat_region_lba v + k)) as (b & Hrun & Hb & _); [nia|].
  run_with Hrun. by rewrite Hb.
Qed.

Lemma write_fats_run n v w i k buf :
  geometry v (sector_count (w_dev w)) -> 0 <= k < sectors_per_fat v -> sector buf ->
  0 <= i -> i + Z.of_nat n = num_fats v ->
  exists d', write_fats n v i (fat_region_lba v + k) buf w = (Ret tt, set_dev d' w) /\
    sector_count d' = sector_count (w_dev w) /\
    (forall j, i <= j < num_fats v ->
       read_sector d' (fat_region_lba v + j * sectors_per_fat v + k) = Some buf) /\
    (forall lba, (forall j, i <= j < num_fats v ->
                    lba <> fat_region_lba v + j * sectors_per_fat v + k) ->
       read_sector d' lba = read_sector (w_dev w) lba).
Proof.
  intros Hg Hk Hb. revert i w Hg. induction n as [|n IH]; intros i w Hg Hi Hn.
  { exists (w_dev w). split_and!; [by destruct w|done|lia|done]. }
  pose proof Hg as []. cbn [write_fats].
  assert (u32 (u32 (u32 (fat_region_lba v + u32 (i * sectors_per_fat v)) + (fat_region_lba v + k))
            - fat_region_lba v) = fat_region_lba v + i * sectors_per_fat v + k) as ->.
  { assert (0 <= i * sectors_per_fat v /\ i * sectors_per_fat v + sectors_per_fat v <=
              num_fats v * sectors_per_fat v) by nia.
    rewrite (u32_small (i * sectors_per_fat v)), (u32_small (fat_region_lba v + _)) by lia.
    unfold u32. rewrite Zminus_mod_idemp_l.
    transitivity ((fat_region_lba v + i * sectors_per_fat v + k) mod 4294967296); [f_equal; lia|].
    apply Z.mod_small. lia. }
  assert (0 <= fat_region_lba v + i * sectors_per_fat v + k < sector_count (w_dev w)) as Hr by nia.
  run_with (dev_write_run w _ buf Hr Hb).
  set (d1 := snd (write_sector (w_dev w) (fat_region_lba v + i * sectors_per_fat v + k) buf)).
  assert (sector_count d1 = sector_count (w_dev w)) as Hc1 by apply write_count.
  destruct (IH (i + 1) (set_dev d1 w)) as (d' & Hrun & Hc & Hin & Hout);
    [cbn; by rewrite Hc1|lia|lia|].
  exists d'. rewrite Hrun. cbn [w_dev set_dev] in *. split_and!; [done|by rewrite Hc| |].
  - intros j Hj. destruct (decide (j = i)) as [->|Hne]; [|apply Hin; lia].
    rewrite Hout; [by apply read_written|]. intros j' Hj'. nia.
  - intros lba Hl. rewrite Hout by (intros j Hj; apply Hl; lia). apply read_other. apply Hl. lia.
Qed.

Lemma write_fat_run v w c val :
  geometry v (sector_count (w_dev w)) -> 0 <= c < entries v ->
  exists d', write_fat_entry v c val w = (Ret tt, set_dev d' w) /\ fat_set v (w_dev w) d' c val.
Proof.
  intros Hg Hc. destruct (fat_place _ _ _ Hg Hc) as (k & j & Hk & Hj & Hce & Hs & Ho).
  pose proof Hg as []. unfold write_fat_entry. rewrite Hs, Ho.
  destruct (dev_read_run w (fat_region_lba v + k)) as (b & Hrun & Hb & Hsec); [nia|].
  run_with Hrun. pose proof Hsec as [Hlen _]. unfold SECTOR_SIZE in Hlen.
  set (buf := merge_entry b (4 * Z.to_nat j) val).
  assert (sector buf) as Hbuf by (apply sector_merge; [done|lia]).
  destruct (write_fats_run (Z.to_nat (num_fats v)) v w 0 k buf) as (d' & Hw & Hcnt & Hin & Hout);
    try done; try lia.
  assert (read_sector d' (fat_region_lba v + k) = Some buf) as Hfirst.
  { pose proof (Hin 0) as H0'. rewrite Z.mul_0_l, Z.add_0_r in H0'. apply H0'. lia. }
  exists d'. split; [done|]. split; [done| | | |].
  - unfold fat_entry. rewrite Hs, Ho, Hfirst. cbn [default]. apply merge_entry_same; lia.
  - intros c' Hc' Hne. destruct (fat_place _ _ _ Hg Hc') as (k' & j' & Hk' & Hj' & Hce' & Hs' & Ho').
    unfold fat_entry. rewrite Hs', Ho'. destruct (decide (k' = k)) as [->|Hkne].
    + rewrite Hfirst, Hb. cbn [default]. unfold id. f_equal.
      apply merge_entry_other; lia.
    + rewrite Hout; [done|]. intros i Hi.
      pose proof (copies_apart _ 0 i k' k Hk' Hk). lia.
  - intros lba Hl. apply Hout. intros i Hi.
    assert (0 <= i * sectors_per_fat v /\ i * sectors_per_fat v + sectors_per_fat v <=
              num_fats v * sectors_per_fat v) by nia. lia.
  - intros Hm i k' Hi Hk'. destruct (decide (k' = k)) as [->|Hkne].
    + by rewrite Hfirst, Hin.
    + pose proof (copies_apart (sectors_per_fat v)) as Hap.
      rewrite !Hout; [by apply Hm| |]; intros j' Hj';
        [pose proof (Hap 0 j' k' k Hk' Hk)|pose proof (Hap i j' k' k Hk' Hk)]; lia.
Qed.
End Spec.
