(* ===== verification/FatChain.v ===== *)
(** Cluster chains: following, freeing, allocating and extending them. *)

From stdpp Require Import base numbers list gmap.
From Stdlib Require Import ZArith Lia.
From S2P Require Import Prelude Block Fat32 FatSpec.

(** ** Chains in a table *)

(** [cs] are the clusters from [c] on, up to the first entry that is none. *)
Fixpoint chain (fat : Z -> Z) (c : Z) (cs : list Z) : Prop :=
  match cs with
  | [] => is_cluster c = false
  | x :: cs' => x = c /\ is_cluster c = true /\ chain fat (fat c) cs'
  end.

(** Every cluster number in the table is one of the table's. *)
Definition closed (v : FatVolume) (fat : Z -> Z) : Prop :=
  forall c, 0 <= c < entries v -> is_cluster (fat c) = true -> fat c < entries v.

Definition data_clusters (v : FatVolume) : list Z := seqZ 2 (entries v - 2).

(** The number of clusters in use and of free clusters. *)
Definition used_count (v : FatVolume) (fat : Z -> Z) : nat :=
  length (filter (fun c => fat c <> 0) (data_clusters v)).
Definition free_count (v : FatVolume) (fat : Z -> Z) : nat :=
  length (filter (fun c => fat c = 0) (data_clusters v)).

(** [f] with entry [c] set to [val]. *)
Definition upd (f : Z -> Z) (c val x : Z) : Z := if x =? c then val else f x.

(** ** The table of a device after several updates *)

Record fat_change {D} `{BlockDevice D} (v : FatVolume) (d d' : D) (f : Z -> Z) : Prop := {
  fc_count : sector_count d' = sector_count d;
  fc_entry : forall c, 0 <= c < entries v -> fat_entry v d' c = f c;
  fc_frame : forall lba, lba < fat_region_lba v \/ data_region_lba v <= lba ->
    read_sector d' lba = read_sector d lba;
  fc_mirror : mirrored v d -> mirrored v d';
}.

Lemma is_cluster_iff c : is_cluster c = true <-> 2 <= c < END_OF_CHAIN.
Proof. unfold is_cluster. lia. Qed.

Lemma upd_same f c val : upd f c val c = val.
Proof. unfold upd. by rewrite Z.eqb_refl. Qed.

Lemma upd_other f c val x : x <> c -> upd f c val x = f x.
Proof. intros. unfold upd. by destruct (Z.eqb_spec x c). Qed.

Lemma chain_ext f g c cs : (forall x, x ∈ cs -> f x = g x) -> chain f c cs -> chain g c cs.
Proof.
  revert c. induction cs as [|x cs IH]; intros c Heq; cbn; [done|].
  intros (-> & Hc & Hch). split_and!; [done|done|]. rewrite <- Heq by set_solver.
  apply IH; [|done]. intros y Hy. apply Heq. set_solver.
Qed.

Lemma chain_app f c l r :
  chain f c (l ++ r) -> exists e, chain f e r /\ (l = [] -> e = c).
Proof.
  revert c. induction l as [|x l IH]; intros c; cbn; [eauto|].
  intros (_ & _ & Hch). destruct (IH _ Hch) as (e & He & _). by exists e.
Qed.

Lemma chain_det f c l r : chain f c l -> chain f c r -> l = r.
Proof.
  revert c r. induction l as [|x l IH]; intros c [|y r]; cbn; try done.
  - intros Hc (_ & Hc' & _). congruence.
  - intros (_ & Hc & _) Hc'. congruence.
  - intros (-> & _ & Hl) (-> & _ & Hr). f_equal. by eapply IH.
Qed.

(** The tails of a chain are the chains of their heads. *)
Lemma chain_tail_of f c l x r : chain f c (l ++ x :: r) -> chain f x (x :: r).
Proof.
  revert c. induction l as [|y l IH]; intros c; cbn; [by intros (-> & ? & ?)|].
  intros (_ & _ & Hch). by eapply IH.
Qed.

(** A chain that ends does not meet itself. *)
Lemma chain_NoDup f c cs : chain f c cs -> NoDup cs.
Proof.
  revert c. induction cs as [|x cs IH]; intros c Hch; [constructor|].
  assert (chain f (f x) cs) as Htl by (cbn in Hch; by destruct Hch as (<- & _ & ?)).
  constructor; [|by eapply IH]. intros (l & r & ->)%list_elem_of_split.
  pose proof (chain_tail_of _ _ _ _ _ Htl) as Hin. cbn in Hch. destruct Hch as (<- & Hc & _).
  assert (chain f x (x :: l ++ x :: r)) as Hall by (by cbn).
  pose proof (f_equal length (chain_det _ _ _ _ Hin Hall)) as Hlen.
  autorewrite with len in Hlen. lia.
Qed.

(** The last cluster of a chain points nowhere. *)
Lemma chain_last f c l t : chain f c (l ++ [t]) -> is_cluster t = true /\ is_cluster (f t) = false.
Proof.
  revert c. induction l as [|x l IH]; intros c; cbn; [by intros (-> & ? & ?)|].
  intros (_ & _ & Hch). by eapply IH.
Qed.

(** Linking a new cluster after the last one. *)
Lemma chain_extend f c l t new :
  chain f c (l ++ [t]) -> NoDup (l ++ [t]) -> new ∉ l ++ [t] -> is_cluster new = true ->
  chain (upd (upd f new CHAIN_END) t new) c ((l ++ [t]) ++ [new]).
Proof.
  intros Hch Hnd Hnew Hc. revert c Hch. induction l as [|x l IH]; intros c Hch; cbn in *.
  - destruct Hch as (<- & Ht & _). rewrite upd_same. split_and!; try done.
    rewrite upd_other, upd_same by set_solver. done.
  - destruct Hch as (<- & Hx & Hch). apply NoDup_cons in Hnd as [Hxl Hnd].
    split_and!; [done|done|]. rewrite !upd_other by set_solver. apply IH; [done|set_solver|done].
Qed.

Lemma data_clusters_elem v c : c ∈ data_clusters v <-> 2 <= c < entries v.
Proof. unfold data_clusters. rewrite elem_of_seqZ. lia. Qed.

Lemma free_count_ext v f g :
  (forall c, 2 <= c < entries v -> f c = g c) -> free_count v f = free_count v g.
Proof.
  intros Hfg. unfold free_count. f_equal.
  assert (forall c, c ∈ data_clusters v -> f c = g c) as Hin
    by (intros c Hc%data_clusters_elem; auto).
  induction (data_clusters v) as [|x l IH]; [done|]. rewrite !filter_cons.
  pose proof (Hin x ltac:(set_solver)). rewrite IH by set_solver.
  destruct (decide (f x = 0)), (decide (g x = 0)); congruence.
Qed.

Lemma chain_short v n fat s cs :
  chain fat s cs -> Forall (on_disk v n) cs -> (length cs <= Z.to_nat (entries v - 2))%nat.
Proof.
  intros Hch Hd. assert (length (data_clusters v) = Z.to_nat (entries v - 2)) as <- by apply length_seqZ.
  apply submseteq_length, NoDup_submseteq; [by eapply chain_NoDup|].
  intros x Hx. apply data_clusters_elem. by apply (proj1 (Forall_forall _ _) Hd).
Qed.

Lemma used_count_bound v f : (used_count v f <= Z.to_nat (entries v - 2))%nat.
Proof.
  unfold used_count, data_clusters. etransitivity; [apply length_filter|]. by rewrite length_seqZ.
Qed.

(** Clearing an entry that was set lowers the count. *)
Lemma used_count_clear v f c g :
  2 <= c < entries v -> f c <> 0 -> g c = 0 ->
  (forall x, 2 <= x < entries v -> x <> c -> g x = f x) ->
  (used_count v g < used_count v f)%nat.
Proof.
  intros Hc Hf Hg Hx. unfold used_count.
  assert (forall l : list Z, (forall x : Z, x ∈ l -> 2 <= x < entries v) ->
    (length (filter (fun x => g x <> 0%Z) l) <= length (filter (fun x => f x <> 0%Z) l))%nat /\
    (c ∈ l -> (length (filter (fun x => g x <> 0%Z) l) < length (filter (fun x => f x <> 0%Z) l))%nat))
    as Hgen.
  { induction l as [|y l IH]; intros Hl; [split; [done|set_solver]|].
    destruct IH as [IH1 IH2]; [set_solver|].
    destruct (decide (y = c)) as [->|Hne].
    - rewrite filter_cons_False, filter_cons_True by auto. cbn. split; intros; lia.
    - assert (g y = f y) as Hy by (apply Hx; [apply Hl; set_solver|done]).
      rewrite !filter_cons, Hy. case_decide; cbn; split; try lia; intros Hin;
        assert (c ∈ l) as Hin' by set_solver; specialize (IH2 Hin'); lia. }
  apply Hgen; [|by apply data_clusters_elem]. intros x. apply data_clusters_elem.
Qed.

Section Chains.
Context {D : Type} `{ReliableDevice D}.
Implicit Types (d : D) (v : FatVolume) (w : World D).

Lemma fat_change_refl v d : fat_change v d d (fat_entry v d).
Proof. by split. Qed.

Lemma fat_change_trans v d d1 d2 f g : fat_change v d d1 f -> fat_change v d1 d2 g -> fat_change v d d2 g.
Proof.
  intros [] []. split; [congruence|done| |auto].
  intros lba Hl. rewrite fc_frame1, fc_frame0 by done. done.
Qed.

Lemma fat_change_ext v d d' f g :
  fat_change v d d' f -> (forall c, 0 <= c < entries v -> f c = g c) -> fat_change v d d' g.
Proof. intros [] Hfg. split; try done. intros c Hc. rewrite fc_entry0 by done. by apply Hfg. Qed.

Lemma fat_change_geometry v d d' f :
  fat_change v d d' f -> geometry v (sector_count d) -> geometry v (sector_count d').
Proof. intros [-> _ _ _]. done. Qed.

(** A write of the table, as a change. *)
Lemma write_fat_change v w c val :
  geometry v (sector_count (w_dev w)) -> 0 <= c < entries v -> 0 <= val < 268435456 ->
  exists d', write_fat_entry v c val w = (Ret tt, set_dev d' w) /\
    fat_change v (w_dev w) d' (upd (fat_entry v (w_dev w)) c val).
Proof.
  intros Hg Hc Hval. destruct (write_fat_run v w c val Hg Hc) as (d' & Hrun & Hset).
  exists d'. split; [done|]. split; try apply Hset. intros x Hx. unfold upd.
  destruct (Z.eqb_spec x c) as [->|]; [|by apply Hset]. rewrite (fs_same _ _ _ _ _ Hset).
  change 268435455 with (Z.ones 28). rewrite Z.land_ones by lia. by apply Z.mod_small.
Qed.

(** ** Freeing *)

Lemma free_chain_run fuel v w c cs :
  geometry v (sector_count (w_dev w)) -> chain (fat_entry v (w_dev w)) c cs -> NoDup cs ->
  Forall (fun x => x < entries v) cs -> (length cs < fuel)%nat ->
  exists d', free_chain fuel v c w = (Ret tt, set_dev d' w) /\
    fat_change v (w_dev w) d' (fun x => if decide (x ∈ cs) then 0 else fat_entry v (w_dev w) x).
Proof.
  revert w c cs. induction fuel as [|fuel IH]; intros w c cs Hg Hch Hnd Hr Hf; [lia|].
  cbn [free_chain]. destruct cs as [|x cs]; cbn in Hch.
  { rewrite Hch. exists (w_dev w). split; [by destruct w|]. by split. }
  destruct Hch as (<- & Hc & Hch). rewrite Hc. apply is_cluster_iff in Hc.
  apply NoDup_cons in Hnd as [Hx Hnd]. apply Forall_cons in Hr as [Hxr Hr].
  run_with (read_fat_run v w x Hg ltac:(lia)).
  destruct (write_fat_change v w x 0 Hg ltac:(lia) ltac:(lia)) as (d1 & Hw & Hch1).
  run_with Hw.
  destruct (IH (set_dev d1 w) (fat_entry v (w_dev w) x) cs) as (d2 & Hrun & Hch2); try done.
  - by eapply fat_change_geometry.
  - destruct cs as [|y cs]; [done|]. pose proof Hch as (Hy & Hyc & _).
    eapply chain_ext; [|exact Hch]. intros z Hz. cbn [w_dev set_dev].
    apply is_cluster_iff in Hyc. rewrite (fc_entry _ _ _ _ Hch1).
    + rewrite upd_other by set_solver. done.
    + rewrite Forall_forall in Hr. pose proof (Hr z Hz).
      assert (exists l r, y :: cs = l ++ z :: r) as (l & r & Heq) by (by apply list_elem_of_split).
      rewrite Heq in Hch. apply chain_app in Hch as (e & (-> & He & _) & _).
      apply is_cluster_iff in He. lia.
  - cbn in Hf. lia.
  - exists d2. rewrite Hrun. split; [done|]. cbn [w_dev set_dev] in Hch2.
    eapply fat_change_ext; [by eapply fat_change_trans|]. cbn. intros z Hz.
    rewrite (fc_entry _ _ _ _ Hch1) by done. unfold upd.
    destruct (Z.eqb_spec z x) as [->|Hne]; repeat case_decide; try done; set_solver.
Qed.

(** Whatever the chain looks like, freeing it ends: a cleared entry stops a
    cycle. *)
Lemma free_chain_ends fuel v w c :
  geometry v (sector_count (w_dev w)) -> closed v (fat_entry v (w_dev w)) ->
  (is_cluster c = true -> c < entries v) ->
  (used_count v (fat_entry v (w_dev w)) + 1 < fuel)%nat ->
  exists d', free_chain fuel v c w = (Ret tt, set_dev d' w) /\
    sector_count d' = sector_count (w_dev w) /\
    (forall x, 0 <= x < entries v ->
       fat_entry v d' x = fat_entry v (w_dev w) x \/ fat_entry v d' x = 0) /\
    (is_cluster c = true -> fat_entry v d' c = 0) /\
    (forall lba, lba < fat_region_lba v \/ data_region_lba v <= lba ->
       read_sector d' lba = read_sector (w_dev w) lba) /\
    (mirrored v (w_dev w) -> mirrored v d').
Proof.
  revert w c. induction fuel as [|fuel IH]; intros w c Hg Hcl Hc Hf; [lia|].
  cbn [free_chain]. destruct (is_cluster c) eqn:Hic.
  2: { exists (w_dev w). split_and!; try done; [by destruct w|auto]. }
  specialize (Hc eq_refl). apply is_cluster_iff in Hic as Hcr.
  run_with (read_fat_run v w c Hg ltac:(lia)).
  destruct (write_fat_change v w c 0 Hg ltac:(lia) ltac:(lia)) as (d1 & Hw & Hch1). run_with Hw.
  destruct (decide (fat_entry v (w_dev w) c = 0)) as [H0'|Hnz].
  { rewrite H0'. exists d1. destruct fuel as [|fuel]; [lia|]. split_and!; [done|apply Hch1| |
      by rewrite (fc_entry _ _ _ _ Hch1), upd_same by lia|apply Hch1|apply Hch1].
    intros x Hx. rewrite (fc_entry _ _ _ _ Hch1) by done. unfold upd.
    destruct (x =? c); auto. }
  assert (closed v (fat_entry v d1)) as Hcl1.
  { intros x Hx. rewrite (fc_entry _ _ _ _ Hch1) by done. unfold upd.
    destruct (x =? c); [done|by apply Hcl]. }
  assert (used_count v (fat_entry v d1) < used_count v (fat_entry v (w_dev w)))%nat as Hlt.
  { apply (used_count_clear _ _ c); [lia|done| |].
    - by rewrite (fc_entry _ _ _ _ Hch1), upd_same by lia.
    - intros x Hx Hne. by rewrite (fc_entry _ _ _ _ Hch1), upd_other by (done || lia). }
  destruct (IH (set_dev d1 w) (fat_entry v (w_dev w) c)) as (d2 & Hrun & Hcnt & Hent & _ & Hfr & Hmir).
  - by eapply fat_change_geometry.
  - done.
  - apply Hcl. lia.
  - cbn [w_dev set_dev]. lia.
  - exists d2. rewrite Hrun. cbn [w_dev set_dev] in *. split_and!; [done| | | | |].
    + rewrite Hcnt. apply Hch1.
    + intros x Hx. destruct (Hent x Hx) as [->|]; [|by right].
      rewrite (fc_entry _ _ _ _ Hch1) by done. unfold upd. destruct (x =? c); auto.
    + intros _. destruct (Hent c ltac:(lia)) as [->|]; [|done].
      by rewrite (fc_entry _ _ _ _ Hch1), upd_same by lia.
    + intros lba Hl. rewrite Hfr by done. by apply Hch1.
    + intros Hm. apply Hmir. by apply Hch1.
Qed.

(** ** Allocating *)

Lemma scan_free_run n v w c :
  geometry v (sector_count (w_dev w)) -> 2 <= c -> c + Z.of_nat n = entries v ->
  let fat := fat_entry v (w_dev w) in
  (exists x, scan_free n v c w = (Ret x, w) /\ c <= x < entries v /\ fat x = 0 /\
     forall y, c <= y < x -> fat y <> 0) \/
  (scan_free n v c w = (Err MkfsAborted, w) /\ forall y, c <= y < entries v -> fat y <> 0).
Proof.
  intros Hg Hc Hn fat. revert c Hc Hn. induction n as [|n IH]; intros c Hc Hn; cbn [scan_free].
  { right. split; [done|]. lia. }
  run_with (read_fat_run v w c Hg ltac:(lia)). fold fat.
  destruct (Z.eqb_spec (fat c) 0) as [H0'|Hne].
  - left. exists c. split_and!; [done|lia|lia|done|lia].
  - destruct (IH (c + 1)) as [(x & Hrun & Hx & Hz & Hmin)|[Hrun Hall]]; [lia|lia| |]; rewrite Hrun.
    + left. exists x. split_and!; [done|lia|lia|done|]. intros y Hy.
      destruct (decide (y = c)) as [->|]; [done|apply Hmin; lia].
    + right. split; [done|]. intros y Hy. destruct (decide (y = c)) as [->|]; [done|apply Hall; lia].
Qed.

Lemma entries_bounds v n : geometry v n -> 128 <= entries v <= END_OF_CHAIN.
Proof. intros []. unfold entries in *. lia. Qed.

Lemma find_free_run v w :
  geometry v (sector_count (w_dev w)) ->
  let fat := fat_entry v (w_dev w) in
  (exists x, find_free_cluster v w = (Ret x, w) /\ 2 <= x < entries v /\ fat x = 0 /\
     forall y, 2 <= y < x -> fat y <> 0) \/
  (find_free_cluster v w = (Err MkfsAborted, w) /\ forall y, 2 <= y < entries v -> fat y <> 0).
Proof.
  intros Hg fat. pose proof (entries_bounds _ _ Hg). unfold find_free_cluster.
  rewrite (max_cluster_entries _ _ Hg). apply scan_free_run; [done|lia|lia].
Qed.

Lemma scan_count_run n v w c k :
  geometry v (sector_count (w_dev w)) -> 2 <= c -> c + Z.of_nat n = entries v ->
  0 <= k -> k + Z.of_nat n < 2 ^ 32 ->
  scan_count n v c k w =
    (Ret (k + Z.of_nat (length (filter (fun x => fat_entry v (w_dev w) x = 0) (seqZ c (Z.of_nat n))))), w).
Proof.
  intros Hg. revert c k. induction n as [|n IH]; intros c k Hc Hn Hk Hkn; cbn [scan_count].
  { cbn. by rewrite Z.add_0_r. }
  run_with (read_fat_run v w c Hg ltac:(lia)).
  rewrite seqZ_cons by lia. replace (Z.pred (Z.of_nat (S n))) with (Z.of_nat n) by lia.
  destruct (Z.eqb_spec (fat_entry v (w_dev w) c) 0) as [H0'|Hne].
  - rewrite u32_small, IH by lia. rewrite filter_cons_True by done.
    do 2 f_equal. rewrite length_cons. unfold Z.succ. lia.
  - rewrite IH by lia. by rewrite filter_cons_False by done.
Qed.

Lemma count_free_run v w :
  geometry v (sector_count (w_dev w)) ->
  count_free_clusters v w = (Ret (Z.of_nat (free_count v (fat_entry v (w_dev w)))), w).
Proof.
  intros Hg. pose proof (entries_bounds _ _ Hg) as He. unfold END_OF_CHAIN in He.
  unfold count_free_clusters.
  rewrite (max_cluster_entries _ _ Hg), scan_count_run; try done; try lia.
  unfold free_count, data_clusters. by rewrite Z.add_0_l, Z2Nat.id by lia.
Qed.

(** Allocation takes the lowest free cluster and closes its chain. *)
Lemma alloc_cluster_run v w c0 :
  geometry v (sector_count (w_dev w)) -> 2 <= c0 < entries v -> fat_entry v (w_dev w) c0 = 0 ->
  exists c d', alloc_cluster v w = (Ret c, set_dev d' w) /\ 2 <= c < entries v /\
    fat_entry v (w_dev w) c = 0 /\
    (forall y, 2 <= y < c -> fat_entry v (w_dev w) y <> 0) /\
    fat_change v (w_dev w) d' (upd (fat_entry v (w_dev w)) c CHAIN_END).
Proof.
  intros Hg Hc0 Hf0. destruct (find_free_run v w Hg) as [(c & Hrun & Hc & Hz & Hmin)|[_ Hall]].
  2: { by destruct (Hall c0). }
  destruct (write_fat_change v w c CHAIN_END Hg ltac:(lia)) as (d' & Hw & Hch);
    [unfold CHAIN_END; lia|].
  exists c, d'. unfold alloc_cluster. run_with Hrun. run_with Hw. split_and!; done || lia.
Qed.
End Chains.
