(* ===== verification/FatCluster.v ===== *)
(** Cluster contents: reading and writing whole clusters, and their
    independence from the table and from each other. *)

From stdpp Require Import base numbers list gmap.
From Stdlib Require Import ZArith Lia.
From S2P Require Import Prelude Block Fat32 FatSpec FatChain.

Section Clusters.
Context {D : Type} `{ReliableDevice D}.
Implicit Types (d : D) (v : FatVolume) (w : World D).

(** [n] consecutive sectors, and the bytes of a cluster. *)
Fixpoint sectors (n : nat) d (lba : Z) : list Z :=
  match n with
  | O => []
  | S n => default [] (read_sector d lba) ++ sectors n d (lba + 1)
  end.

Definition cluster_lba v (c : Z) : Z := data_region_lba v + (c - 2) * sectors_per_cluster v.

Definition cluster_data v d (c : Z) : list Z :=
  sectors (Z.to_nat (sectors_per_cluster v)) d (cluster_lba v c).

(** [d'] is [d] with the bytes of cluster [c] replaced by [buf]. *)
Record cluster_set v d d' (c : Z) (buf : list Z) : Prop := {
  cs_count : sector_count d' = sector_count d;
  cs_same : cluster_data v d' c = buf;
  cs_other : forall c', on_disk v (sector_count d) c' -> c' <> c ->
    cluster_data v d' c' = cluster_data v d c';
  cs_table : forall x, 0 <= x < entries v -> fat_entry v d' x = fat_entry v d x;
  cs_frame : forall lba, lba < data_region_lba v -> read_sector d' lba = read_sector d lba;
}.

Lemma cluster_lba_run v n c : geometry v n -> on_disk v n c -> cluster_to_lba v c = cluster_lba v c.
Proof.
  intros [] [Hc Hd]. unfold cluster_to_lba, cluster_lba, entries, END_OF_CHAIN in *.
  assert (0 <= (c - 2) * sectors_per_cluster v) by nia.
  assert ((c - 2) * sectors_per_cluster v + sectors_per_cluster v = (c - 1) * sectors_per_cluster v) by lia.
  assert (0 <= data_region_lba v) by nia.
  rewrite (u32_small (c - 2)), (u32_small ((c - 2) * _)) by lia. apply u32_small. lia.
Qed.

Lemma cluster_lba_range v n c :
  geometry v n -> on_disk v n c ->
  0 <= data_region_lba v <= cluster_lba v c /\ cluster_lba v c + sectors_per_cluster v <= n.
Proof.
  intros [] [Hc Hd]. unfold cluster_lba.
  assert ((c - 2) * sectors_per_cluster v + sectors_per_cluster v = (c - 1) * sectors_per_cluster v) by lia.
  nia.
Qed.

(** Different clusters have disjoint sectors. *)
Lemma clusters_apart v n c c' :
  geometry v n -> c <> c' ->
  cluster_lba v c + sectors_per_cluster v <= cluster_lba v c' \/
  cluster_lba v c' + sectors_per_cluster v <= cluster_lba v c.
Proof. intros [] Hne. unfold cluster_lba. destruct (Z.lt_trichotomy c c') as [?|[?|?]]; [left|done|right]; nia. Qed.

Lemma length_sectors n d lba :
  0 <= lba -> lba + Z.of_nat n <= sector_count d ->
  length (sectors n d lba) = (n * 512)%nat /\ bytes (sectors n d lba).
Proof.
  revert lba. induction n as [|n IH]; intros lba H0' Hn; [by split; [|constructor]|].
  cbn [sectors]. destruct (read_in_range d lba) as [b Hb]; [lia|]. rewrite Hb. cbn [default].
  destruct (read_valid _ _ _ Hb) as [Hl Hby]. unfold SECTOR_SIZE in Hl. unfold id.
  destruct (IH (lba + 1)) as [IHl IHb]; [lia|lia|]. rewrite length_app, Hl, IHl.
  split; [lia|]. by apply Forall_app.
Qed.

Lemma cluster_data_length v d c :
  geometry v (sector_count d) -> on_disk v (sector_count d) c ->
  length (cluster_data v d c) = cluster_size v /\ bytes (cluster_data v d c).
Proof.
  intros Hg Hc. pose proof (cluster_lba_range _ _ _ Hg Hc). pose proof (g_spc _ _ Hg).
  unfold cluster_data, cluster_size, SECTOR_SIZE. apply length_sectors; lia.
Qed.

Lemma sectors_frame n d d' lba :
  (forall x, lba <= x < lba + Z.of_nat n -> read_sector d' x = read_sector d x) ->
  sectors n d' lba = sectors n d lba.
Proof.
  revert lba. induction n as [|n IH]; intros lba Hf; [done|]. cbn.
  rewrite Hf by lia. f_equal. apply IH. intros x Hx. apply Hf. lia.
Qed.

Lemma read_sectors_run n w lba :
  0 <= lba -> lba + Z.of_nat n <= sector_count (w_dev w) -> sector_count (w_dev w) <= 2 ^ 32 ->
  read_sectors n lba w = (Ret (sectors n (w_dev w) lba), w).
Proof.
  revert lba. induction n as [|n IH]; intros lba H0' Hn Hmax; [done|]. cbn [read_sectors sectors].
  destruct (dev_read_run w lba) as (b & Hrun & Hb & _); [lia|]. run_with Hrun.
  destruct (decide (n = O)) as [->|Hn0]; [cbn; by rewrite Hb|].
  rewrite u32_small by lia. run_with (IH (lba + 1) ltac:(lia) ltac:(lia) Hmax).
  by rewrite Hb.
Qed.

Lemma read_cluster_run v w c :
  geometry v (sector_count (w_dev w)) -> on_disk v (sector_count (w_dev w)) c ->
  read_cluster v c w = (Ret (cluster_data v (w_dev w) c), w).
Proof.
  intros Hg Hc. pose proof (cluster_lba_range _ _ _ Hg Hc). pose proof Hg as [].
  unfold read_cluster, cluster_data. rewrite (cluster_lba_run _ _ _ Hg Hc).
  apply read_sectors_run; lia.
Qed.

Lemma write_sectors_run n w lba buf :
  0 <= lba -> lba + Z.of_nat n <= sector_count (w_dev w) -> sector_count (w_dev w) <= 2 ^ 32 ->
  length buf = (n * 512)%nat -> bytes buf ->
  exists d', write_sectors n lba buf w = (Ret tt, set_dev d' w) /\
    sector_count d' = sector_count (w_dev w) /\ sectors n d' lba = buf /\
    (forall x, x < lba \/ lba + Z.of_nat n <= x -> read_sector d' x = read_sector (w_dev w) x).
Proof.
  revert w lba buf. induction n as [|n IH]; intros w lba buf H0' Hn Hmax Hl Hb.
  { exists (w_dev w). split_and!; [by destruct w|done| |done]. by apply nil_length_inv in Hl as ->. }
  cbn [write_sectors sectors].
  assert (sector (take SECTOR_SIZE buf)) as Hs.
  { split; [rewrite length_take; unfold SECTOR_SIZE; lia|by apply Forall_take]. }
  assert (0 <= lba < sector_count (w_dev w)) as Hin by lia.
  run_with (dev_write_run w lba _ Hin Hs).
  set (d1 := snd (write_sector (w_dev w) lba (take SECTOR_SIZE buf))).
  assert (sector_count d1 = sector_count (w_dev w)) as Hc1 by apply write_count.
  assert (read_sector d1 lba = Some (take SECTOR_SIZE buf)) as Hr1 by (apply read_written; [lia|done]).
  assert (forall x, x <> lba -> read_sector d1 x = read_sector (w_dev w) x) as Ho1
    by (intros x Hx; by apply read_other).
  destruct (decide (n = O)) as [->|Hn0].
  { exists d1. cbn [write_sectors sectors]. split_and!; [done|done| |intros x Hx; apply Ho1; lia].
    rewrite Hr1, app_nil_r. cbn. apply take_ge. unfold SECTOR_SIZE. lia. }
  rewrite u32_small by lia.
  destruct (IH (set_dev d1 w) (lba + 1) (drop SECTOR_SIZE buf)) as (d' & Hrun & Hc & Hd & Ho);
    try (cbn; lia); [rewrite length_drop; unfold SECTOR_SIZE; lia|by apply Forall_drop|].
  cbn [w_dev set_dev] in *. exists d'. rewrite Hrun. split_and!; [done|lia| |].
  - rewrite Ho, Hr1, Hd by lia. cbn [default]. apply take_drop.
  - intros x Hx. rewrite Ho by lia. apply Ho1. lia.
Qed.

Lemma write_cluster_run v w c buf :
  geometry v (sector_count (w_dev w)) -> on_disk v (sector_count (w_dev w)) c ->
  length buf = cluster_size v -> bytes buf ->
  exists d', write_cluster v c buf w = (Ret tt, set_dev d' w) /\
    cluster_set v (w_dev w) d' c buf.
Proof.
  intros Hg Hc Hl Hb. pose proof (cluster_lba_range _ _ _ Hg Hc) as [Hlo Hhi]. pose proof Hg as [].
  unfold write_cluster. rewrite (cluster_lba_run _ _ _ Hg Hc).
  destruct (write_sectors_run (Z.to_nat (sectors_per_cluster v)) w (cluster_lba v c) buf)
    as (d' & Hrun & Hcnt & Hd & Ho); try done; try lia.
  exists d'. split; [done|]. split; [done|done| | |].
  - intros c' Hc' Hne. unfold cluster_data. apply sectors_frame. intros x Hx. apply Ho.
    destruct (clusters_apart _ _ _ _ Hg Hne); lia.
  - intros x Hx. unfold fat_entry. rewrite Ho; [done|].
    destruct (fat_place _ _ _ Hg Hx) as (k & j & Hk & _ & _ & -> & _). left. nia.
  - intros lba Hlt. apply Ho. lia.
Qed.

(** What lies beyond the table does not see its updates. *)
Lemma cluster_data_table v d d' f c :
  geometry v (sector_count d) -> on_disk v (sector_count d) c -> fat_change v d d' f ->
  cluster_data v d' c = cluster_data v d c.
Proof.
  intros Hg Hc Hch. pose proof (cluster_lba_range _ _ _ Hg Hc).
  apply sectors_frame. intros x Hx. apply (fc_frame _ _ _ _ Hch). lia.
Qed.

Lemma cluster_set_mirrored v d d' c buf :
  geometry v (sector_count d) -> cluster_set v d d' c buf -> mirrored v d -> mirrored v d'.
Proof.
  intros [] [_ _ _ _ Hf] Hm i k Hi Hk. rewrite !Hf by nia. by apply Hm.
Qed.
End Clusters.
