(* ===== verification/FatDirSpec.v ===== *)
(** Directories as lists of entries: short names, and the search for an entry
    along a directory's clusters. *)

From stdpp Require Import base numbers list gmap.
From Stdlib Require Import ZArith Lia.
From S2P Require Import Prelude Block Fat32 Fat32Dir FatSpec FatChain FatCluster.

(** ** Names *)

(** The name of an entry, without the padding. *)
Definition entry_name (e : list Z) : list Z :=
  take_name (take 8 e) ++
  (if (byte_at e 8 =? SPACE) || (byte_at e 8 =? 0) then [] else DOT :: take_name (take 3 (drop 8 e))).

Lemma entry_name_ext e e' : take 11 e = take 11 e' -> entry_name e = entry_name e'.
Proof.
  intros He. unfold entry_name, byte_at.
  rewrite <- (lookup_take_lt e 11 8), <- (lookup_take_lt e' 11 8) by lia.
  assert (forall l : list Z, take 8 l = take 8 (take 11 l)) as H8 by (intros l; by rewrite take_take).
  assert (forall l : list Z, take 3 (drop 8 l) = drop 8 (take 11 l)) as H3 by (intros l; by rewrite skipn_firstn_comm).
  by rewrite (H8 e), (H8 e'), (H3 e), (H3 e'), He.
Qed.

(** [target] is a prefix of [name] up to ASCII case. *)
Fixpoint ci_prefix (target name : list Z) : bool :=
  match target, name with
  | [], _ => true
  | _ :: _, [] => false
  | t :: target, n :: name => eq_ignore_ascii_case n t && ci_prefix target name
  end.

(** Characters of a short name: none of NUL, space and dot. *)
Definition name_char (b : Z) : Prop := b <> 0 /\ b <> SPACE /\ b <> DOT.

(** An 8.3 name: a base of one to eight characters, and an extension of up to
    three after a dot. *)
Inductive short_name : list Z -> Prop :=
| short_base base :
    (1 <= length base <= 8)%nat -> Forall name_char base -> short_name base
| short_ext base ext :
    (1 <= length base <= 8)%nat -> (1 <= length ext <= 3)%nat ->
    Forall name_char base -> Forall name_char ext -> short_name (base ++ DOT :: ext).

(** ** The entries of a directory *)

Section Directories.
Context {D : Type} `{ReliableDevice D}.
Implicit Types (d : D) (v : FatVolume) (w : World D).

(** An entry with the cluster and the index it is at. *)
Definition located : Type := Z * nat * list Z.

Definition cluster_entries v d (c : Z) : list located :=
  (fun k => (c, k, entry_at (cluster_data v d c) k)) <$> seq 0 (entries_per_cluster v).

Definition dir_entries v d (cs : list Z) : list located := concat (cluster_entries v d <$> cs).

(** The first visible entry whose name [target] begins, before the end
    marker. *)
Fixpoint lookup_entry (target : list Z) (es : list located) : option (Z * nat) :=
  match es with
  | [] => None
  | (c, k, e) :: es =>
      if is_hidden (entry_attr e) then lookup_entry target es
      else if byte_at e 0 =? 0 then None
      else if byte_at e 0 =? 229 then lookup_entry target es
      else if negb (bool_decide (entry_name e = [])) && ci_prefix target (entry_name e)
           then Some (c, k)
           else lookup_entry target es
  end.

(** ** Lemmas on names *)

Lemma take_name_spec l : Forall (fun b => b <> 0 /\ b <> SPACE) (take_name l) /\
  (length (take_name l) <= length l)%nat.
Proof.
  induction l as [|b l [IH1 IH2]]; cbn [take_name]; [by split|].
  destruct ((b =? SPACE) || (b =? 0)) eqn:Hb; cbn; [split; [done|lia]|].
  split; [|lia]. constructor; [lia|done].
Qed.

Lemma take_name_id l r :
  Forall name_char l -> (forall b, head r = Some b -> b = SPACE \/ b = 0) -> take_name (l ++ r) = l.
Proof.
  intros Hl Hr. induction Hl as [|b l (H1 & H2 & _) Hl IH]; cbn [app take_name].
  - destruct r as [|b r]; [done|]. cbn [take_name]. destruct (Hr b eq_refl) as [-> | ->]; done.
  - destruct (Z.eqb_spec b SPACE); [done|]. destruct (Z.eqb_spec b 0); [done|]. cbn. by rewrite IH.
Qed.

Lemma entry_name_ok e :
  Forall (fun b => b <> 0) (entry_name e) /\ (length (entry_name e) <= 12)%nat.
Proof.
  unfold entry_name. pose proof (take_name_spec (take 8 e)) as [H1 H2].
  pose proof (take_name_spec (take 3 (drop 8 e))) as [H3 H4]. rewrite length_take in H2, H4.
  split.
  - apply Forall_app. split; [eapply Forall_impl; [done|]; by intros ? []|].
    destruct (_ || _); [done|]. constructor; [done|]. eapply Forall_impl; [done|]. by intros ? [].
  - rewrite length_app. destruct (_ || _); cbn; lia.
Qed.

Lemma read_name_entry e :
  read_dir_entry_name e =
  if decide (entry_name e = []) then None
  else Some (entry_name e ++ replicate (13 - length (entry_name e)) 0).
Proof.
  assert ((if negb (byte_at e 8 =? SPACE) && negb (byte_at e 8 =? 0)
           then take_name (take 8 e) ++ DOT :: take_name (take 3 (drop 8 e))
           else take_name (take 8 e)) = entry_name e) as Heq.
  { unfold entry_name. destruct (_ =? SPACE), (byte_at e 8 =? 0); cbn; by rewrite ?app_nil_r. }
  unfold read_dir_entry_name. by rewrite Heq.
Qed.

Lemma eq_ignore_zero t : t <> 0 -> eq_ignore_ascii_case 0 t = false.
Proof.
  intros Ht. unfold eq_ignore_ascii_case. change (to_ascii_lower 0) with 0.
  apply Z.eqb_neq. unfold to_ascii_lower. destruct ((65 <=? t) && (t <=? 90)) eqn:Hb; lia.
Qed.

(** On a padded name the comparison never runs past the padding. *)
Lemma name_matches_prefix target name m :
  Forall (fun b => b <> 0) target -> (0 < m)%nat ->
  name_matches (name ++ replicate m 0) target = Some (ci_prefix target name).
Proof.
  intros Ht Hm. revert name. induction Ht as [|t target Ht Htt IH]; intros name; [done|].
  cbn [name_matches ci_prefix]. destruct name as [|n name]; cbn [app].
  - destruct m as [|m]; [lia|]. cbn [replicate]. by rewrite eq_ignore_zero.
  - by destruct (eq_ignore_ascii_case n t); cbn.
Qed.

(** ** Lemmas on the search *)

Lemma scan_entries_lookup n k target buf c rest :
  Forall (fun b => b <> 0) target ->
  let es := (fun k => (c, k, entry_at buf k)) <$> seq k n in
  match scan_entries n k target buf with
  | ScanFound i => lookup_entry target (es ++ rest) = Some (c, i)
  | ScanEnd => lookup_entry target (es ++ rest) = None
  | ScanNext => lookup_entry target (es ++ rest) = lookup_entry target rest
  | ScanPanic => False
  end.
Proof.
  intros Ht. revert k. induction n as [|n IH]; intros k; cbn zeta; [done|].
  specialize (IH (S k)). cbn zeta in IH. cbn [scan_entries seq fmap list_fmap app lookup_entry].
  set (e := entry_at buf k). destruct (is_hidden (entry_attr e)); [exact IH|].
  destruct (byte_at e 0 =? 0); [done|]. destruct (byte_at e 0 =? 229); [exact IH|].
  rewrite read_name_entry. pose proof (entry_name_ok e) as [_ Hl].
  case_decide as Hn; [rewrite (bool_decide_eq_true_2 _ Hn); exact IH|].
  rewrite (bool_decide_eq_false_2 _ Hn), name_matches_prefix by (done || lia). cbn [negb andb].
  destruct (ci_prefix target (entry_name e)); [done|exact IH].
Qed.

Lemma find_in_chain_run fuel v w c cs target :
  geometry v (sector_count (w_dev w)) -> chain (fat_entry v (w_dev w)) c cs ->
  Forall (on_disk v (sector_count (w_dev w))) cs -> (length cs < fuel)%nat ->
  Forall (fun b => b <> 0) target ->
  find_in_chain fuel v c target w = (Ret (lookup_entry target (dir_entries v (w_dev w) cs)), w).
Proof.
  intros Hg Hch Hd Hf Ht. revert c cs Hch Hd Hf.
  induction fuel as [|fuel IH]; intros c cs Hch Hd Hf; [lia|]. cbn [find_in_chain].
  destruct cs as [|x cs]; cbn [chain] in Hch; [by rewrite Hch|].
  destruct Hch as (<- & Hc & Hch). rewrite Hc. apply Forall_cons in Hd as [Hx Hd].
  run_with (read_cluster_run v w x Hg Hx).
  unfold dir_entries. cbn [fmap list_fmap concat]. fold (dir_entries v (w_dev w) cs).
  pose proof (scan_entries_lookup (entries_per_cluster v) 0 target (cluster_data v (w_dev w) x) x
                (dir_entries v (w_dev w) cs) Ht) as Hscan. cbn zeta in Hscan.
  fold (cluster_entries v (w_dev w) x) in Hscan.
  destruct (scan_entries _ _ _ _) as [k| | |]; [by rewrite Hscan|by rewrite Hscan| |done].
  destruct Hx as [Hx _]. run_with (read_fat_run v w x Hg ltac:(lia)). rewrite Hscan.
  apply IH; [done|done|cbn in Hf; lia].
Qed.

(** What is found is in the directory. *)
Lemma lookup_entry_elem target es c k :
  lookup_entry target es = Some (c, k) -> exists e, (c, k, e) ∈ es.
Proof.
  induction es as [|[[c' k'] e] es IH]; cbn [lookup_entry]; [done|]. intros Hl.
  assert (lookup_entry target es = Some (c, k) -> exists e', (c, k, e') ∈ (c', k', e) :: es) as Hrec.
  { intros Hr. destruct (IH Hr) as [e' He']. exists e'. by apply elem_of_cons; right. }
  destruct (is_hidden (entry_attr e)); [auto|]. destruct (byte_at e 0 =? 0); [done|].
  destruct (byte_at e 0 =? 229); [auto|]. destruct (_ && _); [|auto].
  simplify_eq. exists e. apply elem_of_cons. by left.
Qed.

Lemma lookup_entry_in v d cs target c k :
  lookup_entry target (dir_entries v d cs) = Some (c, k) ->
  c ∈ cs /\ (k < entries_per_cluster v)%nat.
Proof.
  intros (e & Hin)%lookup_entry_elem. unfold dir_entries in Hin.
  apply list_elem_of_In, in_concat in Hin as (l & Hl & He). apply list_elem_of_In in Hl, He.
  apply list_elem_of_fmap in Hl as (c' & -> & Hc').
  apply list_elem_of_fmap in He as (k' & Heq & Hk'). simplify_eq.
  split; [done|]. apply elem_of_seq in Hk'. lia.
Qed.

(** ** Writing and reading back a name *)

Lemma position_dot l r :
  Forall (fun b => b <> DOT) l ->
  position (Z.eqb DOT) (l ++ r) = option_map (Nat.add (length l)) (position (Z.eqb DOT) r).
Proof.
  intros Hl. induction Hl as [|b l Hb Hl IH]; cbn [app position length].
  - by destruct (position _ r).
  - destruct (Z.eqb_spec DOT b); [done|]. rewrite IH. by destruct (position _ r).
Qed.

Lemma name_char_no_dot l : Forall name_char l -> Forall (fun b => b <> DOT) l.
Proof. intros Hl. eapply Forall_impl; [done|]. by intros b (_ & _ & ?). Qed.

Lemma encode_short_base base :
  (1 <= length base <= 8)%nat -> Forall name_char base ->
  encode_name base = pad 8 base ++ replicate 3 SPACE.
Proof.
  intros Hb Hc. unfold encode_name.
  pose proof (position_dot base [] (name_char_no_dot _ Hc)) as Hp. rewrite app_nil_r in Hp.
  rewrite Hp. cbn [option_map position default]. unfold id. rewrite Nat.min_l, firstn_all by lia. done.
Qed.

Lemma encode_short_ext base ext :
  (1 <= length base <= 8)%nat -> (1 <= length ext <= 3)%nat ->
  Forall name_char base -> Forall name_char ext ->
  encode_name (base ++ DOT :: ext) = pad 8 base ++ pad 3 ext.
Proof.
  intros Hb He Hcb Hce. unfold encode_name.
  rewrite (position_dot base (DOT :: ext) (name_char_no_dot _ Hcb)). cbn [position].
  rewrite Z.eqb_refl. cbn [option_map default]. unfold id. rewrite Nat.add_0_r, Nat.min_l by lia.
  rewrite take_app_length. f_equal. f_equal.
  replace (length base + 1)%nat with (length (base ++ [DOT])) by (rewrite length_app; cbn; lia).
  replace (base ++ DOT :: ext) with ((base ++ [DOT]) ++ ext) by (by rewrite <- app_assoc).
  rewrite drop_app_length. apply take_ge. lia.
Qed.

Lemma length_pad n l : (length l <= n)%nat -> length (pad n l) = n.
Proof. intros. unfold pad. autorewrite with len. lia. Qed.

Lemma entry_name_fields base ext rest :
  (length base <= 8)%nat -> (length ext <= 3)%nat -> Forall name_char base -> Forall name_char ext ->
  entry_name (pad 8 base ++ pad 3 ext ++ rest) =
  base ++ (if decide (ext = []) then [] else DOT :: ext).
Proof.
  intros Hb He Hcb Hce. unfold entry_name.
  pose proof (length_pad 8 base Hb) as Hlb. pose proof (length_pad 3 ext He) as Hle.
  assert (forall n b, In b (replicate n SPACE) -> b = SPACE) as Hsp
    by (intros n b Hin; apply list_elem_of_In, elem_of_replicate in Hin as [? _]; done).
  assert (take 8 (pad 8 base ++ pad 3 ext ++ rest) = pad 8 base) as ->
    by (rewrite <- Hlb at 1; apply take_app_length).
  assert (drop 8 (pad 8 base ++ pad 3 ext ++ rest) = pad 3 ext ++ rest) as Hdrop
    by (rewrite <- Hlb at 1; apply drop_app_length).
  assert (byte_at (pad 8 base ++ pad 3 ext ++ rest) 8 = byte_at (pad 3 ext ++ rest) 0) as ->.
  { transitivity (byte_at (drop 8 (pad 8 base ++ pad 3 ext ++ rest)) 0); [|by rewrite Hdrop].
    unfold byte_at. by rewrite lookup_drop. }
  rewrite Hdrop.
  assert (take 3 (pad 3 ext ++ rest) = pad 3 ext) as -> by (rewrite <- Hle at 1; apply take_app_length).
  assert (forall n l, Forall name_char l -> take_name (pad n l) = l) as Htn.
  { intros n l Hl. apply take_name_id; [done|]. intros b Hh. left.
    destruct (n - length l)%nat; [done|]. cbn in Hh. congruence. }
  rewrite !Htn by done. f_equal. unfold pad. destruct ext as [|x ext]; [done|].
  apply Forall_cons in Hce as [(H1 & H2 & _) _]. cbn.
  destruct (Z.eqb_spec x SPACE); [done|]. by destruct (Z.eqb_spec x 0).
Qed.

Lemma short_name_roundtrip name rest :
  short_name name -> entry_name (encode_name name ++ rest) = name.
Proof.
  intros [base Hb Hc|base ext Hb He Hcb Hce].
  - rewrite encode_short_base by done. rewrite <- app_assoc.
    change (replicate 3 SPACE) with (pad 3 []). rewrite entry_name_fields by (done || (cbn; lia)).
    by rewrite app_nil_r.
  - rewrite encode_short_ext by done. rewrite <- app_assoc, entry_name_fields by (done || lia).
    by destruct ext; [cbn in He; lia|].
Qed.
End Directories.

(** ** Paths in the root directory *)

Lemma split_slash_none p : Forall (fun b => b <> SLASH) p -> split_slash p = [p].
Proof.
  induction 1 as [|b p Hb Hp IH]; [done|]. cbn [split_slash].
  destruct (Z.eqb_spec b SLASH); [done|]. by rewrite IH.
Qed.

Lemma resolve_root {D} `{BlockDevice D} fuel v name (w : World D) :
  name <> [] -> Forall (fun b => b <> SLASH) name ->
  resolve_path fuel v (SLASH :: name) w = (Ret (root_cluster v, name), w).
Proof.
  intros Hne Hs. unfold resolve_path. cbn [trim_slashes]. rewrite Z.eqb_refl.
  assert (trim_slashes name = name) as ->.
  { destruct Hs as [|b name Hb Hs]; [done|]. cbn [trim_slashes].
    by destruct (Z.eqb_spec b SLASH). }
  rewrite decide_False by done. rewrite split_slash_none by done. cbn [walk_path].
  by rewrite decide_False by done.
Qed.
