(* ===== verification/FatFileSpec.v ===== *)
(** Files as byte sequences: the contents of a file are the bytes of its
    clusters, and the cursor of an open file is a place in them. *)

From stdpp Require Import base numbers list gmap.
From Stdlib Require Import ZArith Lia.
From S2P Require Import Prelude Block Fat32 Fat32Dir Fat32File FatSpec FatChain FatCluster.

Section FileSpec.
Context {D : Type} `{ReliableDevice D}.
Implicit Types (d : D) (v : FatVolume) (w : World D) (f : File).

(** Bytes of a cluster, as an integer. *)
Definition csize v : Z := sectors_per_cluster v * 512.

Definition file_bytes v d (cs : list Z) : list Z := concat (cluster_data v d <$> cs).

(** The cursor stands at byte [p]: inside a cluster of the chain, or after the
    last one. *)
Definition cursor_at v (cs : list Z) (p : Z) f : Prop :=
  f_position f = p /\
  if p <? Z.of_nat (length cs) * csize v then
    cs !! Z.to_nat (p / csize v) = Some (f_current_cluster f) /\
    f_sector_in_cluster f = p mod csize v / 512 /\ f_byte_in_sector f = p mod 512
  else f_current_cluster f = 0 /\ f_sector_in_cluster f = 0 /\ f_byte_in_sector f = 0.

(** A chain closed by an end-of-chain mark. *)
Definition terminated (fat : Z -> Z) (cs : list Z) : Prop :=
  forall x, last cs = Some x -> END_OF_CHAIN <= fat x.

(** [f] is a consistent open file over the clusters [cs]. *)
Record file_ok v d (cs : list Z) f : Prop := {
  fo_chain : chain (fat_entry v d) (f_start_cluster f) cs;
  fo_term : terminated (fat_entry v d) cs;
  fo_disk : Forall (on_disk v (sector_count d)) cs;
  fo_size : 0 <= f_size f <= Z.of_nat (length cs) * csize v;
  fo_width : f_size f < 2 ^ 32;
  fo_pos : 0 <= f_position f <= f_size f;
  fo_cursor : cursor_at v cs (f_position f) f;
}.

(** ** Slices *)

Lemma concat_slice (ls : list (list Z)) n i o m x :
  Forall (fun l => length l = n) ls -> ls !! i = Some x -> (o + m <= n)%nat ->
  take m (drop (i * n + o) (concat ls)) = take m (drop o x).
Proof.
  intros Hl. revert i. induction Hl as [|y ls Hy Hl IH]; intros i Hi Hom; [by destruct i|].
  destruct i as [|i]; cbn in Hi; cbn [concat].
  - simplify_eq. cbn [Nat.mul Nat.add]. rewrite drop_app_le by lia.
    apply take_app_le. rewrite length_drop. lia.
  - rewrite drop_app_ge by lia. rewrite <- (IH i Hi Hom). do 2 f_equal. lia.
Qed.

Lemma sectors_slice n d lba s o m :
  0 <= lba -> lba + Z.of_nat n <= sector_count d -> (s < n)%nat -> (o + m <= 512)%nat ->
  take m (drop (s * 512 + o) (sectors n d lba)) =
  take m (drop o (default [] (read_sector d (lba + Z.of_nat s)))).
Proof.
  revert lba s. induction n as [|n IH]; intros lba s H0' Hn Hs Hom; [lia|]. cbn [sectors].
  destruct (read_in_range d lba) as [b Hb]; [lia|].
  destruct (read_valid _ _ _ Hb) as [Hl _]. unfold SECTOR_SIZE in Hl.
  destruct s as [|s].
  - rewrite Z.add_0_r, Hb. cbn [default Nat.mul Nat.add]. unfold id.
    rewrite drop_app_le by lia. apply take_app_le. rewrite length_drop. lia.
  - rewrite Hb. cbn [default]. unfold id. rewrite drop_app_ge by lia.
    replace (lba + Z.of_nat (S s)) with (lba + 1 + Z.of_nat s) by lia.
    rewrite <- IH by lia. do 2 f_equal. lia.
Qed.

Lemma csize_nat v n : geometry v n -> Z.of_nat (cluster_size v) = csize v /\ 512 <= csize v <= 65536.
Proof. intros []. unfold cluster_size, csize, SECTOR_SIZE. lia. Qed.

Lemma file_bytes_length v d cs :
  geometry v (sector_count d) -> Forall (on_disk v (sector_count d)) cs ->
  Forall (fun l => length l = cluster_size v) (cluster_data v d <$> cs) /\
  Z.of_nat (length (file_bytes v d cs)) = Z.of_nat (length cs) * csize v.
Proof.
  intros Hg Hd. destruct (csize_nat _ _ Hg) as [Hcs _]. unfold file_bytes.
  induction Hd as [|c cs Hc Hd [IH1 IH2]]; [by split|]. cbn [fmap list_fmap concat].
  destruct (cluster_data_length _ _ _ Hg Hc) as [Hl _].
  split; [by constructor|]. rewrite length_app, Hl, length_cons. lia.
Qed.

(** The place of a byte: cluster, sector, offset. *)
Lemma place v n p :
  geometry v n -> 0 <= p ->
  p = p / csize v * csize v + p mod csize v / 512 * 512 + p mod 512 /\
  0 <= p mod csize v / 512 < sectors_per_cluster v /\ 0 <= p mod 512 < 512 /\ 0 <= p / csize v.
Proof.
  intros Hg Hp. destruct (csize_nat _ _ Hg) as [_ Hb]. pose proof (g_spc _ _ Hg).
  pose proof (Z.div_mod p (csize v) ltac:(lia)). pose proof (Z.mod_pos_bound p (csize v) ltac:(lia)).
  pose proof (Z.div_mod (p mod csize v) 512 ltac:(lia)).
  assert ((p mod csize v) mod 512 = p mod 512) as Hm.
  { apply Z.mod_mod_divide. exists (sectors_per_cluster v). done. }
  rewrite Hm in *. pose proof (Z.mod_pos_bound p 512 ltac:(lia)).
  assert (0 <= p mod csize v / 512) by (apply Z.div_pos; lia).
  assert (0 <= p / csize v) by (apply Z.div_pos; lia).
  assert (p mod csize v / 512 < sectors_per_cluster v)
    by (apply Z.div_lt_upper_bound; [lia|]; unfold csize in *; lia).
  split_and!; lia.
Qed.

(** The bytes under the cursor are those of its sector. *)
Lemma cursor_sector v d cs p f k :
  geometry v (sector_count d) -> Forall (on_disk v (sector_count d)) cs ->
  0 <= p < Z.of_nat (length cs) * csize v -> cursor_at v cs p f ->
  p mod 512 + Z.of_nat k <= 512 ->
  exists b, 0 <= cursor_lba v f < sector_count d /\ read_sector d (cursor_lba v f) = Some b /\
    sector b /\ take k (drop (Z.to_nat (p mod 512)) b) = take k (drop (Z.to_nat p) (file_bytes v d cs)).
Proof.
  intros Hg Hd Hp [_ Hcur] Hk. destruct (Z.ltb_spec p (Z.of_nat (length cs) * csize v)); [|lia].
  destruct Hcur as (Hc & Hs & Hb).
  destruct (place v _ p Hg ltac:(lia)) as (Heq & Hsr & Hbr & Hq).
  set (c := f_current_cluster f) in *. set (s := p mod csize v / 512) in *.
  assert (on_disk v (sector_count d) c) as Hcd by (by eapply Forall_lookup_1 in Hd).
  pose proof (cluster_lba_range _ _ _ Hg Hcd) as [Hlo Hhi].
  assert (cursor_lba v f = cluster_lba v c + s) as Hlba.
  { unfold cursor_lba. fold c. rewrite Hs, (cluster_lba_run _ _ _ Hg Hcd).
    pose proof (g_dev _ _ Hg). apply u32_small. lia. }
  destruct (read_in_range d (cluster_lba v c + s)) as [b Hrb]; [lia|].
  exists b. rewrite Hlba. split_and!; [lia|lia|done|by eapply read_valid|].
  destruct (file_bytes_length _ _ _ Hg Hd) as [Hlen _].
  destruct (csize_nat _ _ Hg) as [Hcn _].
  assert (Z.to_nat p = (Z.to_nat (p / csize v) * cluster_size v +
            (Z.to_nat s * 512 + Z.to_nat (p mod 512)))%nat) as ->.
  { apply Nat2Z.inj. rewrite !Nat2Z.inj_add, !Nat2Z.inj_mul, Hcn, !Z2Nat.id by lia. lia. }
  unfold file_bytes. rewrite (concat_slice _ (cluster_size v) _ _ _ (cluster_data v d c)).
  - unfold cluster_data. rewrite sectors_slice, Z2Nat.id, Hrb by lia. done.
  - done.
  - by rewrite list_lookup_fmap, Hc.
  - unfold cluster_size, SECTOR_SIZE. lia.
Qed.

(** ** Along the chain *)

Lemma chain_next fat c cs i x y :
  chain fat c cs -> cs !! i = Some x -> cs !! S i = Some y -> fat x = y.
Proof.
  revert c i. induction cs as [|z cs IH]; intros c i Hch Hx Hy; [done|].
  cbn in Hch. destruct Hch as (-> & _ & Hch). destruct i as [|i]; cbn in *.
  - simplify_eq. destruct cs as [|z cs]; [done|]. cbn in *. simplify_eq. by destruct Hch.
  - by eapply IH.
Qed.

Lemma chain_clusters fat c cs : chain fat c cs -> Forall (fun x => is_cluster x = true) cs.
Proof.
  revert c. induction cs as [|z cs IH]; intros c; cbn; [by constructor|].
  intros (-> & Hc & Hch). constructor; [done|by eapply IH].
Qed.

Lemma chain_head fat c cs x : chain fat c cs -> cs !! 0%nat = Some x -> c = x.
Proof. destruct cs; cbn; [done|]. intros (-> & _) Hx. by simplify_eq. Qed.

Lemma vol_io_run {A} v w f (m : FatVolume -> M (World D) FError A) a w' :
  w_vol w = Some v -> m v w = (Ret a, w') -> vol_io m (w, f) = (Ret a, (w', f)).
Proof. intros Hv Hm. unfold vol_io, on_err, zoom, with_vol. cbn [fst snd]. by rewrite Hv, Hm. Qed.

(** The cursor after [k] more bytes of the same sector, before [read_advance]. *)
Definition advanced (k : Z) f : File :=
  set_cursor (f_position f + k) (f_current_cluster f) (f_sector_in_cluster f) (f_byte_in_sector f + k) f.

Lemma set_cursor_id f :
  set_cursor (f_position f) (f_current_cluster f) (f_sector_in_cluster f) (f_byte_in_sector f) f = f.
Proof. by destruct f. Qed.

(** [p + k] has the place of [p], [k] bytes on, while it stays in the sector. *)
Lemma place_step v n p k :
  geometry v n -> 0 <= p -> 0 <= k -> p mod 512 + k < 512 ->
  (p + k) / csize v = p / csize v /\ (p + k) mod csize v / 512 = p mod csize v / 512 /\
  (p + k) mod 512 = p mod 512 + k.
Proof.
  intros Hg Hp Hk Hlt. destruct (place v n p Hg Hp) as (Heq & Hs & Hb & Hq).
  assert (p mod csize v = p mod csize v / 512 * 512 + p mod 512) as Hm.
  { destruct (csize_nat _ _ Hg) as [_ Hc]. pose proof (Z.div_mod p (csize v) ltac:(lia)). lia. }
  assert (p mod csize v + k < csize v) as Hin by (unfold csize at 2; lia).
  assert ((p + k) / csize v = p / csize v /\ (p + k) mod csize v = p mod csize v + k) as [-> ->].
  { destruct (csize_nat _ _ Hg) as [_ Hc]. pose proof (Z.mod_pos_bound p (csize v) ltac:(lia)).
    assert (p + k = p / csize v * csize v + (p mod csize v + k)) as -> by lia.
    rewrite Z.add_comm. rewrite Z.div_add, Z.mod_add by lia.
    rewrite Z.div_small, Z.mod_small by lia. lia. }
  split_and!; [done| |].
  - rewrite Hm at 1. rewrite <- Z.add_assoc, Z.add_comm, Z.div_add by lia.
    rewrite Z.div_small by lia. lia.
  - rewrite <- Z.add_mod_idemp_l by lia. apply Z.mod_small. lia.
Qed.

(** The first byte of the next sector. *)
Lemma place_next v n p k :
  geometry v n -> 0 <= p -> p mod 512 + k = 512 ->
  (p + k) mod 512 = 0 /\
  (p mod csize v / 512 + 1 < sectors_per_cluster v ->
   (p + k) / csize v = p / csize v /\ (p + k) mod csize v / 512 = p mod csize v / 512 + 1) /\
  (p mod csize v / 512 + 1 = sectors_per_cluster v ->
   (p + k) / csize v = p / csize v + 1 /\ (p + k) mod csize v = 0).
Proof.
  intros Hg Hp Hk. destruct (place v n p Hg Hp) as (Heq & Hs & Hb & Hq).
  destruct (csize_nat _ _ Hg) as [_ Hc].
  set (q := p / csize v) in *. set (s := p mod csize v / 512) in *.
  assert (p + k = (s + 1) * 512 + q * csize v) as Hpk by lia.
  split_and!.
  - rewrite Hpk. unfold csize. rewrite Z.mul_assoc, <- Z.mul_add_distr_r. apply Z.mod_mul. lia.
  - intros Hlt. rewrite Hpk, Z.div_add, Z.mod_add by lia.
    assert (0 <= (s + 1) * 512 < csize v) by (unfold csize; lia).
    rewrite Z.div_small, Z.mod_small, Z.div_mul by lia. lia.
  - intros Hl. rewrite Hpk. assert ((s + 1) * 512 = 1 * csize v) as -> by (unfold csize; lia).
    rewrite Z.div_add, Z.mod_add by lia. rewrite Z.mul_1_l, Z.div_same, Z.mod_same by lia. lia.
Qed.

(** ** The read loop *)

Lemma div_lt_mul x c n : 0 < c -> x / c < n -> x < n * c.
Proof.
  intros Hc Hd. pose proof (Z.div_mod x c ltac:(lia)). pose proof (Z.mod_pos_bound x c Hc). nia.
Qed.

Lemma cursor_in_chain v n cs p f :
  geometry v n -> 0 <= p < Z.of_nat (length cs) * csize v -> cursor_at v cs p f ->
  cs !! Z.to_nat (p / csize v) = Some (f_current_cluster f) /\
  f_sector_in_cluster f = p mod csize v / 512 /\ f_byte_in_sector f = p mod 512 /\ f_position f = p.
Proof.
  intros Hg Hp [Hpos Hc]. destruct (Z.ltb_spec p (Z.of_nat (length cs) * csize v)); [|lia].
  by destruct Hc as (? & ? & ?).
Qed.

Lemma cursor_at_intro v cs p c s b f :
  (p < Z.of_nat (length cs) * csize v -> cs !! Z.to_nat (p / csize v) = Some c /\
     s = p mod csize v / 512 /\ b = p mod 512) ->
  (Z.of_nat (length cs) * csize v <= p -> c = 0 /\ s = 0 /\ b = 0) ->
  cursor_at v cs p (set_cursor p c s b f).
Proof.
  intros H1 H2. split; [done|]. cbn. destruct (Z.ltb_spec p (Z.of_nat (length cs) * csize v)); auto.
Qed.

Lemma read_chunk_run v w f cs p rest :
  geometry v (sector_count (w_dev w)) -> w_vol w = Some v ->
  Forall (on_disk v (sector_count (w_dev w))) cs -> cursor_at v cs p f ->
  0 <= p -> 0 < rest -> p + rest <= f_size f -> f_size f <= Z.of_nat (length cs) * csize v ->
  f_size f < 2 ^ 32 ->
  let k := Z.min (512 - p mod 512) rest in
  read_chunk rest (w, f) =
    (Ret (take (Z.to_nat k) (drop (Z.to_nat p) (file_bytes v (w_dev w) cs))), (w, advanced k f)).
Proof.
  intros Hg Hv Hd Hcur Hp Hr Hps Hsz Hw k.
  destruct (cursor_in_chain v _ cs p f Hg ltac:(lia) Hcur) as (Hc & Hs & Hb & Hpos).
  destruct (place v _ p Hg Hp) as (_ & _ & Hbr & _).
  assert (0 < k /\ p mod 512 + k <= 512 /\ k <= rest) as Hk by (unfold k; lia).
  assert (0 <= p < Z.of_nat (length cs) * csize v) as Hin by lia.
  assert (p mod 512 + Z.of_nat (Z.to_nat k) <= 512) as Hk512 by lia.
  destruct (cursor_sector v (w_dev w) cs p f (Z.to_nat k) Hg Hd Hin Hcur Hk512)
    as (b & Hrange & Hrb & [Hlb _] & Hslice).
  assert (vol_io (fun v => dev_read (cursor_lba v f)) (w, f) = (Ret b, (w, f))) as Hio.
  { apply (vol_io_run v); [done|]. unfold dev_read. by rewrite Hrb. }
  unfold read_chunk, get_file. unfold bind at 1. cbn [gets fst snd]. run_with Hio.
  rewrite Hb, usize_small by lia. fold k. unfold slice, SECTOR_SIZE in *.
  rewrite decide_True by lia. rewrite Hslice. cbn [or_panic ret bind]. unfold bind. cbn.
  unfold advanced. rewrite Hpos, Hb, u32_small, u16_small by lia. done.
Qed.

(** The three ways a cursor advances: inside the sector, into the next sector,
    into the next cluster or behind the last one. *)
Lemma advance_within v n cs p k f :
  geometry v n -> cursor_at v cs p f -> 0 <= p < Z.of_nat (length cs) * csize v ->
  0 <= k -> p mod 512 + k < 512 ->
  cursor_at v cs (p + k) (advanced k f) /\ p + k < Z.of_nat (length cs) * csize v.
Proof.
  intros Hg Hcur Hp Hk Hin. destruct (cursor_in_chain v _ cs p f Hg Hp Hcur) as (Hc & Hs & Hb & Hpos).
  destruct (csize_nat _ _ Hg) as [_ Hcs].
  destruct (place_step v _ p k Hg ltac:(lia) Hk Hin) as (Hd1 & Hd2 & Hd3).
  assert (p / csize v < Z.of_nat (length cs)) as Hlt by (apply Z.div_lt_upper_bound; lia).
  assert (p + k < Z.of_nat (length cs) * csize v) by (apply div_lt_mul; lia).
  split; [|done]. unfold advanced. rewrite Hpos. apply cursor_at_intro; [|lia].
  intros _. rewrite Hd1, Hd2, Hd3, Hs, Hb. by split_and!.
Qed.

Lemma advance_sector v n cs p k f :
  geometry v n -> cursor_at v cs p f -> 0 <= p < Z.of_nat (length cs) * csize v ->
  p mod 512 + k = 512 -> f_sector_in_cluster f + 1 < sectors_per_cluster v ->
  cursor_at v cs (p + k) (set_cursor (p + k) (f_current_cluster f) (f_sector_in_cluster f + 1) 0 f) /\
  p + k < Z.of_nat (length cs) * csize v.
Proof.
  intros Hg Hcur Hp Hk Hl. destruct (cursor_in_chain v _ cs p f Hg Hp Hcur) as (Hc & Hs & Hb & Hpos).
  destruct (csize_nat _ _ Hg) as [_ Hcs]. rewrite Hs in *.
  destruct (place_next v _ p k Hg ltac:(lia) ltac:(lia)) as (Hm & Hnext & _).
  destruct (Hnext Hl) as [Hd1 Hd2].
  assert (p / csize v < Z.of_nat (length cs)) as Hlt by (apply Z.div_lt_upper_bound; lia).
  assert (p + k < Z.of_nat (length cs) * csize v) by (apply div_lt_mul; lia).
  split; [|done]. apply cursor_at_intro; [|lia]. intros _. rewrite Hd1, Hd2, Hm. by split_and!.
Qed.

Lemma advance_cluster v n cs p k f :
  geometry v n -> cursor_at v cs p f -> 0 <= p < Z.of_nat (length cs) * csize v ->
  p mod 512 + k = 512 -> sectors_per_cluster v <= f_sector_in_cluster f + 1 ->
  match cs !! S (Z.to_nat (p / csize v)) with
  | Some y => cursor_at v cs (p + k) (set_cursor (p + k) y 0 0 f) /\
    p + k < Z.of_nat (length cs) * csize v
  | None => p + k = Z.of_nat (length cs) * csize v /\ last cs = Some (f_current_cluster f)
  end.
Proof.
  intros Hg Hcur Hp Hk Hl. destruct (cursor_in_chain v _ cs p f Hg Hp Hcur) as (Hc & Hs & Hb & Hpos).
  destruct (csize_nat _ _ Hg) as [_ Hcs]. rewrite Hs in *. pose proof (g_spc _ _ Hg).
  destruct (place v _ p Hg ltac:(lia)) as (_ & Hsr & Hbr & Hq).
  destruct (place_next v _ p k Hg ltac:(lia) ltac:(lia)) as (Hm & _ & Hwrap).
  destruct (Hwrap ltac:(lia)) as [Hd1 Hd2].
  assert (p / csize v < Z.of_nat (length cs)) as Hlt by (apply Z.div_lt_upper_bound; lia).
  destruct (place v _ (p + k) Hg ltac:(lia)) as (Heq' & _).
  rewrite Hd1, Hd2, Hm in Heq'. change (0 / 512) with 0 in Heq'.
  destruct (cs !! S (Z.to_nat (p / csize v))) as [y|] eqn:Hy.
  - apply lookup_lt_Some in Hy as Hylt. split; [|nia].
    apply cursor_at_intro; [|nia]. intros _. rewrite Hd1, Hd2, Hm.
    replace (Z.to_nat (p / csize v + 1)) with (S (Z.to_nat (p / csize v))) by lia. by split_and!.
  - apply lookup_ge_None in Hy. split; [nia|]. rewrite last_lookup. rewrite <- Hc. f_equal. lia.
Qed.

(** The link followed: the next cluster, or the mark behind the last one. *)
Lemma next_link v d cs f p :
  chain (fat_entry v d) (f_start_cluster f) cs -> terminated (fat_entry v d) cs ->
  cs !! Z.to_nat (p / csize v) = Some (f_current_cluster f) ->
  match cs !! S (Z.to_nat (p / csize v)) with
  | Some y => fat_entry v d (f_current_cluster f) = y /\ y < END_OF_CHAIN
  | None => END_OF_CHAIN <= fat_entry v d (f_current_cluster f)
  end.
Proof.
  intros Hch Hterm Hc. destruct (cs !! S (Z.to_nat (p / csize v))) as [y|] eqn:Hy.
  - split; [by eapply chain_next|]. pose proof (chain_clusters _ _ _ Hch) as Hcl.
    eapply Forall_lookup_1 in Hcl; [|exact Hy]. apply is_cluster_iff in Hcl. lia.
  - apply Hterm. apply lookup_ge_None in Hy. apply lookup_lt_Some in Hc as Hlt.
    rewrite last_lookup. rewrite <- Hc. f_equal. lia.
Qed.

Lemma read_advance_run v w f cs p k :
  geometry v (sector_count (w_dev w)) -> w_vol w = Some v ->
  chain (fat_entry v (w_dev w)) (f_start_cluster f) cs -> terminated (fat_entry v (w_dev w)) cs ->
  Forall (on_disk v (sector_count (w_dev w))) cs -> cursor_at v cs p f ->
  0 <= p < Z.of_nat (length cs) * csize v -> 0 <= k -> p mod 512 + k <= 512 ->
  exists more c s b,
    read_advance (w, advanced k f) = (Ret more, (w, set_cursor (p + k) c s b f)) /\
    cursor_at v cs (p + k) (set_cursor (p + k) c s b f) /\
    (more = false -> p + k = Z.of_nat (length cs) * csize v).
Proof.
  intros Hg Hv Hch Hterm Hd Hcur Hp Hk Hpk.
  destruct (cursor_in_chain v _ cs p f Hg Hp Hcur) as (Hc & Hs & Hb & Hpos).
  pose proof (g_spc _ _ Hg). destruct (place v _ p Hg ltac:(lia)) as (_ & Hsr & Hbr & _).
  unfold read_advance, get_file. unfold bind at 1. cbn [gets fst snd].
  change (f_byte_in_sector (advanced k f)) with (f_byte_in_sector f + k). rewrite Hb.
  destruct (Z.ltb_spec (p mod 512 + k) 512) as [Hin|Hfull].
  { destruct (advance_within v _ cs p k f Hg Hcur Hp Hk Hin) as [Hcur' _].
    unfold advanced in *. rewrite Hpos in *. eexists true, _, _, _. by split_and!. }
  assert (forall (x : File), vol_io (fun v : FatVolume => ret (sectors_per_cluster v)) (w, x)
            = (Ret (sectors_per_cluster v), (w, x))) as Hspc by (intros x; by apply (vol_io_run v)).
  unfold bind at 1. cbn [put_file modify fst snd].
  change (f_sector_in_cluster (advanced k f)) with (f_sector_in_cluster f).
  rewrite u16_small by lia. run_with (Hspc _).
  unfold advanced. rewrite Hpos. cbn [set_cursor f_position f_current_cluster].
  destruct (Z.ltb_spec (f_sector_in_cluster f + 1) (sectors_per_cluster v)) as [Hl|Hl].
  { destruct (advance_sector v _ cs p k f Hg Hcur Hp ltac:(lia) Hl) as [Hcur' _].
    eexists true, _, _, _. by split_and!. }
  pose proof (advance_cluster v _ cs p k f Hg Hcur Hp ltac:(lia) Hl) as Hadv.
  pose proof (next_link v (w_dev w) cs f p Hch Hterm Hc) as Hlink.
  assert (on_disk v (sector_count (w_dev w)) (f_current_cluster f)) as [Hcd _]
    by (by eapply Forall_lookup_1 in Hd).
  unfold bind at 1. cbn [put_file modify fst snd set_cursor f_position f_current_cluster].
  assert (forall x, vol_io (fun v => read_fat_entry v (f_current_cluster f)) (w, x) =
            (Ret (fat_entry v (w_dev w) (f_current_cluster f)), (w, x))) as Hfat.
  { intros x. apply (vol_io_run v); [done|]. apply read_fat_run; [done|lia]. }
  run_with (Hfat _). destruct (cs !! S (Z.to_nat (p / csize v))) as [y|].
  - destruct Hadv as [Hcur' _], Hlink as [-> Hy].
    destruct (Z.leb_spec END_OF_CHAIN y); [lia|]. eexists true, _, _, _. by split_and!.
  - destruct Hadv as [Hend _].
    destruct (Z.leb_spec END_OF_CHAIN (fat_entry v (w_dev w) (f_current_cluster f))); [|lia].
    eexists false, 0, 0, 0. split_and!; [done| |done]. apply cursor_at_intro; [lia|done].
Qed.

Lemma read_loop_run fuel v w f cs p rest :
  geometry v (sector_count (w_dev w)) -> w_vol w = Some v ->
  chain (fat_entry v (w_dev w)) (f_start_cluster f) cs -> terminated (fat_entry v (w_dev w)) cs ->
  Forall (on_disk v (sector_count (w_dev w))) cs -> cursor_at v cs p f ->
  0 <= p -> 0 <= rest -> p + rest <= f_size f -> f_size f <= Z.of_nat (length cs) * csize v ->
  f_size f < 2 ^ 32 -> rest < Z.of_nat fuel ->
  exists c s b,
    read_loop fuel rest (w, f) =
      (Ret (take (Z.to_nat rest) (drop (Z.to_nat p) (file_bytes v (w_dev w) cs))),
       (w, set_cursor (p + rest) c s b f)) /\
    cursor_at v cs (p + rest) (set_cursor (p + rest) c s b f).
Proof.
  intros Hg Hv Hch Hterm Hd. revert f p rest Hch.
  induction fuel as [|fuel IH]; intros f p rest Hch Hcur Hp Hr Hps Hsz Hw Hf; [lia|].
  cbn [read_loop]. destruct (Z.leb_spec rest 0) as [Hz|Hpos].
  { assert (rest = 0) as -> by lia. rewrite Z.add_0_r. pose proof Hcur as [Hpp _].
    exists (f_current_cluster f), (f_sector_in_cluster f), (f_byte_in_sector f).
    subst p. rewrite set_cursor_id. by split. }
  destruct (place v _ p Hg Hp) as (_ & _ & Hbr & _).
  set (k := Z.min (512 - p mod 512) rest).
  assert (0 < k /\ p mod 512 + k <= 512 /\ k <= rest) as Hk by (unfold k; lia).
  run_with (read_chunk_run v w f cs p rest Hg Hv Hd Hcur Hp Hpos Hps Hsz Hw). fold k.
  destruct (read_advance_run v w f cs p k Hg Hv Hch Hterm Hd Hcur ltac:(lia) ltac:(lia) ltac:(lia))
    as (more & c & s & b & Hrun & Hcur' & Hend).
  run_with Hrun.
  destruct (file_bytes_length v (w_dev w) cs Hg Hd) as [_ Hlen].
  assert (length (take (Z.to_nat k) (drop (Z.to_nat p) (file_bytes v (w_dev w) cs))) = Z.to_nat k)
    as Hlk by (rewrite length_take, length_drop; lia).
  destruct more.
  - rewrite Hlk, Z2Nat.id by lia.
    destruct (IH (set_cursor (p + k) c s b f) (p + k) (rest - k)) as (c' & s' & b' & Hloop & Hcur2);
      try done; try (cbn [set_cursor f_size]; lia).
    run_with Hloop. exists c', s', b'. replace (p + k + (rest - k)) with (p + rest) in * by lia.
    split; [|exact Hcur2].
    replace (Z.to_nat (p + k)) with (Z.to_nat p + Z.to_nat k)%nat by lia.
    rewrite <- drop_drop, take_take_drop.
    by replace (Z.to_nat k + Z.to_nat (rest - k))%nat with (Z.to_nat rest) by lia.
  - specialize (Hend eq_refl). assert (k = rest) as Hkr by lia.
    exists c, s, b. rewrite Hkr in *. by split.
Qed.

Lemma file_ok_cursor v d cs p c s b f :
  file_ok v d cs f -> 0 <= p <= f_size f -> cursor_at v cs p (set_cursor p c s b f) ->
  file_ok v d cs (set_cursor p c s b f).
Proof. intros [] Hp Hc. split; try done. Qed.
(** ** Reading and seeking *)

Lemma f_read_run v w f cs n :
  geometry v (sector_count (w_dev w)) -> w_vol w = Some v -> file_ok v (w_dev w) cs f ->
  lacks f FA_READ = false -> 0 <= n ->
  let k := Z.min n (f_size f - f_position f) in
  exists c s b,
    let f' := set_cursor (f_position f + k) c s b f in
    f_read n (w, f) =
      (Ret (take (Z.to_nat k) (drop (Z.to_nat (f_position f)) (file_bytes v (w_dev w) cs))), (w, f')) /\
    file_ok v (w_dev w) cs f'.
Proof.
  intros Hg Hv Hok Hflag Hn k. pose proof Hok as [Hch Hterm Hd Hsize Hw Hpos Hcur].
  assert (0 <= k /\ k <= f_size f - f_position f) as Hk by (unfold k; lia).
  destruct (read_loop_run (S (Z.to_nat k)) v w f cs (f_position f) k)
    as (c & s & b & Hrun & Hcur'); try done; try lia.
  unfold f_read, get_file. unfold bind at 1. cbn [gets fst snd]. rewrite Hflag.
  rewrite u32_small by lia. fold k. destruct (Z.eqb_spec k 0) as [Hz|Hz].
  - exists (f_current_cluster f), (f_sector_in_cluster f), (f_byte_in_sector f). cbv zeta.
    rewrite Hz, Z.add_0_r, set_cursor_id. by split.
  - exists c, s, b. cbv zeta. split; [|apply file_ok_cursor; [done|lia|done]].
    assert (vol_io (fun v : FatVolume => ret (sectors_per_cluster v)) (w, f)
              = (Ret (sectors_per_cluster v), (w, f))) as Hio by (by apply (vol_io_run v)).
    run_with Hio. exact Hrun.
Qed.

Lemma seek_chain_run n v w f cs i :
  geometry v (sector_count (w_dev w)) -> w_vol w = Some v ->
  Forall (on_disk v (sector_count (w_dev w))) cs -> terminated (fat_entry v (w_dev w)) cs ->
  forall c0 clu, chain (fat_entry v (w_dev w)) c0 cs -> cs !! i = Some clu ->
  seek_chain n clu (w, f) = (Ret (cs !! (i + n)%nat), (w, f)).
Proof.
  intros Hg Hv Hd Hterm c0. revert i. induction n as [|n IH]; intros i clu Hch Hclu.
  { by rewrite Nat.add_0_r, Hclu. }
  cbn [seek_chain].
  assert (on_disk v (sector_count (w_dev w)) clu) as [Hcl _] by (by eapply Forall_lookup_1 in Hd).
  assert (vol_io (fun v => read_fat_entry v clu) (w, f) = (Ret (fat_entry v (w_dev w) clu), (w, f)))
    as Hio by (apply (vol_io_run v); [done|]; apply read_fat_run; [done|lia]).
  run_with Hio. destruct (cs !! S i) as [y|] eqn:Hy.
  - rewrite (chain_next _ _ _ _ _ _ Hch Hclu Hy).
    pose proof (chain_clusters _ _ _ Hch) as Hcs. eapply Forall_lookup_1 in Hcs; [|exact Hy].
    apply is_cluster_iff in Hcs. destruct (Z.leb_spec END_OF_CHAIN y); [lia|].
    rewrite (IH (S i)) by done. do 3 f_equal. lia.
  - apply lookup_ge_None in Hy. pose proof (lookup_lt_Some _ _ _ Hclu).
    assert (last cs = Some clu) as Hlast by (rewrite last_lookup, <- Hclu; f_equal; lia).
    specialize (Hterm _ Hlast). destruct (Z.leb_spec END_OF_CHAIN (fat_entry v (w_dev w) clu)); [|lia].
    rewrite lookup_ge_None_2 by lia. done.
Qed.

Lemma f_lseek_run v w f cs offset c0 :
  geometry v (sector_count (w_dev w)) -> w_vol w = Some v -> file_ok v (w_dev w) cs f ->
  cs !! 0%nat = Some c0 -> 0 <= offset -> offset <> f_position f ->
  (offset <= f_size f \/ lacks f FA_WRITE = false) ->
  f_lseek offset (w, f) =
  match cs !! Z.to_nat (offset / csize v) with
  | Some c => (Ret tt, (w, set_cursor offset c (offset mod csize v / 512) (offset mod csize v mod 512) f))
  | None => (Ret tt, (w, set_cursor (offset / csize v) 0 0 0 f))
  end.
Proof.
  intros Hg Hv Hok Hc0 Ho Hne Hwr. pose proof Hok as [Hch Hterm Hd _ _ _ _].
  unfold f_lseek, get_file. unfold bind at 1. cbn [gets fst snd].
  assert ((f_size f <? offset) && lacks f FA_WRITE = false) as ->
    by (destruct Hwr as [Hle | ->]; [|apply andb_false_r]; by destruct (Z.ltb_spec (f_size f) offset); [lia|]).
  destruct (Z.eqb_spec offset (f_position f)); [done|].
  assert (vol_io (fun v : FatVolume => ret (sectors_per_cluster v)) (w, f)
            = (Ret (sectors_per_cluster v), (w, f))) as Hio by (by apply (vol_io_run v)).
  run_with Hio. fold (csize v). rewrite (chain_head _ _ _ _ Hch Hc0).
  run_with (seek_chain_run (Z.to_nat (offset / csize v)) v w f cs 0 Hg Hv Hd Hterm _ _ Hch Hc0).
  cbn [Nat.add]. by destruct (cs !! Z.to_nat (offset / csize v)).
Qed.

Lemma f_lseek_inside_run v w f cs offset :
  geometry v (sector_count (w_dev w)) -> w_vol w = Some v -> file_ok v (w_dev w) cs f ->
  0 <= offset <= f_size f -> offset < Z.of_nat (length cs) * csize v ->
  exists c s b, let f' := set_cursor offset c s b f in
    f_lseek offset (w, f) = (Ret tt, (w, f')) /\ file_ok v (w_dev w) cs f'.
Proof.
  intros Hg Hv Hok Ho Hin. destruct (csize_nat _ _ Hg) as [_ Hcs].
  assert (0 <= offset / csize v < Z.of_nat (length cs)) as Hq
    by (split; [apply Z.div_pos; lia|apply Z.div_lt_upper_bound; lia]).
  destruct (lookup_lt_is_Some_2 cs 0) as [c0 Hc0]; [lia|].
  destruct (lookup_lt_is_Some_2 cs (Z.to_nat (offset / csize v))) as [c Hc]; [lia|].
  destruct (decide (offset = f_position f)) as [Heq|Hne].
  { exists (f_current_cluster f), (f_sector_in_cluster f), (f_byte_in_sector f). cbv zeta.
    rewrite Heq, set_cursor_id. split; [|done]. unfold f_lseek, get_file. unfold bind at 1.
    cbn [gets fst snd]. destruct (Z.ltb_spec (f_size f) (f_position f)); [lia|]. cbn [andb].
    by rewrite Z.eqb_refl. }
  eexists _, _, _. cbv zeta. rewrite (f_lseek_run v w f cs offset c0) by (done || lia || (left; lia)).
  rewrite Hc. split; [done|].
  apply file_ok_cursor; [done|lia|]. apply cursor_at_intro; [|lia]. intros _.
  rewrite Z.mod_mod_divide by (by exists (sectors_per_cluster v)). by split_and!.
Qed.

End FileSpec.
