(* ===== verification/FatWrite.v ===== *)
(** Writing files: what [f_write] does to the device, the chain and the bytes of
    the file, new clusters included. *)

From stdpp Require Import base numbers list gmap.
From Stdlib Require Import ZArith Lia.
From S2P Require Import Prelude Block Fat32 Fat32Dir Fat32File FatSpec FatChain FatCluster FatFileSpec.

Section FileWrite.
Context {D : Type} `{ReliableDevice D}.
Implicit Types (d : D) (v : FatVolume) (w : World D) (f : File).

(** [d'] is [d] after writing to the chain [cs], now [cs']: clusters that were
    free may have been appended; outside the chain nothing has changed. *)
Record grown v d d' (cs cs' : list Z) : Prop := {
  gr_count : sector_count d' = sector_count d;
  gr_new : exists new, cs' = cs ++ new /\
    Forall (fun c => on_disk v (sector_count d) c /\ fat_entry v d c = 0) new;
  gr_data : forall c, on_disk v (sector_count d) c -> c ∉ cs' ->
    cluster_data v d' c = cluster_data v d c;
  gr_fat : forall c, 0 <= c < entries v -> c ∉ cs' -> fat_entry v d' c = fat_entry v d c;
  gr_mirror : mirrored v d -> mirrored v d';
}.

(** The table offers only clusters that exist. *)
Definition free_on_disk v d : Prop :=
  forall c, 2 <= c < entries v -> fat_entry v d c = 0 -> on_disk v (sector_count d) c.

(** How many clusters a file of [len] clusters needs besides them for [f_write]
    to write [n] bytes at [p]: it keeps the cursor inside a cluster, so a write
    up to the end of a cluster allocates the next one. *)
Definition clusters_needed v (len : nat) (p n : Z) : Z :=
  Z.max 0 ((p + n) / csize v + 1 - Z.of_nat len).

(** ** Replacing bytes of a cluster *)

Lemma sectors_put n d d' lba s o src b :
  0 <= lba -> lba + Z.of_nat n <= sector_count d -> (s < n)%nat -> (o + length src <= 512)%nat ->
  read_sector d (lba + Z.of_nat s) = Some b ->
  read_sector d' (lba + Z.of_nat s) = Some (splice o src b) ->
  (forall x, x <> lba + Z.of_nat s -> read_sector d' x = read_sector d x) ->
  sectors n d' lba = splice (s * 512 + o) src (sectors n d lba).
Proof.
  revert lba s. induction n as [|n IH]; intros lba s H0' Hn Hs Ho Hb Hb' Hx; [lia|]. cbn [sectors].
  destruct s as [|s].
  - rewrite Z.add_0_r in *. rewrite Hb, Hb'. cbn [default]. unfold id.
    rewrite (sectors_frame n d d' (lba + 1)) by (intros x Hr; apply Hx; lia).
    cbn [Nat.mul Nat.add]. rewrite splice_app_l; [done|].
    destruct (read_valid _ _ _ Hb) as [-> _]. unfold SECTOR_SIZE. lia.
  - rewrite (Hx lba) by lia. destruct (read_in_range d lba) as [b0 Hb0]; [lia|]. rewrite Hb0.
    cbn [default]. unfold id. destruct (read_valid _ _ _ Hb0) as [Hl _]. unfold SECTOR_SIZE in Hl.
    replace (S s * 512 + o)%nat with (length b0 + (s * 512 + o))%nat by lia.
    rewrite splice_app_r. f_equal.
    replace (lba + Z.of_nat (S s)) with (lba + 1 + Z.of_nat s) in * by lia.
    apply IH; done || lia.
Qed.

Lemma concat_put (ls : list (list Z)) n i o src x :
  Forall (fun l => length l = n) ls -> ls !! i = Some x -> (o + length src <= n)%nat ->
  concat (<[i := splice o src x]> ls) = splice (i * n + o) src (concat ls).
Proof.
  intros Hl. revert i. induction Hl as [|y ls Hy Hl IH]; intros i Hi Ho; [by destruct i|].
  destruct i as [|i]; cbn in Hi; cbn [concat list_insert insert].
  - simplify_eq. cbn [Nat.mul Nat.add]. by rewrite splice_app_l by lia.
  - replace (S i * n + o)%nat with (length y + (i * n + o))%nat by lia.
    rewrite splice_app_r. f_equal. by apply IH.
Qed.

(** A cluster of the file rewritten. *)
Lemma file_bytes_put v d d' cs i c o src :
  geometry v (sector_count d) -> Forall (on_disk v (sector_count d)) cs -> NoDup cs ->
  cs !! i = Some c -> cluster_set v d d' c (splice o src (cluster_data v d c)) ->
  (o + length src <= cluster_size v)%nat ->
  file_bytes v d' cs = splice (i * cluster_size v + o) src (file_bytes v d cs).
Proof.
  intros Hg Hd Hnd Hi Hset Ho. unfold file_bytes.
  destruct (file_bytes_length _ _ _ Hg Hd) as [Hlen _].
  rewrite <- (concat_put _ _ _ _ _ (cluster_data v d c)); try done;
    [|by rewrite list_lookup_fmap, Hi].
  f_equal. apply list_eq. intros j.
  destruct (decide (i = j)) as [<-|Hne].
  - rewrite list_lookup_insert_eq by (rewrite length_fmap; by eapply lookup_lt_Some).
    rewrite list_lookup_fmap, Hi. cbn. by rewrite (cs_same _ _ _ _ _ Hset).
  - rewrite list_lookup_insert_ne by done. rewrite !list_lookup_fmap.
    destruct (cs !! j) as [c'|] eqn:Hj; [|done]. cbn. f_equal.
    apply (cs_other _ _ _ _ _ Hset); [by eapply Forall_lookup_1 in Hd|].
    intros ->. by destruct Hne; eapply NoDup_lookup.
Qed.

(** One sector of a cluster rewritten. *)
Lemma cluster_put v d d' c s o src b :
  geometry v (sector_count d) -> on_disk v (sector_count d) c ->
  0 <= s < sectors_per_cluster v -> (o + length src <= 512)%nat ->
  read_sector d (cluster_lba v c + s) = Some b ->
  sector_count d' = sector_count d ->
  read_sector d' (cluster_lba v c + s) = Some (splice o src b) ->
  (forall x, x <> cluster_lba v c + s -> read_sector d' x = read_sector d x) ->
  cluster_set v d d' c (splice (Z.to_nat s * 512 + o) src (cluster_data v d c)).
Proof.
  intros Hg Hc Hs Ho Hb Hcnt Hb' Hx. pose proof (cluster_lba_range _ _ _ Hg Hc) as [Hlo Hhi].
  split; [done| | | |].
  - unfold cluster_data.
    apply (sectors_put _ _ _ _ _ _ _ b); rewrite ?Z2Nat.id by lia; done || lia.
  - intros c' Hc' Hne. unfold cluster_data. apply sectors_frame. intros x Hr. apply Hx.
    destruct (clusters_apart _ _ _ _ Hg Hne); lia.
  - intros x Hr. unfold fat_entry. rewrite Hx; [done|].
    destruct (fat_place _ _ _ Hg Hr) as (k & j & Hk & _ & _ & -> & _). pose proof Hg as []. nia.
  - intros lba Hlt. apply Hx. lia.
Qed.

(** ** One iteration *)

(** The file after writing [k] bytes of the current sector. *)
Definition put_at (k : Z) f : File := set_size (Z.max (f_size f) (f_position f + k)) true f.

Lemma write_chunk_run v w f cs p buf :
  geometry v (sector_count (w_dev w)) -> w_vol w = Some v ->
  Forall (on_disk v (sector_count (w_dev w))) cs -> NoDup cs -> cursor_at v cs p f ->
  0 <= p < Z.of_nat (length cs) * csize v -> bytes buf -> buf <> [] ->
  p + Z.of_nat (length buf) < 2 ^ 32 -> 0 <= f_size f ->
  let k := Z.min (512 - p mod 512) (Z.of_nat (length buf)) in
  exists d' c buf',
    write_chunk buf (w, f) = (Ret (Z.to_nat k), (set_dev d' w, advanced k (put_at k f))) /\
    c ∈ cs /\ cluster_set v (w_dev w) d' c buf' /\
    file_bytes v d' cs = splice (Z.to_nat p) (take (Z.to_nat k) buf) (file_bytes v (w_dev w) cs).
Proof.
  intros Hg Hv Hd Hnd Hcur Hp Hby Hne H32 Hsz k.
  destruct (cursor_in_chain v _ cs p f Hg Hp Hcur) as (Hc & Hs & Hb & Hpos).
  destruct (place v _ p Hg ltac:(lia)) as (Heq & Hsr & Hbr & Hq).
  destruct (cursor_sector v (w_dev w) cs p f 0 Hg Hd Hp Hcur ltac:(lia))
    as (b & Hrange & Hrb & Hsec & _).
  assert (0 < Z.of_nat (length buf)) as Hbl by (destruct buf; [done|cbn; lia]).
  set (c := f_current_cluster f) in *. set (s := p mod csize v / 512) in *.
  assert (on_disk v (sector_count (w_dev w)) c) as Hcd by (by eapply Forall_lookup_1 in Hd).
  pose proof (cluster_lba_range _ _ _ Hg Hcd) as [Hlo Hhi].
  assert (cursor_lba v f = cluster_lba v c + s) as Hlba.
  { unfold cursor_lba. fold c. rewrite Hs, (cluster_lba_run _ _ _ Hg Hcd).
    pose proof (g_dev _ _ Hg). apply u32_small. lia. }
  set (src := take (Z.to_nat k) buf).
  assert (length src = Z.to_nat k) as Hsl by (unfold src; rewrite length_take; lia).
  pose proof Hsec as [Hl Hbb]. unfold SECTOR_SIZE in Hl.
  assert (sector (splice (Z.to_nat (p mod 512)) src b)) as Hsec'.
  { split; [rewrite length_splice; [done|lia]|]. apply bytes_splice; [by apply Forall_take|done]. }
  set (d' := snd (write_sector (w_dev w) (cursor_lba v f) (splice (Z.to_nat (p mod 512)) src b))).
  assert (cluster_set v (w_dev w) d' c
            (splice (Z.to_nat s * 512 + Z.to_nat (p mod 512)) src (cluster_data v (w_dev w) c))) as Hset.
  { apply (cluster_put v _ _ c s _ _ b); try done; try lia; rewrite <- ?Hlba; unfold d'.
    - done.
    - by rewrite write_count.
    - by apply read_written.
    - intros x Hx. by apply read_other. }
  exists d', c. eexists. split_and!; [|by eapply list_elem_of_lookup_2|exact Hset|].
  - unfold write_chunk, get_file. unfold bind at 1. cbn [gets fst snd].
    assert (vol_io (fun v => dev_read (cursor_lba v f)) (w, f) = (Ret b, (w, f))) as Hio.
    { apply (vol_io_run v); [done|]. unfold dev_read. by rewrite Hrb. }
    run_with Hio. rewrite Hb, usize_small by lia. fold k. fold src. unfold copy_into.
    rewrite decide_True by lia. unfold bind at 1. cbn [or_panic ret].
    assert (vol_io (fun v => dev_write (cursor_lba v f) (splice (Z.to_nat (p mod 512)) src b)) (w, f)
              = (Ret tt, (set_dev d' w, f))) as Hio2.
    { apply (vol_io_run v); [done|]. exact (dev_write_run w _ _ Hrange Hsec'). }
    run_with Hio2. unfold bind, put_file, modify, ret. cbn [fst snd].
    assert (advanced k (put_at k f) = set_size (Z.max (f_size f) (p + k)) true
        (set_cursor (p + k) (f_current_cluster f) (f_sector_in_cluster f) (p mod 512 + k) f)) as ->
      by (unfold advanced, put_at; rewrite <- Hb, <- Hpos; by destruct f).
    by rewrite Hpos, Hb, u32_small, u16_small by lia.
  - rewrite (file_bytes_put v _ _ _ _ _ _ _ Hg Hd Hnd Hc Hset).
    + f_equal. apply Nat2Z.inj. destruct (csize_nat _ _ Hg) as [Hcn _].
      rewrite !Nat2Z.inj_add, !Nat2Z.inj_mul, Hcn, !Z2Nat.id by lia. lia.
    + rewrite Hsl. unfold cluster_size, SECTOR_SIZE. nia.
Qed.
(** A linked chain holds no free cluster. *)
Lemma chain_not_free fat c cs x :
  chain fat c cs -> terminated fat cs -> x ∈ cs -> fat x <> 0.
Proof.
  intros Hch Hterm (i & Hi)%list_elem_of_lookup. destruct (cs !! S i) as [y|] eqn:Hy.
  - rewrite (chain_next _ _ _ _ _ _ Hch Hi Hy). pose proof (chain_clusters _ _ _ Hch) as Hcl.
    eapply Forall_lookup_1 in Hcl; [|exact Hy]. apply is_cluster_iff in Hcl. lia.
  - assert (last cs = Some x) as Hl.
    { apply lookup_ge_None in Hy. apply lookup_lt_Some in Hi as Hlt.
      rewrite last_lookup. rewrite <- Hi. f_equal. lia. }
    specialize (Hterm _ Hl). unfold END_OF_CHAIN in Hterm. lia.
Qed.

(** Taking one cluster lowers the number of free clusters by one. *)
Lemma free_count_take v (fat fat' : Z -> Z) new :
  (forall x, x <> new -> fat' x = 0 <-> fat x = 0) -> (free_count v fat <= S (free_count v fat'))%nat.
Proof.
  intros Hfg. unfold free_count. pose proof (NoDup_seqZ 2 (entries v - 2)) as Hnd.
  fold (data_clusters v) in Hnd.
  assert (length (filter (fun c => fat c = 0%Z) (data_clusters v)) <=
          length (filter (fun c => fat' c = 0%Z) (data_clusters v)) +
          if decide (new ∈ data_clusters v) then 1 else 0)%nat as Hle.
  { induction Hnd as [|x l Hx Hnd IH]; [cbn; lia|]. rewrite !filter_cons.
    destruct (decide (x = new)) as [->|Hne].
    - destruct (decide (new ∈ l)); [done|].
      destruct (decide (new ∈ new :: l)) as [_|Hn]; [|destruct Hn; set_solver].
      destruct (decide (fat new = 0)), (decide (fat' new = 0)); cbn [length]; lia.
    - pose proof (Hfg x Hne). destruct (decide (fat x = 0)), (decide (fat' x = 0)); try tauto;
        cbn [length]; destruct (decide (new ∈ x :: l)), (decide (new ∈ l)); lia || set_solver. }
  destruct (decide (new ∈ data_clusters v)); lia.
Qed.

(** The chain with one more cluster. *)
Record extended v d d' (cs : list Z) (new : Z) : Prop := {
  ex_last : exists t, last cs = Some t /\
    fat_change v d d' (upd (upd (fat_entry v d) new CHAIN_END) t new);
  ex_free : fat_entry v d new = 0;
  ex_range : 2 <= new < entries v;
}.

Lemma extend_chain_run v w f cs t c0 :
  geometry v (sector_count (w_dev w)) -> w_vol w = Some v -> last cs = Some t ->
  0 <= t < entries v -> 2 <= c0 < entries v -> fat_entry v (w_dev w) c0 = 0 ->
  exists d' new, extend_chain t (w, f) = (Ret new, (set_dev d' w, f)) /\
    extended v (w_dev w) d' cs new.
Proof.
  intros Hg Hv Hl Ht Hc0 Hz0. pose proof (entries_bounds _ _ Hg) as He. unfold END_OF_CHAIN in He.
  destruct (find_free_run v w Hg) as [(new & Hrun & Hn & Hz & _)|[_ Hall]]; [|by destruct (Hall c0)].
  destruct (write_fat_change v w new CHAIN_END Hg ltac:(lia)) as (d1 & Hw1 & Hch1);
    [unfold CHAIN_END; lia|].
  assert (geometry v (sector_count d1)) as Hg1 by (by eapply fat_change_geometry).
  destruct (write_fat_change v (set_dev d1 w) t new Hg1 Ht) as (d2 & Hw2 & Hch2); [lia|].
  cbn [w_dev set_dev] in Hch2. exists d2, new. split.
  - unfold extend_chain. run_with (vol_io_run v w f _ new w Hv Hrun).
    run_with (vol_io_run v w f _ tt _ Hv Hw1).
    run_with (vol_io_run v (set_dev d1 w) f _ tt _ Hv Hw2). done.
  - split; [|done|done]. exists t. split; [done|].
    eapply fat_change_ext; [by eapply fat_change_trans|]. intros x Hx. unfold upd.
    destruct (Z.eqb_spec x t); [done|]. by rewrite (fc_entry _ _ _ _ Hch1).
Qed.

(** What an extended chain is, and what the extension leaves alone. *)
Lemma extended_chain v d d' c cs new :
  geometry v (sector_count d) -> Forall (on_disk v (sector_count d)) cs ->
  chain (fat_entry v d) c cs -> terminated (fat_entry v d) cs -> extended v d d' cs new ->
  chain (fat_entry v d') c (cs ++ [new]) /\ terminated (fat_entry v d') (cs ++ [new]) /\
  ~ (new ∈ cs) /\ (free_count v (fat_entry v d) <= S (free_count v (fat_entry v d')))%nat.
Proof.
  intros Hg Hd Hch Hterm [(t & Hl & Hchg) Hfree Hr]. pose proof (entries_bounds _ _ Hg) as He.
  assert (new ∉ cs) as Hnew by (intros Hin; by apply (chain_not_free _ _ _ _ Hch Hterm Hin)).
  pose proof (chain_NoDup _ _ _ Hch) as Hnd.
  assert (exists l, cs = l ++ [t]) as [l Heq].
  { destruct cs as [|? cs] using rev_ind; [done|]. rewrite last_snoc in Hl. simplify_eq. eauto. }
  assert (fat_entry v d t <> 0) as Ht by (apply (chain_not_free _ _ _ _ Hch Hterm); subst; set_solver).
  assert (forall x, x ∈ cs ++ [new] -> 0 <= x < entries v) as Hin.
  { intros x [Hx|Hx%list_elem_of_singleton]%elem_of_app; [|lia].
    eapply Forall_forall in Hd; [|done]. destruct Hd. lia. }
  assert (is_cluster new = true) as Hcl by (apply is_cluster_iff; lia).
  split_and!; [| |done|].
  - subst cs. eapply chain_ext; [|apply (chain_extend _ _ _ _ _ Hch Hnd Hnew Hcl)].
    intros x Hx. by rewrite (fc_entry _ _ _ _ Hchg) by auto.
  - intros x Hx. rewrite last_snoc in Hx. simplify_eq. rewrite (fc_entry _ _ _ _ Hchg) by lia.
    rewrite upd_other, upd_same by (intros ->; set_solver). done.
  - rewrite (free_count_ext v (fat_entry v d') (upd (upd (fat_entry v d) new CHAIN_END) t new)).
    + apply (free_count_take _ _ _ new). intros x Hx. unfold upd.
      destruct (Z.eqb_spec x t) as [->|]; [split; [lia|done]|].
      by destruct (Z.eqb_spec x new).
    + intros x Hx. apply (fc_entry _ _ _ _ Hchg). lia.
Qed.

Lemma write_advance_run v w f cs p k :
  geometry v (sector_count (w_dev w)) -> w_vol w = Some v ->
  chain (fat_entry v (w_dev w)) (f_start_cluster f) cs -> terminated (fat_entry v (w_dev w)) cs ->
  Forall (on_disk v (sector_count (w_dev w))) cs -> cursor_at v cs p f ->
  0 <= p < Z.of_nat (length cs) * csize v -> 0 <= k -> p mod 512 + k <= 512 ->
  (p + k = Z.of_nat (length cs) * csize v ->
   exists c0, 2 <= c0 < entries v /\ fat_entry v (w_dev w) c0 = 0) ->
  exists d' cs' c s b,
    write_advance (w, advanced k f) = (Ret tt, (set_dev d' w, set_cursor (p + k) c s b f)) /\
    cursor_at v cs' (p + k) (set_cursor (p + k) c s b f) /\
    p + k < Z.of_nat (length cs') * csize v /\
    (cs' = cs /\ d' = w_dev w \/
     p + k = Z.of_nat (length cs) * csize v /\
     exists new, cs' = cs ++ [new] /\ extended v (w_dev w) d' cs new).
Proof.
  intros Hg Hv Hch Hterm Hd Hcur Hp Hk Hpk Hfree.
  destruct (cursor_in_chain v _ cs p f Hg Hp Hcur) as (Hc & Hs & Hb & Hpos).
  pose proof (g_spc _ _ Hg). destruct (place v _ p Hg ltac:(lia)) as (_ & Hsr & Hbr & _).
  assert (set_dev (w_dev w) w = w) as Hid by (by destruct w).
  unfold write_advance, get_file. unfold bind at 1. cbn [gets fst snd].
  change (f_byte_in_sector (advanced k f)) with (f_byte_in_sector f + k). rewrite Hb.
  destruct (Z.ltb_spec (p mod 512 + k) 512) as [Hin|Hfull].
  { destruct (advance_within v _ cs p k f Hg Hcur Hp Hk Hin) as [Hcur' Hlt].
    unfold advanced in *. rewrite Hpos in *. eexists (w_dev w), cs, _, _, _.
    rewrite Hid. split_and!; [done|done|done|by left]. }
  assert (forall (x : File), vol_io (fun v : FatVolume => ret (sectors_per_cluster v)) (w, x)
            = (Ret (sectors_per_cluster v), (w, x))) as Hspc by (intros x; by apply (vol_io_run v)).
  unfold bind at 1. cbn [put_file modify fst snd].
  change (f_sector_in_cluster (advanced k f)) with (f_sector_in_cluster f).
  rewrite u16_small by lia. run_with (Hspc _).
  unfold advanced. rewrite Hpos. cbn [set_cursor f_position f_current_cluster].
  destruct (Z.ltb_spec (f_sector_in_cluster f + 1) (sectors_per_cluster v)) as [Hl|Hl].
  { destruct (advance_sector v _ cs p k f Hg Hcur Hp ltac:(lia) Hl) as [Hcur' Hlt].
    eexists (w_dev w), cs, _, _, _. rewrite Hid. split_and!; [done|done|done|by left]. }
  pose proof (advance_cluster v _ cs p k f Hg Hcur Hp ltac:(lia) Hl) as Hadv.
  pose proof (next_link v (w_dev w) cs f p Hch Hterm Hc) as Hlink.
  assert (on_disk v (sector_count (w_dev w)) (f_current_cluster f)) as [Hcd _]
    by (by eapply Forall_lookup_1 in Hd).
  unfold bind at 1. cbn [put_file modify fst snd set_cursor f_position f_current_cluster].
  assert (forall x, vol_io (fun v => read_fat_entry v (f_current_cluster f)) (w, x) =
            (Ret (fat_entry v (w_dev w) (f_current_cluster f)), (w, x))) as Hfat.
  { intros x. apply (vol_io_run v); [done|]. apply read_fat_run; [done|lia]. }
  run_with (Hfat _). destruct (cs !! S (Z.to_nat (p / csize v))) as [y|].
  - destruct Hadv as [Hcur' Hlt], Hlink as [-> Hy]. destruct (Z.leb_spec END_OF_CHAIN y); [lia|].
    eexists (w_dev w), cs, _, _, _. rewrite Hid. split_and!; [done|done|done|by left].
  - destruct Hadv as [Hend Hlast]. destruct (Hfree Hend) as (c0 & Hc0 & Hz0).
    destruct (Z.leb_spec END_OF_CHAIN (fat_entry v (w_dev w) (f_current_cluster f))); [|lia].
    destruct (extend_chain_run v w (set_cursor (p + k) (f_current_cluster f) 0 0 f) cs _ c0
                Hg Hv Hlast ltac:(lia) Hc0 Hz0) as (d' & new & Hrun & Hext).
    run_with Hrun. destruct (csize_nat _ _ Hg) as [_ Hcs].
    exists d', (cs ++ [new]), new, 0, 0. rewrite length_app. cbn [length].
    split_and!; [done| |lia|right; split; [done|]; by exists new].
    apply cursor_at_intro; [|rewrite length_app; cbn [length]; lia]. intros _. rewrite Hend.
    rewrite Z.div_mul, Z.mod_mul, Nat2Z.id by lia. split_and!; [|done|].
    + by apply list_lookup_middle.
    + unfold csize. rewrite Z.mul_assoc. symmetry. apply Z.mod_mul. lia.
Qed.
(** ** Steps compose *)

Lemma file_bytes_same v d d' cs :
  (forall c, c ∈ cs -> cluster_data v d' c = cluster_data v d c) ->
  file_bytes v d' cs = file_bytes v d cs.
Proof.
  intros Hc. unfold file_bytes. f_equal. apply list_fmap_ext. intros i c Hi. apply Hc.
  by eapply list_elem_of_lookup_2.
Qed.

Lemma grown_put v d d' c cs buf : cluster_set v d d' c buf -> c ∈ cs -> geometry v (sector_count d) ->
  grown v d d' cs cs.
Proof.
  intros Hset Hc Hg. split.
  - apply Hset.
  - exists []. by rewrite app_nil_r.
  - intros x Hx Hn. apply (cs_other _ _ _ _ _ Hset); [done|]. by intros ->.
  - intros x Hx _. by apply (cs_table _ _ _ _ _ Hset).
  - by apply (cluster_set_mirrored _ _ _ c buf).
Qed.

Lemma grown_extend v d d' cs new :
  geometry v (sector_count d) -> extended v d d' cs new -> on_disk v (sector_count d) new ->
  grown v d d' cs (cs ++ [new]).
Proof.
  intros Hg [(t & Hl & Hchg) Hfree Hr] Hd. split.
  - apply Hchg.
  - exists [new]. split; [done|]. by apply Forall_singleton.
  - intros x Hx _. by eapply cluster_data_table.
  - intros x Hx Hn. rewrite (fc_entry _ _ _ _ Hchg) by done. apply last_Some_elem_of in Hl.
    rewrite !upd_other by (intros ->; set_solver). done.
  - apply Hchg.
Qed.

Lemma grown_trans v d d1 d2 cs cs1 cs2 :
  NoDup cs2 -> grown v d d1 cs cs1 -> grown v d1 d2 cs1 cs2 -> grown v d d2 cs cs2.
Proof.
  intros Hnd [Hc1 (n1 & -> & Hn1) Hd1 Hf1 Hm1] [Hc2 (n2 & -> & Hn2) Hd2 Hf2 Hm2].
  rewrite Hc1 in *. split; [by rewrite Hc2| | |auto|auto].
  - exists (n1 ++ n2). rewrite app_assoc. split; [done|]. apply Forall_app. split; [done|].
    apply Forall_forall. intros x Hx. eapply Forall_forall in Hn2 as [Hxd Hxf]; [|done].
    split; [done|]. rewrite <- Hf1; [done|destruct Hxd; lia|].
    apply NoDup_app in Hnd as (_ & Hdisj & _). intros Hin. by destruct (Hdisj x Hin).
  - intros x Hx Hn. rewrite Hd2, Hd1 by (done || set_solver). done.
  - intros x Hx Hn. rewrite Hf2, Hf1 by (done || set_solver). done.
Qed.

Lemma free_count_pos v (fat : Z -> Z) :
  (0 < free_count v fat)%nat -> exists c, 2 <= c < entries v /\ fat c = 0.
Proof.
  unfold free_count. intros Hpos.
  destruct (filter (fun c => fat c = 0%Z) (data_clusters v)) as [|c l] eqn:Heq; [cbn in Hpos; lia|].
  assert (c ∈ filter (fun c => fat c = 0%Z) (data_clusters v)) as Hin by (rewrite Heq; set_solver).
  apply list_elem_of_filter in Hin as [Hz Hin]. exists c. by apply data_clusters_elem in Hin.
Qed.

(** Everything the loop maintains between iterations. *)
Record writing v d (cs : list Z) (p n : Z) f : Prop := {
  wg_chain : chain (fat_entry v d) (f_start_cluster f) cs;
  wg_term : terminated (fat_entry v d) cs;
  wg_disk : Forall (on_disk v (sector_count d)) cs;
  wg_cursor : cursor_at v cs p f;
  wg_pos : 0 <= p < Z.of_nat (length cs) * csize v;
  wg_size : 0 <= p <= f_size f;
  wg_left : 0 <= n;
  wg_width : p + n < 2 ^ 32;
  wg_free : free_on_disk v d;
  wg_space : clusters_needed v (length cs) p n <= Z.of_nat (free_count v (fat_entry v d));
}.

(** The same file after a step that only rewrote a cluster of it. *)
Lemma writing_put v d d1 cs c X p n f :
  writing v d cs p n f -> cluster_set v d d1 c X -> writing v d1 cs p n f.
Proof.
  intros [Hch Ht Hd Hcur Hp Hsz Hn Hw Hf Hsp] [Hcnt _ _ Htab _].
  assert (forall x, x ∈ cs -> fat_entry v d x = fat_entry v d1 x) as Hsame.
  { intros x Hx. symmetry. apply Htab. eapply Forall_forall in Hd; [|done]. destruct Hd; lia. }
  split; rewrite ?Hcnt; try done.
  - by eapply chain_ext.
  - intros x Hx. rewrite <- Hsame; [by apply Ht|]. by apply last_Some_elem_of.
  - intros x Hx. rewrite Htab by lia. rewrite Hcnt. by apply Hf.
  - rewrite (free_count_ext v _ (fat_entry v d)); [done|]. intros x Hx. apply Htab. lia.
Qed.

(** The end of an iteration that wrote [k] of the remaining [n] bytes. *)
Lemma writing_advance v w cs p n k f :
  geometry v (sector_count (w_dev w)) -> w_vol w = Some v -> writing v (w_dev w) cs p n f ->
  0 <= k <= n -> p mod 512 + k <= 512 ->
  exists d' cs' f',
    write_advance (w, advanced k (put_at k f)) = (Ret tt, (set_dev d' w, f')) /\
    writing v d' cs' (p + k) (n - k) f' /\ grown v (w_dev w) d' cs cs' /\
    (forall c, on_disk v (sector_count (w_dev w)) c -> cluster_data v d' c = cluster_data v (w_dev w) c) /\
    exists c s b, f' = set_cursor (p + k) c s b (put_at k f).
Proof.
  intros Hg Hv [Hch Ht Hd Hcur Hp Hsz Hn Hw Hf Hsp] Hk Hpk. destruct (csize_nat _ _ Hg) as [_ Hcs].
  assert (cursor_at v cs p (put_at k f)) as Hcur1 by exact Hcur.
  assert (f_position f = p) as Hpos by (by destruct Hcur).
  assert (p + k = Z.of_nat (length cs) * csize v -> Z.of_nat (length cs) <= (p + n) / csize v) as Hlen
    by (intros Heq; apply Z.div_le_lower_bound; lia).
  destruct (write_advance_run v w (put_at k f) cs p k) as (d' & cs' & c & s & b & Hrun & Hcur' & Hlt & Hcase);
    try done; try lia.
  { intros Heq. specialize (Hlen Heq). apply free_count_pos. unfold clusters_needed in Hsp. lia. }
  exists d', cs', (set_cursor (p + k) c s b (put_at k f)). split; [done|].
  assert (0 <= p + k <= f_size (set_cursor (p + k) c s b (put_at k f))) as Hsz' by (cbn; lia).
  assert (p + k + (n - k) = p + n) as Hpn by lia.
  destruct Hcase as [[-> ->]|(Heq & new & -> & Hext)].
  - split_and!; [|split|done|by eauto].
    + split; try done; try lia. unfold clusters_needed in *. by rewrite Hpn.
    + done.
    + exists []. by rewrite app_nil_r.
    + done.
    + done.
    + done.
  - destruct (extended_chain v (w_dev w) d' _ cs new Hg Hd Hch Ht Hext) as (Hch' & Ht' & Hnew & Hcount).
    pose proof Hext as [(t & Hl & Hchg) Hz Hr]. specialize (Hlen Heq).
    assert (on_disk v (sector_count (w_dev w)) new) as Hnd by (by apply Hf).
    split_and!; [|by apply grown_extend| |by eauto].
    + split; try done; try lia; rewrite ?(fc_count _ _ _ _ Hchg).
      * apply Forall_app. split; [done|]. by apply Forall_singleton.
      * intros x Hx. rewrite (fc_entry _ _ _ _ Hchg), (fc_count _ _ _ _ Hchg) by lia. unfold upd.
        destruct (Z.eqb_spec x t); [lia|]. destruct (Z.eqb_spec x new); [done|]. by apply Hf.
      * unfold clusters_needed in *. rewrite Hpn, length_app. cbn [length]. lia.
    + intros x Hx. by eapply cluster_data_table.
Qed.
(** ** The loop *)

Lemma file_bytes_app v d l r : file_bytes v d (l ++ r) = file_bytes v d l ++ file_bytes v d r.
Proof. unfold file_bytes. by rewrite fmap_app, concat_app. Qed.

(** Rewriting a cluster of a file leaves the clusters appended later alone. *)
Lemma file_bytes_grown v d d1 d2 cs r c X p src :
  geometry v (sector_count d) -> NoDup (cs ++ r) -> Forall (on_disk v (sector_count d)) (cs ++ r) ->
  c ∈ cs -> cluster_set v d d1 c X ->
  (forall x, on_disk v (sector_count d) x -> cluster_data v d2 x = cluster_data v d1 x) ->
  file_bytes v d1 cs = splice p src (file_bytes v d cs) ->
  (p + length src <= length (file_bytes v d cs))%nat ->
  file_bytes v d2 (cs ++ r) = splice p src (file_bytes v d (cs ++ r)).
Proof.
  intros Hg Hnd Hd Hc Hset Hsame Hb Hl. rewrite !file_bytes_app, splice_app_l by done. rewrite <- Hb.
  apply Forall_app in Hd as [Hd Hr]. apply NoDup_app in Hnd as (_ & Hdisj & _).
  rewrite Forall_forall in Hd, Hr. f_equal; apply file_bytes_same; intros x Hx.
  - by apply Hsame, Hd.
  - rewrite Hsame by auto. apply (cs_other _ _ _ _ _ Hset); [by apply Hr|].
    intros ->. by apply (Hdisj c).
Qed.

(** A sector that begins inside the chain ends inside it. *)
Lemma sector_room v (len : nat) p k :
  p < Z.of_nat len * csize v -> p mod 512 + k <= 512 -> p + k <= Z.of_nat len * csize v.
Proof.
  unfold csize. rewrite Z.mul_assoc. generalize (Z.of_nat len * sectors_per_cluster v). intros m Hp Hk.
  pose proof (Z.div_mod p 512 ltac:(lia)). pose proof (Z.mod_pos_bound p 512 ltac:(lia)). lia.
Qed.

(** The file after [n] bytes written at [p], up to its cursor. *)
Definition after_write (p n : Z) (c s b : Z) f : File :=
  set_cursor (p + n) c s b
    (set_size (Z.max (f_size f) (p + n)) (f_modified f || negb (n =? 0)) f).

Lemma after_write_put p k n m c s b c2 s2 b2 f :
  f_position f = p -> 0 <= k -> 0 < n -> n = k + m -> 0 <= m ->
  after_write (p + k) m c s b (set_cursor (p + k) c2 s2 b2 (put_at k f)) = after_write p n c s b f.
Proof.
  intros <- Hk Hn -> Hm. unfold after_write, put_at, set_cursor, set_size. cbn.
  destruct (Z.eqb_spec (k + m) 0); [lia|]. rewrite orb_true_r. f_equal; lia.
Qed.

(** The number of bytes that go into the current sector. *)
Definition chunk (p : Z) (buf : list Z) : Z := Z.min (512 - p mod 512) (Z.of_nat (length buf)).

Lemma chunk_bounds p buf :
  buf <> [] ->
  0 < chunk p buf <= Z.of_nat (length buf) /\ p mod 512 + chunk p buf <= 512 /\
  length (take (Z.to_nat (chunk p buf)) buf) = Z.to_nat (chunk p buf) /\
  Z.of_nat (length (drop (Z.to_nat (chunk p buf)) buf)) = Z.of_nat (length buf) - chunk p buf.
Proof.
  intros Hne. pose proof (Z.mod_pos_bound p 512 ltac:(lia)).
  assert (length buf <> 0%nat) by (by destruct buf).
  rewrite length_take, length_drop. unfold chunk. lia.
Qed.

(** One iteration: for every way [r] the file may grow later, the bytes of the
    sector are in place. *)
Lemma write_step_run v w f cs p n buf :
  geometry v (sector_count (w_dev w)) -> w_vol w = Some v ->
  writing v (w_dev w) cs p n f -> bytes buf -> buf <> [] ->
  chunk p buf <= n -> p + Z.of_nat (length buf) < 2 ^ 32 ->
  let k := chunk p buf in
  exists d1 d2 g cs2 f2,
    write_chunk buf (w, f) = (Ret (Z.to_nat k), (set_dev d1 w, g)) /\
    write_advance (set_dev d1 w, g) = (Ret tt, (set_dev d2 w, f2)) /\
    writing v d2 cs2 (p + k) (n - k) f2 /\ grown v (w_dev w) d2 cs cs2 /\
    (exists c s b, f2 = set_cursor (p + k) c s b (put_at k f)) /\
    forall r, NoDup (cs ++ r) -> Forall (on_disk v (sector_count (w_dev w))) (cs ++ r) ->
      file_bytes v d2 (cs ++ r) =
      splice (Z.to_nat p) (take (Z.to_nat k) buf) (file_bytes v (w_dev w) (cs ++ r)).
Proof.
  intros Hg Hv Hwg Hby Hne Hkn Hw k. pose proof Hwg as [Hch _ Hd Hcur Hp Hsz _ _ _ _].
  pose proof (chain_NoDup _ _ _ Hch) as Hnd. destruct (chunk_bounds p buf Hne) as (Hk & Hpk & Hlk & _).
  fold k in Hk, Hpk, Hlk, Hkn.
  destruct (write_chunk_run v w f cs p buf) as (d1 & c & X & Hrun1 & Hc & Hset & Hbytes1);
    try done; try lia. fold (chunk p buf) k in Hrun1, Hbytes1.
  assert (geometry v (sector_count d1)) as Hg1 by (by rewrite (cs_count _ _ _ _ _ Hset)).
  destruct (writing_advance v (set_dev d1 w) cs p n k f Hg1 Hv
              (writing_put _ _ _ _ _ _ _ _ _ Hwg Hset) ltac:(lia) Hpk)
    as (d2 & cs2 & f2 & Hrun2 & Hwg2 & Hgr2 & Hsame & Hf2).
  cbn [w_dev set_dev] in Hgr2, Hsame. rewrite (cs_count _ _ _ _ _ Hset) in Hsame.
  exists d1, d2, (advanced k (put_at k f)), cs2, f2. split_and!; try done.
  - eapply grown_trans; [eapply chain_NoDup, Hwg2| |exact Hgr2]. by eapply grown_put.
  - intros r Hndr Hdr. eapply file_bytes_grown; try done. rewrite Hlk.
    destruct (file_bytes_length v (w_dev w) cs Hg Hd) as [_ Hl].
    pose proof (sector_room v _ p k (proj2 Hp) Hpk). lia.
Qed.

Lemma write_loop_run fuel v w f cs p buf :
  geometry v (sector_count (w_dev w)) -> w_vol w = Some v ->
  writing v (w_dev w) cs p (Z.of_nat (length buf)) f -> bytes buf -> (length buf < fuel)%nat ->
  exists d' cs' f',
    write_loop fuel buf (w, f) = (Ret tt, (set_dev d' w, f')) /\
    writing v d' cs' (p + Z.of_nat (length buf)) 0 f' /\ grown v (w_dev w) d' cs cs' /\
    file_bytes v d' cs' = splice (Z.to_nat p) buf (file_bytes v (w_dev w) cs') /\
    exists c s b, f' = after_write p (Z.of_nat (length buf)) c s b f.
Proof.
  revert w f cs p buf. induction fuel as [|fuel IH]; intros w f cs p buf Hg Hv Hwg Hby Hf; [lia|].
  pose proof Hwg as [_ _ _ [Hpos _] Hp Hsz _ _ _ _].
  cbn [write_loop]. destruct (decide (buf = [])) as [->|Hne].
  { exists (w_dev w), cs, f. cbn [length Z.of_nat] in *. rewrite Z.add_0_r.
    assert (set_dev (w_dev w) w = w) as -> by (by destruct w). split_and!; [done|done| | |].
    - split; try done. exists []. by rewrite app_nil_r.
    - unfold splice. rewrite app_nil_l. cbn [length]. rewrite Nat.add_0_r. by rewrite take_drop.
    - exists (f_current_cluster f), (f_sector_in_cluster f), (f_byte_in_sector f).
      unfold after_write. rewrite Z.add_0_r, Z.max_l, orb_false_r, <- Hpos by lia. by destruct f. }
  destruct (write_step_run v w f cs p _ buf Hg Hv Hwg Hby Hne ltac:(by apply (chunk_bounds p buf)) (wg_width _ _ _ _ _ _ Hwg))
    as (d1 & d2 & g & cs2 & f2 & Hrun1 & Hrun2 & Hwg2 & Hgr2 & (c2 & s2 & b2 & ->) & Hbytes2).
  destruct (chunk_bounds p buf Hne) as (Hk & Hpk & Hlk & Hld).
  set (k := chunk p buf) in *. run_with Hrun1. run_with Hrun2. rewrite <- Hld in Hwg2.
  destruct (IH (set_dev d2 w) (set_cursor (p + k) c2 s2 b2 (put_at k f)) cs2 (p + k)
              (drop (Z.to_nat k) buf)) as (d' & cs' & f' & Hrun & Hwg' & Hgr' & Hbytes & (c' & s' & b' & ->));
    try done; [cbn; by rewrite (gr_count _ _ _ _ _ Hgr2)|by apply Forall_drop|lia|].
  cbn [w_dev set_dev] in *. rewrite Hld in *.
  replace (p + k + (Z.of_nat (length buf) - k)) with (p + Z.of_nat (length buf)) in Hwg' by lia.
  assert (NoDup cs') as Hnd' by (eapply chain_NoDup, Hwg').
  assert (grown v (w_dev w) d' cs cs') as Hgr by (by eapply grown_trans).
  exists d', cs'. eexists. split_and!; [exact Hrun|exact Hwg'|done| |].
  - pose proof (wg_pos _ _ _ _ _ _ Hwg') as Hin. pose proof (wg_disk _ _ _ _ _ _ Hwg') as Hd'.
    rewrite (gr_count _ _ _ _ _ Hgr) in Hd'. destruct (gr_new _ _ _ _ _ Hgr) as (r & -> & _).
    destruct (file_bytes_length v (w_dev w) _ Hg Hd') as [_ Hl].
    rewrite Hbytes, Hbytes2 by done.
    replace (Z.to_nat (p + k)) with (Z.to_nat p + length (take (Z.to_nat k) buf))%nat by lia.
    rewrite splice_next by lia. by rewrite take_drop.
  - exists c', s', b'. apply after_write_put; done || lia.
Qed.

(** ** The whole write *)

(** The first cluster of a file without one. *)
Lemma first_cluster_run v w f :
  geometry v (sector_count (w_dev w)) -> w_vol w = Some v -> free_on_disk v (w_dev w) ->
  (0 < free_count v (fat_entry v (w_dev w)))%nat ->
  exists d' new, first_cluster (w, f) = (Ret tt, (set_dev d' w, set_start new f)) /\
    grown v (w_dev w) d' [] [new] /\ chain (fat_entry v d') new [new] /\
    terminated (fat_entry v d') [new] /\ free_on_disk v d' /\
    on_disk v (sector_count (w_dev w)) new /\
    (free_count v (fat_entry v (w_dev w)) <= S (free_count v (fat_entry v d')))%nat /\
    (forall c, on_disk v (sector_count (w_dev w)) c -> cluster_data v d' c = cluster_data v (w_dev w) c).
Proof.
  intros Hg Hv Hf Hpos. destruct (free_count_pos _ _ Hpos) as (c0 & Hc0 & Hz0).
  destruct (find_free_run v w Hg) as [(new & Hrun & Hn & Hz & _)|[_ Hall]]; [|by destruct (Hall c0)].
  destruct (write_fat_change v w new CHAIN_END Hg ltac:(lia)) as (d' & Hw & Hchg); [unfold CHAIN_END; lia|].
  assert (on_disk v (sector_count (w_dev w)) new) as Hd by auto.
  assert (fat_entry v d' new = CHAIN_END) as Hend by (by rewrite (fc_entry _ _ _ _ Hchg), upd_same by lia).
  pose proof (entries_bounds _ _ Hg) as He.
  exists d', new. split_and!; [| | | | |done| |intros c Hc; by eapply cluster_data_table].
  - unfold first_cluster. run_with (vol_io_run v w f _ new w Hv Hrun).
    run_with (vol_io_run v w f _ tt _ Hv Hw). done.
  - split; try apply Hchg.
    + exists [new]. split; [done|]. by apply Forall_singleton.
    + intros c Hc _. by eapply cluster_data_table.
    + intros x Hx Hne. rewrite (fc_entry _ _ _ _ Hchg), upd_other by (done || set_solver). done.
  - cbn. rewrite Hend. split_and!; [done| |done]. apply is_cluster_iff. lia.
  - intros x Hx. cbn in Hx. simplify_eq. by rewrite Hend.
  - intros x Hx. rewrite (fc_entry _ _ _ _ Hchg), (fc_count _ _ _ _ Hchg) by lia. unfold upd.
    destruct (Z.eqb_spec x new); [done|auto].
  - rewrite (free_count_ext v (fat_entry v d') (upd (fat_entry v (w_dev w)) new CHAIN_END))
      by (intros x Hx; apply (fc_entry _ _ _ _ Hchg); lia).
    apply (free_count_take _ _ _ new). intros x Hx. by rewrite upd_other.
Qed.

(** Where [f_write] may start: inside the chain, or with no cluster at all. *)
Definition writable_at v (cs : list Z) (p : Z) : Prop :=
  cs = [] \/ p < Z.of_nat (length cs) * csize v.

(** What writing leaves of a file object: its entry, its flags, and whether it
    has to be written back. *)
Definition same_entry f f' : Prop :=
  f_dir_sector f' = f_dir_sector f /\ f_dir_offset f' = f_dir_offset f /\ f_flags f' = f_flags f /\
  (f_modified f = true -> f_modified f' = true).

(** The state in which the loop starts. *)
Lemma f_write_start v w f cs n :
  geometry v (sector_count (w_dev w)) -> w_vol w = Some v -> file_ok v (w_dev w) cs f ->
  writable_at v cs (f_position f) -> 0 < n -> f_position f + n < 2 ^ 32 -> free_on_disk v (w_dev w) ->
  clusters_needed v (length cs) (f_position f) n <= Z.of_nat (free_count v (fat_entry v (w_dev w))) ->
  exists d1 cs1 f1,
    (if f_current_cluster f =? 0 then first_cluster else ret tt) (w, f) = (Ret tt, (set_dev d1 w, f1)) /\
    writing v d1 cs1 (f_position f) n f1 /\ grown v (w_dev w) d1 cs cs1 /\
    (forall c, on_disk v (sector_count (w_dev w)) c -> cluster_data v d1 c = cluster_data v (w_dev w) c) /\
    f_size f1 = f_size f /\ same_entry f f1.
Proof.
  intros Hg Hv Hok Hwr Hn Hw Hf Hsp. pose proof Hok as [Hch Ht Hd Hsz H32 Hpos Hcur].
  destruct (csize_nat _ _ Hg) as [_ Hcs].
  destruct (decide (cs = [])) as [->|Hcs0].
  - cbn in Hsz. assert (f_position f = 0) as Hp0 by lia. destruct Hcur as [_ Hcur]. rewrite Hp0 in *.
    cbn in Hcur. destruct Hcur as (Hc & Hs & Hb). rewrite Hc. cbn [Z.eqb].
    assert (0 <= n / csize v) by (apply Z.div_pos; lia).
    unfold clusters_needed in Hsp. rewrite Z.add_0_l in Hsp. cbn [length] in Hsp.
    destruct (first_cluster_run v w f Hg Hv Hf ltac:(lia))
      as (d1 & new & Hrun & Hgr & Hch1 & Ht1 & Hf1 & Hdn & Hcnt & Hdata).
    exists d1, [new], (set_start new f). split_and!; try done.
    split; try done; try lia.
    + rewrite (gr_count _ _ _ _ _ Hgr). by apply Forall_singleton.
    + split; [done|]. cbn [length]. destruct (Z.ltb_spec 0 (Z.of_nat 1 * csize v)); [|lia].
      rewrite Z.div_0_l, Z.mod_0_l by lia. by split_and!.
    + cbn [length]. lia.
    + unfold clusters_needed. rewrite Z.add_0_l. cbn [length]. lia.
  - destruct Hwr as [|Hin]; [done|].
    assert (f_current_cluster f <> 0) as Hc0.
    { destruct (cursor_in_chain v _ cs (f_position f) f Hg ltac:(lia) Hcur) as (Hc & _).
      pose proof (chain_clusters _ _ _ Hch) as Hcl. eapply Forall_lookup_1 in Hcl; [|exact Hc].
      apply is_cluster_iff in Hcl. lia. }
    rewrite (proj2 (Z.eqb_neq _ _) Hc0). exists (w_dev w), cs, f.
    assert (set_dev (w_dev w) w = w) as -> by (by destruct w). split_and!; try done.
    + split; done || lia.
    + split; try done. exists []. by rewrite app_nil_r.
Qed.

Lemma f_write_run v w f cs buf :
  geometry v (sector_count (w_dev w)) -> w_vol w = Some v -> file_ok v (w_dev w) cs f ->
  lacks f FA_WRITE = false -> writable_at v cs (f_position f) -> bytes buf ->
  f_position f + Z.of_nat (length buf) < 2 ^ 32 -> free_on_disk v (w_dev w) ->
  clusters_needed v (length cs) (f_position f) (Z.of_nat (length buf)) <=
    Z.of_nat (free_count v (fat_entry v (w_dev w))) ->
  exists d' cs' f',
    f_write buf (w, f) = (Ret (Z.of_nat (length buf)), (set_dev d' w, f')) /\
    file_ok v d' cs' f' /\ grown v (w_dev w) d' cs cs' /\
    f_position f' = f_position f + Z.of_nat (length buf) /\
    f_size f' = Z.max (f_size f) (f_position f + Z.of_nat (length buf)) /\ same_entry f f' /\
    (buf <> [] -> f_position f' < Z.of_nat (length cs') * csize v /\ f_modified f' = true) /\
    file_bytes v d' cs' = splice (Z.to_nat (f_position f)) buf (file_bytes v (w_dev w) cs').
Proof.
  intros Hg Hv Hok Hflag Hwr Hby Hw Hf Hsp. pose proof Hok as [Hch Ht Hd Hsz H32 Hpos Hcur].
  unfold f_write, get_file. unfold bind at 1. cbn [gets fst snd]. rewrite Hflag.
  destruct (decide (buf = [])) as [->|Hne].
  { exists (w_dev w), cs, f. cbn [length Z.of_nat]. rewrite Z.add_0_r.
    assert (set_dev (w_dev w) w = w) as -> by (by destruct w). split_and!; try done; [|lia|].
    - split; try done. exists []. by rewrite app_nil_r.
    - unfold splice. cbn [length]. by rewrite app_nil_l, Nat.add_0_r, take_drop. }
  destruct (csize_nat _ _ Hg) as [_ Hcs].
  destruct (f_write_start v w f cs (Z.of_nat (length buf)))
    as (d1 & cs1 & f1 & Hrun1 & Hwg & Hgr1 & Hsame & Hs1 & Hfl1); try done;
    [assert (length buf <> 0%nat) by (by destruct buf); lia|].
  run_with Hrun1. pose proof (gr_count _ _ _ _ _ Hgr1) as Hcnt1.
  assert (geometry v (sector_count d1)) as Hg1 by (by rewrite Hcnt1).
  destruct (write_loop_run (S (length buf)) v (set_dev d1 w) f1 cs1 (f_position f) buf Hg1 Hv Hwg Hby
              ltac:(lia)) as (d' & cs' & f' & Hrun & Hwg' & Hgr' & Hbytes & (c & s & b & ->)).
  cbn [w_dev set_dev] in *. run_with Hrun.
  pose proof Hwg' as [Hch' Ht' Hd' Hcur' Hp' _ _ _ _ _].
  assert (grown v (w_dev w) d' cs cs') as Hgr
    by (eapply grown_trans; [eapply chain_NoDup, Hch'|exact Hgr1|exact Hgr']).
  destruct (gr_new _ _ _ _ _ Hgr) as (r & -> & _).
  exists d', (cs ++ r). eexists. split_and!; [done| |done|done|cbn; by rewrite Hs1| | |].
  - split; try done; cbn [after_write set_cursor set_size f_size f_position]; rewrite ?Hs1; try lia.
    rewrite length_app in *. nia.
  - destruct Hfl1 as (E1 & E2 & E3 & E4). split_and!; [done..|]. intros Hm. cbn. by rewrite E4.
  - intros _. cbn. split; [lia|]. destruct buf; [done|]. by rewrite orb_true_r.
  - rewrite Hbytes. f_equal. apply file_bytes_same. intros x Hx. apply Hsame.
    rewrite (gr_count _ _ _ _ _ Hgr), Forall_forall in Hd'. by apply Hd'.
Qed.

(** The bytes of a file as its reader sees them: up to its size. *)
Definition contents v d (cs : list Z) f : list Z := take (Z.to_nat (f_size f)) (file_bytes v d cs).

Lemma contents_length v d cs f :
  geometry v (sector_count d) -> file_ok v d cs f -> length (contents v d cs f) = Z.to_nat (f_size f).
Proof.
  intros Hg Hok. destruct (csize_nat _ _ Hg) as [Hcs _]. unfold contents. rewrite length_take.
  destruct (file_bytes_length v d cs Hg (fo_disk _ _ _ _ Hok)) as [_ Hfb]. pose proof (fo_size _ _ _ _ Hok). lia.
Qed.

(** A read's slice, in terms of the contents. *)
Lemma read_contents v d cs f n :
  file_ok v d cs f ->
  take (Z.to_nat (Z.min n (f_size f - f_position f))) (drop (Z.to_nat (f_position f)) (file_bytes v d cs))
  = take (Z.to_nat n) (drop (Z.to_nat (f_position f)) (contents v d cs f)).
Proof.
  intros Hok. pose proof (fo_pos _ _ _ _ Hok). unfold contents. rewrite skipn_firstn_comm, take_take. f_equal. lia.
Qed.

(** ... and after a write: the bytes before the cursor, those written, and what
    is left of the old ones. *)
Lemma contents_written v d d' cs cs' f f' buf :
  geometry v (sector_count d) -> file_ok v d cs f -> file_ok v d' cs' f' -> grown v d d' cs cs' ->
  f_size f' = Z.max (f_size f) (f_position f + Z.of_nat (length buf)) ->
  file_bytes v d' cs' = splice (Z.to_nat (f_position f)) buf (file_bytes v d cs') ->
  contents v d' cs' f' =
    take (Z.to_nat (f_position f)) (contents v d cs f) ++ buf ++
    drop (Z.to_nat (f_position f) + length buf) (contents v d cs f).
Proof.
  intros Hg Hok Hok' Hgr Hs Hb. unfold contents. rewrite Hb, Hs.
  pose proof (fo_pos _ _ _ _ Hok) as Hpos.
  pose proof (fo_size _ _ _ _ Hok') as Hsz'. pose proof (fo_disk _ _ _ _ Hok') as Hd'.
  rewrite (gr_count _ _ _ _ _ Hgr) in Hd'.
  destruct (file_bytes_length v d cs Hg (fo_disk _ _ _ _ Hok)) as [_ Hl].
  destruct (file_bytes_length v d cs' Hg Hd') as [_ Hl'].
  pose proof (fo_size _ _ _ _ Hok) as Hsz.
  destruct (gr_new _ _ _ _ _ Hgr) as (r & -> & _). rewrite file_bytes_app in *.
  replace (Z.to_nat (Z.max (f_size f) (f_position f + Z.of_nat (length buf))))
    with (Nat.max (Z.to_nat (f_size f)) (Z.to_nat (f_position f) + length buf)) by lia.
  rewrite take_splice_grow; [done|lia|lia|]. rewrite length_app in Hl' |- *. lia.
Qed.
End FileWrite.
