(* ===== verification/FatDemo.v ===== *)
(** A small volume on a RAM disk, the concrete input of the witnesses: one
    sector per cluster, two tables of one sector, the root directory in cluster
    2 with one file, KERNEL.BIN, of 1300 bytes in clusters 3, 5 and 4. *)

From stdpp Require Import base numbers list gmap.
From Stdlib Require Import ZArith Lia.
From S2P Require Import Prelude Block Fat32 Fat32Dir Fat32File FatSpec FatChain FatCluster FatFileSpec.

Definition demo_vol : FatVolume := mkVol 1 1 2 1 2 3 1.

Definition demo_boot : list Z :=
  splice 510 [85; 170]
    (splice 36 (le_bytes 4 1 ++ [0; 0; 0; 0] ++ le_bytes 4 2)
       (splice 11 (le_bytes 2 512 ++ [1] ++ le_bytes 2 1 ++ [2; 0; 0]) (replicate 512 0))).

Definition demo_fat : list Z :=
  splice 8 (le_bytes 4 CHAIN_END ++ le_bytes 4 5 ++ le_bytes 4 CHAIN_END ++ le_bytes 4 4)
    (replicate 512 0).

(** "KERNEL.BIN". *)
Definition demo_name : list Z := [75; 69; 82; 78; 69; 76; 46; 66; 73; 78].

Definition demo_root : list Z :=
  splice 0 (encode_name demo_name ++ [ATTR_ARCHIVE] ++ replicate 8 0 ++ le_bytes 2 0 ++
            replicate 4 0 ++ le_bytes 2 3 ++ le_bytes 4 1300) (replicate 512 0).

(** Sector [s] of the file's contents. *)
Definition demo_sector (s : Z) : list Z := (fun i => (Z.of_nat i + s) mod 256) <$> seq 0 512.

Definition demo_disk : RamDisk :=
  mkRamDisk 129
    (<[0 := demo_boot]> (<[1 := demo_fat]> (<[2 := demo_fat]> (<[3 := demo_root]>
      (<[4 := demo_sector 0]> (<[6 := demo_sector 1]> (<[5 := demo_sector 2]> ∅))))))).

Definition demo_world : World RamDisk :=
  mkWorld demo_disk (Some demo_vol) 2 (47 :: replicate 255 0) (replicate 512 0) true.

(** KERNEL.BIN as [f_open] returns it, with the cursor at the start. *)
Definition demo_file (flags : Z) : File := mkFile 1300 0 3 3 0 0 flags 2 0 false FOk.

Lemma demo_geometry : geometry demo_vol (sector_count (w_dev demo_world)).
Proof. split; vm_compute; try (split; discriminate); try discriminate; reflexivity. Qed.

Lemma demo_chain : chain (fat_entry demo_vol (w_dev demo_world)) 3 [3; 5; 4].
Proof. vm_compute. repeat split. Qed.

Lemma demo_root_chain : chain (fat_entry demo_vol (w_dev demo_world)) 2 [2].
Proof. vm_compute. repeat split. Qed.

Lemma demo_on_disk c : 2 <= c < 128 -> on_disk demo_vol (sector_count (w_dev demo_world)) c.
Proof. intros Hc. split; [exact Hc|]. cbn. lia. Qed.

Lemma demo_file_ok flags : file_ok demo_vol (w_dev demo_world) [3; 5; 4] (demo_file flags).
Proof.
  split.
  - exact demo_chain.
  - intros x Hx. injection Hx as <-. vm_compute. discriminate.
  - repeat (constructor; [apply demo_on_disk; lia|]). constructor.
  - vm_compute. split; discriminate.
  - vm_compute. reflexivity.
  - vm_compute. split; discriminate.
  - split; [reflexivity|]. cbn. repeat split.
Qed.
