(* ===== verification/FatMount.v ===== *)
(** Mounting: which boot sectors [f_mount] accepts, and the volume that the rest
    of the theory starts from. *)

From stdpp Require Import base numbers list gmap.
From Stdlib Require Import ZArith Lia.
From S2P Require Import Prelude Block Fat32 Fat32Dir Fat32File.
From S2P Require Import FatSpec FatChain FatCluster FatDirSpec FatFileSpec FatDemo.

(** ** The boot sector of a FAT32 volume *)

(** What [f_mount] looks at: the signature, sectors of 512 bytes, a power of two
    of sectors in a cluster, no fixed root directory and a table size of 32
    bits. *)
Record fat32_boot (buf : list Z) : Prop := {
  fb_signature : byte_at buf 510 = 85 /\ byte_at buf 511 = 170;
  fb_sector : le16_at buf 11 = 512;
  fb_cluster : exists i, 0 <= i <= 7 /\ byte_at buf 13 = 2 ^ i;
  fb_root : le16_at buf 17 = 0;
  fb_table : 0 < le32_at buf 36;
}.

(** The first sector behind the tables. *)
Definition data_start (buf : list Z) : Z := le16_at buf 14 + byte_at buf 16 * le32_at buf 36.

Definition boot_volume (buf : list Z) : FatVolume :=
  mkVol (byte_at buf 13) (le16_at buf 14) (byte_at buf 16) (le32_at buf 36) (le32_at buf 44) (data_start buf) (le16_at buf 14).

(** What it does not look at: there is a table, the tables are on the device, and
    their entries are numbers of clusters. *)
Record boot_fits (buf : list Z) (n : Z) : Prop := {
  bf_tables : 1 <= byte_at buf 16;
  bf_device : data_start buf <= n /\ data_start buf < 2 ^ 32 /\ n <= 2 ^ 32;
  bf_entries : le32_at buf 36 * 128 <= END_OF_CHAIN;
}.

(** Every sector that the volume names is the one it means, without wrapping, and
    on a device of [n] sectors: the table's sectors, in all its copies, and the
    sectors of every cluster that ends on the device. *)
Definition addresses_ok (v : FatVolume) (n : Z) : Prop :=
  (forall c, 0 <= c < entries v ->
     fat_sector v c = fat_region_lba v + c / 128 /\ c / 128 < sectors_per_fat v)
  /\ (forall i k, 0 <= i < num_fats v -> 0 <= k < sectors_per_fat v ->
     0 <= fat_region_lba v + i * sectors_per_fat v + k < n)
  /\ forall c, on_disk v n c ->
     cluster_to_lba v c = data_region_lba v + (c - 2) * sectors_per_cluster v
     /\ 0 <= cluster_to_lba v c /\ cluster_to_lba v c + sectors_per_cluster v <= n.

Definition mounted {D} (v : FatVolume) (w : World D) : World D :=
  set_cwd_path (SLASH :: replicate 255 0) (set_cwd_cluster 2 (set_vol (Some v) w)).

(** ** Lemmas *)

Lemma power_of_two_byte z :
  is_byte z -> (negb (z =? 0) && is_power_of_two z = true <-> exists i, 0 <= i <= 7 /\ z = 2 ^ i).
Proof.
  intros Hz. assert (forallb (fun z => Bool.eqb (negb (z =? 0) && is_power_of_two z)
    (bool_decide (z ∈ [1; 2; 4; 8; 16; 32; 64; 128]))) (seqZ 0 256) = true) as Hall by (vm_compute; reflexivity).
  rewrite forallb_forall in Hall. specialize (Hall z). rewrite <- list_elem_of_In, elem_of_seqZ in Hall.
  specialize (Hall ltac:(unfold is_byte in Hz; lia)). apply Bool.eqb_prop in Hall. rewrite Hall, bool_decide_eq_true. split.
  - rewrite !elem_of_cons, elem_of_nil. intros Hin.
    destruct Hin as [->|[->|[->|[->|[->|[->|[->|[->|[]]]]]]]]];
      [exists 0|exists 1|exists 2|exists 3|exists 4|exists 5|exists 6|exists 7]; (split; [lia|reflexivity]).
  - intros (i & Hi & ->). assert (i = 0 \/ i = 1 \/ i = 2 \/ i = 3 \/ i = 4 \/ i = 5 \/ i = 6 \/ i = 7) as Hc by lia.
    rewrite !elem_of_cons. destruct Hc as [->|[->|[->|[->|[->|[->|[->| ->]]]]]]]; cbn; tauto.
Qed.

Lemma le_at_range buf i n : bytes buf -> 0 <= le_val (take n (drop i buf)) < 256 ^ Z.of_nat n.
Proof.
  intros Hb. pose proof (le_val_range (take n (drop i buf)) ltac:(by apply Forall_take, Forall_drop)) as Hr.
  rewrite length_take in Hr. pose proof (Z.pow_le_mono_r 256 (Z.of_nat (n `min` length (drop i buf))) (Z.of_nat n)). lia.
Qed.

(** The checks accept exactly those boot sectors. *)
Lemma parse_bpb_spec buf :
  bytes buf ->
  match parse_bpb buf with
  | inl v => fat32_boot buf /\ v = mkVol (byte_at buf 13) (le16_at buf 14) (byte_at buf 16) (le32_at buf 36)
      (le32_at buf 44) (u32 (le16_at buf 14 + u32 (byte_at buf 16 * le32_at buf 36))) (le16_at buf 14)
  | inr e => ~ fat32_boot buf
  end.
Proof.
  intros Hb. pose proof (power_of_two_byte _ (byte_at_is_byte buf 13 Hb)) as Hpow.
  pose proof (le_at_range buf 36 4 Hb) as Hsz. fold (le32_at buf 36) in Hsz. unfold parse_bpb. cbv zeta.
  destruct (Z.eqb_spec (byte_at buf 510) 85) as [H1|H1]; [|by intros [[] _ _ _ _]].
  destruct (Z.eqb_spec (byte_at buf 511) 170) as [H2|H2]; [|by intros [[] _ _ _ _]].
  destruct (Z.eqb_spec (le16_at buf 11) 512) as [H3|H3]; [cbn [negb orb]|by intros []].
  destruct (negb (byte_at buf 13 =? 0) && is_power_of_two (byte_at buf 13)) eqn:H4.
  2: { replace ((byte_at buf 13 =? 0) || negb (is_power_of_two (byte_at buf 13))) with true
         by (by destruct (byte_at buf 13 =? 0), (is_power_of_two (byte_at buf 13))).
       intros [_ _ Hc _ _]. apply Hpow in Hc. congruence. }
  replace ((byte_at buf 13 =? 0) || negb (is_power_of_two (byte_at buf 13))) with false
    by (by destruct (byte_at buf 13 =? 0), (is_power_of_two (byte_at buf 13))).
  destruct (Z.eqb_spec (le16_at buf 17) 0) as [H5|H5]; [cbn [negb orb]|by intros []].
  destruct (Z.eqb_spec (le32_at buf 36) 0) as [H6|H6]; [intros []; lia|].
  split; [|done]. split; [done|done|by apply Hpow|done|]. cbn in Hsz. lia.
Qed.

Lemma parse_bpb_error buf :
  match parse_bpb buf with
  | inl _ => True
  | inr e => e = if bool_decide (byte_at buf 510 = 85 /\ byte_at buf 511 = 170) then Invalid else MkfsAborted
  end.
Proof.
  unfold parse_bpb. cbv zeta.
  destruct (Z.eqb_spec (byte_at buf 510) 85); cbn [negb orb]; [|by rewrite bool_decide_eq_false_2 by tauto].
  destruct (Z.eqb_spec (byte_at buf 511) 170); cbn [negb orb]; [|by rewrite bool_decide_eq_false_2 by tauto].
  rewrite bool_decide_eq_true_2 by done. by repeat case_match; simplify_eq.
Qed.

Lemma boot_geometry buf n :
  bytes buf -> fat32_boot buf -> boot_fits buf n ->
  u32 (le16_at buf 14 + u32 (byte_at buf 16 * le32_at buf 36)) = data_start buf /\ geometry (boot_volume buf) n.
Proof.
  intros Hb [_ _ (i & Hi & Hc) _ Ht] [F1 F2 F3]. pose proof (byte_at_is_byte buf 16 Hb) as H16. unfold is_byte in H16.
  pose proof (le_at_range buf 14 2 Hb) as H14. fold (le16_at buf 14) in H14. unfold data_start in *. cbn in H14.
  split; [unfold u32; rewrite !Z.mod_small by (try rewrite Z.mod_small by nia; nia); done|].
  split; cbn [boot_volume num_fats sectors_per_fat sectors_per_cluster fat_region_lba data_region_lba]; unfold data_start; try lia.
  - rewrite Hc. pose proof (Z.pow_le_mono_r 2 i 7 ltac:(lia) ltac:(lia)). pose proof (Z.pow_pos_nonneg 2 i ltac:(lia) ltac:(lia)). lia.
  - unfold entries. cbn [boot_volume sectors_per_fat]. exact F3.
Qed.

Lemma geometry_addresses v n : geometry v n -> addresses_ok v n.
Proof.
  intros Hg. pose proof Hg as []. split_and!.
  - intros c Hc. unfold fat_sector, entries, END_OF_CHAIN in *.
    assert (c / 128 < sectors_per_fat v) by (apply Z.div_lt_upper_bound; lia).
    assert (0 <= c / 128) by (apply Z.div_pos; lia).
    assert (u32 (c * 4) / 512 = c / 128) as ->.
    { rewrite u32_small by lia. change 512 with (4 * 128). by rewrite (Z.mul_comm c), Z.div_mul_cancel_l. }
    rewrite u32_small by nia. done.
  - intros i k Hi Hk. assert (i * sectors_per_fat v + k < num_fats v * sectors_per_fat v) by nia. nia.
  - intros c Hc. pose proof (cluster_lba_run v n c Hg Hc) as Hl. pose proof (cluster_lba_range v n c Hg Hc).
    rewrite Hl. unfold cluster_lba in *. split_and!; [done|lia|lia].
Qed.

Section Mount.
Context {D : Type} `{ReliableDevice D}.

Lemma f_mount_run (w : World D) buf :
  read_sector (w_dev w) 0 = Some buf -> 0 < sector_count (w_dev w) ->
  match parse_bpb buf with
  | inl v => f_mount w = (Ret tt, mounted v w)
  | inr e => f_mount w = (Err e, w)
  end.
Proof.
  intros R Hc. unfold f_mount, bind, gets, dev_read, cwd_init, modify. cbn [fst snd].
  destruct (Z.eqb_spec (sector_count (w_dev w)) 0); [lia|]. rewrite R. by destruct (parse_bpb buf).
Qed.

(** ** Properties *)

(** C18: [f_mount] mounts exactly the devices whose first sector is the boot sector
    of a FAT32 volume; otherwise it fails, with [MkfsAborted] when the signature
    is missing and [Invalid] when a field is not as it must be, and changes
    nothing. The working directory is then cluster 2 with the path of the root,
    whatever cluster the sector names as the root. When the tables that the
    sector speaks of are on the device, the volume mounted is the one it
    describes: no sector of the table, of its copies or of a cluster that ends
    on the device has an address that wraps or is outside the device. *)
Theorem f_mount_correct (w : World D) :
  0 < sector_count (w_dev w) ->
  exists buf, read_sector (w_dev w) 0 = Some buf
    /\ (~ fat32_boot buf ->
         f_mount w = (Err (if bool_decide (byte_at buf 510 = 85 /\ byte_at buf 511 = 170) then Invalid else MkfsAborted), w))
    /\ (fat32_boot buf -> exists v, f_mount w = (Ret tt, mounted v w)
         /\ (boot_fits buf (sector_count (w_dev w)) ->
              v = boot_volume buf /\ geometry v (sector_count (w_dev w)) /\ addresses_ok v (sector_count (w_dev w)))).
Proof.
  intros Hc. destruct (read_in_range (w_dev w) 0 (conj (Z.le_refl 0) Hc)) as [buf R]. exists buf. split; [done|].
  destruct (read_valid _ _ _ R) as [_ Hb]. pose proof (parse_bpb_spec buf Hb) as Hp. pose proof (f_mount_run w buf R Hc) as Hm.
  pose proof (parse_bpb_error buf) as He.
  destruct (parse_bpb buf) as [v|e].
  - destruct Hp as [Hboot ->]. split; [done|]. intros _. eexists. split; [exact Hm|]. intros Hfit.
    destruct (boot_geometry buf _ Hb Hboot Hfit) as [Hd Hg]. rewrite Hd. split_and!; [done|done|by apply geometry_addresses].
  - rewrite <- He. by split.
Qed.
End Mount.

(** ** The demonstration volume *)

Lemma demo_fat32_boot : fat32_boot demo_boot.
Proof. split; [by split|done|exists 0; split; [lia|done]|done|by vm_compute]. Qed.

Lemma demo_boot_fits : boot_fits demo_boot 129.
Proof. split; [by vm_compute|split_and!; by vm_compute|by vm_compute]. Qed.

Lemma f_mount_correct_witness :
  f_mount (set_vol None demo_world) = (Ret tt, mounted demo_vol (set_vol None demo_world)) /\ boot_volume demo_boot = demo_vol.
Proof.
  destruct (f_mount_correct (set_vol None demo_world)) as (buf & R & _ & Hm); [vm_compute; reflexivity|].
  assert (buf = demo_boot) as -> by (vm_compute in R; vm_compute; congruence).
  destruct (Hm demo_fat32_boot) as (v & Hv & Hfit). destruct (Hfit demo_boot_fits) as (-> & _ & _).
  split; [exact Hv|vm_compute; reflexivity].
Defined.

(** A boot sector without tables is mounted: the data region begins in front of
    the table. *)
Example f_mount_no_tables :
  let d := mkRamDisk 129 (<[0 := <[16%nat := 0]> demo_boot]> ∅) in
  let w := set_dev d demo_world in
  f_mount w = (Ret tt, mounted (mkVol 1 1 0 1 2 1 1) w).
Proof. vm_compute. reflexivity. Qed.
