(* ===== verification/FatTheorems.v ===== *)
(** What the FAT32 driver promises: the table, chains, allocation and
    directories, on any reliable device. *)

From stdpp Require Import base numbers list gmap.
From Stdlib Require Import ZArith Lia.
From S2P Require Import Prelude Block Fat32 Fat32Dir Fat32File Fat32List.
From S2P Require Import FatSpec FatChain FatCluster FatDirSpec FatFileSpec FatDemo.

Section Theorems.
Context {D : Type} `{ReliableDevice D}.
Implicit Types (d : D) (v : FatVolume) (w : World D).

(** ** The table *)

(** Writing a FAT entry and reading it back gives its low 28 bits; every
    other entry, the sectors outside the tables and the contents of every
    cluster are unchanged; and if the copies of the table agreed, they still
    do. *)
Theorem fat_entry_roundtrip v w c val :
  geometry v (sector_count (w_dev w)) -> 0 <= c < entries v ->
  exists w', write_fat_entry v c val w = (Ret tt, w') /\
    read_fat_entry v c w' = (Ret (val mod 2 ^ 28), w') /\
    (forall x, 0 <= x < entries v -> x <> c ->
       fst (read_fat_entry v x w') = fst (read_fat_entry v x w)) /\
    (forall x, on_disk v (sector_count (w_dev w)) x ->
       fst (read_cluster v x w') = fst (read_cluster v x w)) /\
    (mirrored v (w_dev w) -> mirrored v (w_dev w')).
Proof.
  intros Hg Hc. destruct (write_fat_run v w c val Hg Hc) as (d' & Hrun & Hset).
  pose proof Hset as [Hcnt Hsame Hother Hframe Hmir].
  assert (geometry v (sector_count d')) as Hg' by (by rewrite Hcnt).
  exists (set_dev d' w). split_and!; [done| | | |done].
  - rewrite read_fat_run by done. cbn [w_dev set_dev]. rewrite Hsame.
    change 268435455 with (Z.ones 28). by rewrite Z.land_ones by lia.
  - intros x Hx Hne. rewrite !read_fat_run by done. cbn [w_dev set_dev fst].
    by rewrite Hother.
  - intros x Hx. rewrite !read_cluster_run by (cbn [w_dev set_dev]; by rewrite ?Hcnt).
    cbn [w_dev set_dev fst]. f_equal. apply sectors_frame. intros y Hy. apply Hframe. right.
    pose proof (cluster_lba_range _ _ _ Hg Hx). lia.
Qed.

(** ** Chains *)

(** Freeing a chain clears exactly its clusters: for a chain that ends, inside
    the table and with fuel for its length, every cluster of the chain becomes
    free, every other entry and all cluster contents are unchanged. *)
Theorem free_chain_exact fuel v w c cs :
  geometry v (sector_count (w_dev w)) -> chain (fat_entry v (w_dev w)) c cs ->
  Forall (fun x => x < entries v) cs -> (length cs < fuel)%nat ->
  exists d', free_chain fuel v c w = (Ret tt, set_dev d' w) /\
    (forall x, 0 <= x < entries v ->
       fat_entry v d' x = if decide (x ∈ cs) then 0 else fat_entry v (w_dev w) x) /\
    (forall x, on_disk v (sector_count (w_dev w)) x -> cluster_data v d' x = cluster_data v (w_dev w) x).
Proof.
  intros Hg Hch Hr Hf. pose proof (chain_NoDup _ _ _ Hch) as Hnd.
  destruct (free_chain_run fuel v w c cs Hg Hch Hnd Hr Hf) as (d' & Hrun & Hchg).
  exists d'. split_and!; [done|apply Hchg|]. intros x Hx. by eapply cluster_data_table.
Qed.

(** C28: Freeing always ends, on corrupt tables too: on a volume that lies on its
    device and whose links stay inside the table ([closed]), whatever the
    chain, cyclic, shared or not, as many turns as the table has entries are
    enough, the first cluster ends up free and no entry gets any value but its
    old one or 0. *)
Theorem free_chain_terminates fuel v w c :
  geometry v (sector_count (w_dev w)) -> closed v (fat_entry v (w_dev w)) ->
  (is_cluster c = true -> c < entries v) -> entries v <= Z.of_nat fuel ->
  exists d', free_chain fuel v c w = (Ret tt, set_dev d' w) /\
    (is_cluster c = true -> fat_entry v d' c = 0) /\
    (forall x, 0 <= x < entries v ->
       fat_entry v d' x = fat_entry v (w_dev w) x \/ fat_entry v d' x = 0).
Proof.
  intros Hg Hcl Hc Hf. pose proof (used_count_bound v (fat_entry v (w_dev w))).
  pose proof (entries_bounds _ _ Hg).
  destruct (free_chain_ends fuel v w c Hg Hcl Hc ltac:(lia)) as (d' & Hrun & _ & He & H0' & _).
  by exists d'.
Qed.

(** ** Allocation *)

(** The search for a free cluster returns the lowest free cluster of the
    table and touches nothing; it fails with [MkfsAborted] exactly when there
    is none. *)
Theorem find_free_least v w :
  geometry v (sector_count (w_dev w)) ->
  match fst (find_free_cluster v w) with
  | Ret c => 2 <= c < entries v /\ fat_entry v (w_dev w) c = 0 /\
             forall y, 2 <= y < c -> fat_entry v (w_dev w) y <> 0
  | Err e => e = MkfsAborted /\ forall y, 2 <= y < entries v -> fat_entry v (w_dev w) y <> 0
  | _ => False
  end /\ snd (find_free_cluster v w) = w.
Proof.
  intros Hg. destruct (find_free_run v w Hg) as [(c & -> & Hc & Hz & Hmin)|[-> Hall]]; by split.
Qed.

(** [f_getfree] counts: its result is the number of free entries and the
    number of clusters of the table. *)
Theorem f_getfree_correct v w :
  geometry v (sector_count (w_dev w)) -> w_vol w = Some v ->
  f_getfree w = (Ret (Z.of_nat (free_count v (fat_entry v (w_dev w))), entries v - 2), w).
Proof.
  intros Hg Hv. unfold f_getfree, with_vol. rewrite Hv. run_with (count_free_run v w Hg).
  rewrite (max_cluster_entries _ _ Hg). pose proof (entries_bounds _ _ Hg).
  unfold END_OF_CHAIN in *. rewrite u32_small by lia. done.
Qed.

(** ** Directories *)

(** C19: The search of a directory is a linear search of its entries in chain
    order: hidden and deleted entries are skipped, the end marker stops it, and
    the first entry whose name begins with the target (up to case) is returned
    with its cluster and index, whatever follows in the name. *)
Theorem find_entry_correct fuel v w c cs target :
  geometry v (sector_count (w_dev w)) -> chain (fat_entry v (w_dev w)) c cs ->
  Forall (on_disk v (sector_count (w_dev w))) cs -> (length cs < fuel)%nat ->
  Forall (fun b => b <> 0) target ->
  find_entry_in_dir fuel v c target w = (Ret (lookup_entry target (dir_entries v (w_dev w) cs)), w).
Proof. apply find_in_chain_run. Qed.

(** A short name survives the directory: the name field that [f_open] and
    [f_rename] write for an 8.3 name reads back as that name. *)
Theorem name_roundtrip name rest :
  short_name name ->
  read_dir_entry_name (encode_name name ++ rest) = Some (name ++ replicate (13 - length name) 0).
Proof.
  intros Hn. rewrite read_name_entry, short_name_roundtrip by done.
  rewrite decide_False; [done|]. destruct Hn as [base Hb _|base ext Hb _ _ _]; intros Hnil;
    apply (f_equal length) in Hnil; autorewrite with len in Hnil; cbn in Hnil; lia.
Qed.

Lemma f_unlink_run fuel v w rc name c k cs :
  geometry v (sector_count (w_dev w)) -> w_vol w = Some v ->
  chain (fat_entry v (w_dev w)) (root_cluster v) rc ->
  Forall (on_disk v (sector_count (w_dev w))) rc -> (length rc < fuel)%nat ->
  name <> [] -> Forall (fun b => b <> 0 /\ b <> SLASH) name ->
  lookup_entry name (dir_entries v (w_dev w) rc) = Some (c, k) ->
  chain (fat_entry v (w_dev w)) (entry_start (entry_at (cluster_data v (w_dev w) c) k)) cs ->
  Forall (fun x => x < entries v) cs -> (length cs < fuel)%nat ->
  exists d', f_unlink fuel (SLASH :: name) w = (Ret tt, set_dev d' w) /\
    sector_count d' = sector_count (w_dev w) /\
    cluster_data v d' c = <[(32 * k)%nat := 229]> (cluster_data v (w_dev w) c) /\
    (forall x, on_disk v (sector_count (w_dev w)) x -> x <> c ->
       cluster_data v d' x = cluster_data v (w_dev w) x) /\
    (forall x, 0 <= x < entries v ->
       fat_entry v d' x = if decide (x ∈ cs) then 0 else fat_entry v (w_dev w) x).
Proof.
  intros Hg Hv Hrc Hdisk Hf1 Hne Hn Hlk Hch Hr Hf2. pose proof (chain_NoDup _ _ _ Hch) as Hnd.
  destruct (lookup_entry_in v (w_dev w) rc name c k Hlk) as [Hcin _].
  pose proof (proj1 (Forall_forall _ _) Hdisk c Hcin) as Hc.
  destruct (cluster_data_length v (w_dev w) c Hg Hc) as [Hlen Hby].
  destruct (write_cluster_run v w c (<[(32 * k)%nat := 229]> (cluster_data v (w_dev w) c)))
    as (d1 & Hw & Hset); [done|done|by rewrite length_insert|apply Forall_insert; [done|by cbv]|].
  pose proof Hset as [Hcnt Hsame Hother Htab _].
  assert (geometry v (sector_count (w_dev (set_dev d1 w)))) as Hg1 by (cbn; by rewrite Hcnt).
  destruct (free_chain_run fuel v (set_dev d1 w)
              (entry_start (entry_at (cluster_data v (w_dev w) c) k)) cs) as (d2 & Hfree & Hchg);
    try done.
  { eapply chain_ext; [|exact Hch]. intros x Hx. cbn [w_dev set_dev]. symmetry.
    rewrite Forall_forall in Hr. specialize (Hr x Hx).
    pose proof (chain_clusters _ _ _ Hch) as Hcl. rewrite Forall_forall in Hcl.
    specialize (Hcl x Hx). apply is_cluster_iff in Hcl. apply Htab. lia. }
  exists d2. cbn [w_dev set_dev] in *. split_and!.
  - unfold f_unlink, with_vol. rewrite Hv.
    run_with (resolve_root fuel v name w Hne ltac:(eapply Forall_impl; [exact Hn|]; by intros ? [])).
    rewrite decide_False by done. unfold find_entry_in_dir.
    run_with (find_in_chain_run fuel v w _ rc name Hg Hrc Hdisk Hf1
                ltac:(eapply Forall_impl; [exact Hn|]; by intros ? [])).
    rewrite Hlk. run_with (read_cluster_run v w c Hg Hc). run_with Hw. by rewrite Hfree.
  - by rewrite (fc_count _ _ _ _ Hchg).
  - rewrite <- Hsame. eapply cluster_data_table; [exact Hg1|by rewrite Hcnt|exact Hchg].
  - intros x Hx Hxc. rewrite <- (Hother x Hx Hxc).
    eapply cluster_data_table; [exact Hg1|by rewrite Hcnt|exact Hchg].
  - intros x Hx. rewrite (fc_entry _ _ _ _ Hchg) by done. case_decide; [done|by apply Htab].
Qed.

(** [f_unlink] on a file of the root directory deletes that file and
    nothing else: its entry is marked deleted, exactly its chain becomes free,
    and every other byte of every cluster stays. *)
Theorem f_unlink_correct fuel v w rc name c k cs :
  geometry v (sector_count (w_dev w)) -> w_vol w = Some v ->
  chain (fat_entry v (w_dev w)) (root_cluster v) rc ->
  Forall (on_disk v (sector_count (w_dev w))) rc -> (length rc < fuel)%nat ->
  name <> [] -> Forall (fun b => b <> 0 /\ b <> SLASH) name ->
  lookup_entry name (dir_entries v (w_dev w) rc) = Some (c, k) ->
  chain (fat_entry v (w_dev w)) (entry_start (entry_at (cluster_data v (w_dev w) c) k)) cs ->
  Forall (fun x => x < entries v) cs -> (length cs < fuel)%nat ->
  exists d', f_unlink fuel (SLASH :: name) w = (Ret tt, set_dev d' w) /\
    cluster_data v d' c = <[(32 * k)%nat := 229]> (cluster_data v (w_dev w) c) /\
    (forall x, on_disk v (sector_count (w_dev w)) x -> x <> c ->
       cluster_data v d' x = cluster_data v (w_dev w) x) /\
    (forall x, 0 <= x < entries v ->
       fat_entry v d' x = if decide (x ∈ cs) then 0 else fat_entry v (w_dev w) x).
Proof.
  intros Hg Hv Hrc Hd Hf Hne Hn Hlk Hch Hr Hf2.
  destruct (f_unlink_run fuel v w rc name c k cs) as (d' & R & _ & Hrest); try done. by exists d'.
Qed.

End Theorems.

(** ** The theorems on the demonstration volume *)

Lemma fat_entry_roundtrip_witness : exists w',
  write_fat_entry demo_vol 6 7 demo_world = (Ret tt, w') /\ read_fat_entry demo_vol 6 w' = (Ret 7, w').
Proof.
  destruct (fat_entry_roundtrip demo_vol demo_world 6 7 demo_geometry) as (w' & H1 & H2 & _).
  - split; [discriminate|reflexivity].
  - exists w'. exact (conj H1 H2).
Defined.

Lemma demo_below c : c < 128 -> c < entries demo_vol.
Proof. exact (fun H => H). Qed.

Lemma free_chain_exact_witness : exists d',
  free_chain 4 demo_vol 3 demo_world = (Ret tt, set_dev d' demo_world) /\ fat_entry demo_vol d' 5 = 0 /\
  fat_entry demo_vol d' 2 = CHAIN_END.
Proof.
  destruct (free_chain_exact 4 demo_vol demo_world 3 [3; 5; 4] demo_geometry demo_chain)
    as (d' & H1 & H2 & _).
  - repeat (constructor; [apply demo_below; lia|]). constructor.
  - cbn. lia.
  - exists d'. split; [exact H1|]. split; [apply H2|rewrite H2]; try reflexivity;
      split; discriminate || reflexivity.
Defined.

(** Every entry of the demonstration table that is a cluster is inside it. *)
Lemma demo_closed : closed demo_vol (fat_entry demo_vol (w_dev demo_world)).
Proof.
  intros c Hc Hic. apply demo_below.
  assert (forallb (fun x => let e := fat_entry demo_vol (w_dev demo_world) x in
                            negb (is_cluster e) || (e <? 128)) (seqZ 0 128) = true) as Hall
    by (vm_compute; reflexivity).
  rewrite forallb_forall in Hall. specialize (Hall c).
  rewrite <- list_elem_of_In, elem_of_seqZ in Hall. specialize (Hall Hc). cbv zeta in Hall.
  rewrite Hic in Hall. cbn in Hall. by apply Z.ltb_lt.
Qed.

Lemma free_chain_terminates_witness : exists d',
  free_chain 128 demo_vol 3 demo_world = (Ret tt, set_dev d' demo_world) /\ fat_entry demo_vol d' 3 = 0.
Proof.
  destruct (free_chain_terminates 128 demo_vol demo_world 3 demo_geometry demo_closed)
    as (d' & H1 & H2 & _).
  - intros _. apply demo_below. reflexivity.
  - discriminate.
  - exists d'. split; [exact H1|]. apply H2. reflexivity.
Defined.

Lemma find_free_least_witness : snd (find_free_cluster demo_vol demo_world) = demo_world.
Proof. apply (find_free_least demo_vol demo_world demo_geometry). Defined.

Lemma f_getfree_correct_witness : f_getfree demo_world = (Ret (122, 126), demo_world).
Proof. exact (f_getfree_correct demo_vol demo_world demo_geometry eq_refl). Defined.

(** "kern", a prefix of "KERNEL.BIN", finds it. *)
Lemma find_entry_correct_witness :
  find_entry_in_dir 2 demo_vol 2 [107; 101; 114; 110] demo_world = (Ret (Some (2, O)), demo_world).
Proof.
  rewrite (find_entry_correct 2 demo_vol demo_world 2 [2] [107; 101; 114; 110] demo_geometry
             demo_root_chain).
  - vm_compute. reflexivity.
  - constructor; [apply demo_on_disk; lia|constructor].
  - cbn. lia.
  - repeat constructor; discriminate.
Defined.

Lemma name_roundtrip_witness :
  read_dir_entry_name (encode_name demo_name ++ []) = Some (demo_name ++ [0; 0; 0]).
Proof.
  apply (name_roundtrip demo_name []).
  apply (short_ext [75; 69; 82; 78; 69; 76] [66; 73; 78]); try (cbn; lia);
    repeat (constructor; [split; [|split]; discriminate|]); constructor.
Defined.

Lemma f_unlink_correct_witness : exists d',
  f_unlink 4 (SLASH :: demo_name) demo_world = (Ret tt, set_dev d' demo_world) /\
  byte_at (cluster_data demo_vol d' 2) 0 = 229 /\ fat_entry demo_vol d' 4 = 0.
Proof.
  destruct (f_unlink_correct 4 demo_vol demo_world [2] demo_name 2 0 [3; 5; 4] demo_geometry eq_refl
              demo_root_chain) as (d' & H1 & H2 & _ & H4).
  - constructor; [apply demo_on_disk; lia|constructor].
  - cbn. lia.
  - discriminate.
  - repeat (constructor; [split; discriminate|]). constructor.
  - vm_compute. reflexivity.
  - replace (entry_start _) with 3 by (vm_compute; reflexivity). exact demo_chain.
  - repeat (constructor; [apply demo_below; lia|]). constructor.
  - cbn. lia.
  - exists d'. split; [exact H1|]. rewrite H2. split; [vm_compute; reflexivity|].
    rewrite H4 by (split; [discriminate|reflexivity]). reflexivity.
Defined.
