(* ===== verification/FatFileTheorems.v ===== *)
(** What the FAT32 driver promises about open files: reading, writing and
    seeking, on any reliable device. *)

From stdpp Require Import base numbers list gmap.
From Stdlib Require Import ZArith Lia.
From S2P Require Import Prelude Block Fat32 Fat32Dir Fat32File.
From S2P Require Import FatSpec FatChain FatCluster FatDirSpec FatFileSpec FatWrite FatDemo.

Section Theorems.
Context {D : Type} `{ReliableDevice D}.
Implicit Types (d : D) (v : FatVolume) (w : World D).

(** C7: [f_read] returns the bytes of the file at its position, as many as
    were asked for and as the file has, and moves the cursor past them: read
    through any mixture of sector and cluster boundaries, the result is a slice
    of the concatenated clusters. The device is not written. *)
Theorem f_read_correct v w f cs n :
  geometry v (sector_count (w_dev w)) -> w_vol w = Some v -> file_ok v (w_dev w) cs f ->
  lacks f FA_READ = false -> 0 <= n ->
  let k := Z.min n (f_size f - f_position f) in
  exists c s b,
    let f' := set_cursor (f_position f + k) c s b f in
    f_read n (w, f) =
      (Ret (take (Z.to_nat k) (drop (Z.to_nat (f_position f)) (file_bytes v (w_dev w) cs))), (w, f')) /\
    file_ok v (w_dev w) cs f'.
Proof. apply f_read_run. Qed.

(** Seeking inside the allocated clusters puts the cursor exactly at the
    offset: after it the file is consistent at that position. *)
Theorem f_lseek_inside v w f cs offset :
  geometry v (sector_count (w_dev w)) -> w_vol w = Some v -> file_ok v (w_dev w) cs f ->
  0 <= offset <= f_size f -> offset < Z.of_nat (length cs) * csize v ->
  exists c s b, let f' := set_cursor offset c s b f in
    f_lseek offset (w, f) = (Ret tt, (w, f')) /\ file_ok v (w_dev w) cs f'.
Proof. apply f_lseek_inside_run. Qed.

(** Seeking to the end of a file that fills its clusters does not: the
    position becomes the number of clusters, not the offset, and the file is
    left without a current cluster. *)
Theorem f_lseek_end_misplaced v w f cs :
  geometry v (sector_count (w_dev w)) -> w_vol w = Some v -> file_ok v (w_dev w) cs f ->
  cs <> [] -> f_size f = Z.of_nat (length cs) * csize v -> f_position f <> f_size f ->
  f_lseek (f_size f) (w, f) = (Ret tt, (w, set_cursor (Z.of_nat (length cs)) 0 0 0 f)) /\
  Z.of_nat (length cs) < f_size f.
Proof.
  intros Hg Hv Hok Hne Hsize Hpos. destruct (csize_nat _ _ Hg) as [_ Hcs].
  destruct cs as [|c0 cs']; [done|]. set (cs := c0 :: cs') in *.
  assert (0 < Z.of_nat (length cs)) by (unfold cs; cbn; lia).
  split; [|nia].
  rewrite (f_lseek_run v w f cs (f_size f) c0) by (done || lia || (left; lia)).
  rewrite Hsize, Z.div_mul by lia. rewrite Nat2Z.id, lookup_ge_None_2 by lia. done.
Qed.

(** ** Opening *)

(** The contents of an entry's fields. *)
Lemma entry_size_range v d c k :
  geometry v (sector_count d) -> on_disk v (sector_count d) c ->
  0 <= entry_size (entry_at (cluster_data v d c) k) < 2 ^ 32.
Proof.
  intros Hg Hc. destruct (cluster_data_length v d c Hg Hc) as [_ Hby].
  unfold entry_size, le32_at. set (l := take 4 (drop 28 (entry_at (cluster_data v d c) k))).
  assert (bytes l) as Hl by (apply Forall_take, Forall_drop, Forall_take, Forall_drop, Hby).
  apply le_val_range in Hl.
  assert (256 ^ Z.of_nat (length l) <= 256 ^ 4); [|lia].
  apply Z.pow_le_mono_r; [lia|]. unfold l. rewrite length_take. lia.
Qed.

Lemma read_entry_run v w c k :
  geometry v (sector_count (w_dev w)) -> on_disk v (sector_count (w_dev w)) c ->
  (k < entries_per_cluster v)%nat ->
  read_entry_data v c k w = (Ret (entry_at (cluster_data v (w_dev w) c) k), w).
Proof.
  intros Hg Hc Hk. unfold read_entry_data. run_with (read_cluster_run v w c Hg Hc).
  destruct (cluster_data_length v (w_dev w) c Hg Hc) as [Hl _].
  unfold slice. rewrite decide_True; [done|]. rewrite Hl. unfold entries_per_cluster in Hk.
  pose proof (Nat.Div0.mul_div_le (cluster_size v) 32). lia.
Qed.

Lemma f_open_run fuel v w rc name flags :
  geometry v (sector_count (w_dev w)) -> w_vol w = Some v ->
  chain (fat_entry v (w_dev w)) (root_cluster v) rc ->
  Forall (on_disk v (sector_count (w_dev w))) rc -> (length rc < fuel)%nat ->
  name <> [] -> Forall (fun b => b <> 0 /\ b <> SLASH) name ->
  Z.land flags (Z.lor (Z.lor FA_CREATE_NEW FA_CREATE_ALWAYS) FA_OPEN_ALWAYS) = 0 ->
  match lookup_entry name (dir_entries v (w_dev w) rc) with
  | None => f_open fuel (SLASH :: name) flags w = (Err NoFile, w)
  | Some (c, k) =>
      let e := entry_at (cluster_data v (w_dev w) c) k in
      exists f, f_open fuel (SLASH :: name) flags w = (Ret f, w) /\
        f_position f = 0 /\ f_size f = entry_size e /\ f_flags f = flags /\
        (f_dir_sector f, f_dir_offset f) = (c, Z.of_nat k) /\
        forall cs, chain (fat_entry v (w_dev w)) (entry_start e) cs ->
          terminated (fat_entry v (w_dev w)) cs -> Forall (on_disk v (sector_count (w_dev w))) cs ->
          cs <> [] -> entry_size e <= Z.of_nat (length cs) * csize v -> file_ok v (w_dev w) cs f
  end.
Proof.
  intros Hg Hv Hrc Hdisk Hf Hne Hn Hfl.
  assert (Forall (fun b => b <> SLASH) name /\ Forall (fun b => b <> 0) name) as [Hsl H0n]
    by (split; (eapply Forall_impl; [exact Hn|]); by intros ? []).
  assert (Z.land flags FA_CREATE_NEW = 0 /\ Z.land flags FA_CREATE_ALWAYS = 0) as [Hcn Hca].
  { rewrite !Z.land_lor_distr_r in Hfl. by apply Z.lor_eq_0_iff in Hfl as [[? ?]%Z.lor_eq_0_iff _]. }
  pose proof (find_in_chain_run fuel v w _ rc name Hg Hrc Hdisk Hf H0n) as Hfind.
  destruct (lookup_entry name (dir_entries v (w_dev w) rc)) as [[c k]|] eqn:Hlk; cbv zeta.
  - destruct (lookup_entry_in v (w_dev w) rc name c k Hlk) as [Hcin Hk].
    pose proof (proj1 (Forall_forall _ _) Hdisk c Hcin) as Hc.
    set (e := entry_at (cluster_data v (w_dev w) c) k).
    exists (file_of_entry (entry_start e) (entry_size e) (entry_start e) flags c k).
    split_and!; try done.
    + unfold f_open, with_vol, find_entry_in_dir. rewrite Hv.
      run_with (resolve_root fuel v name w Hne Hsl). run_with Hfind. rewrite Hcn.
      cbn [Z.eqb negb]. run_with (read_entry_run v w c k Hg Hc Hk). by rewrite Hca.
    + intros cs Hch Ht Hd Hcs Hsz. destruct (csize_nat _ _ Hg) as [_ Hcsz].
      pose proof (entry_size_range v (w_dev w) c k Hg Hc) as Hes. fold e in Hes.
      destruct cs as [|x cs]; [done|]. pose proof Hch as Hch'. cbn in Hch'. destruct Hch' as (Hx & _ & _).
      split; try done; cbn [file_of_entry f_size f_position]; try lia.
      split; [done|]. destruct (Z.ltb_spec 0 (Z.of_nat (length (x :: cs)) * csize v)); [|cbn in *; lia].
      rewrite Z.div_0_l, Z.mod_0_l by lia. by rewrite Hx.
  - unfold f_open, with_vol, find_entry_in_dir. rewrite Hv.
    run_with (resolve_root fuel v name w Hne Hsl). run_with Hfind. by rewrite Hfl.
Qed.

(** C22: [f_open] of a file of the root directory gives a consistent file at
    its start: the entry's size, the entry's chain, and the cursor on byte 0,
    provided that the entry describes a chain long enough for its size. A name
    that is not in the directory is [NoFile] when no flag asks to create it. *)
Theorem f_open_correct fuel v w rc name flags :
  geometry v (sector_count (w_dev w)) -> w_vol w = Some v ->
  chain (fat_entry v (w_dev w)) (root_cluster v) rc ->
  Forall (on_disk v (sector_count (w_dev w))) rc -> (length rc < fuel)%nat ->
  name <> [] -> Forall (fun b => b <> 0 /\ b <> SLASH) name ->
  Z.land flags (Z.lor (Z.lor FA_CREATE_NEW FA_CREATE_ALWAYS) FA_OPEN_ALWAYS) = 0 ->
  match lookup_entry name (dir_entries v (w_dev w) rc) with
  | None => f_open fuel (SLASH :: name) flags w = (Err NoFile, w)
  | Some (c, k) =>
      let e := entry_at (cluster_data v (w_dev w) c) k in
      exists f, f_open fuel (SLASH :: name) flags w = (Ret f, w) /\
        f_position f = 0 /\ f_size f = entry_size e /\ f_flags f = flags /\
        (f_dir_sector f, f_dir_offset f) = (c, Z.of_nat k) /\
        forall cs, chain (fat_entry v (w_dev w)) (entry_start e) cs ->
          terminated (fat_entry v (w_dev w)) cs -> Forall (on_disk v (sector_count (w_dev w))) cs ->
          cs <> [] -> entry_size e <= Z.of_nat (length cs) * csize v -> file_ok v (w_dev w) cs f
  end.
Proof. apply f_open_run. Qed.

(** With [FA_CREATE_ALWAYS] [f_open] empties an existing file: it frees
    exactly the file's chain and gives a file of size 0 without a cluster. The
    directory is not written, and the file is not marked as modified, so that
    without a write [f_sync] leaves an entry with the old size that starts at a
    free cluster. *)
Theorem f_open_truncates fuel v w rc name flags c k cs :
  geometry v (sector_count (w_dev w)) -> w_vol w = Some v ->
  chain (fat_entry v (w_dev w)) (root_cluster v) rc ->
  Forall (on_disk v (sector_count (w_dev w))) rc -> (length rc < fuel)%nat ->
  name <> [] -> Forall (fun b => b <> 0 /\ b <> SLASH) name ->
  lookup_entry name (dir_entries v (w_dev w) rc) = Some (c, k) ->
  Z.land flags FA_CREATE_NEW = 0 -> Z.land flags FA_CREATE_ALWAYS <> 0 ->
  chain (fat_entry v (w_dev w)) (entry_start (entry_at (cluster_data v (w_dev w) c) k)) cs ->
  Forall (fun x => x < entries v) cs -> (length cs < fuel)%nat ->
  exists d' f, f_open fuel (SLASH :: name) flags w = (Ret f, set_dev d' w) /\
    f_size f = 0 /\ f_position f = 0 /\ f_current_cluster f = 0 /\
    f_sync (set_dev d' w, f) = (Ret tt, (set_dev d' w, f)) /\
    (forall x, 0 <= x < entries v ->
       fat_entry v d' x = if decide (x ∈ cs) then 0 else fat_entry v (w_dev w) x) /\
    (forall x, on_disk v (sector_count (w_dev w)) x -> cluster_data v d' x = cluster_data v (w_dev w) x).
Proof.
  intros Hg Hv Hrc Hdisk Hf Hne Hn Hlk Hcn Hca Hch Hr Hf2.
  assert (Forall (fun b => b <> SLASH) name /\ Forall (fun b => b <> 0) name) as [Hsl H0n]
    by (split; (eapply Forall_impl; [exact Hn|]); by intros ? []).
  pose proof (find_in_chain_run fuel v w _ rc name Hg Hrc Hdisk Hf H0n) as Hfind. rewrite Hlk in Hfind.
  destruct (lookup_entry_in v (w_dev w) rc name c k Hlk) as [Hcin Hk].
  pose proof (proj1 (Forall_forall _ _) Hdisk c Hcin) as Hc.
  destruct (free_chain_run fuel v w _ cs Hg Hch (chain_NoDup _ _ _ Hch) Hr Hf2) as (d' & Hfree & Hchg).
  set (e := entry_at (cluster_data v (w_dev w) c) k) in *.
  exists d', (file_of_entry (entry_start e) 0 0 flags c k). split_and!; try done.
  - unfold f_open, with_vol, find_entry_in_dir. rewrite Hv.
    run_with (resolve_root fuel v name w Hne Hsl). run_with Hfind. rewrite Hcn. cbn [Z.eqb negb].
    run_with (read_entry_run v w c k Hg Hc Hk). rewrite (proj2 (Z.eqb_neq _ _) Hca). cbn [negb].
    run_with Hfree. done.
  - apply Hchg.
  - intros x Hx. by eapply cluster_data_table.
Qed.

(** ** Writing *)

(** C6: [f_write] to a file open for writing, with the cursor inside the
    allocated chain or with no cluster allocated yet ([writable_at]: behind a
    full chain the code starts another chain and loses the first), up to a
    position below 2^32 and with enough free clusters for what the buffer
    needs: the whole buffer is written, the file then reads as its old bytes
    with the buffer in their place, extended where it reaches further, the
    cursor stands behind the buffer, clusters are taken only from the free
    ones, and no cluster and no table entry outside the file's chain changes. *)
Theorem f_write_correct v w f cs buf :
  geometry v (sector_count (w_dev w)) -> w_vol w = Some v -> file_ok v (w_dev w) cs f ->
  lacks f FA_WRITE = false -> writable_at v cs (f_position f) -> bytes buf ->
  f_position f + Z.of_nat (length buf) < 2 ^ 32 -> free_on_disk v (w_dev w) ->
  clusters_needed v (length cs) (f_position f) (Z.of_nat (length buf)) <=
    Z.of_nat (free_count v (fat_entry v (w_dev w))) ->
  let p := Z.to_nat (f_position f) in
  let old := contents v (w_dev w) cs f in
  exists d' cs' f',
    f_write buf (w, f) = (Ret (Z.of_nat (length buf)), (set_dev d' w, f')) /\
    file_ok v d' cs' f' /\ grown v (w_dev w) d' cs cs' /\
    f_position f' = f_position f + Z.of_nat (length buf) /\
    f_size f' = Z.max (f_size f) (f_position f') /\
    contents v d' cs' f' = take p old ++ buf ++ drop (p + length buf) old.
Proof.
  intros Hg Hv Hok Hfl Hwr Hby Hw Hf Hsp p old.
  destruct (f_write_run v w f cs buf) as (d' & cs' & f' & Hrun & Hok' & Hgr & Hpos & Hs & _ & _ & Hb);
    try done.
  exists d', cs', f'. split_and!; try done; [by rewrite Hpos|]. by apply (contents_written v (w_dev w)).
Qed.

(** C21: What is written can be read back: of a file open for reading and
    writing, with the cursor inside the allocated chain or no cluster
    allocated yet ([writable_at]), a position reached below 2^32 and enough
    free clusters, a buffer that is not empty is what seeking back to where
    its writing began and reading as many bytes gives. *)
Theorem write_read_roundtrip v w f cs buf :
  geometry v (sector_count (w_dev w)) -> w_vol w = Some v -> file_ok v (w_dev w) cs f ->
  lacks f FA_WRITE = false -> lacks f FA_READ = false -> writable_at v cs (f_position f) ->
  bytes buf -> buf <> [] -> f_position f + Z.of_nat (length buf) < 2 ^ 32 ->
  free_on_disk v (w_dev w) ->
  clusters_needed v (length cs) (f_position f) (Z.of_nat (length buf)) <=
    Z.of_nat (free_count v (fat_entry v (w_dev w))) ->
  exists d' f',
    (do! f_write buf in do! f_lseek (f_position f) in f_read (Z.of_nat (length buf))) (w, f) =
      (Ret buf, (set_dev d' w, f')).
Proof.
  intros Hg Hv Hok Hfw Hfr Hwr Hby Hne Hw Hf Hsp. pose proof (fo_pos _ _ _ _ Hok) as Hp.
  destruct (f_write_run v w f cs buf)
    as (d' & cs' & f1 & Hrun & Hok' & Hgr & Hpos & Hs & (_ & _ & Hfl & _) & Hin & Hb); try done. destruct (Hin Hne) as [Hin' _].
  run_with Hrun.
  assert (geometry v (sector_count d')) as Hg' by (by rewrite (gr_count _ _ _ _ _ Hgr)).
  destruct (f_lseek_inside_run v (set_dev d' w) f1 cs' (f_position f)) as (c & s & b & Hseek & Hok2);
    try done; try lia.
  run_with Hseek.
  destruct (f_read_run v (set_dev d' w) (set_cursor (f_position f) c s b f1) cs' (Z.of_nat (length buf)))
    as (c' & s' & b' & Hread & _); try done; try lia; [by unfold lacks in *; cbn; rewrite Hfl|].
  eexists d', _. rewrite Hread. cbn [set_cursor f_position f_size w_dev set_dev]. f_equal. f_equal.
  rewrite Z.min_l, Nat2Z.id, Hb by lia. apply slice_splice_same.
  pose proof (fo_disk _ _ _ _ Hok') as Hd'. rewrite (gr_count _ _ _ _ _ Hgr) in Hd'.
  destruct (file_bytes_length v (w_dev w) cs' Hg Hd') as [_ Hl]. lia.
Qed.
End Theorems.

(** ** The theorems on the demonstration volume *)

Lemma f_read_correct_witness : exists f',
  f_read 5000 (demo_world, demo_file 1) =
    (Ret (take 1300 (demo_sector 0 ++ demo_sector 1 ++ demo_sector 2)), (demo_world, f')).
Proof.
  destruct (f_read_correct demo_vol demo_world (demo_file 1) [3; 5; 4] 5000 demo_geometry eq_refl
              (demo_file_ok 1) eq_refl ltac:(lia)) as (c & s & b & H1 & _).
  eexists. etransitivity; [exact H1|]. vm_compute. reflexivity.
Defined.

Lemma f_lseek_inside_witness : exists f',
  f_lseek 1030 (demo_world, demo_file 1) = (Ret tt, (demo_world, f')) /\ f_position f' = 1030.
Proof.
  destruct (f_lseek_inside demo_vol demo_world (demo_file 1) [3; 5; 4] 1030 demo_geometry eq_refl
              (demo_file_ok 1)) as (c & s & b & H1 & _).
  - cbn. lia.
  - vm_compute. reflexivity.
  - eexists. split; [exact H1|reflexivity].
Defined.

(** The same file grown to the 1536 bytes of its three clusters. *)
Definition full_file : File := mkFile 1536 0 3 3 0 0 3 2 0 false FOk.

Lemma full_file_ok : file_ok demo_vol (w_dev demo_world) [3; 5; 4] full_file.
Proof.
  destruct (demo_file_ok 3) as [H1 H2 H3 _ _ _ H7]. split; try done; vm_compute; repeat split; discriminate.
Qed.

Lemma f_lseek_end_misplaced_witness :
  f_lseek 1536 (demo_world, full_file) = (Ret tt, (demo_world, set_cursor 3 0 0 0 full_file)).
Proof.
  apply (f_lseek_end_misplaced demo_vol demo_world full_file [3; 5; 4] demo_geometry eq_refl
           full_file_ok); discriminate || reflexivity.
Defined.

(** KERNEL.BIN with the cursor at its end. *)
Definition append_file : File := mkFile 1300 1300 3 4 0 276 3 2 0 false FOk.

Lemma append_file_ok : file_ok demo_vol (w_dev demo_world) [3; 5; 4] append_file.
Proof.
  destruct (demo_file_ok 3) as [H1 H2 H3 _ _ _ _]. split; try done; vm_compute; repeat split; discriminate.
Qed.

Lemma demo_free_on_disk : free_on_disk demo_vol (w_dev demo_world).
Proof. intros c Hc _. apply demo_on_disk. exact Hc. Qed.

Lemma demo_buffer (n : nat) : bytes (replicate n 65).
Proof. apply Forall_replicate. unfold is_byte. lia. Qed.

(** Three hundred bytes appended: the file needs a fourth cluster. *)
Lemma f_write_correct_witness : exists d' cs' f',
  f_write (replicate 300 65) (demo_world, append_file) = (Ret 300, (set_dev d' demo_world, f')) /\
  contents demo_vol d' cs' f' =
    take 1300 (demo_sector 0 ++ demo_sector 1 ++ demo_sector 2) ++ replicate 300 65.
Proof.
  destruct (f_write_correct demo_vol demo_world append_file [3; 5; 4] (replicate 300 65) demo_geometry
              eq_refl append_file_ok eq_refl) as (d' & cs' & f' & H1 & _ & _ & _ & _ & H2).
  - right. vm_compute. reflexivity.
  - apply demo_buffer.
  - vm_compute. reflexivity.
  - exact demo_free_on_disk.
  - vm_compute. discriminate.
  - exists d', cs', f'. split; [exact H1|]. rewrite H2. vm_compute. reflexivity.
Defined.

Lemma write_read_roundtrip_witness : exists d' f',
  (do! f_write (replicate 300 65) in do! f_lseek 1300 in f_read 300) (demo_world, append_file) =
    (Ret (replicate 300 65), (set_dev d' demo_world, f')).
Proof.
  apply (write_read_roundtrip demo_vol demo_world append_file [3; 5; 4] (replicate 300 65) demo_geometry
           eq_refl append_file_ok eq_refl eq_refl).
  - right. vm_compute. reflexivity.
  - apply demo_buffer.
  - discriminate.
  - vm_compute. reflexivity.
  - exact demo_free_on_disk.
  - vm_compute. discriminate.
Defined.

(** "/KERNEL.BIN" opens as [demo_file]. *)
Lemma f_open_correct_witness : exists f,
  f_open 4 (SLASH :: demo_name) 1 demo_world = (Ret f, demo_world) /\ f_size f = 1300 /\
  file_ok demo_vol (w_dev demo_world) [3; 5; 4] f.
Proof.
  pose proof (f_open_correct 4 demo_vol demo_world [2] demo_name 1 demo_geometry eq_refl
                demo_root_chain) as Hopen.
  assert (lookup_entry demo_name (dir_entries demo_vol (w_dev demo_world) [2]) = Some (2, O)) as Hlk
    by (vm_compute; reflexivity).
  rewrite Hlk in Hopen. destruct Hopen as (f & H1 & _ & H2 & _ & _ & H3).
  - constructor; [apply demo_on_disk; lia|constructor].
  - cbn. lia.
  - discriminate.
  - repeat (constructor; [split; discriminate|]). constructor.
  - reflexivity.
  - exists f. split; [exact H1|]. split; [rewrite H2; vm_compute; reflexivity|].
    destruct (demo_file_ok 1) as [Hch Ht Hd _ _ _ _]. by apply H3.
Defined.

(** Opening "/KERNEL.BIN" with [FA_WRITE | FA_CREATE_ALWAYS]. *)
Lemma f_open_truncates_witness : exists d' f,
  f_open 4 (SLASH :: demo_name) (Z.lor FA_WRITE FA_CREATE_ALWAYS) demo_world =
    (Ret f, set_dev d' demo_world) /\
  f_sync (set_dev d' demo_world, f) = (Ret tt, (set_dev d' demo_world, f)) /\
  fat_entry demo_vol d' 3 = 0 /\ entry_size (entry_at (cluster_data demo_vol d' 2) 0) = 1300.
Proof.
  destruct (f_open_truncates 4 demo_vol demo_world [2] demo_name (Z.lor FA_WRITE FA_CREATE_ALWAYS)
              2 0 [3; 5; 4] demo_geometry eq_refl demo_root_chain)
    as (d' & f & H1 & _ & _ & _ & H2 & H3 & H4).
  - constructor; [apply demo_on_disk; lia|constructor].
  - cbn. lia.
  - discriminate.
  - repeat (constructor; [split; discriminate|]). constructor.
  - vm_compute. reflexivity.
  - reflexivity.
  - discriminate.
  - replace (entry_start _) with 3 by (vm_compute; reflexivity). exact demo_chain.
  - repeat (constructor; [reflexivity|]). constructor.
  - cbn. lia.
  - exists d', f. split; [exact H1|]. split; [exact H2|]. split.
    + rewrite H3 by (split; [discriminate|reflexivity]). reflexivity.
    + rewrite H4 by (apply demo_on_disk; lia). vm_compute. reflexivity.
Defined.
