(* ===== verification/FatListSpec.v ===== *)
(** Listing directories: patterns against glob matching, and the names that
    reading a directory to its end gives. *)

From stdpp Require Import base numbers list gmap.
From Stdlib Require Import ZArith Lia.
From S2P Require Import Prelude Block Fat32 Fat32Dir Fat32List.
From S2P Require Import FatSpec FatChain FatCluster FatDirSpec FatFileSpec FatDemo.

(** ** Glob matching

    A star matches any run of characters, a question mark one character, any
    other character itself. *)
Inductive glob : list Z -> list Z -> Prop :=
| glob_nil : glob [] []
| glob_star pat skipped name : glob pat name -> glob (STAR :: pat) (skipped ++ name)
| glob_one pat c name : glob pat name -> glob (QUESTION :: pat) (c :: name)
| glob_char c pat name : c <> STAR -> c <> QUESTION -> glob pat name -> glob (c :: pat) (c :: name).

(** A name as the directory gives it: visible characters, NUL-padded to 13. *)
Definition visible (b : Z) : Prop := b <> 0 /\ b <> SPACE.

Definition padded (name : list Z) : list Z := name ++ replicate (13 - length name) 0.

(** ** Lemmas *)

Lemma padded_at name n :
  (length name <= 12)%nat -> (n <= length name)%nat ->
  padded name !! n = Some (default 0 (head (drop n name))).
Proof.
  intros Hl Hn. unfold padded. destruct (decide (n < length name)%nat) as [Hlt|Hge].
  - rewrite lookup_app_l by done. destruct (lookup_lt_is_Some_2 name n Hlt) as [x Hx].
    rewrite Hx, (drop_S _ _ _ Hx). done.
  - rewrite lookup_app_r by lia. assert (n = length name) as -> by lia.
    rewrite Nat.sub_diag, drop_all. cbn. destruct (13 - length name)%nat eqn:He; [lia|done].
Qed.

Lemma glob_star_inv pat name :
  glob (STAR :: pat) name -> exists k, (k <= length name)%nat /\ glob pat (drop k name).
Proof.
  inversion 1; subst; [|done]. exists (length skipped). rewrite length_app, drop_app_length.
  split; [lia|done].
Qed.

(** The star's loop tries every position up to the end of the name. *)
Lemma star_loop name pat k n (m : nat -> option bool) :
  (length name <= 11)%nat -> Forall visible name -> (k + n = 11)%nat -> (n <= length name)%nat ->
  (forall i, (n <= i <= length name)%nat -> exists b : bool, m i = Some b /\ (b = true <-> glob pat (drop i name))) ->
  exists b : bool,
    (fix star (k n : nat) : option bool :=
       match k with
       | O => m n
       | S k =>
           if byte_at (padded name) n =? 0 then m n
           else match m n with Some false => star k (S n) | r => r end
       end) k n = Some b /\
    (b = true <-> glob (STAR :: pat) (drop n name)).
Proof.
  intros Hl Hv. revert n. induction k as [|k IH]; intros n Hk Hn Hm.
  - destruct (Hm n ltac:(lia)) as (b & Hb & Hiff). exists b. split; [done|].
    assert (n = length name) as -> by lia. rewrite drop_all in *. rewrite Hiff. split.
    + intros Hg. by apply (glob_star pat [] []).
    + intros Hg. destruct (glob_star_inv _ _ Hg) as (j & Hj & Hg'). cbn in Hj.
      by replace j with O in Hg' by lia.
  - assert (byte_at (padded name) n = default 0 (head (drop n name))) as ->
      by (unfold byte_at; by rewrite padded_at by lia).
    destruct (drop n name) as [|x rest] eqn:Hd; cbn [head default].
    { cbn. destruct (Hm n ltac:(lia)) as (b & Hb & Hiff). exists b. split; [done|].
      rewrite Hd in Hiff. rewrite Hiff. split; [apply (glob_star pat [] [])|].
      intros Hg. destruct (glob_star_inv _ _ Hg) as (j & Hj & Hg'). cbn in Hj.
      by replace j with O in Hg' by lia. }
    assert (name !! n = Some x) as Hx by (by rewrite <- (Nat.add_0_r n), <- lookup_drop, Hd).
    assert (visible x) as [Hx0 _] by (by eapply Forall_lookup_1 in Hv). unfold id.
    destruct (Z.eqb_spec x 0); [done|].
    assert (drop (S n) name = rest) as Hd'
      by (rewrite (drop_S _ _ _ Hx) in Hd; congruence).
    pose proof (lookup_lt_Some _ _ _ Hx).
    destruct (Hm n ltac:(lia)) as (b & Hb & Hiff). rewrite Hb, Hd in *.
    destruct b.
    + exists true. split; [done|]. split; [|done]. intros _.
      apply (glob_star pat [] (x :: rest)). by apply Hiff.
    + destruct (IH (S n)) as (b & Hrun & Hb'); [lia|lia|intros i Hi; apply Hm; lia|].
      rewrite Hd' in Hb'. exists b. split; [exact Hrun|]. rewrite Hb'. split; intros Hg.
      * destruct (glob_star_inv _ _ Hg) as (j & Hj & Hg').
        rewrite <- (take_drop j rest), app_comm_cons. by constructor.
      * destruct (glob_star_inv _ _ Hg) as (j & Hj & Hg'). destruct j as [|j]; cbn in Hg', Hj.
        { apply Hiff in Hg'. done. }
        rewrite <- (take_drop j rest). by constructor.
Qed.

Lemma match_inner_glob name pat n :
  (length name <= 11)%nat -> Forall visible name -> (n <= length name)%nat -> Forall (fun c => c <> 0) pat ->
  exists b : bool, match_pattern_inner (padded name) n pat = Some b /\
    (b = true <-> glob pat (drop n name)).
Proof.
  intros Hl Hv Hn Hp. revert n Hn. induction Hp as [|c pat Hc Hp IH]; intros n Hn; cbn [match_pattern_inner].
  { unfold name_ends. rewrite padded_at by lia. eexists. split; [done|].
    destruct (drop n name) as [|x rest] eqn:Hd; [split; [constructor|done]|].
    assert (name !! n = Some x) as Hx by (by rewrite <- (Nat.add_0_r n), <- lookup_drop, Hd).
    assert (visible x) as [? ?] by (by eapply Forall_lookup_1 in Hv). cbn. unfold id.
    destruct (Z.eqb_spec x 0); [done|]. destruct (Z.eqb_spec x SPACE); [done|].
    split; [done|]. by inversion 1. }
  destruct (Z.eqb_spec c STAR) as [->|Hns].
  { destruct (star_loop name pat (11 - n) n (fun i => match_pattern_inner (padded name) i pat))
      as (b & Hrun & Hb); try done; try lia.
    { intros i Hi. apply IH. lia. }
    exists b. split; [exact Hrun|exact Hb]. }
  destruct (drop n name) as [|x rest] eqn:Hd.
  { assert (n = length name) as Hnl.
    { apply (f_equal length) in Hd. rewrite length_drop in Hd. cbn in Hd. lia. }
    destruct (Z.eqb_spec c QUESTION) as [->|Hnq].
    - unfold name_ends. rewrite padded_at, Hd by lia. cbn. exists false. split; [done|].
      split; [done|]. by inversion 1.
    - rewrite padded_at, Hd by lia. cbn [head default]. destruct (Z.eqb_spec 0 c); [done|].
      exists false. split; [done|]. split; [done|]. inversion 1; subst; done. }
  assert (name !! n = Some x) as Hx by (by rewrite <- (Nat.add_0_r n), <- lookup_drop, Hd).
  assert (visible x) as [Hx0 Hxs] by (by eapply Forall_lookup_1 in Hv).
  assert (drop (S n) name = rest) as Hd' by (rewrite (drop_S _ _ _ Hx) in Hd; congruence).
  pose proof (lookup_lt_Some _ _ _ Hx). destruct (IH (S n)) as (b & Hrun & Hb); [lia|].
  rewrite Hd' in Hb.
  destruct (Z.eqb_spec c QUESTION) as [->|Hnq].
  - unfold name_ends. rewrite padded_at, Hd by lia. cbn [option_map head default]. unfold id.
    destruct (Z.eqb_spec x 0); [done|]. destruct (Z.eqb_spec x SPACE); [done|]. cbn [orb].
    exists b. split; [done|]. rewrite Hb. split; [by constructor|]. inversion 1; subst; done.
  - rewrite padded_at, Hd by lia. cbn [head default]. unfold id.
    destruct (Z.eqb_spec x c) as [->|Hne].
    + exists b. split; [done|]. rewrite Hb. split; [by constructor|]. inversion 1; subst; done.
    + exists false. split; [done|]. split; [done|]. inversion 1; subst; done.
Qed.

(** ** Reading a directory to its end *)

(** The names that reading gives, in the order of the entries: up to the end
    marker, without deleted and hidden entries and those without a name. *)
Fixpoint next_listed (es : list located) : option (list Z * list located) :=
  match es with
  | [] => None
  | (_, _, e) :: es =>
      if byte_at e 0 =? 0 then None
      else if (byte_at e 0 =? 229) || is_hidden (entry_attr e) || bool_decide (entry_name e = []) then next_listed es
      else Some (entry_name e, es)
  end.

Fixpoint listed (es : list located) : list (list Z) :=
  match es with
  | [] => []
  | (_, _, e) :: es =>
      if byte_at e 0 =? 0 then []
      else if (byte_at e 0 =? 229) || is_hidden (entry_attr e) || bool_decide (entry_name e = []) then listed es
      else entry_name e :: listed es
  end.

Lemma listed_next es :
  listed es = match next_listed es with Some (name, es') => name :: listed es' | None => [] end.
Proof. induction es as [|[[c k] e] es IH]; [done|]. cbn [listed next_listed]. by repeat case_match. Qed.

Lemma next_listed_shorter es name es' : next_listed es = Some (name, es') -> (length es' < length es)%nat.
Proof.
  induction es as [|[[c k] e] es IH]; [done|]. cbn [next_listed length]. case_match; [done|].
  case_match; [intros ?%IH; lia|]. intros [= _ ->]. lia.
Qed.

Lemma listed_length es : (length (listed es) <= length es)%nat.
Proof. induction es as [|[[c k] e] es IH]; [done|]. cbn [listed length]. repeat case_match; cbn [length]; lia. Qed.

Section Readdir.
Context {D : Type} `{ReliableDevice D} (v : FatVolume) (w : World D) (Hg : geometry v (sector_count (w_dev w))).

Abbreviation table := (fat_entry v (w_dev w)).

(** The directory handle stands before the entries [es]. *)
Definition before_entries (d : Dir) (es : list located) : Prop :=
  d_ended d = false /\ d_pat_len d = O
  /\ exists c cs i, d_current_cluster d = c /\ d_entry_index d = Z.of_nat i /\ (i <= entries_per_cluster v)%nat
     /\ chain table c (c :: cs) /\ terminated table (c :: cs)
     /\ Forall (on_disk v (sector_count (w_dev w))) (c :: cs)
     /\ es = drop i (cluster_entries v (w_dev w) c) ++ dir_entries v (w_dev w) cs.

Lemma entries_per_cluster_range : (16 <= entries_per_cluster v <= 2048)%nat.
Proof.
  destruct Hg. unfold entries_per_cluster, cluster_size, SECTOR_SIZE. split.
  - apply Nat.div_le_lower_bound; lia.
  - apply Nat.Div0.div_le_upper_bound. lia.
Qed.

(** The next cluster is entered when the index is past the current one. *)
Lemma next_dir_cluster_run d es :
  before_entries d es ->
  exists more d', next_dir_cluster v (w, d) = (Ret more, (w, d'))
    /\ if more : bool
       then before_entries d' es /\ (d_entry_index d' < Z.of_nat (entries_per_cluster v))
       else es = [].
Proof.
  intros (He & Hpl & c & cs & i & Hc & Hi & Hle & Hch & Ht & Hd & Hes). unfold next_dir_cluster, bind at 1, gets at 1.
  cbn [snd]. rewrite Hi. destruct (Z.ltb_spec (Z.of_nat i) (Z.of_nat (entries_per_cluster v))) as [Hlt|Hge].
  { exists true, d. split; [done|]. split; [|lia]. split; [done|]. split; [done|]. by exists c, cs, i. }
  pose proof entries_per_cluster_range as Hepc. assert (i = entries_per_cluster v) as -> by lia.
  rewrite drop_ge in Hes by (unfold cluster_entries; rewrite length_fmap, length_seq; lia). cbn [app] in Hes.
  unfold bind at 1, put_dir at 1, modify. cbn [fst snd d_current_cluster set_dir_at]. rewrite Hc.
  apply Forall_cons in Hd as [[Hcr Hcd] Hd]. cbn [chain] in Hch. destruct Hch as (_ & Hcl & Hch).
  unfold bind at 1, zoom at 1. cbn [fst snd].
  rewrite (read_fat_run v w c Hg) by lia.
  destruct cs as [|x cs].
  - pose proof (Ht c eq_refl) as Hend. destruct (Z.leb_spec END_OF_CHAIN (table c)); [|lia].
    by eexists false, _.
  - cbn [chain] in Hch. destruct Hch as (<- & Hx & Hch).
    destruct (Z.leb_spec END_OF_CHAIN x) as [Hend|_]; [unfold is_cluster in Hx; lia|].
    eexists true, _. split; [reflexivity|]. cbn [d_entry_index set_dir_at]. split; [|lia].
    split; [done|]. split; [done|]. exists x, cs, O. cbn [d_current_cluster d_entry_index set_dir_at].
    split_and!; [done|done|lia|by cbn [chain]| |done|by rewrite Hes, drop_0].
    intros y Hy. apply Ht. exact Hy.
Qed.

(** One call of [f_readdir]. *)
Lemma readdir_run n d es :
  before_entries d es -> (length es < n)%nat ->
  exists d', readdir_loop n v (w, d)
      = (Ret (option_map (fun '(name, _) => padded name) (next_listed es)), (w, d'))
    /\ match next_listed es with Some (_, es') => before_entries d' es' | None => True end.
Proof.
  revert d es. induction n as [|n IH]; intros d es Hb Hn; [lia|]. cbn [readdir_loop].
  pose proof Hb as (He & _). unfold bind at 1, gets at 1. cbn [snd]. rewrite He.
  destruct (next_dir_cluster_run d es Hb) as (more & d1 & R & Hd1). run_with R. clear R Hb He.
  destruct more; [|subst es; by exists d1]. cbn [negb].
  destruct Hd1 as ((He & Hpl & c & cs & i & Hc & Hi & Hle & Hch & Ht & Hd & Hes) & Hlt).
  assert (i < entries_per_cluster v)%nat as Hie by lia.
  pose proof entries_per_cluster_range as Hepc.
  assert (cluster_entries v (w_dev w) c !! i = Some (c, i, entry_at (cluster_data v (w_dev w) c) i)) as Hlk.
  { unfold cluster_entries. rewrite list_lookup_fmap, lookup_seq_lt by lia. done. }
  rewrite (drop_S (A:=located) _ _ _ Hlk) in Hes. cbn [app] in Hes. set (e := entry_at _ i) in *.
  unfold bind at 1, gets at 1. cbn [snd]. rewrite Hc.
  unfold bind at 1, zoom at 1. cbn [fst snd].
  rewrite (read_cluster_run v w c Hg) by (by apply Forall_cons in Hd as [? _]).
  unfold bind at 1, put_dir at 1, modify at 1. rewrite Hi, Nat2Z.id. fold e.
  set (d2 := set_dir_at c (d_sector_in_cluster d1) (u16 (Z.of_nat i + 1)) d1).
  set (es' := drop (S i) (cluster_entries v (w_dev w) c) ++ dir_entries v (w_dev w) cs) in *.
  assert (before_entries d2 es') as Hb2.
  { split; [done|]. split; [done|]. exists c, cs, (S i). cbn [d2 d_current_cluster d_entry_index set_dir_at].
    rewrite u16_small by lia. split_and!; [done|lia|lia|done|done|done|done]. }
  assert (length es' < n)%nat as Hn' by (rewrite Hes in Hn; cbn [length] in Hn; lia).
  rewrite Hes. cbn [next_listed]. destruct (byte_at e 0 =? 0).
  { eexists. split; [reflexivity|done]. }
  destruct ((byte_at e 0 =? 229) || is_hidden (entry_attr e)); cbn [orb]; [by apply IH|].
  rewrite read_name_entry. case_decide as Hname.
  - rewrite (bool_decide_eq_true_2 _ Hname). by apply IH.
  - rewrite (bool_decide_eq_false_2 _ Hname). exists d2. split; [|done].
    unfold match_pattern.
    change (d_pat_len d2) with (d_pat_len d1). rewrite Hpl. reflexivity.
Qed.
End Readdir.

(** ** Properties *)

(** Pattern matching is glob matching, and never runs off the name, for
    every name of at most eleven characters and every pattern. *)
Theorem match_pattern_glob name pattern :
  (length name <= 11)%nat -> Forall visible name -> Forall (fun c => c <> 0) pattern ->
  (1 <= length pattern <= 11)%nat ->
  exists b, match_pattern (padded name) (splice 0 pattern (replicate 11 0)) (length pattern) = Some b /\
    (b = true <-> glob pattern name).
Proof.
  intros Hl Hv Hp Hlen. unfold match_pattern. destruct (Nat.eqb_spec (length pattern) 0); [lia|].
  assert (take (length pattern) (splice 0 pattern (replicate 11 0)) = pattern) as ->
    by (unfold splice; rewrite take_0, app_nil_l; apply take_app_length).
  destruct (match_inner_glob name pattern 0) as (b & Hrun & Hb); try done; [lia|].
  rewrite drop_0 in Hb. eauto.
Qed.

(** "K*" and "KERNEL.BIN". *)
Lemma match_pattern_glob_witness : exists b,
  match_pattern (padded demo_name) (splice 0 [75; 42] (replicate 11 0)) 2 = Some b /\
  (b = true <-> glob [75; 42] demo_name).
Proof.
  apply (match_pattern_glob demo_name [75; 42]).
  - cbn. lia.
  - repeat (constructor; [split; discriminate|]). constructor.
  - repeat (constructor; [discriminate|]). constructor.
  - cbn. lia.
Defined.

(** A star does not match a full 8.3 name: no name of twelve characters
    matches the pattern consisting of a star, because its loop stops after
    eleven. *)
Theorem star_misses_full_names name :
  length name = 12%nat -> Forall visible name ->
  match_pattern (padded name) (splice 0 [STAR] (replicate 11 0)) 1 = Some false /\ glob [STAR] name.
Proof.
  intros Hl Hv. split.
  - unfold match_pattern. cbn [Nat.eqb take splice app replicate drop Nat.add length].
    assert (forall i x, name !! i = Some x -> padded name !! i = Some x /\ byte_at (padded name) i = x) as Hat.
    { intros i x Hx. assert (padded name !! i = Some x) as Hp
        by (unfold padded; by apply lookup_app_l_Some). split; [done|by apply byte_at_lookup]. }
    assert (forall i, (i < 12)%nat -> exists x, name !! i = Some x /\ x <> 0 /\ x <> SPACE) as Hvis.
    { intros i Hi. destruct (lookup_lt_is_Some_2 name i) as [x Hx]; [lia|]. exists x.
      split; [done|]. eapply Forall_lookup_1 in Hv; [|done]. exact Hv. }
    assert (forall i, (i < 12)%nat -> name_ends (padded name) i = Some false) as Hends.
    { intros i Hi. destruct (Hvis i Hi) as (x & Hx & H1 & H2). unfold name_ends.
      destruct (Hat _ _ Hx) as [-> _]. cbn. destruct (Z.eqb_spec x 0); [done|].
      by destruct (Z.eqb_spec x SPACE). }
    cbn [match_pattern_inner]. rewrite Z.eqb_refl.
    assert (forall k n, (k + n = 11)%nat ->
      (fix star (k n : nat) : option bool :=
         match k with
         | O => name_ends (padded name) n
         | S k => if byte_at (padded name) n =? 0 then name_ends (padded name) n
                  else match name_ends (padded name) n with Some false => star k (S n) | r => r end
         end) k n = Some false) as Hstar.
    { induction k as [|k IH]; intros n Hk; [apply Hends; lia|].
      destruct (Hvis n ltac:(lia)) as (x & Hx & H1 & _). destruct (Hat _ _ Hx) as [_ ->].
      destruct (Z.eqb_spec x 0); [done|]. rewrite Hends by lia. apply IH. lia. }
    apply (Hstar 11%nat 0%nat). done.
  - rewrite <- (app_nil_r name). repeat constructor.
Qed.

(** "ABCDEFGH.TXT". *)
Lemma star_misses_full_names_witness :
  match_pattern (padded [65; 66; 67; 68; 69; 70; 71; 72; 46; 84; 88; 84])
    (splice 0 [STAR] (replicate 11 0)) 1 = Some false.
Proof.
  apply (star_misses_full_names [65; 66; 67; 68; 69; 70; 71; 72; 46; 84; 88; 84]).
  - reflexivity.
  - repeat (constructor; [split; discriminate|]). constructor.
Defined.
