(* ===== verification/FatSync.v ===== *)
(** Writing a file's directory entry back: [f_sync]. *)

From stdpp Require Import base numbers list gmap.
From Stdlib Require Import ZArith Lia.
From S2P Require Import Prelude Block Fat32 Fat32Dir Fat32File.
From S2P Require Import FatSpec FatChain FatCluster FatFileSpec FatDemo.

(** The directory sector with the size and the start cluster of the entry at
    byte [off] replaced. *)
Definition synced (off : nat) (size start : Z) (b : list Z) : list Z :=
  splice (off + 20) (le_bytes 2 (Z.shiftr start 16))
    (splice (off + 26) (le_bytes 2 (Z.land start 65535))
       (splice (off + 28) (le_bytes 4 size) b)).

(** KERNEL.BIN with 700 bytes more than its entry says. *)
Definition grown_file : File := mkFile 2000 0 3 3 0 0 3 2 0 true FOk.
(** A file whose entry is the seventeenth of its directory cluster. *)
Definition late_file : File := mkFile 2000 0 3 3 0 0 3 2 16 true FOk.

(** ** Fields of entries *)

Lemma field_at b k i n :
  (i + n <= 32)%nat -> take n (drop i (entry_at b k)) = take n (drop (32 * k + i) b).
Proof.
  intros Hin. unfold entry_at. rewrite <- drop_drop. set (l := drop (32 * k) b).
  rewrite skipn_firstn_comm, take_take. f_equal. lia.
Qed.

Lemma le_val_app a b : le_val (a ++ b) = le_val a + 256 ^ Z.of_nat (length a) * le_val b.
Proof.
  induction a as [|x a IH]; cbn [app le_val length].
  - rewrite Z.pow_0_r. lia.
  - rewrite IH, Nat2Z.inj_succ, Z.pow_succ_r by lia. lia.
Qed.

(** The two halves of a cluster number. *)
Lemma halves c :
  0 <= c < 2 ^ 32 ->
  le_val (le_bytes 2 (Z.land c 65535) ++ le_bytes 2 (Z.shiftr c 16)) = c.
Proof.
  intros Hc. change 65535 with (Z.ones 16). rewrite Z.land_ones, Z.shiftr_div_pow2 by lia.
  rewrite le_val_app, length_le_bytes, !le_val_bytes.
  - change (256 ^ Z.of_nat 2) with (2 ^ 16). pose proof (Z.div_mod c (2 ^ 16)). lia.
  - change (256 ^ Z.of_nat 2) with (2 ^ 16). split; [apply Z.div_pos; lia|].
    apply Z.div_lt_upper_bound; lia.
  - change (256 ^ Z.of_nat 2) with (2 ^ 16). apply Z.mod_pos_bound. lia.
Qed.

Lemma synced_entry b k size start :
  length b = 512%nat -> (k < 16)%nat -> 0 <= size < 2 ^ 32 -> 0 <= start < 2 ^ 32 ->
  let b' := synced (32 * k) size start b in
  length b' = 512%nat /\ entry_size (entry_at b' k) = size /\ entry_start (entry_at b' k) = start /\
  forall i, (i < 32 * k + 20 \/ 32 * k + 22 <= i < 32 * k + 26 \/ 32 * k + 32 <= i)%nat ->
    b' !! i = b !! i.
Proof.
  intros Hb Hk Hsz Hst b'.
  set (b1 := splice (32 * k + 28) (le_bytes 4 size) b).
  set (b2 := splice (32 * k + 26) (le_bytes 2 (Z.land start 65535)) b1).
  assert (length b1 = 512%nat) as H1 by (unfold b1; rewrite length_splice; rewrite ?length_le_bytes; lia).
  assert (length b2 = 512%nat) as H2 by (unfold b2; rewrite length_splice; rewrite ?length_le_bytes; lia).
  assert (b' = splice (32 * k + 20) (le_bytes 2 (Z.shiftr start 16)) b2) as -> by done.
  pose proof (slice_splice_same (32 * k + 28) (le_bytes 4 size) b) as Hs1.
  pose proof (slice_splice_same (32 * k + 26) (le_bytes 2 (Z.land start 65535)) b1) as Hs2.
  pose proof (slice_splice_same (32 * k + 20) (le_bytes 2 (Z.shiftr start 16)) b2) as Hs3.
  rewrite length_le_bytes in Hs1, Hs2, Hs3. fold b1 in Hs1. fold b2 in Hs2.
  split_and!.
  - rewrite length_splice; rewrite ?length_le_bytes; lia.
  - unfold entry_size, le32_at. rewrite field_at by lia.
    rewrite slice_splice_other by (rewrite ?length_le_bytes; lia). unfold b2.
    rewrite slice_splice_other, Hs1 by (rewrite ?length_le_bytes; lia).
    by apply le_val_bytes.
  - unfold entry_start. rewrite !field_at by lia. rewrite Hs3 by lia.
    rewrite slice_splice_other, Hs2 by (rewrite ?length_le_bytes; lia). by apply halves.
  - intros i Hi. rewrite splice_lookup_out by (rewrite ?length_le_bytes; lia). unfold b2.
    rewrite splice_lookup_out by (rewrite ?length_le_bytes; lia). unfold b1.
    by rewrite splice_lookup_out by (rewrite ?length_le_bytes; lia).
Qed.

Section Sync.
Context {D : Type} `{ReliableDevice D}.
Implicit Types (d : D) (v : FatVolume) (w : World D) (f : File).

(** The copies into the static buffer succeed for the first sixteen entries. *)
Lemma copies_fit b k size start :
  length b = 512%nat -> (k < 16)%nat ->
  copy_into (32 * k + 28) (le_bytes 4 size) b = Some (splice (32 * k + 28) (le_bytes 4 size) b) /\
  copy_into (32 * k + 26) (le_bytes 2 (Z.land start 65535)) (splice (32 * k + 28) (le_bytes 4 size) b) =
    Some (splice (32 * k + 26) (le_bytes 2 (Z.land start 65535)) (splice (32 * k + 28) (le_bytes 4 size) b)) /\
  copy_into (32 * k + 20) (le_bytes 2 (Z.shiftr start 16))
    (splice (32 * k + 26) (le_bytes 2 (Z.land start 65535)) (splice (32 * k + 28) (le_bytes 4 size) b)) =
    Some (synced (32 * k) size start b).
Proof.
  intros Hb Hk. unfold copy_into. rewrite !length_splice; rewrite ?length_splice; rewrite ?length_le_bytes; try lia.
  by rewrite !decide_True by lia.
Qed.

Lemma f_sync_run v w f :
  w_vol w = Some v -> f_modified f = true -> 0 <= f_dir_offset f < 16 ->
  0 <= cluster_to_lba v (f_dir_sector f) < sector_count (w_dev w) ->
  0 <= f_size f < 2 ^ 32 -> 0 <= f_start_cluster f < 2 ^ 32 ->
  let lba := cluster_to_lba v (f_dir_sector f) in
  let k := Z.to_nat (f_dir_offset f) in
  exists w' b b',
    f_sync (w, f) = (Ret tt, (w', set_size (f_size f) false f)) /\ w_if w' = true /\ w_vol w' = w_vol w /\
    sector_count (w_dev w') = sector_count (w_dev w) /\
    read_sector (w_dev w) lba = Some b /\ read_sector (w_dev w') lba = Some b' /\
    entry_size (entry_at b' k) = f_size f /\ entry_start (entry_at b' k) = f_start_cluster f /\
    (forall i, (i < 32 * k + 20 \/ 32 * k + 22 <= i < 32 * k + 26 \/ 32 * k + 32 <= i)%nat ->
       b' !! i = b !! i) /\
    (forall x, x <> lba -> read_sector (w_dev w') x = read_sector (w_dev w) x).
Proof.
  intros Hv Hm Hoff Hlba Hsz Hst lba k.
  destruct (read_in_range (w_dev w) lba Hlba) as [b Hb]. pose proof (read_valid _ _ _ Hb) as [Hl Hby].
  unfold SECTOR_SIZE in Hl. assert (k < 16)%nat as Hk by lia.
  set (b' := synced (32 * k) (f_size f) (f_start_cluster f) b).
  destruct (synced_entry b k _ _ Hl Hk Hsz Hst) as (Hl' & Hes & Hec & Hout). fold b' in Hl', Hes, Hec, Hout.
  assert (sector b') as Hsec by (split; [done|unfold b', synced; auto]).
  destruct (copies_fit b k (f_size f) (f_start_cluster f) Hl Hk) as (Hc1 & Hc2 & Hc3).
  pose proof (write_in_range (w_dev w) lba b' Hlba Hsec) as Hok.
  destruct (write_sector (w_dev w) lba b') as [ok d'] eqn:Hwr. cbn in Hok. subst ok.
  exists (set_if true (set_dev d' (set_sync_buf b' (set_sync_buf b (set_if false w))))), b, b'.
  split_and!; try done.
  - unfold f_sync, get_file. unfold bind at 1. cbn [gets fst snd]. rewrite Hm. cbn [negb].
    run_with (vol_io_run v w f _ lba w Hv eq_refl).
    replace (Z.to_nat (f_dir_offset f * 32)) with (32 * k)%nat by lia.
    unfold bind, zoom, with_vol, sync_read, sync_write, modify, gets, put_file, or_panic, ret.
    cbn [fst snd set_if w_vol w_dev]. rewrite Hv, Hb. cbn [negb set_sync_buf w_sync_buf fst snd].
    rewrite Hc1, Hc2, Hc3. cbn [w_vol w_dev w_sync_buf set_sync_buf set_if modify fst snd].
    rewrite Hv. fold b'. rewrite Hwr. done.
  - cbn [w_dev set_if set_dev]. change d' with (snd (true, d')). rewrite <- Hwr. apply write_count.
  - cbn [w_dev set_if set_dev]. change d' with (snd (true, d')). rewrite <- Hwr. by apply read_written.
  - intros x Hx. cbn [w_dev set_if set_dev]. change d' with (snd (true, d')). rewrite <- Hwr.
    by apply read_other.
Qed.

(** [f_sync] writes back exactly the size and the start cluster of the
    file: for an entry in the first sector of its directory cluster, the entry
    then holds them, every other byte of that sector and every other sector is
    unchanged, interrupts are on and the file is no longer modified. *)
Theorem f_sync_correct v w f :
  w_vol w = Some v -> f_modified f = true -> 0 <= f_dir_offset f < 16 ->
  0 <= cluster_to_lba v (f_dir_sector f) < sector_count (w_dev w) ->
  0 <= f_size f < 2 ^ 32 -> 0 <= f_start_cluster f < 2 ^ 32 ->
  let lba := cluster_to_lba v (f_dir_sector f) in
  let k := Z.to_nat (f_dir_offset f) in
  exists w' b b',
    f_sync (w, f) = (Ret tt, (w', set_size (f_size f) false f)) /\ w_if w' = true /\
    read_sector (w_dev w) lba = Some b /\ read_sector (w_dev w') lba = Some b' /\
    entry_size (entry_at b' k) = f_size f /\ entry_start (entry_at b' k) = f_start_cluster f /\
    (forall i, (i < 32 * k + 20 \/ 32 * k + 22 <= i < 32 * k + 26 \/ 32 * k + 32 <= i)%nat ->
       b' !! i = b !! i) /\
    (forall x, x <> lba -> read_sector (w_dev w') x = read_sector (w_dev w) x).
Proof.
  intros Hv Hm Hoff Hlba Hsz Hst lba k.
  destruct (f_sync_run v w f Hv Hm Hoff Hlba Hsz Hst) as (w' & b & b' & R & Hif & _ & _ & Hrest). by exists w', b, b'.
Qed.

Lemma f_sync_late_run v w f :
  w_vol w = Some v -> f_modified f = true -> 16 <= f_dir_offset f ->
  0 <= cluster_to_lba v (f_dir_sector f) < sector_count (w_dev w) ->
  exists w', f_sync (w, f) = (Panic, (w', f)) /\ w_if w' = false /\ w_dev w' = w_dev w.
Proof.
  intros Hv Hm Hoff Hlba. set (lba := cluster_to_lba v (f_dir_sector f)) in *.
  destruct (read_in_range (w_dev w) lba Hlba) as [b Hb]. pose proof (read_valid _ _ _ Hb) as [Hl _].
  unfold SECTOR_SIZE in Hl.
  exists (set_sync_buf b (set_if false w)). split_and!; [|done|done].
  unfold f_sync, get_file. unfold bind at 1. cbn [gets fst snd]. rewrite Hm. cbn [negb].
  run_with (vol_io_run v w f _ lba w Hv eq_refl).
  unfold bind, zoom, with_vol, sync_read, modify, gets, ret.
  cbn [fst snd set_if w_vol w_dev]. rewrite Hv, Hb. cbn [negb set_sync_buf w_sync_buf fst snd].
  unfold copy_into at 1. rewrite decide_False by (rewrite length_le_bytes; lia). done.
Qed.

(** With more than one sector per cluster [f_sync] can panic: for an entry
    beyond the first sixteen of its directory cluster it indexes past its
    512-byte buffer, after having disabled interrupts, and nothing is
    written. *)
Theorem f_sync_late_entry v w f :
  w_vol w = Some v -> f_modified f = true -> 16 <= f_dir_offset f ->
  0 <= cluster_to_lba v (f_dir_sector f) < sector_count (w_dev w) ->
  exists w', f_sync (w, f) = (Panic, (w', f)) /\ w_if w' = false /\ w_dev w' = w_dev w.
Proof. apply f_sync_late_run. Qed.
End Sync.

Lemma f_sync_correct_witness : exists w' b',
  f_sync (demo_world, grown_file) = (Ret tt, (w', set_size 2000 false grown_file)) /\
  read_sector (w_dev w') 3 = Some b' /\ entry_size (entry_at b' 0) = 2000.
Proof.
  destruct (f_sync_correct demo_vol demo_world grown_file eq_refl eq_refl) as
    (w' & b & b' & H1 & _ & _ & H2 & H3 & _); try (split; [discriminate|reflexivity]).
  exists w', b'. exact (conj H1 (conj H2 H3)).
Defined.

Lemma f_sync_late_entry_witness : exists w',
  f_sync (demo_world, late_file) = (Panic, (w', late_file)) /\ w_if w' = false.
Proof.
  destruct (f_sync_late_entry demo_vol demo_world late_file eq_refl eq_refl) as (w' & H1 & H2 & _).
  - discriminate.
  - split; [discriminate|reflexivity].
  - exists w'. exact (conj H1 H2).
Defined.
