(* ===== verification/FatDirUpdate.v ===== *)
(** What a write to one entry does to a directory: the list of entries before
    and after, the search for a name in both, and the search for a free slot. *)

From stdpp Require Import base numbers list gmap.
From Stdlib Require Import ZArith Lia.
From S2P Require Import Prelude Block Fat32 Fat32Dir Fat32File.
From S2P Require Import FatSpec FatChain FatCluster FatDirSpec FatFileSpec.

(** An entry that is neither the end marker nor deleted. *)
Definition live (e : list Z) : bool := negb (byte_at e 0 =? 0) && negb (byte_at e 0 =? 229).

(** What the search looks for. *)
Definition matches (target e : list Z) : bool :=
  negb (is_hidden (entry_attr e)) && live e &&
  negb (bool_decide (entry_name e = [])) && ci_prefix target (entry_name e).

(** The first entry that a new one may take. *)
Fixpoint first_slot (es : list (Z * nat * list Z)) : option (Z * nat) :=
  match es with
  | [] => None
  | (c, k, e) :: es => if live e then first_slot es else Some (c, k)
  end.

(** The entry at [k] of cluster [c] replaced. *)
Definition replace (c : Z) (k : nat) (e : list Z) (x : Z * nat * list Z) : Z * nat * list Z :=
  if decide (x.1 = (c, k)) then (c, k, e) else x.

(** ** The search *)

Lemma live_spec e : live e = true <-> byte_at e 0 <> 0 /\ byte_at e 0 <> 229.
Proof. unfold live. lia. Qed.

Lemma lookup_entry_cons t c k e r :
  lookup_entry t ((c, k, e) :: r) =
    if matches t e then Some (c, k)
    else if negb (is_hidden (entry_attr e)) && (byte_at e 0 =? 0) then None else lookup_entry t r.
Proof.
  cbn [lookup_entry]. unfold matches, live. destruct (is_hidden (entry_attr e)); [done|]. cbn [negb andb].
  destruct (byte_at e 0 =? 0); [done|]. destruct (byte_at e 0 =? 229); [done|]. cbn [negb andb].
  by destruct (negb (bool_decide (entry_name e = [])) && ci_prefix t (entry_name e)).
Qed.

Lemma lookup_entry_app t l r :
  Forall (fun x => live x.2 = true) l ->
  lookup_entry t (l ++ r) = match lookup_entry t l with Some x => Some x | None => lookup_entry t r end.
Proof.
  induction 1 as [|[[c k] e] l Hx _ IH]; [done|]. cbn [app]. rewrite !lookup_entry_cons. cbn [snd] in Hx.
  destruct (matches t e); [done|]. apply live_spec in Hx as [H0 _].
  rewrite (proj2 (Z.eqb_neq _ _) H0), andb_false_r. exact IH.
Qed.

Lemma lookup_entry_match t es c k :
  lookup_entry t es = Some (c, k) -> exists e, (c, k, e) ∈ es /\ matches t e = true.
Proof.
  induction es as [|[[c' k'] e] es IH]; [done|]. rewrite lookup_entry_cons.
  destruct (matches t e) eqn:Hm.
  - intros [= -> ->]. exists e. split; [by apply elem_of_cons; left|done].
  - destruct (_ && _); [done|]. intros (e' & Hin & He')%IH. exists e'. split; [by apply elem_of_cons; right|done].
Qed.

Lemma matches_live t e : matches t e = true -> live e = true.
Proof. unfold matches. rewrite !andb_true_iff. tauto. Qed.

(** A search that found another entry finds it again when a free slot is
    filled. *)
Lemma lookup_filled t l c k e e' r x :
  Forall (fun x => live x.2 = true) l -> live e = false -> live e' = true -> matches t e' = false ->
  lookup_entry t (l ++ (c, k, e) :: r) = Some x -> lookup_entry t (l ++ (c, k, e') :: r) = Some x.
Proof.
  intros Hl He He' Hm. rewrite !lookup_entry_app by done. destruct (lookup_entry t l) as [y|]; [done|].
  rewrite !lookup_entry_cons, Hm. apply live_spec in He' as [H0 _]. rewrite (proj2 (Z.eqb_neq _ _) H0), andb_false_r.
  assert (matches t e = false) as ->.
  { destruct (matches t e) eqn:Hme; [|done]. apply matches_live in Hme. congruence. }
  by destruct (_ && _).
Qed.

(** A search that found another entry finds it again when one is deleted. *)
Lemma lookup_killed t l c k e e' r x :
  byte_at e' 0 = 229 -> x <> (c, k) ->
  lookup_entry t (l ++ (c, k, e) :: r) = Some x -> lookup_entry t (l ++ (c, k, e') :: r) = Some x.
Proof.
  intros He' Hx. induction l as [|[[c1 k1] e1] l IH]; cbn [app]; rewrite !lookup_entry_cons.
  - assert (matches t e' = false) as ->.
    { destruct (matches t e') eqn:Hm; [|done]. apply matches_live, live_spec in Hm. tauto. }
    rewrite He', andb_false_r. destruct (matches t e); [congruence|]. by destruct (_ && _).
  - destruct (matches t e1); [done|]. destruct (_ && _); [done|exact IH].
Qed.

(** A name that was not found is found where it is put. *)
Lemma lookup_put t l c k e e' r :
  Forall (fun x => live x.2 = true) l -> matches t e' = true ->
  lookup_entry t (l ++ (c, k, e) :: r) = None -> lookup_entry t (l ++ (c, k, e') :: r) = Some (c, k).
Proof.
  intros Hl Hm. rewrite !lookup_entry_app by done. destruct (lookup_entry t l) as [y|]; [done|].
  intros _. by rewrite lookup_entry_cons, Hm.
Qed.

(** The search sees the first twelve bytes of an entry: eleven of the name, and
    the attributes. *)
Lemma byte_at_take n e i : (i < n)%nat -> byte_at (take n e) i = byte_at e i.
Proof. intros Hi. unfold byte_at. by rewrite lookup_take_lt. Qed.

Lemma seen n e e' : (11 <= n)%nat -> take n e' = take n e ->
  (forall i, (i < n)%nat -> byte_at e' i = byte_at e i) /\ entry_name e' = entry_name e.
Proof.
  intros Hn Heq. assert (forall i, (i < n)%nat -> byte_at e' i = byte_at e i) as Hb.
  { intros i Hi. by rewrite <- (byte_at_take n e' i), <- (byte_at_take n e i), Heq. }
  split; [done|]. unfold entry_name. rewrite Hb by lia.
  assert (forall m l, (m + l <= n)%nat -> take l (drop m e') = take l (drop m e)) as Ht.
  { intros m l Hml. replace l with (Nat.min l (n - m)) by lia.
    rewrite <- !take_take, !(firstn_skipn_comm (n - m) m).
    by replace (m + (n - m))%nat with n by lia; rewrite Heq. }
  rewrite <- (drop_0 e'), <- (drop_0 e), !(Ht 0%nat 8%nat), !drop_0, (Ht 8%nat 3%nat) by lia. done.
Qed.

Lemma matches_seen t e e' : take 12 e' = take 12 e -> matches t e' = matches t e.
Proof.
  intros [Hb Hn]%seen; [|lia]. unfold matches, live, entry_attr. by rewrite !Hb, Hn by lia.
Qed.

Lemma lookup_seen t l c k e e' r :
  take 12 e' = take 12 e ->
  lookup_entry t (l ++ (c, k, e') :: r) = lookup_entry t (l ++ (c, k, e) :: r).
Proof.
  intros Heq. destruct (seen 12 _ _ ltac:(lia) Heq) as [Hb _]. induction l as [|[[c' k'] e''] l IH]; cbn [app];
    rewrite !lookup_entry_cons; [|by rewrite IH]. rewrite (matches_seen t e e' Heq). unfold entry_attr.
  by rewrite !Hb by lia.
Qed.

Lemma ci_prefix_refl t : ci_prefix t t = true.
Proof. induction t as [|b t IH]; [done|]. cbn [ci_prefix]. unfold eq_ignore_ascii_case. by rewrite Z.eqb_refl, IH. Qed.

(** ** Slots *)

Lemma first_slot_split es c k :
  first_slot es = Some (c, k) ->
  exists l e r, es = l ++ (c, k, e) :: r /\ Forall (fun x => live x.2 = true) l /\ live e = false.
Proof.
  induction es as [|[[c' k'] e] es IH]; [done|]. cbn [first_slot]. destruct (live e) eqn:He.
  - intros (l & e' & r & -> & Hl & He')%IH. exists ((c', k', e) :: l), e', r. by split_and!; [|constructor|].
  - intros [= -> ->]. by exists [], e, es.
Qed.

Lemma first_slot_app l r :
  Forall (fun x => live x.2 = true) l -> first_slot (l ++ r) = first_slot r.
Proof. induction 1 as [|[[c k] e] l Hx _ IH]; [done|]. cbn [app first_slot]. cbn [snd] in Hx. by rewrite Hx. Qed.

Lemma entry_at_lookup buf k i : (i < 32)%nat -> entry_at buf k !! i = buf !! (32 * k + i)%nat.
Proof. intros Hi. unfold entry_at. by rewrite lookup_take_lt, lookup_drop by done. Qed.

Lemma entry_at_byte buf k i : (i < 32)%nat -> byte_at (entry_at buf k) i = byte_at buf (32 * k + i).
Proof. intros Hi. unfold byte_at. by rewrite entry_at_lookup. Qed.

Lemma find_slot_first n k buf c :
  let es := (fun k => (c, k, entry_at buf k)) <$> seq k n in
  match find_slot n k buf with
  | Some j => (j < k + n)%nat /\ forall rest, first_slot (es ++ rest) = Some (c, j)
  | None => Forall (fun x => live x.2 = true) es
  end.
Proof.
  revert k. induction n as [|n IH]; intros k; cbn zeta; [constructor|]. specialize (IH (S k)). cbn zeta in IH.
  cbn [find_slot seq fmap list_fmap]. pose proof (entry_at_byte buf k 0 ltac:(lia)) as Hb. rewrite Nat.add_0_r in Hb.
  destruct ((byte_at buf (32 * k) =? 0) || (byte_at buf (32 * k) =? 229)) eqn:Hs.
  - split; [lia|]. intros rest. cbn [app first_slot]. unfold live. rewrite Hb.
    destruct (byte_at buf (32 * k) =? 0), (byte_at buf (32 * k) =? 229); done.
  - assert (live (entry_at buf k) = true) as Hl by (unfold live; rewrite Hb; lia).
    destruct (find_slot n (S k) buf) as [j|].
    + destruct IH as [Hj IH]. split; [lia|]. intros rest. cbn [app first_slot]. by rewrite Hl.
    + constructor; [done|exact IH].
Qed.

(** ** Replacing an entry *)

Lemma replace_other c k e l :
  Forall (fun x => x.1 <> (c, k)) l -> replace c k e <$> l = l.
Proof.
  induction 1 as [|x l Hx _ IH]; [done|]. cbn [fmap list_fmap]. change (replace c k e x :: (replace c k e <$> l) = x :: l).
  rewrite IH. unfold replace. by rewrite decide_False.
Qed.

Lemma replace_split c k e0 e l r :
  NoDup (fst <$> (l ++ (c, k, e0) :: r)) ->
  replace c k e <$> (l ++ (c, k, e0) :: r) = l ++ (c, k, e) :: r.
Proof.
  rewrite fmap_app, fmap_cons. cbn [fst]. intros (_ & Hl & [Hr _]%NoDup_cons)%NoDup_app.
  rewrite fmap_app, fmap_cons. unfold replace at 2. rewrite decide_True by done.
  assert (forall m : list (Z * nat * list Z), (c, k) ∉ (fst <$> m) -> replace c k e <$> m = m) as Hm.
  { intros m Hin. apply replace_other, Forall_forall. intros x Hx Heq. apply Hin. rewrite <- Heq.
    apply list_elem_of_fmap. eauto. }
  rewrite !Hm; [done|done|]. intros Hin. apply (Hl _ Hin). apply elem_of_cons. by left.
Qed.

Lemma entry_at_outside buf buf' k j :
  (forall i, (i < 32 * k \/ 32 * k + 32 <= i)%nat -> buf' !! i = buf !! i) -> j <> k ->
  entry_at buf' j = entry_at buf j.
Proof.
  intros Hout Hj. apply list_eq. intros i. destruct (decide (i < 32)%nat) as [Hi|Hi].
  - rewrite !entry_at_lookup by done. apply Hout. lia.
  - unfold entry_at. by rewrite !lookup_take_ge by lia.
Qed.

(** Bytes written into the entry at [k]. *)
Lemma splice_outside (buf src : list Z) k o i :
  (32 * k + 32 <= length buf)%nat -> (o + length src <= 32)%nat ->
  (i < 32 * k \/ 32 * k + 32 <= i)%nat -> splice (32 * k + o) src buf !! i = buf !! i.
Proof. intros Hb Ho Hi. apply splice_lookup_out; lia. Qed.

Section Update.
Context {D : Type} `{ReliableDevice D}.

Lemma dir_entries_elem v d cs c k e :
  (c, k, e) ∈ dir_entries v d cs <->
  c ∈ cs /\ (k < entries_per_cluster v)%nat /\ e = entry_at (cluster_data v d c) k.
Proof.
  unfold dir_entries. split.
  - intros (l & Hl & He)%list_elem_of_In%in_concat. apply list_elem_of_In in Hl, He.
    apply list_elem_of_fmap in Hl as (c' & -> & Hc').
    apply list_elem_of_fmap in He as (k' & Heq & Hk'). simplify_eq. apply elem_of_seq in Hk'. by split_and!; [|lia|].
  - intros (Hc & Hk & ->). apply list_elem_of_In, in_concat.
    exists (cluster_entries v d c). split; apply list_elem_of_In.
    + apply list_elem_of_fmap. eauto.
    + apply list_elem_of_fmap. exists k. split; [done|]. apply elem_of_seq. lia.
Qed.

Lemma dir_entries_keys v d cs : NoDup cs -> NoDup (fst <$> dir_entries v d cs).
Proof.
  induction 1 as [|c cs Hc _ IH]; [constructor|].
  unfold dir_entries. cbn [fmap list_fmap concat]. fold (dir_entries v d cs). rewrite fmap_app.
  apply NoDup_app. split_and!; [| |exact IH].
  - unfold cluster_entries. rewrite <- list_fmap_compose. apply NoDup_fmap_2_strong; [|apply NoDup_seq].
    by intros k k' _ _ [=].
  - intros [c' k'] ([[c1 k1] e] & [= -> ->] & Hin)%list_elem_of_fmap ([[c2 k2] e'] & [= -> ->] & Hin')%list_elem_of_fmap.
    apply list_elem_of_fmap in Hin as (? & [= -> -> ->] & _). apply dir_entries_elem in Hin' as [Hin' _]. done.
Qed.

(** The search for a slot along the directory: the first free entry, with the
    bytes of its cluster; a full directory is an error. *)
Lemma slot_in_chain_run fuel v w c cs :
  geometry v (sector_count (w_dev w)) -> chain (fat_entry v (w_dev w)) c cs ->
  terminated (fat_entry v (w_dev w)) cs -> Forall (on_disk v (sector_count (w_dev w))) cs ->
  cs <> [] -> (length cs < fuel)%nat ->
  slot_in_chain fuel v c w =
    match first_slot (dir_entries v (w_dev w) cs) with
    | Some (x, k) => (Ret (x, k, cluster_data v (w_dev w) x), w)
    | None => (Err DiskErr, w)
    end.
Proof.
  intros Hg Hch Ht Hd Hne Hf. revert c cs Hch Ht Hd Hne Hf.
  induction fuel as [|fuel IH]; intros c cs Hch Ht Hd Hne Hf; [lia|]. cbn [slot_in_chain].
  destruct cs as [|x cs]; [done|]. cbn [chain] in Hch. destruct Hch as (<- & Hc & Hch).
  apply Forall_cons in Hd as [Hx Hd]. run_with (read_cluster_run v w x Hg Hx).
  unfold dir_entries. cbn [fmap list_fmap concat]. fold (dir_entries v (w_dev w) cs).
  pose proof (find_slot_first (entries_per_cluster v) 0 (cluster_data v (w_dev w) x) x) as Hslot.
  cbn zeta in Hslot. fold (cluster_entries v (w_dev w) x) in Hslot.
  destruct (find_slot _ _ _) as [k|]; [destruct Hslot as [_ Hslot]; by rewrite Hslot|].
  rewrite first_slot_app by done. destruct Hx as [Hx _]. run_with (read_fat_run v w x Hg ltac:(lia)).
  destruct cs as [|y cs].
  - cbn [chain] in Hch. specialize (Ht x eq_refl). destruct (Z.leb_spec END_OF_CHAIN (fat_entry v (w_dev w) x)); [done|lia].
  - pose proof Hch as (Hy & Hcy & _). apply is_cluster_iff in Hcy. rewrite <- Hy.
    destruct (Z.leb_spec END_OF_CHAIN y); [lia|]. apply IH; [by rewrite <- Hy in Hch|exact Ht|done|done|cbn in *; lia].
Qed.

Lemma dir_entries_update v d d' cs c k :
  (forall x, x ∈ cs -> x <> c -> cluster_data v d' x = cluster_data v d x) ->
  (forall j, j <> k -> (j < entries_per_cluster v)%nat ->
     entry_at (cluster_data v d' c) j = entry_at (cluster_data v d c) j) ->
  dir_entries v d' cs = replace c k (entry_at (cluster_data v d' c) k) <$> dir_entries v d cs.
Proof.
  intros Hother Hsame. induction cs as [|x cs IH]; [done|].
  unfold dir_entries. cbn [fmap list_fmap concat]. fold (dir_entries v d' cs) (dir_entries v d cs).
  rewrite fmap_app, <- IH by (intros; apply Hother; [by apply elem_of_cons; right|done]). f_equal.
  unfold cluster_entries. rewrite <- list_fmap_compose. apply list_fmap_ext. intros i j Hj.
  apply list_elem_of_lookup_2 in Hj as Hj'. apply elem_of_seq in Hj'. unfold compose, replace. cbn [fst].
  destruct (decide (x = c)) as [->|Hx].
  - destruct (decide (j = k)) as [->|Hjk]; [by rewrite decide_True|].
    rewrite decide_False by congruence. rewrite Hsame; [done|done|lia].
  - rewrite decide_False by congruence. by rewrite Hother by (by (apply elem_of_cons; left) || done).
Qed.

Lemma dir_entries_same v d d' cs :
  (forall x, x ∈ cs -> cluster_data v d' x = cluster_data v d x) -> dir_entries v d' cs = dir_entries v d cs.
Proof.
  induction cs as [|x cs IH]; intros Hs; [done|]. unfold dir_entries, cluster_entries.
  cbn [fmap list_fmap concat]. rewrite Hs by (apply elem_of_cons; by left). f_equal.
  apply IH. intros y Hy. apply Hs, elem_of_cons. by right.
Qed.

(** A search that finds an entry finds one that is in use. *)
Lemma lookup_dir t v d cs c k :
  lookup_entry t (dir_entries v d cs) = Some (c, k) ->
  c ∈ cs /\ (k < entries_per_cluster v)%nat /\ matches t (entry_at (cluster_data v d c) k) = true.
Proof. intros (e & (Hc & Hk & ->)%dir_entries_elem & Hm)%lookup_entry_match. done. Qed.

Lemma slot_dir v d cs c k :
  first_slot (dir_entries v d cs) = Some (c, k) ->
  c ∈ cs /\ (k < entries_per_cluster v)%nat /\ live (entry_at (cluster_data v d c) k) = false.
Proof.
  intros (l & e & r & Heq & _ & He)%first_slot_split.
  assert ((c, k, e) ∈ dir_entries v d cs) as (Hc & Hk & ->)%dir_entries_elem; [|done].
  rewrite Heq. apply elem_of_app. right. apply elem_of_cons. by left.
Qed.

(** The entry taken by a new name, in the lists before and after. *)
Lemma slot_filled v d cs c k :
  NoDup cs -> first_slot (dir_entries v d cs) = Some (c, k) ->
  exists l e r, dir_entries v d cs = l ++ (c, k, e) :: r /\ Forall (fun x => live x.2 = true) l /\ live e = false
    /\ forall e', replace c k e' <$> dir_entries v d cs = l ++ (c, k, e') :: r.
Proof.
  intros Hnd Hs. pose proof (dir_entries_keys v d cs Hnd) as Hk.
  destruct (first_slot_split _ _ _ Hs) as (l & e & r & Heq & Hl & He). exists l, e, r. split_and!; try done.
  intros e'. rewrite Heq in *. by apply replace_split.
Qed.
End Update.
