(* ===== verification/FatFiles.v ===== *)
(** A volume as a map from the names of its root directory to the bytes of its
    files, and how creating a file and writing its entry back change the map. *)

From stdpp Require Import base numbers list gmap.
From Stdlib Require Import ZArith Lia.
From S2P Require Import Prelude Block Fat32 Fat32Dir Fat32File.
From S2P Require Import FatSpec FatChain FatCluster FatDirSpec FatFileSpec FatWrite FatDemo FatFileTheorems FatSync FatDirUpdate.

Section Files.
Context {D : Type} `{ReliableDevice D}.

(** A mounted volume in order, whose root directory is in the clusters [rc]. *)
Record rooted (v : FatVolume) (w : World D) (rc : list Z) : Prop := {
  rt_geometry : geometry v (sector_count (w_dev w));
  rt_mounted : w_vol w = Some v;
  rt_chain : chain (fat_entry v (w_dev w)) (root_cluster v) rc;
  rt_term : terminated (fat_entry v (w_dev w)) rc;
  rt_disk : Forall (on_disk v (sector_count (w_dev w))) rc;
  rt_some : rc <> [];
  rt_free : free_on_disk v (w_dev w);
}.

(** The file [name] holds [data]: its entry is at [k] of cluster [c], its bytes
    in the clusters [cs]. *)
Record stored_at v d (rc : list Z) (name data : list Z) (c : Z) (k : nat) (cs : list Z) : Prop := {
  sa_found : lookup_entry name (dir_entries v d rc) = Some (c, k);
  sa_file : Z.land (entry_attr (entry_at (cluster_data v d c) k)) 16 = 0;
  sa_chain : chain (fat_entry v d) (entry_start (entry_at (cluster_data v d c) k)) cs;
  sa_term : terminated (fat_entry v d) cs;
  sa_disk : Forall (on_disk v (sector_count d)) cs;
  sa_some : cs <> [];
  sa_apart : forall x, x ∈ cs -> ~ (x ∈ rc);
  sa_size : entry_size (entry_at (cluster_data v d c) k) <= Z.of_nat (length cs) * csize v;
  sa_data : take (Z.to_nat (entry_size (entry_at (cluster_data v d c) k))) (file_bytes v d cs) = data;
}.

Definition stored v d rc name data : Prop := exists c k cs, stored_at v d rc name data c k cs.

(** Only table entries of [T], the bytes of clusters of [T] and of cluster [c]
    may differ. *)
Record effect v d d' (T : list Z) (c : Z) : Prop := {
  ef_count : sector_count d' = sector_count d;
  ef_fat : forall x, 0 <= x < entries v -> ~ (x ∈ T) -> fat_entry v d' x = fat_entry v d x;
  ef_data : forall x, on_disk v (sector_count d) x -> ~ (x ∈ T) -> x <> c -> cluster_data v d' x = cluster_data v d x;
}.

(** Of cluster [c], only the entry at [k] differs. *)
Definition only_entry v d d' (c : Z) (k : nat) : Prop :=
  forall i, (i < 32 * k \/ 32 * k + 32 <= i)%nat -> cluster_data v d' c !! i = cluster_data v d c !! i.

(** A name for a new file. *)
Record new_name (name : list Z) : Prop := {
  nn_short : short_name name;
  nn_slash : Forall (fun b => b <> SLASH) name;
  nn_live : head name <> Some 229;
  nn_bytes : bytes name;
}.

(** A name to look up. *)
Definition old_name (name : list Z) : Prop := name <> [] /\ Forall (fun b => b <> 0 /\ b <> SLASH) name.

(** ** Effects *)

Lemma effect_refl v d T c : effect v d d T c.
Proof. by split. Qed.

Lemma effect_trans v d d1 d2 T c : effect v d d1 T c -> effect v d1 d2 T c -> effect v d d2 T c.
Proof.
  intros [Hc1 Hf1 Hd1] [Hc2 Hf2 Hd2]. split.
  - by rewrite Hc2.
  - intros x Hx Ht. by rewrite Hf2, Hf1.
  - intros x Hx Ht Hxc. rewrite Hd2, Hd1; [done..| |done|done]. by rewrite Hc1.
Qed.

Lemma effect_more v d d' T T' c : (forall x, x ∈ T -> x ∈ T') -> effect v d d' T c -> effect v d d' T' c.
Proof. intros HT [Hc Hf Hd]. split; [done| |]; intros; [apply Hf|apply Hd]; auto. Qed.

Lemma effect_grown v d d' cs cs' c : grown v d d' cs cs' -> effect v d d' cs' c.
Proof.
  intros Hg. split; [apply (gr_count _ _ _ _ _ Hg)|apply (gr_fat _ _ _ _ _ Hg)|].
  intros x Hx Hn _. by apply (gr_data _ _ _ _ _ Hg).
Qed.

Lemma effect_cluster v d d' c buf T : cluster_set v d d' c buf -> effect v d d' T c.
Proof. intros [Hc _ Ho Ht _]. split; [done|by intros; apply Ht|by intros; apply Ho]. Qed.

Lemma on_disk_entries v n x : on_disk v n x -> 0 <= x < entries v.
Proof. intros [Hx _]. lia. Qed.

(** A chain in use is not touched by an effect on free clusters. *)
Lemma chain_effect v d d' T c s cs :
  chain (fat_entry v d) s cs -> terminated (fat_entry v d) cs -> Forall (on_disk v (sector_count d)) cs ->
  Forall (fun x => fat_entry v d x = 0) T -> effect v d d' T c ->
  (forall x, x ∈ cs -> ~ (x ∈ T)) /\ chain (fat_entry v d') s cs /\ terminated (fat_entry v d') cs
  /\ Forall (on_disk v (sector_count d')) cs.
Proof.
  intros Hch Ht Hd HT [Hcnt Hf _].
  assert (forall x, x ∈ cs -> ~ (x ∈ T)) as Hap.
  { intros x Hx HxT. apply (chain_not_free _ _ _ _ Hch Ht Hx). by apply (proj1 (Forall_forall _ _) HT). }
  assert (forall x, x ∈ cs -> fat_entry v d' x = fat_entry v d x) as Hsame.
  { intros x Hx. apply Hf; [|by apply Hap]. eapply on_disk_entries. by apply (proj1 (Forall_forall _ _) Hd). }
  split_and!; [done| | |by rewrite Hcnt].
  - eapply chain_ext; [|exact Hch]. intros x Hx. by rewrite Hsame.
  - intros x Hx. rewrite Hsame; [by apply Ht|]. by apply last_Some_elem_of.
Qed.

Lemma rooted_effect v w w' rc T c :
  rooted v w rc -> Forall (fun x => fat_entry v (w_dev w) x = 0) T -> effect v (w_dev w) (w_dev w') T c ->
  w_vol w' = w_vol w -> rooted v w' rc.
Proof.
  intros [Hg Hv Hch Ht Hd Hne Hfree] HT Hef Hw.
  destruct (chain_effect _ _ _ _ _ _ _ Hch Ht Hd HT Hef) as (_ & Hch' & Ht' & Hd'). destruct Hef as [Hcnt Hf _].
  split; try done; [by rewrite Hcnt|by rewrite Hw|].
  intros x Hx H0x. rewrite Hcnt. apply Hfree; [done|].
  destruct (decide (x ∈ T)) as [HxT|HxT]; [by apply (proj1 (Forall_forall _ _) HT)|].
  rewrite <- Hf; [done|lia|done].
Qed.

(** ** Frames *)

(** Clusters [T] may change in the table, all others stay. *)
Record table_frame v d d' (rc T : list Z) : Prop := {
  tf_count : sector_count d' = sector_count d;
  tf_fat : forall x, 0 <= x < entries v -> ~ (x ∈ T) -> fat_entry v d' x = fat_entry v d x;
  tf_disk : Forall (on_disk v (sector_count d)) T;
  tf_root : forall x, x ∈ T -> ~ (x ∈ rc);
}.

Lemma chain_frame v d d' rc T s cs :
  table_frame v d d' rc T -> Forall (on_disk v (sector_count d)) cs -> (forall x, x ∈ cs -> ~ (x ∈ T)) ->
  (chain (fat_entry v d) s cs -> chain (fat_entry v d') s cs) /\
  (terminated (fat_entry v d) cs -> terminated (fat_entry v d') cs).
Proof.
  intros Hf Hd Hap. rewrite Forall_forall in Hd.
  assert (forall x, x ∈ cs -> fat_entry v d' x = fat_entry v d x) as Hs.
  { intros x Hx. apply (tf_fat _ _ _ _ _ Hf); [|by apply Hap]. eapply on_disk_entries. by apply Hd. }
  split.
  - intros Hch. eapply chain_ext; [|exact Hch]. intros x Hx. by rewrite Hs.
  - intros Ht x Hx. rewrite Hs; [by apply Ht|by apply last_Some_elem_of].
Qed.

Lemma rooted_frame v w w' rc T :
  rooted v w rc -> table_frame v (w_dev w) (w_dev w') rc T -> w_vol w' = w_vol w -> rooted v w' rc.
Proof.
  intros [Hg Hv Hch Ht Hd Hne Hfree] Hf Hw.
  destruct (chain_frame _ _ _ _ _ (root_cluster v) _ Hf Hd) as [C1 C2]; [intros x Hx HT; by apply (tf_root _ _ _ _ _ Hf x)|].
  pose proof (tf_count _ _ _ _ _ Hf) as Hcnt.
  split; auto; [by rewrite Hcnt|by rewrite Hw|by rewrite Hcnt|].
  intros x Hx H0x. rewrite Hcnt. destruct (decide (x ∈ T)) as [HxT|HxT].
  - by apply (proj1 (Forall_forall _ _) (tf_disk _ _ _ _ _ Hf)).
  - apply Hfree; [done|]. rewrite <- (tf_fat _ _ _ _ _ Hf); [done|lia|done].
Qed.


(** A file that an effect does not reach. *)
Lemma file_ok_frame v d d' cs f :
  sector_count d' = sector_count d ->
  (forall x, x ∈ cs -> fat_entry v d' x = fat_entry v d x) -> file_ok v d cs f -> file_ok v d' cs f.
Proof.
  intros Hcnt Hfat [Hch Ht Hd Hsz Hw Hp Hcur]. split; try done; [| |by rewrite Hcnt].
  - eapply chain_ext; [|exact Hch]. intros x Hx. by rewrite Hfat.
  - intros x Hx. rewrite Hfat; [by apply Ht|by apply last_Some_elem_of].
Qed.

(** Looking up a file in the root directory. *)
Lemma f_stat_run fuel v w rc name c k :
  geometry v (sector_count (w_dev w)) -> w_vol w = Some v ->
  chain (fat_entry v (w_dev w)) (root_cluster v) rc ->
  Forall (on_disk v (sector_count (w_dev w))) rc -> (length rc < fuel)%nat ->
  name <> [] -> Forall (fun b => b <> 0 /\ b <> SLASH) name ->
  lookup_entry name (dir_entries v (w_dev w) rc) = Some (c, k) ->
  exists info, f_stat fuel (SLASH :: name) w = (Ret info, w)
    /\ fi_attributes info = entry_attr (entry_at (cluster_data v (w_dev w) c) k)
    /\ fi_start_cluster info = entry_start (entry_at (cluster_data v (w_dev w) c) k)
    /\ fi_size info = entry_size (entry_at (cluster_data v (w_dev w) c) k).
Proof.
  intros Hg Hv Hrc Hdisk Hf Hne Hn Hlk.
  assert (Forall (fun b => b <> SLASH) name /\ Forall (fun b => b <> 0) name) as [Hsl H0n]
    by (split; (eapply Forall_impl; [exact Hn|]); by intros ? []).
  pose proof (find_in_chain_run fuel v w _ rc name Hg Hrc Hdisk Hf H0n) as Hfind. rewrite Hlk in Hfind.
  destruct (lookup_dir name v (w_dev w) rc c k Hlk) as (Hcin & Hk & _).
  pose proof (proj1 (Forall_forall _ _) Hdisk c Hcin) as Hc. eexists. split.
  - unfold f_stat, with_vol, find_entry_in_dir. rewrite Hv.
    run_with (resolve_root fuel v name w Hne Hsl). rewrite decide_False by done. run_with Hfind.
    cbn [ok_or]. unfold bind at 1, ret at 1. run_with (read_entry_run v w c k Hg Hc Hk). reflexivity.
  - by split_and!.
Qed.


(** A file stays stored when a free slot is filled, free clusters are used and
    the new name does not begin with its own. *)
Lemma stored_frame v d d' rc T c k t data ct kt cs :
  chain (fat_entry v d) (root_cluster v) rc -> terminated (fat_entry v d) rc ->
  Forall (on_disk v (sector_count d)) rc ->
  Forall (fun x => fat_entry v d x = 0) T -> effect v d d' T c -> only_entry v d d' c k ->
  first_slot (dir_entries v d rc) = Some (c, k) ->
  live (entry_at (cluster_data v d' c) k) = true -> matches t (entry_at (cluster_data v d' c) k) = false ->
  stored_at v d rc t data ct kt cs -> stored_at v d' rc t data ct kt cs.
Proof.
  intros Hrc Hrt Hrd HT Hef Honly Hslot Hlive Hm [Hlk Ha Hch Ht Hd Hne Hap Hsz Hdata].
  destruct (chain_effect _ _ _ _ _ _ _ Hrc Hrt Hrd HT Hef) as (HrT & _).
  destruct (chain_effect _ _ _ _ _ _ _ Hch Ht Hd HT Hef) as (HcT & Hch' & Ht' & Hd').
  destruct (slot_dir _ _ _ _ _ Hslot) as (Hc & _ & Hdead). destruct (lookup_dir _ _ _ _ _ _ Hlk) as (Hct & _ & Hmt).
  assert (forall x, x ∈ rc -> x <> c -> cluster_data v d' x = cluster_data v d x) as Hoth.
  { intros x Hx Hxc. apply (ef_data _ _ _ _ _ Hef); [by apply (proj1 (Forall_forall _ _) Hrd)|by apply HrT|done]. }
  assert (forall j, j <> k -> entry_at (cluster_data v d' c) j = entry_at (cluster_data v d c) j) as Hent
    by (intros j Hj; by apply (entry_at_outside _ _ k)).
  assert (entry_at (cluster_data v d' ct) kt = entry_at (cluster_data v d ct) kt) as He.
  { destruct (decide (ct = c)) as [->|Hn]; [|by rewrite Hoth]. apply Hent. intros ->.
    apply matches_live in Hmt. congruence. }
  assert (file_bytes v d' cs = file_bytes v d cs) as Hfb.
  { apply file_bytes_same. intros x Hx. apply (ef_data _ _ _ _ _ Hef);
      [by apply (proj1 (Forall_forall _ _) Hd)|by apply HcT|]. intros ->. by apply (Hap c). }
  split; try done; rewrite ?He, ?Hfb; try done.
  rewrite (dir_entries_update v d d' rc c k Hoth) by (intros; by apply Hent).
  destruct (slot_filled v d rc c k (chain_NoDup _ _ _ Hrc) Hslot) as (l & e & r & Heq & Hl & Hdl & Hrep).
  rewrite Hrep. rewrite Heq in Hlk. by eapply lookup_filled.
Qed.
End Files.

(** ** The demonstration volume *)

(** "COPY.BIN". *)
Definition copy_name : list Z := [67; 79; 80; 89; 46; 66; 73; 78].

(** The bytes of KERNEL.BIN. *)
Definition demo_data : list Z := demo_sector 0 ++ demo_sector 1 ++ take 276 (demo_sector 2).

Lemma demo_rooted : rooted demo_vol demo_world [2].
Proof.
  split; [exact demo_geometry|done|exact demo_root_chain| | |done|exact demo_free_on_disk].
  - intros x [= <-]. vm_compute. discriminate.
  - apply Forall_singleton, demo_on_disk. lia.
Qed.

Lemma demo_stored_at : stored_at demo_vol (w_dev demo_world) [2] demo_name demo_data 2 0 [3; 5; 4].
Proof.
  split.
  - vm_compute. reflexivity.
  - vm_compute. reflexivity.
  - exact demo_chain.
  - intros x [= <-]. vm_compute. discriminate.
  - repeat (constructor; [apply demo_on_disk; lia|]). constructor.
  - done.
  - intros x Hx ->%list_elem_of_singleton. revert Hx. by rewrite !elem_of_cons, elem_of_nil; lia.
  - vm_compute. discriminate.
  - vm_compute. reflexivity.
Qed.

Lemma demo_stored : stored demo_vol (w_dev demo_world) [2] demo_name demo_data.
Proof. exists 2, O, [3; 5; 4]. exact demo_stored_at. Qed.

Lemma demo_old_name : old_name demo_name.
Proof. split; [done|]. unfold demo_name, SLASH. repeat (apply Forall_cons; split; [lia|]). by apply Forall_nil. Qed.

Lemma demo_new_name : new_name copy_name.
Proof.
  split; [|by repeat constructor|done|by repeat constructor].
  apply (short_ext [67; 79; 80; 89] [66; 73; 78]); [cbn; lia|cbn; lia|..]; by repeat constructor.
Qed.
