(* ===== verification/FatCreate.v ===== *)
(** Creating a file, writing to it and writing its entry back, as an insertion
    into the volume's map of files. *)

From stdpp Require Import base numbers list gmap.
From Stdlib Require Import ZArith Lia.
From S2P Require Import Prelude Block Fat32 Fat32Dir Fat32File.
From S2P Require Import FatSpec FatChain FatCluster FatDirSpec FatFileSpec FatWrite FatFileTheorems FatSync FatDirUpdate FatFiles.

(** ** The bytes of a new entry *)

Lemma put_cluster_entry buf k c :
  (32 * k + 32 <= length buf)%nat -> 0 <= c < 2 ^ 32 ->
  let b := put_cluster (32 * k) c buf in
  length b = length buf /\ (bytes buf -> bytes b) /\
  (forall i, (i < 32 * k + 20 \/ 32 * k + 22 <= i < 32 * k + 26 \/ 32 * k + 28 <= i)%nat -> b !! i = buf !! i) /\
  entry_start (entry_at b k) = c.
Proof.
  intros Hb Hc b. set (lo := le_bytes 2 (Z.land c 65535)). set (hi := le_bytes 2 (Z.shiftr c 16)).
  assert (length lo = 2%nat /\ length hi = 2%nat) as [Hlo Hhi] by (unfold lo, hi; by rewrite !length_le_bytes).
  set (b1 := splice (32 * k + 26) lo buf). assert (b = splice (32 * k + 20) hi b1) as -> by done.
  assert (length b1 = length buf) as H1 by (unfold b1; apply length_splice; lia).
  split_and!.
  - rewrite length_splice; lia.
  - intros Hby. unfold b1, lo, hi. auto.
  - intros i Hi. rewrite splice_lookup_out by lia. unfold b1. by rewrite splice_lookup_out by lia.
  - unfold entry_start. rewrite !field_at by lia.
    pose proof (slice_splice_same (32 * k + 26) lo buf ltac:(lia)) as Hs1. fold b1 in Hs1.
    pose proof (slice_splice_same (32 * k + 20) hi b1 ltac:(lia)) as Hs2. rewrite Hlo in Hs1. rewrite Hhi in Hs2.
    rewrite Hs2. rewrite slice_splice_other, Hs1 by lia. by apply halves.
Qed.

Lemma length_encode_name name : short_name name -> length (encode_name name) = 11%nat.
Proof.
  intros [base Hb Hc|base ext Hb He Hcb Hce].
  - rewrite encode_short_base, length_app, length_pad by (done || lia). done.
  - rewrite encode_short_ext, length_app, !length_pad by (done || lia). done.
Qed.

Lemma bytes_encode_name name : short_name name -> bytes name -> bytes (encode_name name).
Proof.
  assert (forall n l, bytes l -> bytes (pad n l)) as Hpad.
  { intros n l Hl. apply Forall_app. split; [done|]. apply Forall_replicate. by cbv. }
  intros [base Hb Hc|base ext Hb He Hcb Hce] Hby.
  - rewrite encode_short_base by (done || lia). apply Forall_app. split; [by apply Hpad|]. repeat constructor; by cbv.
  - rewrite encode_short_ext by (done || lia). apply Forall_app in Hby as [H1 H2]. apply Forall_cons in H2 as [_ H2].
    apply Forall_app. split; by apply Hpad.
Qed.

(** The first twelve bytes of an entry for [name]: what the search sees. *)
Definition named (name e : list Z) : Prop := take 12 e = encode_name name ++ [ATTR_ARCHIVE].

(** A name reads back from the eleven bytes that hold it. *)
Lemma name_seen name e :
  new_name name -> take 11 e = encode_name name ->
  entry_name e = name /\ live e = true /\
  (is_hidden (entry_attr e) = false -> forall t, matches t e = ci_prefix t name).
Proof.
  intros [Hs _ Hl _] Hn. pose proof (length_encode_name name Hs) as Hlen.
  assert (take 11 e = take 11 (encode_name name)) as Heq by (rewrite Hn; symmetry; apply take_ge; lia).
  destruct (seen 11 _ _ ltac:(lia) Heq) as [Hb He]. rewrite <- (app_nil_r (encode_name name)), short_name_roundtrip in He by done.
  assert (exists x rest, encode_name name = x :: rest /\ head name = Some x /\ x <> 0) as (x & rest & Hx & Hh & H0).
  { destruct Hs as [base Hbl Hc|base ext Hbl Hel Hc Hce].
    - rewrite encode_short_base by done. destruct base as [|x base]; [cbn in Hbl; lia|].
      apply Forall_cons in Hc as [(H0 & _) _]. by eexists x, _.
    - rewrite encode_short_ext by done. destruct base as [|x base]; [cbn in Hbl; lia|].
      apply Forall_cons in Hc as [(H0 & _) _]. by eexists x, _. }
  assert (live e = true) as Hlive.
  { apply live_spec. rewrite Hb by lia. rewrite Hx. cbn. split; [done|]. intros ->. by apply Hl. }
  split_and!; try done. intros Ha t. unfold matches. rewrite Ha, Hlive, He.
  rewrite bool_decide_eq_false_2; [done|]. by destruct name.
Qed.

Lemma named_spec name e :
  new_name name -> named name e ->
  entry_name e = name /\ entry_attr e = ATTR_ARCHIVE /\ live e = true /\
  forall t, matches t e = ci_prefix t name.
Proof.
  intros Hnn Hn. pose proof (length_encode_name name (nn_short _ Hnn)) as Hlen.
  assert (entry_attr e = ATTR_ARCHIVE) as Ha.
  { unfold entry_attr. rewrite <- (byte_at_take 12 e 11), Hn by lia. unfold byte_at. by rewrite lookup_app_r, Hlen by lia. }
  destruct (name_seen name e Hnn) as (H1 & H2 & H3).
  - assert (take 11 e = take 11 (take 12 e)) as -> by (by rewrite take_take). rewrite Hn, <- Hlen. apply take_app_length.
  - split_and!; try done. apply H3. by rewrite Ha.
Qed.

Lemma new_entry_named buf k name c :
  (32 * k + 32 <= length buf)%nat -> 0 <= c < 2 ^ 32 -> short_name name ->
  let b := new_entry (32 * k) name c buf in
  length b = length buf /\ (bytes buf -> bytes name -> bytes b) /\
  (forall i, (i < 32 * k \/ 32 * k + 32 <= i)%nat -> b !! i = buf !! i) /\
  named name (entry_at b k) /\ entry_start (entry_at b k) = c /\ entry_size (entry_at b k) = entry_size (entry_at buf k).
Proof.
  intros Hb Hc Hs b. pose proof (length_encode_name name Hs) as Hlen.
  set (src := encode_name name ++ [ATTR_ARCHIVE]).
  assert (length src = 12%nat) as Hsrc by (unfold src; rewrite length_app, Hlen; done).
  set (b1 := splice (32 * k) src buf).
  assert (length b1 = length buf) as H1 by (unfold b1; apply length_splice; lia).
  destruct (put_cluster_entry b1 k c ltac:(lia) Hc) as (E1 & E2 & E3 & E4).
  change (put_cluster (32 * k) c b1) with b in *.
  assert (forall o n, (o + n <= 20 \/ 28 <= o)%nat -> (o + n <= 32)%nat ->
    take n (drop (32 * k + o) b) = take n (drop (32 * k + o) b1)) as Hf.
  { intros o n Ho Hn. apply list_eq. intros i. destruct (decide (i < n)%nat).
    - rewrite !lookup_take_lt, !lookup_drop by done. apply E3. lia.
    - by rewrite !lookup_take_ge by lia. }
  split_and!.
  - lia.
  - intros Hby Hnm. apply E2. unfold b1, src. apply bytes_splice; [|done]. apply Forall_app.
    split; [by apply bytes_encode_name|]. repeat constructor; by cbv.
  - intros i Hi. rewrite E3 by lia. unfold b1. apply splice_lookup_out; lia.
  - unfold named. rewrite <- (drop_0 (entry_at b k)), field_at, Hf by lia. rewrite Nat.add_0_r.
    pose proof (slice_splice_same (32 * k) src buf ltac:(lia)) as Hss. by rewrite Hsrc in Hss.
  - exact E4.
  - unfold entry_size, le32_at. rewrite !field_at, Hf by lia. unfold b1. by rewrite slice_splice_other by lia.
Qed.

Lemma new_name_ok name : new_name name -> name <> [] /\ Forall (fun b => b <> 0) name.
Proof.
  intros Hnn. split.
  - destruct (nn_short _ Hnn) as [[|]|[|]]; done || cbn in *; lia.
  - destruct (nn_short _ Hnn) as [base _ Hb|base ext _ _ Hb He]; [by eapply Forall_impl; [exact Hb|]; intros ? []|].
    apply Forall_app. split; [by eapply Forall_impl; [exact Hb|]; intros ? []|]. constructor; [done|].
    by eapply Forall_impl; [exact He|]; intros ? [].
Qed.

Section Create.
Context {D : Type} `{ReliableDevice D}.

(** A new file from its creation on: its entry is at [k] of cluster [c], its
    clusters [cs] were free on the device [d0] before. *)
Record fresh v d0 d (name : list Z) (c : Z) (k : nat) (cs : list Z) f : Prop := {
  fr_effect : effect v d0 d cs c;
  fr_entry : only_entry v d0 d c k;
  fr_free : Forall (fun x => fat_entry v d0 x = 0) cs;
  fr_file : file_ok v d cs f;
  fr_some : cs <> [];
  fr_place : f_dir_sector f = c /\ f_dir_offset f = Z.of_nat k;
  fr_modified : f_modified f = true;
  fr_named : named name (entry_at (cluster_data v d c) k);
}.

(** ** Creation *)

Lemma new_chain v d new :
  fat_entry v d new = CHAIN_END -> 2 <= new < END_OF_CHAIN ->
  chain (fat_entry v d) new [new] /\ terminated (fat_entry v d) [new].
Proof.
  intros He Hn. split; [split_and!; [done|by apply is_cluster_iff|by rewrite He]|].
  intros x [= <-]. by rewrite He.
Qed.

Lemma slot_fits v d c k :
  geometry v (sector_count d) -> on_disk v (sector_count d) c -> (k < entries_per_cluster v)%nat ->
  (32 * k + 32 <= length (cluster_data v d c))%nat.
Proof.
  intros Hg Hc Hk. destruct (cluster_data_length v d c Hg Hc) as [-> _]. unfold entries_per_cluster in Hk.
  pose proof (Nat.Div0.mul_div_le (cluster_size v) 32). lia.
Qed.

(** Taking a free cluster. *)
Lemma alloc_effect v w rc c :
  rooted v w rc -> (0 < free_count v (fat_entry v (w_dev w)))%nat ->
  exists d1 new, alloc_cluster v w = (Ret new, set_dev d1 w)
    /\ effect v (w_dev w) d1 [new] c /\ fat_entry v (w_dev w) new = 0 /\ fat_entry v d1 new = CHAIN_END
    /\ on_disk v (sector_count d1) new /\ 2 <= new < END_OF_CHAIN
    /\ (forall x, on_disk v (sector_count (w_dev w)) x -> cluster_data v d1 x = cluster_data v (w_dev w) x).
Proof.
  intros [Hg Hv _ _ _ _ Hfree] (c0 & Hc0 & Hz0)%free_count_pos.
  destruct (alloc_cluster_run v w c0 Hg Hc0 Hz0) as (new & d1 & Hrun & Hn & Hz & _ & Hchg).
  pose proof (entries_bounds _ _ Hg) as He.
  assert (forall x, on_disk v (sector_count (w_dev w)) x -> cluster_data v d1 x = cluster_data v (w_dev w) x) as Hdata
    by (intros x Hx; by eapply cluster_data_table).
  exists d1, new. split_and!; try done.
  - split; [apply (fc_count _ _ _ _ Hchg)| |by intros; apply Hdata].
    intros x Hx Hxn. rewrite (fc_entry _ _ _ _ Hchg) by done. rewrite upd_other; [done|].
    intros ->. apply Hxn. by apply list_elem_of_singleton.
  - rewrite (fc_entry _ _ _ _ Hchg) by lia. apply upd_same.
  - rewrite (fc_count _ _ _ _ Hchg). by apply Hfree.
  - lia.
  - unfold END_OF_CHAIN in *. lia.
Qed.

Lemma f_open_new_run fuel v w rc name flags c k :
  rooted v w rc -> (length rc < fuel)%nat -> new_name name ->
  lookup_entry name (dir_entries v (w_dev w) rc) = None ->
  Z.land flags (Z.lor (Z.lor FA_CREATE_NEW FA_CREATE_ALWAYS) FA_OPEN_ALWAYS) <> 0 ->
  (0 < free_count v (fat_entry v (w_dev w)))%nat ->
  first_slot (dir_entries v (w_dev w) rc) = Some (c, k) ->
  exists d' f new, f_open fuel (SLASH :: name) flags w = (Ret f, set_dev d' w)
    /\ fresh v (w_dev w) d' name c k [new] f
    /\ f_size f = 0 /\ f_position f = 0 /\ f_flags f = flags /\ f_start_cluster f = new
    /\ entry_start (entry_at (cluster_data v d' c) k) = new
    /\ entry_size (entry_at (cluster_data v d' c) k) = entry_size (entry_at (cluster_data v (w_dev w) c) k).
Proof.
  intros Hrt Hf Hnn Hlk Hfl Hpos Hslot. pose proof Hrt as [Hg Hv Hch Ht Hd Hne _].
  destruct (alloc_effect v w rc c Hrt Hpos) as (d1 & new & Ralloc & Hef & Hz & Hend & Hdn & Hn & Hdata).
  assert (Forall (fun x => fat_entry v (w_dev w) x = 0) [new]) as HT by by apply Forall_singleton.
  pose proof (rooted_effect v w (set_dev d1 w) rc [new] c Hrt HT Hef eq_refl) as [Hg1 _ Hch1 Ht1 Hd1 _ _].
  destruct (slot_dir _ _ _ _ _ Hslot) as (Hc & Hk & _).
  pose proof (proj1 (Forall_forall _ _) Hd c Hc) as Hcd. pose proof (proj1 (Forall_forall _ _) Hd1 c Hc) as Hcd1.
  cbn [w_dev set_dev] in *.
  pose proof (slot_in_chain_run fuel v (set_dev d1 w) _ rc Hg1 Hch1 Ht1 Hd1 Hne Hf) as Rslot. cbn [w_dev set_dev] in Rslot.
  rewrite (dir_entries_same v (w_dev w) d1 rc), Hslot in Rslot
    by (intros x Hx; apply Hdata; by apply (proj1 (Forall_forall _ _) Hd)).
  set (buf := cluster_data v d1 c) in *. destruct (cluster_data_length v d1 c Hg1 Hcd1) as [Hl Hby].
  pose proof (slot_fits v d1 c k Hg1 Hcd1 Hk) as Hfit. fold buf in Hl, Hby, Hfit.
  destruct (new_entry_named buf k name new Hfit ltac:(unfold END_OF_CHAIN in *; lia) (nn_short _ Hnn)) as (E1 & E2 & E3 & E4 & E5 & E6).
  destruct (write_cluster_run v (set_dev d1 w) c (new_entry (32 * k) name new buf) Hg1 Hcd1) as (d2 & Rw & Hset);
    [by rewrite E1|apply E2; [done|apply (nn_bytes _ Hnn)]|].
  cbn [w_dev set_dev] in Hset. pose proof (cs_same _ _ _ _ _ Hset) as Hsame.
  assert (fat_entry v d2 new = CHAIN_END) as Hend2
    by (rewrite (cs_table _ _ _ _ _ Hset); [done|by eapply on_disk_entries]).
  destruct (new_chain v d2 new Hend2 Hn) as [Hchn Htn]. destruct (csize_nat _ _ Hg) as [_ Hcs].
  exists d2, (mkFile 0 0 new new 0 0 flags c (Z.of_nat k) true FOk), new. split_and!; try done; rewrite ?Hsame; try done.
  - destruct (new_name_ok name Hnn) as [Hnm H0n].
    unfold f_open, with_vol, find_entry_in_dir. rewrite Hv.
    run_with (resolve_root fuel v name w Hnm (nn_slash _ Hnn)).
    pose proof (find_in_chain_run fuel v w _ rc name Hg Hch Hd Hf H0n) as Rfind. rewrite Hlk in Rfind. run_with Rfind.
    rewrite (proj2 (Z.eqb_neq _ _) Hfl). run_with Ralloc. run_with Rslot. by run_with Rw.
  - split; try done; rewrite ?Hsame; try done.
    + eapply effect_trans; [exact Hef|]. by eapply effect_cluster.
    + intros i Hi. rewrite Hsame, E3 by done. unfold buf. by rewrite Hdata.
    + split; try done; cbn [f_size f_position length]; try lia.
      * apply Forall_singleton. by rewrite (cs_count _ _ _ _ _ Hset).
      * split; [done|]. destruct (Z.ltb_spec 0 (Z.of_nat (length [new]) * csize v)); [|cbn in *; lia].
        by rewrite Z.div_0_l, Z.mod_0_l by lia.
  - rewrite E6. unfold buf. by rewrite Hdata.
Qed.

(** ** Writing the entry back *)

(** [f_sync] in terms of the directory's cluster. *)
Lemma f_sync_entry_run v w f c k :
  geometry v (sector_count (w_dev w)) -> w_vol w = Some v -> on_disk v (sector_count (w_dev w)) c ->
  f_dir_sector f = c -> f_dir_offset f = Z.of_nat k -> (k < 16)%nat -> f_modified f = true ->
  0 <= f_size f < 2 ^ 32 -> 0 <= f_start_cluster f < 2 ^ 32 ->
  exists w' buf, f_sync (w, f) = (Ret tt, (w', set_size (f_size f) false f)) /\ w_vol w' = w_vol w
    /\ cluster_set v (w_dev w) (w_dev w') c buf
    /\ entry_size (entry_at buf k) = f_size f /\ entry_start (entry_at buf k) = f_start_cluster f
    /\ forall i, (i < 32 * k + 20 \/ 32 * k + 22 <= i < 32 * k + 26 \/ 32 * k + 32 <= i)%nat ->
         buf !! i = cluster_data v (w_dev w) c !! i.
Proof.
  intros Hg Hv Hc Hds Hdo Hk Hm Hsz Hst.
  pose proof (cluster_lba_run v _ c Hg Hc) as Hlba. destruct (cluster_lba_range v _ c Hg Hc) as [Hr1 Hr2].
  pose proof (g_spc _ _ Hg) as Hspc.
  destruct (f_sync_run v w f Hv Hm) as (w' & b & b' & R & _ & Hvol & Hcnt & Hb & Hb' & Hes & Hec & Hsame & Hoth);
    [lia|rewrite Hds, Hlba; lia|done|done|]. cbv zeta in *.
  rewrite Hds, Hlba in *. rewrite Hdo, Nat2Z.id in *.
  pose proof (read_valid _ _ _ Hb) as [Hl _]. pose proof (read_valid _ _ _ Hb') as [Hl' _]. unfold SECTOR_SIZE in *.
  assert (splice 0 b' b = b') as Hsp
    by (unfold splice; rewrite drop_ge by lia; cbn [take app]; by rewrite app_nil_r).
  assert (cluster_set v (w_dev w) (w_dev w') c (splice 0 b' (cluster_data v (w_dev w) c))) as Hset.
  { apply (cluster_put v (w_dev w) (w_dev w') c 0 0 b' b Hg Hc); rewrite ?Z.add_0_r, ?Hsp; done || lia. }
  assert (forall i, (i < 512)%nat -> cluster_data v (w_dev w) c !! i = b !! i) as Hfirst.
  { intros i Hi. unfold cluster_data. destruct (Z.to_nat (sectors_per_cluster v)) as [|n] eqn:Hn; [lia|].
    cbn [sectors]. rewrite Hb. cbn [default]. unfold id. by rewrite lookup_app_l by lia. }
  destruct (cluster_data_length v (w_dev w) c Hg Hc) as [Hlen _]. unfold cluster_size, SECTOR_SIZE in Hlen.
  set (buf := splice 0 b' (cluster_data v (w_dev w) c)) in *.
  assert (forall i, (i < 512)%nat -> buf !! i = b' !! i) as Hin.
  { intros i Hi. unfold buf. rewrite splice_lookup_in by lia. f_equal. lia. }
  assert (entry_at buf k = entry_at b' k) as He.
  { apply list_eq. intros i. destruct (decide (i < 32)%nat); [|by unfold entry_at; rewrite !lookup_take_ge by lia].
    rewrite !entry_at_lookup by done. apply Hin. lia. }
  exists w', buf. rewrite He. split_and!; try done. intros i Hi. destruct (decide (i < 512)%nat).
  - by rewrite Hin, Hsame, Hfirst.
  - unfold buf. apply splice_lookup_out; lia.
Qed.

(** ** Appending *)

Lemma free_count_le v (f g : Z -> Z) T :
  (forall x, 0 <= x < entries v -> f x = 0 -> ~ (x ∈ T) -> g x = 0) ->
  (free_count v f <= free_count v g + length T)%nat.
Proof.
  intros Hfg. unfold free_count. rewrite <- length_app. apply submseteq_length, NoDup_submseteq.
  - apply NoDup_filter. apply NoDup_seqZ.
  - intros x [Hz Hx]%list_elem_of_filter. apply elem_of_app. destruct (decide (x ∈ T)) as [Hin|Hin]; [by right|left].
    apply list_elem_of_filter. split; [|done]. apply data_clusters_elem in Hx. apply Hfg; [lia|done|done].
Qed.

Lemma free_count_grown v d d' cs new s :
  grown v d d' cs (cs ++ new) -> chain (fat_entry v d) s cs -> terminated (fat_entry v d) cs ->
  (free_count v (fat_entry v d) <= free_count v (fat_entry v d') + length new)%nat.
Proof.
  intros Hg Hch Ht. apply free_count_le. intros x Hx Hz Hin. rewrite (gr_fat _ _ _ _ _ Hg); [done|done|].
  rewrite elem_of_app. intros [Hc|Hc]; [|done]. by apply (chain_not_free _ _ _ _ Hch Ht Hc).
Qed.

Lemma free_count_effect v d d' T c :
  effect v d d' T c -> (free_count v (fat_entry v d) <= free_count v (fat_entry v d') + length T)%nat.
Proof. intros Hef. apply free_count_le. intros x Hx Hz HT. by rewrite (ef_fat _ _ _ _ _ Hef). Qed.

(** A cluster of the root directory is none of the free ones. *)
Lemma root_not_free v w rc T c :
  rooted v w rc -> Forall (fun x => fat_entry v (w_dev w) x = 0) T -> c ∈ rc -> ~ (c ∈ T).
Proof.
  intros [_ _ Hch Ht _ _ _] HT Hc HcT. apply (chain_not_free _ _ _ _ Hch Ht Hc).
  by apply (proj1 (Forall_forall _ _) HT).
Qed.

Lemma fresh_rooted v w0 w rc name c k cs f :
  rooted v w0 rc -> w_vol w = Some v -> fresh v (w_dev w0) (w_dev w) name c k cs f -> rooted v w rc.
Proof.
  intros Hrt Hv [Hef _ Hfree _ _ _ _ _]. apply (rooted_effect v w0 w rc cs c); try done.
  by rewrite Hv, (rt_mounted _ _ _ Hrt).
Qed.

Lemma fresh_write_run v w0 w rc name c k cs f buf :
  rooted v w0 rc -> w_vol w = Some v -> c ∈ rc -> fresh v (w_dev w0) (w_dev w) name c k cs f ->
  f_position f = f_size f -> lacks f FA_WRITE = false -> writable_at v cs (f_position f) -> bytes buf ->
  f_position f + Z.of_nat (length buf) < 2 ^ 32 ->
  clusters_needed v (length cs) (f_position f) (Z.of_nat (length buf)) <=
    Z.of_nat (free_count v (fat_entry v (w_dev w))) ->
  exists d' new f', f_write buf (w, f) = (Ret (Z.of_nat (length buf)), (set_dev d' w, f'))
    /\ fresh v (w_dev w0) d' name c k (cs ++ new) f'
    /\ f_position f' = f_position f + Z.of_nat (length buf) /\ f_size f' = f_position f' /\ f_flags f' = f_flags f
    /\ contents v d' (cs ++ new) f' = contents v (w_dev w) cs f ++ buf
    /\ (buf <> [] -> f_position f' < Z.of_nat (length (cs ++ new)) * csize v)
    /\ (free_count v (fat_entry v (w_dev w)) <= free_count v (fat_entry v d') + length new)%nat
    /\ Forall (fun x => fat_entry v (w_dev w) x = 0) new
    /\ (forall x, on_disk v (sector_count (w_dev w)) x -> ~ (x ∈ cs ++ new) -> cluster_data v d' x = cluster_data v (w_dev w) x)
    /\ (forall x, 0 <= x < entries v -> ~ (x ∈ cs ++ new) -> fat_entry v d' x = fat_entry v (w_dev w) x)
    /\ sector_count d' = sector_count (w_dev w).
Proof.
  intros Hrt Hv Hc Hfr Hap Hfl Hwr Hby H32 Hsp.
  pose proof (fresh_rooted _ _ _ _ _ _ _ _ _ Hrt Hv Hfr) as [Hg _ Hch Ht Hd _ Hfree].
  destruct Hfr as [Hef Hent Hfree0 Hok Hne Hpl Hm Hnam].
  destruct (f_write_run v w f cs buf Hg Hv Hok Hfl Hwr Hby H32 Hfree Hsp)
    as (d' & cs' & f' & Hrun & Hok' & Hgr & Hpos & Hsz & (S1 & S2 & S3 & S4) & Hin & Hb).
  pose proof Hgr as Hgr0. destruct (gr_new _ _ _ _ _ Hgr) as (new & -> & Hnew).
  assert (Forall (fun x => fat_entry v (w_dev w) x = 0) new) as Hz by (eapply Forall_impl; [exact Hnew|]; by intros ? []).
  pose proof Hok as [Hfc Hft _ _ _ _ _].
  assert (Forall (fun x => fat_entry v (w_dev w0) x = 0) (cs ++ new)) as Hall.
  { apply Forall_app. split; [done|]. apply Forall_forall. intros x Hx. rewrite Forall_forall in Hnew.
    destruct (Hnew x Hx) as [Hxd Hxz]. rewrite <- Hxz. symmetry. apply (ef_fat _ _ _ _ _ Hef).
    - by eapply on_disk_entries.
    - intros Hxc. by apply (chain_not_free _ _ _ _ Hfc Hft Hxc). }
  assert (cluster_data v d' c = cluster_data v (w_dev w) c) as Hdc.
  { apply (gr_data _ _ _ _ _ Hgr); [by apply (proj1 (Forall_forall _ _) Hd)|].
    by apply (root_not_free v w0 rc). }
  exists d', new, f'. split_and!; try done; try apply Hgr; try lia.
  - split; try done; rewrite ?Hdc; try done.
    + eapply effect_trans; [|by eapply effect_grown]. eapply effect_more; [|exact Hef].
      intros x Hx. apply elem_of_app. by left.
    + intros i Hi. rewrite Hdc. by apply Hent.
    + destruct cs; done.
    + destruct Hpl as [P1 P2]. by rewrite S1, S2.
    + by apply S4.
  - rewrite (contents_written v (w_dev w) d' cs _ f f' buf Hg Hok Hok' Hgr Hsz Hb).
    pose proof (contents_length v (w_dev w) cs f Hg Hok) as Hl.
    rewrite Hap, take_ge, drop_ge, app_nil_r by lia. done.
  - intros Hbn. by apply Hin.
  - by eapply free_count_grown.
Qed.

(** ** The end of a new file *)

Lemma fresh_sync_run v w0 w rc name c k cs f :
  rooted v w0 rc -> w_vol w = Some v -> new_name name ->
  lookup_entry name (dir_entries v (w_dev w0) rc) = None ->
  first_slot (dir_entries v (w_dev w0) rc) = Some (c, k) -> (k < 16)%nat ->
  fresh v (w_dev w0) (w_dev w) name c k cs f ->
  exists w', f_sync (w, f) = (Ret tt, (w', set_size (f_size f) false f)) /\ rooted v w' rc
    /\ stored v (w_dev w') rc name (contents v (w_dev w) cs f)
    /\ forall t data, ci_prefix t name = false -> stored v (w_dev w0) rc t data -> stored v (w_dev w') rc t data.
Proof.
  intros Hrt0 Hv Hnn Hlk Hslot Hk Hfr.
  pose proof (fresh_rooted _ _ _ _ _ _ _ _ _ Hrt0 Hv Hfr) as Hrt.
  destruct Hfr as [Hef Hent Hfree0 Hok Hne [Hpl1 Hpl2] Hm Hnam].
  destruct (slot_dir _ _ _ _ _ Hslot) as (Hc & _ & _).
  pose proof (proj1 (Forall_forall _ _) (rt_disk _ _ _ Hrt) c Hc) as Hcd. pose proof (rt_geometry _ _ _ Hrt) as Hg.
  assert (exists s cs', cs = s :: cs' /\ f_start_cluster f = s /\ is_cluster s = true) as (s & cs' & Hcs & Hs & Hscl).
  { destruct cs as [|s cs']; [done|]. destruct (fo_chain _ _ _ _ Hok) as (-> & Hcl & _). by eexists _, _. }
  apply is_cluster_iff in Hscl.
  destruct (f_sync_entry_run v w f c k Hg Hv Hcd Hpl1 Hpl2 Hk Hm) as (w' & buf & R & Hvol & Hset & Hes & Hst & Hout);
    [pose proof (fo_size _ _ _ _ Hok); pose proof (fo_width _ _ _ _ Hok); lia|rewrite Hs; unfold END_OF_CHAIN in *; lia|].
  pose proof (cs_same _ _ _ _ _ Hset) as Hbuf.
  assert (effect v (w_dev w0) (w_dev w') cs c) as Hef' by (eapply effect_trans; [exact Hef|by eapply effect_cluster]).
  assert (only_entry v (w_dev w0) (w_dev w') c k) as Honly
    by (intros i Hi; rewrite Hbuf, Hout by lia; by apply Hent).
  assert (named name (entry_at buf k)) as Hnam'.
  { unfold named. rewrite <- Hnam. apply list_eq. intros i. destruct (decide (i < 12)%nat).
    - rewrite !lookup_take_lt, !entry_at_lookup by lia. apply Hout. lia.
    - by rewrite !lookup_take_ge by lia. }
  destruct (named_spec name _ Hnn Hnam') as (Hen & Hattr & Hlive & Hmt).
  assert (rooted v w' rc) as Hrt' by (apply (rooted_effect v w0 w' rc cs c); try done; by rewrite Hvol, Hv, (rt_mounted _ _ _ Hrt0)).
  exists w'. split_and!; [done|done| |].
  - assert (forall x, x ∈ cs -> on_disk v (sector_count (w_dev w)) x /\ x <> c) as Hcs2.
    { intros x Hx. split; [by apply (proj1 (Forall_forall _ _) (fo_disk _ _ _ _ Hok))|]. intros ->.
      by apply (root_not_free v w0 rc cs c). }
    assert (forall x, x ∈ cs -> fat_entry v (w_dev w') x = fat_entry v (w_dev w) x) as Hfat.
    { intros x Hx. apply (cs_table _ _ _ _ _ Hset). eapply on_disk_entries. by apply Hcs2. }
    exists c, k, cs. split; rewrite ?Hbuf, ?Hes, ?Hst; try done.
    + rewrite (dir_entries_update v (w_dev w0) (w_dev w') rc c k), Hbuf.
      * destruct (slot_filled v (w_dev w0) rc c k (chain_NoDup _ _ _ (rt_chain _ _ _ Hrt0)) Hslot) as (l & e & r & Heq & Hl & _ & Hrep).
        rewrite Hrep. rewrite Heq in Hlk. apply (lookup_put name l c k e); [done| |done]. rewrite Hmt. apply ci_prefix_refl.
      * intros x Hx Hxc. apply (ef_data _ _ _ _ _ Hef'); [by apply (proj1 (Forall_forall _ _) (rt_disk _ _ _ Hrt0))| |done].
        by apply (root_not_free v w0 rc).
      * intros j Hj _. by apply (entry_at_outside _ _ k).
    + by rewrite Hattr.
    + eapply chain_ext; [|apply (fo_chain _ _ _ _ Hok)]. intros x Hx. by rewrite Hfat.
    + intros x Hx. rewrite Hfat; [by apply (fo_term _ _ _ _ Hok)|]. by apply last_Some_elem_of.
    + rewrite (cs_count _ _ _ _ _ Hset). apply (fo_disk _ _ _ _ Hok).
    + intros x Hx Hrc. by apply (root_not_free v w0 rc cs x).
    + apply (fo_size _ _ _ _ Hok).
    + unfold contents. f_equal. apply file_bytes_same. intros x Hx. destruct (Hcs2 x Hx) as [Hxd Hxc].
      by apply (cs_other _ _ _ _ _ Hset).
  - intros t data Hpre. intros (ct & kt & cst & Hsa). exists ct, kt, cst.
    apply (stored_frame v (w_dev w0) (w_dev w') rc cs c k); try done; try apply Hrt0; rewrite ?Hbuf; try done.
    by rewrite Hmt.
Qed.
End Create.
