(* ===== verification/FatResize.v ===== *)
(** Changing a file's size: [f_truncate] and [f_expand]. *)

From stdpp Require Import base numbers list gmap.
From Stdlib Require Import ZArith Lia.
From S2P Require Import Prelude Block Fat32 Fat32Dir Fat32File.
From S2P Require Import FatSpec FatChain FatCluster FatFileSpec FatWrite FatDemo FatFileTheorems FatFiles.

(** ** Chains cut *)

Lemma chain_cut f g c l x r :
  chain f c (l ++ x :: r) -> (forall y, y ∈ l -> g y = f y) -> is_cluster (g x) = false -> chain g c (l ++ [x]).
Proof.
  revert c. induction l as [|y l IH]; intros c Hch Hl Hx; cbn [app chain] in *.
  - destruct Hch as (-> & Hc & _). by split_and!.
  - destruct Hch as (-> & Hc & Hch). split_and!; [done|done|]. rewrite (Hl c) by (apply elem_of_cons; by left).
    apply IH; [done| |done]. intros z Hz. apply Hl, elem_of_cons. by right.
Qed.

Section Resize.
Context {D : Type} `{ReliableDevice D}.

(** ** Truncation *)

Lemma f_truncate_run fuel v w f cs :
  geometry v (sector_count (w_dev w)) -> w_vol w = Some v -> file_ok v (w_dev w) cs f ->
  lacks f FA_WRITE = false -> f_position f < Z.of_nat (length cs) * csize v -> (length cs < fuel)%nat ->
  let i := Z.to_nat (f_position f / csize v) in
  exists d', f_truncate fuel (w, f) = (Ret tt, (set_dev d' w, set_size (f_position f) true f))
    /\ file_ok v d' (take (S i) cs) (set_size (f_position f) true f)
    /\ (forall x, 0 <= x < entries v -> x ∈ drop (S i) cs -> fat_entry v d' x = 0)
    /\ (forall x, 0 <= x < entries v -> ~ (x ∈ cs) -> fat_entry v d' x = fat_entry v (w_dev w) x)
    /\ (forall x, on_disk v (sector_count (w_dev w)) x -> cluster_data v d' x = cluster_data v (w_dev w) x)
    /\ sector_count d' = sector_count (w_dev w).
Proof.
  intros Hg Hv Hok Hl Hpos Hfuel i. pose proof Hok as [Hch Ht Hd Hsz Hw Hp Hcur].
  destruct (csize_nat _ _ Hg) as [_ Hcs]. pose proof (entries_bounds _ _ Hg) as Hen. unfold END_OF_CHAIN in Hen.
  destruct (cursor_in_chain v _ cs (f_position f) f Hg ltac:(lia) Hcur) as (Hi & Hs & Hb & _). fold i in Hi.
  set (x := f_current_cluster f) in *.
  assert (cs = take i cs ++ x :: drop (S i) cs) as Heq by (symmetry; by apply take_drop_middle).
  pose proof (chain_NoDup _ _ _ Hch) as Hnd. pose proof Hd as Hd'. rewrite Heq in Hd'.
  apply Forall_app in Hd' as [Hd1 [Hxd Hd2]%Forall_cons]. pose proof (on_disk_entries _ _ _ Hxd) as Hxr.
  assert (chain (fat_entry v (w_dev w)) (fat_entry v (w_dev w) x) (drop (S i) cs)) as Hch2.
  { rewrite Heq in Hch. apply chain_tail_of in Hch. cbn [chain] in Hch. by destruct Hch as (_ & _ & Hch). }
  rewrite Heq in Hnd. apply NoDup_app in Hnd as (Hnd1 & Hdisj & [Hx2 Hnd2]%NoDup_cons).
  assert (forall y, y ∈ take i cs -> y <> x /\ ~ (y ∈ drop (S i) cs)) as Hfirst.
  { intros y Hy. split; [intros ->|intros Hin]; apply (Hdisj _ Hy), elem_of_cons; auto. }
  destruct (free_chain_run fuel v w _ _ Hg Hch2 Hnd2) as (d1 & R1 & Hchg1).
  { eapply Forall_impl; [exact Hd2|]. intros y Hy. by apply on_disk_entries in Hy as [_ ?]. }
  { rewrite length_drop. lia. }
  assert (geometry v (sector_count (w_dev (set_dev d1 w)))) as Hg1 by (by eapply fat_change_geometry).
  destruct (write_fat_change v (set_dev d1 w) x CHAIN_END Hg1 Hxr ltac:(unfold CHAIN_END; lia)) as (d2 & R2 & Hchg2).
  cbn [w_dev set_dev] in *.
  assert (is_cluster x = true) as Hxc by (pose proof (chain_clusters _ _ _ Hch) as Hcl; by apply (Forall_lookup_1 _ _ _ _ Hcl Hi)).
  apply is_cluster_iff in Hxc.
  assert (forall y, 0 <= y < entries v -> fat_entry v d2 y =
    if decide (y = x) then CHAIN_END else if decide (y ∈ drop (S i) cs) then 0 else fat_entry v (w_dev w) y) as Hfat.
  { intros y Hy. rewrite (fc_entry _ _ _ _ Hchg2) by done. unfold upd. destruct (Z.eqb_spec y x) as [->|Hne].
    - by rewrite decide_True.
    - rewrite decide_False by done. by rewrite (fc_entry _ _ _ _ Hchg1). }
  assert (sector_count d2 = sector_count (w_dev w)) as Hcnt by (by rewrite (fc_count _ _ _ _ Hchg2), (fc_count _ _ _ _ Hchg1)).
  assert (take (S i) cs = take i cs ++ [x]) as Htake by (by apply take_S_r).
  assert (length (take (S i) cs) = S i) as Hlen by (apply lookup_lt_Some in Hi; rewrite length_take; lia).
  assert (0 <= f_position f / csize v) as Hdiv by (apply Z.div_pos; lia).
  pose proof (Z.div_mod (f_position f) (csize v) ltac:(lia)) as Hdm. pose proof (Z.mod_pos_bound (f_position f) (csize v) ltac:(lia)) as Hmb.
  assert (f_position f < Z.of_nat (S i) * csize v) as Hroom by (unfold i; nia).
  exists d2. split_and!.
  - unfold f_truncate, get_file. unfold bind at 1. cbn [gets fst snd]. rewrite Hl.
    run_with (vol_io_run v w f _ _ w Hv (read_fat_run v w x Hg Hxr)).
    run_with (vol_io_run v w f (fun v' => free_chain fuel v' (fat_entry v (w_dev w) x)) tt _ Hv R1).
    fold x. rewrite (proj2 (Z.leb_le 2 x)) by lia.
    by run_with (vol_io_run v (set_dev d1 w) f (fun v => write_fat_entry v x CHAIN_END) tt _ Hv R2).
  - rewrite Htake in *. split; cbn [set_size f_start_cluster f_size f_position].
    + rewrite Heq in Hch. eapply chain_cut; [exact Hch| |].
      * intros y Hy. destruct (Hfirst y Hy). rewrite Hfat, !decide_False; [done..|].
        eapply on_disk_entries. by apply (proj1 (Forall_forall _ _) Hd1).
      * rewrite Hfat by done. by rewrite decide_True.
    + intros y Hy. rewrite last_snoc in Hy. injection Hy as <-. rewrite Hfat, decide_True by done. by vm_compute.
    + rewrite Hcnt. apply Forall_app. split; [done|]. by apply Forall_singleton.
    + rewrite Hlen. lia.
    + lia.
    + lia.
    + split; [done|]. rewrite Hlen. destruct (Z.ltb_spec (f_position f) (Z.of_nat (S i) * csize v)); [|lia].
      split_and!; [|done|done]. fold i. rewrite <- Htake. cbn [set_size f_current_cluster]. fold x. rewrite lookup_take_lt by lia. done.
  - intros y Hy Hin. rewrite Hfat by done. rewrite decide_False by (by intros ->). by rewrite decide_True.
  - intros y Hy Hin. rewrite Hfat by done. rewrite !decide_False; [done| |].
    + intros Hy2. apply Hin. rewrite Heq. apply elem_of_app. right. apply elem_of_cons. by right.
    + intros ->. apply Hin. by apply list_elem_of_lookup_2 in Hi.
  - intros y Hy. rewrite <- (cluster_data_table v (w_dev w) d1 _ y Hg Hy Hchg1).
    eapply cluster_data_table; [exact Hg1| |exact Hchg2]. by rewrite (fc_count _ _ _ _ Hchg1).
  - exact Hcnt.
Qed.

(** The contents of a file cut after its first [i] clusters. *)
Lemma truncated_contents v d d' cs f i :
  geometry v (sector_count d) -> file_ok v d cs f -> file_ok v d' (take i cs) (set_size (f_position f) true f) ->
  (forall x, x ∈ take i cs -> on_disk v (sector_count d) x -> cluster_data v d' x = cluster_data v d x) ->
  contents v d' (take i cs) (set_size (f_position f) true f) = take (Z.to_nat (f_position f)) (contents v d cs f).
Proof.
  intros Hg Hok Hok' Hdata. pose proof (fo_disk _ _ _ _ Hok) as Hd. pose proof (fo_size _ _ _ _ Hok') as Hsz.
  cbn [set_size f_size] in Hsz. pose proof (fo_pos _ _ _ _ Hok) as Hp. destruct (csize_nat _ _ Hg) as [_ Hcs].
  assert (cs = take i cs ++ drop i cs) as Heq by (symmetry; apply take_drop).
  assert (Forall (on_disk v (sector_count d)) (take i cs)) as Hdk by by apply Forall_take.
  destruct (file_bytes_length v d (take i cs) Hg Hdk) as [_ Hfb].
  unfold contents. cbn [set_size f_size]. rewrite take_take, Nat.min_l by lia. rewrite Heq at 2.
  rewrite file_bytes_app, take_app_le by lia. f_equal. apply file_bytes_same. intros x Hx. apply Hdata; [done|].
  by apply (proj1 (Forall_forall _ _) Hdk).
Qed.

(** ** Expansion *)

Lemma chain_tail_run n v w f clu cs t count :
  geometry v (sector_count (w_dev w)) -> w_vol w = Some v ->
  chain (fat_entry v (w_dev w)) clu (clu :: cs) -> terminated (fat_entry v (w_dev w)) (clu :: cs) ->
  Forall (on_disk v (sector_count (w_dev w))) (clu :: cs) -> last (clu :: cs) = Some t ->
  (length cs < n)%nat -> 0 <= count -> count + Z.of_nat (length cs) < 2 ^ 32 ->
  chain_tail n clu count (w, f) = (Ret (t, count + Z.of_nat (length cs)), (w, f)).
Proof.
  intros Hg Hv. revert clu cs count. induction n as [|n IH]; intros clu cs count Hch Ht Hd Hl Hn Hc H32; [lia|].
  cbn [chain_tail]. apply Forall_cons in Hd as [Hx Hd]. pose proof (on_disk_entries _ _ _ Hx) as Hxr.
  run_with (vol_io_run v w f _ _ w Hv (read_fat_run v w clu Hg Hxr)). destruct cs as [|y cs].
  - specialize (Ht clu eq_refl). injection Hl as <-. rewrite (proj2 (Z.leb_le _ _)) by lia. cbn [length]. by rewrite Z.add_0_r.
  - destruct Hch as (_ & _ & Hch). pose proof Hch as (Hy & Hcl & _). apply is_cluster_iff in Hcl.
    rewrite <- Hy in *. rewrite (proj2 (Z.leb_gt _ _)) by lia. cbn [length] in *. rewrite u32_small by lia.
    rewrite (IH y cs (count + 1)); [do 3 f_equal; lia|done..|lia|lia|lia].
Qed.

(** Clusters appended one by one. *)
Lemma append_clusters_run n v w f s cs t :
  geometry v (sector_count (w_dev w)) -> w_vol w = Some v -> free_on_disk v (w_dev w) ->
  chain (fat_entry v (w_dev w)) s cs -> terminated (fat_entry v (w_dev w)) cs ->
  Forall (on_disk v (sector_count (w_dev w))) cs -> last cs = Some t ->
  (n <= free_count v (fat_entry v (w_dev w)))%nat ->
  exists d' new, append_clusters n t (w, f) = (Ret tt, (set_dev d' w, f)) /\ length new = n
    /\ grown v (w_dev w) d' cs (cs ++ new) /\ chain (fat_entry v d') s (cs ++ new) /\ terminated (fat_entry v d') (cs ++ new)
    /\ (forall c, on_disk v (sector_count (w_dev w)) c -> cluster_data v d' c = cluster_data v (w_dev w) c).
Proof.
  revert w cs t. induction n as [|n IH]; intros w cs t Hg Hv Hfree Hch Ht Hd Hl Hn; cbn [append_clusters].
  - exists (w_dev w), []. rewrite app_nil_r. assert (set_dev (w_dev w) w = w) as -> by (by destruct w).
    split_and!; try done. split; try done. exists []. by rewrite app_nil_r.
  - destruct (free_count_pos v (fat_entry v (w_dev w)) ltac:(lia)) as (c0 & Hc0 & Hz0).
    assert (on_disk v (sector_count (w_dev w)) t) as Htd by (apply (proj1 (Forall_forall _ _) Hd); by apply last_Some_elem_of).
    destruct (extend_chain_run v w f cs t c0 Hg Hv Hl (on_disk_entries _ _ _ Htd) Hc0 Hz0) as (d1 & new & R1 & Hext).
    destruct (extended_chain v (w_dev w) d1 s cs new Hg Hd Hch Ht Hext) as (Hch1 & Ht1 & Hnew & Hcnt).
    pose proof Hext as [(t' & Hl' & Hchg) Hfz Hr]. rewrite Hl in Hl'. injection Hl' as <-.
    assert (on_disk v (sector_count (w_dev w)) new) as Hdn by auto.
    pose proof (fc_count _ _ _ _ Hchg) as Hsc.
    assert (geometry v (sector_count (w_dev (set_dev d1 w)))) as Hg1 by (cbn; by rewrite Hsc).
    assert (forall c, on_disk v (sector_count (w_dev w)) c -> cluster_data v d1 c = cluster_data v (w_dev w) c) as Hdata1
      by (intros c Hc; by eapply cluster_data_table).
    destruct (IH (set_dev d1 w) (cs ++ [new]) new Hg1 Hv) as (d2 & more & R2 & Hlen & Hgr & Hch2 & Ht2 & Hdata2); cbn [w_dev set_dev] in *; try done.
    + intros x Hx Hz. rewrite Hsc. apply Hfree; [done|]. rewrite (fc_entry _ _ _ _ Hchg) in Hz by lia. unfold upd in Hz.
      destruct (Z.eqb_spec x t); [lia|]. by destruct (Z.eqb_spec x new).
    + rewrite Hsc. apply Forall_app. split; [done|]. by apply Forall_singleton.
    + apply last_snoc.
    + lia.
    + exists d2, (new :: more). replace (cs ++ new :: more) with ((cs ++ [new]) ++ more) by (by rewrite <- app_assoc).
      split_and!; try done.
      * run_with R1. exact R2.
      * cbn [length]. by rewrite Hlen.
      * eapply grown_trans; [by eapply chain_NoDup|by apply grown_extend|exact Hgr].
      * intros c Hc. rewrite Hdata2, Hdata1; [done|done|]. by rewrite Hsc.
Qed.

(** To a size that the clusters hold already. *)
Lemma f_expand_within_run fuel v w f cs size :
  geometry v (sector_count (w_dev w)) -> w_vol w = Some v -> file_ok v (w_dev w) cs f ->
  lacks f FA_WRITE = false -> cs <> [] -> (length cs <= fuel)%nat ->
  0 <= size <= Z.of_nat (length cs) * csize v -> size + csize v < 2 ^ 32 ->
  f_expand fuel size (w, f) = (Ret tt, (w, f)).
Proof.
  intros Hg Hv Hok Hl Hne Hfuel Hsize H32. pose proof Hok as [Hch Ht Hd _ _ _ _].
  destruct (csize_nat _ _ Hg) as [_ Hcs]. destruct cs as [|c0 cs]; [done|].
  pose proof Hch as (Hc0 & Hcl & _). apply is_cluster_iff in Hcl. set (all := c0 :: cs) in *.
  assert (exists t, last all = Some t) as [t Hlast] by (destruct (last all) eqn:He; [eauto|by apply last_None in He]).
  pose proof (chain_short v _ _ _ _ Hch Hd) as Hshort. pose proof (entries_bounds _ _ Hg) as Hen. unfold END_OF_CHAIN in Hen.
  change (length all) with (S (length cs)) in Hfuel, Hsize, Hshort.
  assert (chain_tail fuel (f_start_cluster f) 1 (w, f) = (Ret (t, 1 + Z.of_nat (length cs)), (w, f))) as Rt.
  { rewrite <- Hc0. apply (chain_tail_run fuel v w f c0 cs t 1 Hg Hv); try done; try lia. by rewrite Hc0 at 1. }
  unfold f_expand, get_file. unfold bind at 1. cbn [gets fst snd]. rewrite Hl.
  run_with (vol_io_run v w f (fun v => ret (sectors_per_cluster v)) _ w Hv eq_refl). fold (csize v).
  destruct (Z.leb_spec size (f_size f)); [done|]. rewrite <- Hc0 in *. rewrite (proj2 (Z.eqb_neq c0 0)) by lia.
  assert ((let! '(_, n0) := chain_tail fuel c0 1 in ret n0) (w, f) = (Ret (1 + Z.of_nat (length cs)), (w, f))) as Rc
    by (by run_with Rt).
  run_with Rc.
  assert (saturating_sub (Z.max (u32 (u32 (size + csize v) - 1) / csize v) 1) (1 + Z.of_nat (length cs)) = 0) as ->; [|done].
  rewrite !u32_small by (rewrite ?u32_small; lia).
  assert ((size + csize v - 1) / csize v < Z.of_nat (S (length cs)) + 1) by (apply Z.div_lt_upper_bound; lia).
  unfold saturating_sub. lia.
Qed.

Lemma f_expand_run fuel v w f cs size :
  geometry v (sector_count (w_dev w)) -> w_vol w = Some v -> free_on_disk v (w_dev w) -> file_ok v (w_dev w) cs f ->
  lacks f FA_WRITE = false -> f_position f < Z.of_nat (length cs) * csize v -> (length cs <= fuel)%nat ->
  Z.of_nat (length cs) * csize v < size -> size + csize v < 2 ^ 32 ->
  (size - 1) / csize v + 1 - Z.of_nat (length cs) <= Z.of_nat (free_count v (fat_entry v (w_dev w))) ->
  exists d' new, f_expand fuel size (w, f) = (Ret tt, (set_dev d' w, set_size size true f))
    /\ file_ok v d' (cs ++ new) (set_size size true f) /\ grown v (w_dev w) d' cs (cs ++ new)
    /\ take (Z.to_nat (f_size f)) (contents v d' (cs ++ new) (set_size size true f)) = contents v (w_dev w) cs f.
Proof.
  intros Hg Hv Hfree Hok Hl Hpos Hfuel Hsize H32 Hsp. pose proof Hok as [Hch Ht Hd Hsz Hw Hp Hcur].
  destruct (csize_nat _ _ Hg) as [_ Hcs]. destruct cs as [|c0 cs]; [cbn in *; lia|].
  pose proof Hch as (Hc0 & Hcl & _). apply is_cluster_iff in Hcl. set (all := c0 :: cs) in *.
  assert (exists t, last all = Some t) as [t Hlast] by (destruct (last all) eqn:He; [eauto|by apply last_None in He]).
  set (q := (size - 1) / csize v) in *.
  assert (Z.of_nat (length all) <= q) as Hq by (apply Z.div_le_lower_bound; lia).
  set (n := Z.to_nat (q + 1 - Z.of_nat (length all))).
  pose proof (Z.div_mod (size - 1) (csize v) ltac:(lia)) as Hdm. fold q in Hdm.
  pose proof (Z.mod_pos_bound (size - 1) (csize v) ltac:(lia)) as Hmb.
  assert (Z.of_nat (length all) < 2 ^ 31) as Hlen by nia.
  assert (u32 (u32 (size + csize v) - 1) / csize v = q + 1) as Hneed.
  { rewrite !u32_small by (rewrite ?u32_small; lia). replace (size + csize v - 1) with (size - 1 + 1 * csize v) by lia.
    rewrite Z.div_add by lia. done. }
  destruct (append_clusters_run n v w f (f_start_cluster f) all t Hg Hv Hfree Hch Ht Hd Hlast ltac:(lia))
    as (d' & new & R & Hln & Hgr & Hch' & Ht' & Hdata).
  pose proof (gr_count _ _ _ _ _ Hgr) as Hcnt. destruct (gr_new _ _ _ _ _ Hgr) as (new' & Heq & Hnew). apply app_inv_head in Heq as <-.
  assert (Forall (on_disk v (sector_count (w_dev w))) (all ++ new)) as Hdall.
  { apply Forall_app. split; [done|]. eapply Forall_impl; [exact Hnew|]. by intros ? []. }
  assert (Z.of_nat (length (all ++ new)) = q + 1) as Hnl by (rewrite length_app, Hln; lia).
  exists d', new. split_and!.
  - assert (chain_tail fuel (f_start_cluster f) 1 (w, f) = (Ret (t, 1 + Z.of_nat (length cs)), (w, f))) as Rt.
    { rewrite <- Hc0. apply (chain_tail_run fuel v w f c0 cs t 1 Hg Hv); try done; cbn [all length] in *; try lia. by rewrite Hc0 at 1. }
    unfold f_expand, get_file. unfold bind at 1. cbn [gets fst snd]. rewrite Hl.
    run_with (vol_io_run v w f (fun v => ret (sectors_per_cluster v)) _ w Hv eq_refl). fold (csize v).
    rewrite (proj2 (Z.leb_gt _ _)) by lia. rewrite <- Hc0 in *. rewrite (proj2 (Z.eqb_neq c0 0)) by lia.
    assert ((let! '(_, n0) := chain_tail fuel c0 1 in ret n0) (w, f) = (Ret (1 + Z.of_nat (length cs)), (w, f))) as Rc
      by (by run_with Rt).
    run_with Rc. rewrite Hneed. rewrite Z.max_l by lia.
    assert (saturating_sub (q + 1) (1 + Z.of_nat (length cs)) = Z.of_nat n) as ->
      by (unfold saturating_sub; cbn [all length] in *; lia).
    rewrite (proj2 (Z.eqb_neq (Z.of_nat n) 0)) by lia. rewrite Nat2Z.id.
    assert ((let! '(tail, _) := chain_tail fuel c0 1 in append_clusters n tail) (w, f) = (Ret tt, (set_dev d' w, f))) as Ra
      by (run_with Rt; exact R).
    by run_with Ra.
  - split; cbn [set_size f_start_cluster f_size f_position]; try done; try lia.
    + by rewrite Hcnt.
    + destruct (cursor_in_chain v _ all (f_position f) f Hg ltac:(lia) Hcur) as (Hi & Hs & Hb & _).
      split; [done|]. destruct (Z.ltb_spec (f_position f) (Z.of_nat (length (all ++ new)) * csize v)); [|rewrite Hnl in *; nia].
      split_and!; [|done|done]. by apply lookup_app_l_Some.
  - done.
  - unfold contents. cbn [set_size f_size]. rewrite take_take, Nat.min_l by lia. rewrite file_bytes_app, take_app_le.
    + f_equal. apply file_bytes_same. intros x Hx. apply Hdata. by apply (proj1 (Forall_forall _ _) Hd).
    + destruct (file_bytes_length v d' all) as [_ Hfb]; [by rewrite Hcnt|by rewrite Hcnt|]. lia.
Qed.

(** ** Properties *)

(** [f_truncate] with the cursor inside the chain cuts the file at the
    cursor: its contents are the bytes before it, the clusters behind the
    cursor's are free, and no other table entry and no cluster's bytes change. *)
Theorem f_truncate_cuts fuel v w f cs :
  geometry v (sector_count (w_dev w)) -> w_vol w = Some v -> file_ok v (w_dev w) cs f ->
  lacks f FA_WRITE = false -> f_position f < Z.of_nat (length cs) * csize v -> (length cs < fuel)%nat ->
  let kept := take (S (Z.to_nat (f_position f / csize v))) cs in
  let f' := set_size (f_position f) true f in
  exists d', f_truncate fuel (w, f) = (Ret tt, (set_dev d' w, f')) /\ file_ok v d' kept f'
    /\ contents v d' kept f' = take (Z.to_nat (f_position f)) (contents v (w_dev w) cs f)
    /\ (forall x, x ∈ drop (length kept) cs -> fat_entry v d' x = 0)
    /\ (forall x, 0 <= x < entries v -> ~ (x ∈ cs) -> fat_entry v d' x = fat_entry v (w_dev w) x)
    /\ (forall x, on_disk v (sector_count (w_dev w)) x -> cluster_data v d' x = cluster_data v (w_dev w) x).
Proof.
  intros Hg Hv Hok Hl Hpos Hfuel kept f'.
  destruct (f_truncate_run fuel v w f cs Hg Hv Hok Hl Hpos Hfuel) as (d' & R & Hok' & Hz & Hfat & Hdata & Hcnt).
  pose proof (fo_disk _ _ _ _ Hok) as Hd. pose proof (fo_size _ _ _ _ Hok') as Hsz. cbn [set_size f_size] in Hsz.
  pose proof (fo_pos _ _ _ _ Hok) as Hp. destruct (csize_nat _ _ Hg) as [_ Hcs].
  set (i := Z.to_nat (f_position f / csize v)) in *. fold kept in Hok', Hsz.
  assert (length kept = S i) as Hlk.
  { assert (f_position f / csize v < Z.of_nat (length cs)) by (apply Z.div_lt_upper_bound; lia).
    assert (0 <= f_position f / csize v) by (apply Z.div_pos; lia). unfold kept. rewrite length_take. unfold i. lia. }
  exists d'. split_and!; try done.
  - by apply (truncated_contents v (w_dev w)); [..|by intros x _ Hx; apply Hdata].
  - intros x Hx. rewrite Hlk in Hx. apply Hz; [|done]. eapply on_disk_entries, (proj1 (Forall_forall _ _) Hd).
    rewrite <- (take_drop (S i) cs). apply elem_of_app. by right.
Qed.

(** [f_expand] to a size beyond the clusters that the file has, with enough
    free ones, appends the clusters needed and no more than the size takes: the
    file has the new size, begins with its old contents, and nothing outside its
    chain changes. *)
Theorem f_expand_grows fuel v w f cs size :
  geometry v (sector_count (w_dev w)) -> w_vol w = Some v -> free_on_disk v (w_dev w) -> file_ok v (w_dev w) cs f ->
  lacks f FA_WRITE = false -> f_position f < Z.of_nat (length cs) * csize v -> (length cs <= fuel)%nat ->
  Z.of_nat (length cs) * csize v < size -> size + csize v < 2 ^ 32 ->
  (size - 1) / csize v + 1 - Z.of_nat (length cs) <= Z.of_nat (free_count v (fat_entry v (w_dev w))) ->
  let f' := set_size size true f in
  exists d' new, f_expand fuel size (w, f) = (Ret tt, (set_dev d' w, f'))
    /\ file_ok v d' (cs ++ new) f' /\ grown v (w_dev w) d' cs (cs ++ new)
    /\ take (Z.to_nat (f_size f)) (contents v d' (cs ++ new) f') = contents v (w_dev w) cs f.
Proof. apply f_expand_run. Qed.
End Resize.

(** KERNEL.BIN with the cursor on byte 600. *)
Definition mid_file : File := mkFile 1300 600 3 5 0 88 3 2 0 false FOk.

Lemma mid_file_ok : file_ok demo_vol (w_dev demo_world) [3; 5; 4] mid_file.
Proof.
  destruct (demo_file_ok 3) as [H1 H2 H3 H4 H5 _ _]. split; try done; vm_compute; repeat split; discriminate.
Qed.

Lemma f_truncate_cuts_witness : exists d',
  f_truncate 4 (demo_world, mid_file) = (Ret tt, (set_dev d' demo_world, set_size 600 true mid_file))
  /\ contents demo_vol d' [3; 5] (set_size 600 true mid_file) = demo_sector 0 ++ take 88 (demo_sector 1)
  /\ fat_entry demo_vol d' 4 = 0.
Proof.
  destruct (f_truncate_cuts 4 demo_vol demo_world mid_file [3; 5; 4] demo_geometry eq_refl mid_file_ok)
    as (d' & R & _ & Hc & Hz & _).
  - reflexivity.
  - vm_compute. reflexivity.
  - cbn. lia.
  - exists d'. split; [exact R|]. split; [etransitivity; [exact Hc|vm_compute; reflexivity]|].
    apply Hz. vm_compute. left.
Defined.

Lemma f_expand_grows_witness : exists d' new,
  f_expand 4 3000 (demo_world, mid_file) = (Ret tt, (set_dev d' demo_world, set_size 3000 true mid_file))
  /\ file_ok demo_vol d' ([3; 5; 4] ++ new) (set_size 3000 true mid_file).
Proof.
  destruct (f_expand_grows 4 demo_vol demo_world mid_file [3; 5; 4] 3000 demo_geometry eq_refl demo_free_on_disk mid_file_ok)
    as (d' & new & R & Hok & _).
  - reflexivity.
  - vm_compute. reflexivity.
  - cbn. lia.
  - vm_compute. reflexivity.
  - vm_compute. reflexivity.
  - vm_compute. discriminate.
  - exists d', new. exact (conj R Hok).
Defined.

(** Within the clusters that the file has, [f_expand] succeeds and leaves the
    size as it was. *)
Example f_expand_keeps_size :
  let '(r, (_, f)) := f_expand 4 1500 (demo_world, mid_file) in r = Ret tt /\ f_size f = 1300.
Proof. vm_compute. by split. Qed.

(** A cursor behind the last byte of a full chain has no cluster, and does not
    get one when the file is expanded: the next read is from the cluster 0. *)
Example f_expand_leaves_cursor :
  let full := mkFile 1536 1536 3 0 0 0 3 2 0 false FOk in
  let '(r, (w, f)) := f_expand 4 2000 (demo_world, full) in
  r = Ret tt /\ f_size f = 2000 /\ f_current_cluster f = 0 /\ (f_read 4 (w, f)).1 <> Ret [].
Proof. vm_compute. split_and!; done. Qed.
