(* ===== verification/FatState.v ===== *)
(** The state of the volume and of the open files: which entries of the root
    directory are in use, the clusters that each owns, the invariant, and what
    name and bytes an entry holds. The lemmas say what a step on one entry leaves
    alone, for the operations of FatConsistent.v. *)

From stdpp Require Import base numbers list gmap relations.
From Stdlib Require Import ZArith Lia.
From S2P Require Import Prelude Block Fat32 Fat32Dir Fat32File.
From S2P Require Import FatSpec FatChain FatCluster FatDirSpec FatFileSpec FatWrite FatDemo FatTheorems FatFileTheorems.
From S2P Require Import FatSync FatDirUpdate FatFiles FatCreate FatResize.

Section Consistency.
Context {D : Type} `{ReliableDevice D}.

(** ** The invariant *)

Definition entry_of v d (c : Z) (k : nat) : list Z := entry_at (cluster_data v d c) k.

(** An entry of the root directory that names something. *)
Definition in_use v d (rc : list Z) (c : Z) (k : nat) : Prop :=
  c ∈ rc /\ (k < entries_per_cluster v)%nat /\ live (entry_of v d c k) = true
  /\ is_hidden (entry_attr (entry_of v d c k)) = false.

(** The clusters that an entry owns. *)
Record owns v d (rc : list Z) (c : Z) (k : nat) (cs : list Z) : Prop := {
  ow_chain : chain (fat_entry v d) (entry_start (entry_of v d c k)) cs;
  ow_term : terminated (fat_entry v d) cs;
  ow_disk : Forall (on_disk v (sector_count d)) cs;
  ow_some : cs <> [];
  ow_root : forall x, x ∈ cs -> ~ (x ∈ rc);
}.

(** The place of an open file's entry. *)
Definition place_of (f : File) : Z * Z := (f_dir_sector f, f_dir_offset f).

(** An open file: consistent with the clusters that its entry owns, and with the
    entry's size unless it has to be written back. *)
Definition opened v d (rc : list Z) (f : File) : Prop :=
  exists c k cs, place_of f = (c, Z.of_nat k) /\ in_use v d rc c k /\ owns v d rc c k cs /\ file_ok v d cs f
    /\ (f_modified f = false -> entry_size (entry_of v d c k) = f_size f).

Record consistent v (rc : list Z) (s : World D * list File) : Prop := {
  cn_rooted : rooted v s.1 rc;
  cn_owns : forall c k, in_use v (w_dev s.1) rc c k -> exists cs, owns v (w_dev s.1) rc c k cs
    /\ (~ ((c, Z.of_nat k) ∈ (place_of <$> s.2)) ->
        entry_size (entry_of v (w_dev s.1) c k) <= Z.of_nat (length cs) * csize v);
  cn_apart : forall c k c' k' cs cs' x,
    in_use v (w_dev s.1) rc c k -> in_use v (w_dev s.1) rc c' k' -> (c, k) <> (c', k') ->
    owns v (w_dev s.1) rc c k cs -> owns v (w_dev s.1) rc c' k' cs' -> x ∈ cs -> ~ (x ∈ cs');
  cn_open : Forall (opened v (w_dev s.1) rc) s.2;
  cn_places : NoDup (place_of <$> s.2);
}.

(** ** What a name holds *)

(** The size of the file open at a place. *)
Definition open_size (hs : list File) (p : Z * Z) (n : Z) : Prop :=
  exists g, g ∈ hs /\ place_of g = p /\ f_size g = n.

(** The size of a file: the open file's, or the entry's. *)
Definition size_of v (s : World D * list File) (c : Z) (k : nat) (n : Z) : Prop :=
  open_size s.2 (c, Z.of_nat k) n
  \/ ~ ((c, Z.of_nat k) ∈ (place_of <$> s.2)) /\ entry_size (entry_of v (w_dev s.1) c k) = n.

(** The name and the bytes of an entry. *)
Record file_at v rc (s : World D * list File) (c : Z) (k : nat) (x : list Z * list Z) : Prop := {
  fa_use : in_use v (w_dev s.1) rc c k;
  fa_name : entry_name (entry_of v (w_dev s.1) c k) = x.1;
  fa_data : exists cs n, owns v (w_dev s.1) rc c k cs /\ size_of v s c k n
    /\ take (Z.to_nat n) (file_bytes v (w_dev s.1) cs) = x.2;
}.

(** A step that keeps the volume consistent and changes one file: to [o]. *)
Record step_effect v rc (s s' : World D * list File) (c : Z) (k : nat) (o : option (list Z * list Z)) : Prop := {
  se_consistent : consistent v rc s';
  se_others : forall c' k' x, (c', k') <> (c, k) -> file_at v rc s c' k' x <-> file_at v rc s' c' k' x;
  se_here : match o with Some x => file_at v rc s' c k x | None => ~ in_use v (w_dev s'.1) rc c k end;
}.

(** ** Lemmas: what an operation leaves alone *)

Lemma owns_unique v d rc c k cs cs' : owns v d rc c k cs -> owns v d rc c k cs' -> cs = cs'.
Proof. intros [H1 _ _ _ _] [H2 _ _ _ _]. by eapply chain_det. Qed.

Lemma owns_frame v d d' rc T c k cs :
  table_frame v d d' rc T -> owns v d rc c k cs -> (forall x, x ∈ cs -> ~ (x ∈ T)) ->
  entry_start (entry_of v d' c k) = entry_start (entry_of v d c k) -> owns v d' rc c k cs.
Proof.
  intros Hf [Hch Ht Hd Hne Hr] Hap He.
  destruct (chain_frame _ _ _ _ _ (entry_start (entry_of v d c k)) _ Hf Hd Hap) as [C1 C2].
  split; auto; [rewrite He; auto|by rewrite (tf_count _ _ _ _ _ Hf)].
Qed.

(** The first cluster of a chain. *)
Lemma owns_first v d rc c k cs :
  owns v d rc c k cs -> entry_start (entry_of v d c k) ∈ cs /\ 0 <= entry_start (entry_of v d c k) < 2 ^ 32.
Proof.
  intros [Hch _ _ Hne _]. destruct cs as [|y cs]; [done|]. destruct Hch as (<- & Hcl & _). split.
  - apply elem_of_cons. by left.
  - apply is_cluster_iff in Hcl. unfold END_OF_CHAIN in *. lia.
Qed.

Lemma lookup_in_use v d rc name c k :
  lookup_entry name (dir_entries v d rc) = Some (c, k) -> in_use v d rc c k.
Proof.
  intros (Hc & Hk & Hm)%lookup_dir. split_and!; [done|done|by eapply matches_live|].
  unfold matches in Hm. rewrite !andb_true_iff in Hm. destruct Hm as [[[Hh _] _] _]. by apply negb_true_iff in Hh.
Qed.

(** A cluster rewritten at one entry: every other entry is as it was. *)
Lemma entry_other v d d' (rc : list Z) c k c' k' :
  (forall x, x ∈ rc -> x <> c -> cluster_data v d' x = cluster_data v d x) ->
  (forall i, (i < 32 * k \/ 32 * k + 32 <= i)%nat -> cluster_data v d' c !! i = cluster_data v d c !! i) ->
  c' ∈ rc -> (c', k') <> (c, k) -> entry_of v d' c' k' = entry_of v d c' k'.
Proof.
  intros Hoth Hout Hc' Hne. unfold entry_of. destruct (decide (c' = c)) as [->|Hcc]; [|by rewrite Hoth].
  apply (entry_at_outside _ _ k); [exact Hout|congruence].
Qed.

Lemma entry_at_insert (buf : list Z) k b : entry_at (<[(32 * k)%nat := b]> buf) k = <[0%nat := b]> (entry_at buf k).
Proof.
  unfold entry_at. apply list_eq. intros i. destruct (decide (i < 32)%nat) as [Hi|Hi].
  2: { rewrite lookup_take_ge, lookup_ge_None_2; [done| |lia]. rewrite length_insert, length_take. lia. }
  rewrite lookup_take_lt, lookup_drop by done. destruct i as [|i].
  - rewrite Nat.add_0_r. destruct (decide (32 * k < length buf)%nat) as [Hl|Hl].
    + rewrite !list_lookup_insert_eq; [done|rewrite length_take, length_drop; lia|done].
    + rewrite !list_insert_ge, lookup_take_lt, lookup_drop, Nat.add_0_r; [done|lia|rewrite length_take, length_drop; lia|lia].
  - rewrite !list_lookup_insert_ne by lia. by rewrite lookup_take_lt, lookup_drop.
Qed.

(** An entry marked as deleted is not in use. *)
Lemma killed_unused v d rc c k e : entry_of v d c k = <[0%nat := 229]> e -> length e = 32%nat -> ~ in_use v d rc c k.
Proof.
  intros He Hl (_ & _ & Hu & _). apply live_spec in Hu as [_ Hu]. apply Hu. rewrite He. unfold byte_at.
  by rewrite list_lookup_insert_eq by lia.
Qed.

Lemma opened_frame v d d' rc T f :
  table_frame v d d' rc T -> opened v d rc f ->
  (forall c k cs x, place_of f = (c, Z.of_nat k) -> in_use v d rc c k -> owns v d rc c k cs -> x ∈ cs -> ~ (x ∈ T)) ->
  (forall c k, place_of f = (c, Z.of_nat k) -> in_use v d rc c k -> entry_of v d' c k = entry_of v d c k) ->
  opened v d' rc f.
Proof.
  intros Hf (c & k & cs & Hp & Hu & Ho & Hok & Hs) Hap He. pose proof (He c k Hp Hu) as Hent.
  assert (forall x, x ∈ cs -> ~ (x ∈ T)) as Hcs by (intros x; by apply (Hap c k cs x)).
  exists c, k, cs. split_and!.
  - done.
  - destruct Hu as (U1 & U2 & U3 & U4). split_and!; [done|done|by rewrite Hent|by rewrite Hent].
  - apply (owns_frame v d d' rc T); [done..|by rewrite Hent].
  - apply (file_ok_frame v d); [apply (tf_count _ _ _ _ _ Hf)| |done]. intros x Hx.
    apply (tf_fat _ _ _ _ _ Hf); [|by apply Hcs]. eapply on_disk_entries.
    by apply (proj1 (Forall_forall _ _) (ow_disk _ _ _ _ _ _ Ho)).
  - by rewrite Hent.
Qed.

Lemma open_size_place hs p : p ∈ (place_of <$> hs) <-> exists n, open_size hs p n.
Proof.
  rewrite list_elem_of_fmap. split.
  - intros (g & -> & Hg). by exists (f_size g), g.
  - intros (n & g & Hg & Hp & _). by exists g.
Qed.

(** Only one file is open at a place. *)
Lemma place_inj hs g g' : NoDup (place_of <$> hs) -> g ∈ hs -> g' ∈ hs -> place_of g = place_of g' -> g = g'.
Proof.
  intros Hnd [i Hi]%list_elem_of_lookup [j Hj]%list_elem_of_lookup Hp.
  assert ((place_of <$> hs) !! i = Some (place_of g) /\ (place_of <$> hs) !! j = Some (place_of g)) as [Pi Pj].
  { rewrite !list_lookup_fmap, Hi, Hj. cbn. by rewrite Hp. }
  pose proof (NoDup_lookup _ _ _ _ Hnd Pi Pj) as ->. congruence.
Qed.

Lemma size_of_det v s c k n n' : NoDup (place_of <$> s.2) -> size_of v s c k n -> size_of v s c k n' -> n = n'.
Proof.
  intros Hnd [(g & Hg & Hp & Hs)|[Hn Hs]] [(g' & Hg' & Hp' & Hs')|[Hn' Hs']].
  - rewrite (place_inj _ g g' Hnd Hg Hg') in Hs by congruence. congruence.
  - destruct Hn'. apply list_elem_of_fmap. by exists g.
  - destruct Hn. apply list_elem_of_fmap. by exists g'.
  - congruence.
Qed.

Lemma file_at_det v rc s c k x x' : consistent v rc s -> file_at v rc s c k x -> file_at v rc s c k x' -> x = x'.
Proof.
  intros Hc [_ Hn (cs & n & Ho & Hs & Hd)] [_ Hn' (cs' & n' & Ho' & Hs' & Hd')]. destruct x, x'. cbn [fst snd] in *.
  rewrite (owns_unique _ _ _ _ _ _ _ Ho' Ho) in Hd'. rewrite (size_of_det v s c k n' n) in Hd' by (done || apply (cn_places _ _ _ Hc)).
  congruence.
Qed.

(** An open file holds its contents. *)
Lemma file_at_open v rc w hs f c k cs :
  f ∈ hs -> place_of f = (c, Z.of_nat k) -> in_use v (w_dev w) rc c k -> owns v (w_dev w) rc c k cs ->
  file_at v rc (w, hs) c k (entry_name (entry_of v (w_dev w) c k), contents v (w_dev w) cs f).
Proof.
  intros Hf Hp Hu Ho. split; cbn [fst snd]; [done|done|]. exists cs, (f_size f). split_and!; [done| |done]. left. by exists f.
Qed.

(** An entry that is not open holds what it says. *)
Lemma file_at_closed v rc w hs c k cs :
  ~ ((c, Z.of_nat k) ∈ (place_of <$> hs)) -> in_use v (w_dev w) rc c k -> owns v (w_dev w) rc c k cs ->
  file_at v rc (w, hs) c k (entry_name (entry_of v (w_dev w) c k),
    take (Z.to_nat (entry_size (entry_of v (w_dev w) c k))) (file_bytes v (w_dev w) cs)).
Proof.
  intros Hn Hu Ho. split; cbn [fst snd]; [done|done|]. exists cs, (entry_size (entry_of v (w_dev w) c k)).
  split_and!; [done|by right|done].
Qed.

(** Handles change and the volume does not. *)
Lemma handle_effect v rc w hs hs' c k x :
  consistent v rc (w, hs') -> (forall c k n, in_use v (w_dev w) rc c k -> size_of v (w, hs) c k n <-> size_of v (w, hs') c k n) ->
  file_at v rc (w, hs) c k x -> step_effect v rc (w, hs) (w, hs') c k (Some x).
Proof.
  intros Hc Hs Hx.
  assert (forall c k x, file_at v rc (w, hs) c k x <-> file_at v rc (w, hs') c k x) as Hall.
  { intros c' k' x'. split; intros [Hu Hn (cs & n & Ho & Hsz & Hd)]; cbn [fst snd] in *; (split; cbn [fst snd]; [done..|]);
      exists cs, n; (split_and!; [done| |done]); by apply Hs. }
  split; [done|by intros; apply Hall|by apply Hall].
Qed.

(** One handle replaced by another at its place. *)
Lemma open_size_replace l f f' r p n :
  place_of f' = place_of f -> (p = place_of f -> f_size f' = f_size f) ->
  open_size (l ++ f :: r) p n <-> open_size (l ++ f' :: r) p n.
Proof.
  intros Hp Hs. unfold open_size. setoid_rewrite elem_of_app. setoid_rewrite elem_of_cons.
  split; intros (g & [Hg|[->|Hg]] & Hpg & Hsg).
  - exists g. auto.
  - exists f'. split_and!; [auto|congruence|]. by rewrite Hs.
  - exists g. auto.
  - exists g. auto.
  - exists f. rewrite Hp in Hpg. split_and!; [auto|congruence|]. by rewrite <- Hs.
  - exists g. auto.
Qed.

Lemma size_of_replace v w l f f' r c k n :
  place_of f' = place_of f -> f_size f' = f_size f ->
  size_of v (w, l ++ f :: r) c k n <-> size_of v (w, l ++ f' :: r) c k n.
Proof.
  intros Hp Hs. unfold size_of. cbn [fst snd]. rewrite (open_size_replace l f f' r) by done.
  by rewrite !fmap_app, !fmap_cons, Hp.
Qed.

(** ** One operation

    The state after an operation on the entry at [k0] of [c0] that changed the
    table at [T] only. *)
Section Operation.
Context (v : FatVolume) (rc T : list Z) (w w' : World D) (hs hs' : list File) (c0 : Z) (k0 : nat).

Record operation : Prop := {
  op_vol : w_vol w' = w_vol w;
  op_table : table_frame v (w_dev w) (w_dev w') rc T;
  op_entries : forall c k, c ∈ rc -> (k < entries_per_cluster v)%nat -> (c, k) <> (c0, k0) ->
    entry_of v (w_dev w') c k = entry_of v (w_dev w) c k;
  op_apart : forall c k cs x, in_use v (w_dev w) rc c k -> (c, k) <> (c0, k0) -> owns v (w_dev w) rc c k cs ->
    x ∈ cs -> ~ (x ∈ T);
  op_here : in_use v (w_dev w') rc c0 k0 -> exists cs, owns v (w_dev w') rc c0 k0 cs /\ (forall x, x ∈ cs -> x ∈ T)
    /\ (~ ((c0, Z.of_nat k0) ∈ (place_of <$> hs')) ->
        entry_size (entry_of v (w_dev w') c0 k0) <= Z.of_nat (length cs) * csize v);
  op_open : Forall (opened v (w_dev w') rc) hs';
  op_places : NoDup (place_of <$> hs');
  op_handles : forall c k n, (c, k) <> (c0, k0) -> open_size hs (c, Z.of_nat k) n <-> open_size hs' (c, Z.of_nat k) n;
  op_data : forall x, on_disk v (sector_count (w_dev w)) x -> ~ (x ∈ T) -> ~ (x ∈ rc) ->
    cluster_data v (w_dev w') x = cluster_data v (w_dev w) x;
}.

Lemma in_use_other c k :
  operation -> (c, k) <> (c0, k0) -> in_use v (w_dev w') rc c k <-> in_use v (w_dev w) rc c k.
Proof.
  intros Hop Hne. split; intros (U1 & U2 & U3 & U4).
  - rewrite (op_entries Hop c k) in U3, U4 by done. by split_and!.
  - split_and!; try done; by rewrite (op_entries Hop c k).
Qed.

Lemma places_other c k :
  operation -> (c, k) <> (c0, k0) -> (c, Z.of_nat k) ∈ (place_of <$> hs) <-> (c, Z.of_nat k) ∈ (place_of <$> hs').
Proof.
  intros Hop Hne. rewrite !open_size_place. split; intros [n Hn]; exists n; by apply (op_handles Hop c k n Hne).
Qed.

Lemma owns_other c k cs :
  consistent v rc (w, hs) -> operation -> (c, k) <> (c0, k0) -> in_use v (w_dev w) rc c k ->
  owns v (w_dev w') rc c k cs <-> owns v (w_dev w) rc c k cs.
Proof.
  intros [_ Hown _ _ _] Hop Hne Hu. cbn [fst snd] in *.
  assert (forall cs, owns v (w_dev w) rc c k cs -> owns v (w_dev w') rc c k cs) as Hkeep.
  { intros cs1 Ho. apply (owns_frame v (w_dev w) (w_dev w') rc T); [apply (op_table Hop)|done| |].
    - intros x. by apply (op_apart Hop c k cs1 x).
    - destruct Hu as (U1 & U2 & _). by rewrite (op_entries Hop c k). }
  split; [|apply Hkeep]. intros Ho. destruct (Hown c k Hu) as (cs1 & Ho1 & _).
  by rewrite (owns_unique v (w_dev w') rc c k cs cs1 Ho (Hkeep cs1 Ho1)).
Qed.

Lemma operation_consistent : consistent v rc (w, hs) -> operation -> consistent v rc (w', hs').
Proof.
  intros Hc Hop. pose proof Hc as [Hrt Hown Hapart Hopen Hplaces]. cbn [fst snd] in *.
  split; cbn [fst snd].
  - apply (rooted_frame v w w' rc T); [done|apply Hop|apply Hop].
  - intros c k Hu. destruct (decide ((c, k) = (c0, k0))) as [[= -> ->]|Hne].
    + destruct (op_here Hop Hu) as (cs & Ho & _ & Hsz). by exists cs.
    + apply in_use_other in Hu; [|done|done]. destruct (Hown c k Hu) as (cs & Ho & Hsz). exists cs.
      split; [by apply owns_other|]. rewrite <- places_other by done. destruct Hu as (U1 & U2 & _).
      by rewrite (op_entries Hop c k).
  - intros c k c' k' cs cs' x Hu Hu' Hne Ho Ho' Hx Hx'.
    destruct (decide ((c, k) = (c0, k0))) as [[= -> ->]|Hn].
    + assert ((c', k') <> (c0, k0)) as Hn' by congruence. apply in_use_other in Hu'; [|done|done].
      destruct (op_here Hop Hu) as (cs0 & Ho0 & HT & _). rewrite (owns_unique _ _ _ _ _ _ _ Ho Ho0) in Hx.
      apply (op_apart Hop c' k' cs' x Hu' Hn'); [by apply owns_other|done|by apply HT].
    + apply in_use_other in Hu; [|done|done]. apply owns_other in Ho; [|done..].
      destruct (decide ((c', k') = (c0, k0))) as [[= -> ->]|Hn'].
      * destruct (op_here Hop Hu') as (cs0 & Ho0 & HT & _). rewrite (owns_unique _ _ _ _ _ _ _ Ho' Ho0) in Hx'.
        apply (op_apart Hop c k cs x Hu Hn); [done|done|by apply HT].
      * apply in_use_other in Hu'; [|done|done]. apply owns_other in Ho'; [|done..]. by apply (Hapart c k c' k' cs cs' x).
  - apply Hop.
  - apply Hop.
Qed.

Lemma operation_others c k x :
  consistent v rc (w, hs) -> operation -> (c, k) <> (c0, k0) ->
  file_at v rc (w, hs) c k x <-> file_at v rc (w', hs') c k x.
Proof.
  intros Hc Hop Hne. assert (in_use v (w_dev w) rc c k -> entry_of v (w_dev w') c k = entry_of v (w_dev w) c k) as He.
  { intros (U1 & U2 & _). by apply (op_entries Hop). }
  assert (forall n, in_use v (w_dev w) rc c k -> size_of v (w, hs) c k n <-> size_of v (w', hs') c k n) as Hs.
  { intros n Hu. unfold size_of. cbn [fst snd]. by rewrite (op_handles Hop c k n Hne), (places_other c k Hop Hne), He. }
  assert (forall cs, in_use v (w_dev w) rc c k -> owns v (w_dev w) rc c k cs -> file_bytes v (w_dev w') cs = file_bytes v (w_dev w) cs) as Hb.
  { intros cs Hu Ho. apply file_bytes_same. intros y Hy. apply (op_data Hop).
    - by apply (proj1 (Forall_forall _ _) (ow_disk _ _ _ _ _ _ Ho)).
    - by apply (op_apart Hop c k cs y).
    - by apply (ow_root _ _ _ _ _ _ Ho). }
  split; intros [Hu Hn (cs & n & Ho & Hsz & Hd)]; cbn [fst snd] in *.
  - split; cbn [fst snd]; [by apply in_use_other|by rewrite He|]. exists cs, n.
    split_and!; [by apply owns_other|by apply Hs|by rewrite Hb].
  - apply in_use_other in Hu; [|done|done]. apply owns_other in Ho; [|done..]. rewrite He in Hn by done.
    rewrite Hb in Hd by done. split; cbn [fst snd]; [done..|]. exists cs, n. split_and!; [done|by apply Hs|done].
Qed.

Lemma operation_effect o :
  consistent v rc (w, hs) -> operation ->
  match o with Some x => file_at v rc (w', hs') c0 k0 x | None => ~ in_use v (w_dev w') rc c0 k0 end ->
  step_effect v rc (w, hs) (w', hs') c0 k0 o.
Proof.
  intros Hc Hop Ho. split; [by apply operation_consistent|by intros; apply operation_others|done].
Qed.
End Operation.

(** ** Handles *)

Lemma handle_consistent v rc w l f f' r :
  consistent v rc (w, l ++ f :: r) -> place_of f' = place_of f -> opened v (w_dev w) rc f' ->
  consistent v rc (w, l ++ f' :: r).
Proof.
  intros [Hrt Hown Hap Hop Hnd] Hp Hf. cbn [fst snd] in *.
  assert (place_of <$> (l ++ f' :: r) = place_of <$> (l ++ f :: r)) as Heq by (by rewrite !fmap_app, !fmap_cons, Hp).
  split; cbn [fst snd]; rewrite ?Heq; try done.
  apply Forall_app in Hop as [H1 H2]. apply Forall_cons in H2 as [_ H2]. apply Forall_app. split; [done|]. by constructor.
Qed.

(** The open file that a step works on. *)
Lemma handle_opened v rc w l f r : consistent v rc (w, l ++ f :: r) -> opened v (w_dev w) rc f.
Proof.
  intros [_ _ _ Hop _]. cbn [fst snd] in *. apply Forall_app in Hop as [_ H2]. by apply Forall_cons in H2 as [? _].
Qed.

Lemma cursor_opened v d rc p c s b f f' :
  f' = set_cursor p c s b f -> opened v d rc f -> (forall cs, file_ok v d cs f -> file_ok v d cs f') -> opened v d rc f'.
Proof.
  intros -> (c0 & k & cs & Hp & Hu & Ho & Hok & Hs) Hf. exists c0, k, cs. split_and!; auto.
Qed.

Lemma owned_file_ok v d rc c k cs cs' f :
  owns v d rc c k cs -> file_ok v d cs' f -> f_start_cluster f = entry_start (entry_of v d c k) -> cs' = cs.
Proof. intros [Hch _ _ _ _] [Hch' _ _ _ _ _ _] Hs. rewrite Hs in Hch'. by eapply chain_det. Qed.

Lemma owns_start v d rc c k cs f :
  owns v d rc c k cs -> file_ok v d cs f -> f_start_cluster f = entry_start (entry_of v d c k).
Proof.
  intros [Hch _ _ Hne _] [Hch' _ _ _ _ _ _]. destruct cs as [|x cs]; [done|].
  destruct Hch as [-> _]. by destruct Hch' as [-> _].
Qed.

(** The file that a handle is open at, before and after a step that only moves
    the cursor. *)
Lemma cursor_effect v rc w l f f' r c k cs :
  consistent v rc (w, l ++ f :: r) -> place_of f = (c, Z.of_nat k) -> in_use v (w_dev w) rc c k ->
  owns v (w_dev w) rc c k cs -> place_of f' = place_of f -> f_size f' = f_size f -> f_modified f' = f_modified f ->
  (f_modified f = false -> entry_size (entry_of v (w_dev w) c k) = f_size f) -> file_ok v (w_dev w) cs f' ->
  step_effect v rc (w, l ++ f :: r) (w, l ++ f' :: r) c k
    (Some (entry_name (entry_of v (w_dev w) c k), contents v (w_dev w) cs f)).
Proof.
  intros Hc Hp Hu Ho Hp' Hs' Hm' Hsz Hok'. apply handle_effect.
  - apply (handle_consistent v rc w l f); [done|done|]. exists c, k, cs. split_and!; [by rewrite Hp'|done|done|done|].
    rewrite Hm', Hs'. done.
  - intros c' k' n _. by apply size_of_replace.
  - apply file_at_open; [apply elem_of_app; right; apply elem_of_cons; by left|done..].
Qed.

(** Chains in use are not free. *)
Lemma owned_not_free v d rc c k cs x : owns v d rc c k cs -> x ∈ cs -> fat_entry v d x <> 0.
Proof. intros [Hch Ht _ _ _] Hx. by apply (chain_not_free _ _ _ _ Hch Ht). Qed.

(** What is open at an entry is open there. *)
Lemma opened_at v d rc f c k :
  opened v d rc f -> place_of f = (c, Z.of_nat k) ->
  exists cs, in_use v d rc c k /\ owns v d rc c k cs /\ file_ok v d cs f
    /\ (f_modified f = false -> entry_size (entry_of v d c k) = f_size f).
Proof.
  intros (c1 & k1 & cs & Hp1 & Hu & Ho & Hok & Hs) Hp. rewrite Hp1 in Hp. injection Hp as -> Hk.
  apply Nat2Z.inj in Hk as ->. by exists cs.
Qed.

(** Handles other than the one at work. *)
Lemma others_kept v rc w w' T l f f' r c k :
  consistent v rc (w, l ++ f :: r) -> place_of f = (c, Z.of_nat k) -> place_of f' = place_of f ->
  table_frame v (w_dev w) (w_dev w') rc T ->
  (forall c' k', c' ∈ rc -> (k' < entries_per_cluster v)%nat -> (c', k') <> (c, k) ->
    entry_of v (w_dev w') c' k' = entry_of v (w_dev w) c' k') ->
  (forall c' k' cs' x, in_use v (w_dev w) rc c' k' -> (c', k') <> (c, k) -> owns v (w_dev w) rc c' k' cs' ->
    x ∈ cs' -> ~ (x ∈ T)) ->
  opened v (w_dev w') rc f' ->
  Forall (opened v (w_dev w') rc) (l ++ f' :: r) /\ place_of <$> (l ++ f' :: r) = place_of <$> (l ++ f :: r).
Proof.
  intros [_ _ _ Hop Hnd] Hp Hp' Htf Hents Hap Hf'. cbn [fst snd] in *.
  rewrite fmap_app, fmap_cons in Hnd. apply NoDup_app in Hnd as (_ & Hl & [Hr _]%NoDup_cons).
  assert (forall g, opened v (w_dev w) rc g -> place_of g <> place_of f -> opened v (w_dev w') rc g) as Hg.
  { intros g Hg Hne. apply (opened_frame v (w_dev w) (w_dev w') rc T); [done|done| |].
    - intros c' k' cs' x Hpg Hu. apply Hap; [done|]. intros [= -> ->]. congruence.
    - intros c' k' Hpg (U1 & U2 & _). apply Hents; [done|done|]. intros [= -> ->]. congruence. }
  apply Forall_app in Hop as [H1 H2]. apply Forall_cons in H2 as [_ H2]. rewrite !Forall_forall in H1, H2. split.
  - apply Forall_app. split; [|constructor; [done|]]; apply Forall_forall; intros g Hin; apply Hg; auto.
    + intros He. apply (Hl (place_of g)); [apply list_elem_of_fmap; eauto|]. rewrite He. apply elem_of_cons. by left.
    + intros He. apply Hr. rewrite <- He. apply list_elem_of_fmap. eauto.
  - by rewrite !fmap_app, !fmap_cons, Hp'.
Qed.

(** The open file's clusters and size changed: outside [T], its old clusters and
    some free ones, the volume is as it was, and its new clusters are in [T]. *)
Lemma resized_effect v rc w l f r c k cs d' T cs' f0 :
  consistent v rc (w, l ++ f :: r) -> place_of f = (c, Z.of_nat k) -> in_use v (w_dev w) rc c k ->
  owns v (w_dev w) rc c k cs -> file_ok v (w_dev w) cs f ->
  sector_count d' = sector_count (w_dev w) -> Forall (on_disk v (sector_count (w_dev w))) T ->
  (forall x, 0 <= x < entries v -> ~ (x ∈ T) -> fat_entry v d' x = fat_entry v (w_dev w) x) ->
  (forall x, on_disk v (sector_count (w_dev w)) x -> ~ (x ∈ T) -> cluster_data v d' x = cluster_data v (w_dev w) x) ->
  (forall x, x ∈ T -> x ∈ cs \/ fat_entry v (w_dev w) x = 0) -> (forall x, x ∈ cs' -> x ∈ T) -> cs' <> [] ->
  file_ok v d' cs' f0 -> f_start_cluster f0 = f_start_cluster f -> place_of f0 = place_of f ->
  (f_modified f0 = false -> f_size f0 = entry_size (entry_of v (w_dev w) c k)) ->
  step_effect v rc (w, l ++ f :: r) (set_dev d' w, l ++ f0 :: r) c k
    (Some (entry_name (entry_of v (w_dev w) c k), contents v d' cs' f0)).
Proof.
  intros Hc Hp Hu Ho Hok Hcnt HT Hfat Hdata Hnew HcsT Hne Hok' Hstart Hpl Hsz.
  pose proof Hc as [Hrt Hown Hapart Hop Hnd]. cbn [fst snd] in *. pose proof Hrt as [Hg Hv _ _ Hrd _ _].
  assert (forall x, x ∈ T -> ~ (x ∈ rc)) as Hroot.
  { intros x [Hx|Hx]%Hnew; [by apply (ow_root _ _ _ _ _ _ Ho)|]. intros Hr.
    by apply (chain_not_free _ _ _ _ (rt_chain _ _ _ Hrt) (rt_term _ _ _ Hrt) Hr). }
  assert (table_frame v (w_dev w) d' rc T) as Htf by by split.
  assert (forall c' k', c' ∈ rc -> entry_of v d' c' k' = entry_of v (w_dev w) c' k') as Hents.
  { intros c' k' Hc'. unfold entry_of. rewrite Hdata; [done|by apply (proj1 (Forall_forall _ _) Hrd)|].
    intros Hx. by apply (Hroot c'). }
  assert (forall c' k' cs' x, in_use v (w_dev w) rc c' k' -> (c', k') <> (c, k) -> owns v (w_dev w) rc c' k' cs' ->
    x ∈ cs' -> ~ (x ∈ T)) as Hapt.
  { intros c' k' cs1 x Hu' Hne' Ho' Hx [Hin'|Hin']%Hnew.
    - by apply (Hapart c' k' c k cs1 cs x).
    - by apply (owned_not_free _ _ _ _ _ _ _ Ho' Hx). }
  pose proof Hu as (U1 & U2 & U3 & U4).
  assert (in_use v d' rc c k) as Hu' by (split_and!; try done; by rewrite Hents).
  assert (owns v d' rc c k cs') as Ho'.
  { pose proof Hok' as [Hch1 Ht1 Hd1 _ _ _ _]. split; try done; [|by auto].
    rewrite Hents by done. by rewrite <- (owns_start _ _ _ _ _ _ _ Ho Hok), <- Hstart. }
  destruct (others_kept v rc w (set_dev d' w) T l f f0 r c k Hc Hp Hpl Htf) as [Hopen Hplaces]; [by intros; apply Hents|done| |].
  { exists c, k, cs'. split_and!; [by rewrite Hpl|done|done|done|]. intros Hm. rewrite Hents by done. by rewrite Hsz. }
  apply (operation_effect v rc T w (set_dev d' w) (l ++ f :: r) (l ++ f0 :: r) c k); [done| |].
  2: { rewrite <- (Hents c k U1). rewrite <- Hpl in Hp.
       apply (file_at_open v rc (set_dev d' w)); [apply elem_of_app; right; apply elem_of_cons; by left|done..]. }
  split; cbn [w_dev set_dev w_vol]; rewrite ?Hplaces; try done.
  - by intros; apply Hents.
  - intros _. exists cs'. split_and!; [done|done|]. intros Hn. destruct Hn. apply list_elem_of_fmap. exists f.
    split; [done|]. apply elem_of_app. right. apply elem_of_cons. by left.
  - intros c' k' n Hne'. apply open_size_replace; [done|]. rewrite Hp. intros [= -> Hkk]. by apply Nat2Z.inj in Hkk as ->.
  - intros x Hx HxT _. by apply Hdata.
Qed.

(** A cursor on a cluster is inside the chain. *)
Lemma cursor_inside v d cs f :
  file_ok v d cs f -> f_current_cluster f <> 0 -> f_position f < Z.of_nat (length cs) * csize v.
Proof.
  intros Hok Hcur. destruct (fo_cursor _ _ _ _ Hok) as [_ Hcu].
  destruct (Z.ltb_spec (f_position f) (Z.of_nat (length cs) * csize v)); [done|]. by destruct Hcu as [? _].
Qed.

(** The clusters that a write inside the chain may add. *)
Lemma needed_bound v n pos len :
  0 < csize v -> 0 <= len -> pos < Z.of_nat n * csize v -> clusters_needed v n pos len <= len / csize v + 1.
Proof.
  intros Hcs Hl Hpos. unfold clusters_needed.
  assert ((pos + len) / csize v <= Z.of_nat n + len / csize v) as Hq; [|pose proof (Z.div_pos len (csize v)); lia].
  apply Z.lt_succ_r, Z.div_lt_upper_bound; [lia|]. pose proof (Z.mod_pos_bound len (csize v) Hcs).
  pose proof (Z.div_mod len (csize v) ltac:(lia)). nia.
Qed.

(** The same, for clusters appended to the chain. *)
Lemma grown_effect v rc w l f r c k cs d' new f0 :
  consistent v rc (w, l ++ f :: r) -> place_of f = (c, Z.of_nat k) -> in_use v (w_dev w) rc c k ->
  owns v (w_dev w) rc c k cs -> file_ok v (w_dev w) cs f ->
  grown v (w_dev w) d' cs (cs ++ new) -> file_ok v d' (cs ++ new) f0 -> place_of f0 = place_of f ->
  (f_modified f0 = false -> f_size f0 = entry_size (entry_of v (w_dev w) c k)) ->
  step_effect v rc (w, l ++ f :: r) (set_dev d' w, l ++ f0 :: r) c k
    (Some (entry_name (entry_of v (w_dev w) c k), contents v d' (cs ++ new) f0)).
Proof.
  intros Hc Hp Hu Ho Hok Hgr Hok' Hpl Hsz. pose proof (ow_some _ _ _ _ _ _ Ho) as Hne.
  destruct (gr_new _ _ _ _ _ Hgr) as (new' & Heq & Hnew). apply app_inv_head in Heq as <-. rewrite Forall_forall in Hnew.
  apply (resized_effect v rc w l f r c k cs d' (cs ++ new) (cs ++ new)); try done.
  - apply Hgr.
  - rewrite <- (gr_count _ _ _ _ _ Hgr). apply (fo_disk _ _ _ _ Hok').
  - apply (gr_fat _ _ _ _ _ Hgr).
  - apply (gr_data _ _ _ _ _ Hgr).
  - intros x [Hx|Hx]%elem_of_app; [by left|right]. by apply Hnew.
  - by destruct cs.
  - destruct cs as [|y cs]; [done|]. destruct (fo_chain _ _ _ _ Hok) as [<- _]. by destruct (fo_chain _ _ _ _ Hok') as [<- _].
Qed.

(** Every chain fits into the fuel. *)
Lemma root_short fuel v rc s : entries v <= Z.of_nat fuel -> consistent v rc s -> (length rc < fuel)%nat.
Proof.
  intros Hfuel Hc. destruct (cn_rooted _ _ _ Hc) as [Hg _ Hch _ Hd _ _]. pose proof (entries_bounds _ _ Hg).
  pose proof (chain_short v _ _ _ _ Hch Hd). lia.
Qed.

(** A name whose file begins at no open file's cluster is not open. *)
Lemma not_open fuel v rc w hs name c k :
  entries v <= Z.of_nat fuel -> consistent v rc (w, hs) -> old_name name ->
  lookup_entry name (dir_entries v (w_dev w) rc) = Some (c, k) ->
  (forall i j, (f_stat fuel (SLASH :: name) w).1 = Ret i -> j ∈ hs -> fi_start_cluster i <> f_start_cluster j) ->
  ~ ((c, Z.of_nat k) ∈ (place_of <$> hs)).
Proof.
  intros Hfuel Hc [Hne Hn] Hlk Hclosed (g & Hp & Hin)%list_elem_of_fmap.
  pose proof (root_short fuel v rc _ Hfuel Hc) as Hf. pose proof (cn_rooted _ _ _ Hc) as [Hg Hv Hch _ Hd _ _].
  pose proof (proj1 (Forall_forall _ _) (cn_open _ _ _ Hc) g Hin) as Hg'. cbn [fst snd] in *.
  destruct (opened_at _ _ _ _ _ _ Hg' (eq_sym Hp)) as (cs & _ & Ho & Hok & _).
  destruct (f_stat_run fuel v w rc name c k Hg Hv Hch Hd Hf Hne Hn Hlk) as (i & Ri & _ & Hst & _).
  apply (Hclosed i g); [by rewrite Ri|done|]. by rewrite Hst, (owns_start _ _ _ _ _ _ _ Ho Hok).
Qed.

End Consistency.

(** ** The demonstration volume *)

Lemma demo_in_use c k : in_use demo_vol (w_dev demo_world) [2] c k -> c = 2 /\ k = O.
Proof.
  intros (->%list_elem_of_singleton & Hk & Hl & _). split; [done|].
  change (entries_per_cluster demo_vol) with 16%nat in Hk. revert Hl.
  do 16 (destruct k as [|k]; [by vm_compute|]). lia.
Qed.

Lemma demo_consistent : consistent demo_vol [2] (demo_world, []).
Proof.
  split; cbn [fst snd].
  - exact demo_rooted.
  - intros c k [-> ->]%demo_in_use. exists [3; 5; 4]. split; [by destruct demo_stored_at|]. intros _. vm_compute. discriminate.
  - by intros c k c' k' cs cs' x [-> ->]%demo_in_use [-> ->]%demo_in_use.
  - constructor.
  - constructor.
Qed.
