(* ===== verification/FatRename.v ===== *)
(** Renaming and deleting as changes of the volume's map of files. *)

From stdpp Require Import base numbers list gmap.
From Stdlib Require Import ZArith Lia.
From S2P Require Import Prelude Block Fat32 Fat32Dir Fat32File.
From S2P Require Import FatSpec FatChain FatCluster FatDirSpec FatFileSpec FatWrite FatDemo FatTheorems FatFileTheorems.
From S2P Require Import FatSync FatDirUpdate FatFiles FatCreate FatState.

Section Rename.
Context {D : Type} `{ReliableDevice D}.

(** ** An entry deleted *)

(** The directory splits at each of its entries. *)
Lemma dir_split v d cs c k :
  NoDup cs -> c ∈ cs -> (k < entries_per_cluster v)%nat ->
  exists l r, dir_entries v d cs = l ++ (c, k, entry_at (cluster_data v d c) k) :: r
    /\ forall e', replace c k e' <$> dir_entries v d cs = l ++ (c, k, e') :: r.
Proof.
  intros Hnd Hc Hk. assert ((c, k, entry_at (cluster_data v d c) k) ∈ dir_entries v d cs) as Hin
    by by apply dir_entries_elem.
  apply list_elem_of_split in Hin as (l & r & Heq). exists l, r. split; [done|]. intros e'.
  pose proof (dir_entries_keys v d cs Hnd) as Hkeys. rewrite Heq in *. by apply replace_split.
Qed.

(** A file stays stored when another entry is marked deleted and clusters that
    are not its own change in the table. *)
Lemma stored_killed v d d' rc T c k t data ct kt cs :
  NoDup rc -> c ∈ rc -> (k < entries_per_cluster v)%nat -> geometry v (sector_count d) ->
  Forall (on_disk v (sector_count d)) rc ->
  table_frame v d d' rc T ->
  cluster_data v d' c = <[(32 * k)%nat := 229]> (cluster_data v d c) ->
  (forall x, on_disk v (sector_count d) x -> x <> c -> cluster_data v d' x = cluster_data v d x) ->
  stored_at v d rc t data ct kt cs -> (ct, kt) <> (c, k) -> (forall x, x ∈ cs -> ~ (x ∈ T)) ->
  stored_at v d' rc t data ct kt cs.
Proof.
  intros Hnd Hc Hk Hg Hrd Htf Hdc Hoth [Hlk Ha Hch Ht Hd Hne Hap Hsz Hdata] Hdiff HcT.
  assert (forall x, x ∈ rc -> x <> c -> cluster_data v d' x = cluster_data v d x) as Hrc.
  { intros x Hx. apply Hoth. by apply (proj1 (Forall_forall _ _) Hrd). }
  assert (forall j, j <> k -> entry_at (cluster_data v d' c) j = entry_at (cluster_data v d c) j) as Hent.
  { intros j Hj. apply (entry_at_outside _ _ k); [|done]. intros i Hi. rewrite Hdc. apply list_lookup_insert_ne. lia. }
  destruct (lookup_dir _ _ _ _ _ _ Hlk) as (Hct & _ & _).
  assert (entry_at (cluster_data v d' ct) kt = entry_at (cluster_data v d ct) kt) as He.
  { destruct (decide (ct = c)) as [->|Hn]; [|by rewrite Hrc]. apply Hent. congruence. }
  assert (file_bytes v d' cs = file_bytes v d cs) as Hfb.
  { apply file_bytes_same. intros x Hx. apply Hoth; [by apply (proj1 (Forall_forall _ _) Hd)|]. intros ->. by apply (Hap c). }
  destruct (chain_frame _ _ _ _ _ (entry_start (entry_at (cluster_data v d ct) kt)) _ Htf Hd HcT) as [C1 C2].
  split; rewrite ?He, ?Hfb; try done; auto; [|by rewrite (tf_count _ _ _ _ _ Htf)].
  rewrite (dir_entries_update v d d' rc c k Hrc) by (intros; by apply Hent).
  destruct (dir_split v d rc c k Hnd Hc Hk) as (l & r & Heq & Hrep). rewrite Hrep. rewrite Heq in Hlk.
  eapply lookup_killed; [|done|exact Hlk]. rewrite entry_at_byte, Nat.add_0_r, Hdc by lia. unfold byte_at.
  rewrite list_lookup_insert_eq; [done|].
  pose proof (slot_fits v d c k Hg (proj1 (Forall_forall _ _) Hrd c Hc) Hk). lia.
Qed.

(** ** Renaming *)

(** The entry under its new name. *)
Definition renamed (name e : list Z) : list Z := encode_name name ++ drop 11 e.

Lemma renamed_entry name e :
  new_name name -> length e = 32%nat ->
  length (renamed name e) = 32%nat /\ take 11 (renamed name e) = encode_name name /\
  drop 11 (renamed name e) = drop 11 e.
Proof.
  intros Hnn He. pose proof (length_encode_name name (nn_short _ Hnn)) as Hl. unfold renamed. split_and!.
  - rewrite length_app, length_drop, Hl, He. done.
  - rewrite <- Hl at 1. apply take_app_length.
  - rewrite <- Hl at 1. apply drop_app_length.
Qed.

(** Fields behind the name. *)
Lemma field_drop (e e' : list Z) o n :
  (11 <= o)%nat -> drop 11 e' = drop 11 e -> take n (drop o e') = take n (drop o e).
Proof. intros Ho Heq. replace o with (11 + (o - 11))%nat by lia. rewrite <- !drop_drop. by rewrite Heq. Qed.

Lemma fields_drop e e' :
  drop 11 e' = drop 11 e -> entry_attr e' = entry_attr e /\ entry_start e' = entry_start e /\ entry_size e' = entry_size e.
Proof.
  intros Heq. unfold entry_start, entry_size, le32_at. rewrite !(field_drop e e') by (done || lia). split_and!; try done.
  assert (head (drop 11 e') = head (drop 11 e)) as Hh by (by rewrite Heq). unfold entry_attr, byte_at.
  by rewrite !head_lookup, !lookup_drop in Hh; cbn in Hh; rewrite Hh.
Qed.

Lemma entry_at_splice (buf src : list Z) k :
  (32 * k + 32 <= length buf)%nat -> length src = 32%nat ->
  entry_at (splice (32 * k) src buf) k = src /\ length (splice (32 * k) src buf) = length buf /\
  forall i, (i < 32 * k \/ 32 * k + 32 <= i)%nat -> splice (32 * k) src buf !! i = buf !! i.
Proof.
  intros Hb Hs. split_and!.
  - unfold entry_at. pose proof (slice_splice_same (32 * k) src buf ltac:(lia)) as Hss. by rewrite Hs in Hss.
  - apply length_splice. lia.
  - intros i Hi. apply splice_lookup_out; lia.
Qed.

Lemma length_entry_at (buf : list Z) k : (32 * k + 32 <= length buf)%nat -> length (entry_at buf k) = 32%nat.
Proof. intros Hb. unfold entry_at. rewrite length_take, length_drop. lia. Qed.

Lemma effect_none v d d' c buf : cluster_set v d d' c buf -> effect v d d' [] c.
Proof. apply effect_cluster. Qed.

Lemma set_frame v d d' rc c buf : cluster_set v d d' c buf -> table_frame v d d' rc [].
Proof.
  intros Hs. split; [apply Hs|by intros; apply (cs_table _ _ _ _ _ Hs)|constructor|by intros x ?%elem_of_nil].
Qed.

(** The two clusters that a rename writes: the new entry's, then the old one's. *)
Lemma f_rename_writes fuel v w rc old new c0 k0 c k :
  rooted v w rc -> (length rc < fuel)%nat -> old_name old -> new_name new ->
  lookup_entry old (dir_entries v (w_dev w) rc) = Some (c0, k0) ->
  lookup_entry new (dir_entries v (w_dev w) rc) = None ->
  first_slot (dir_entries v (w_dev w) rc) = Some (c, k) ->
  exists d1 d2, f_rename fuel (SLASH :: old) (SLASH :: new) w = (Ret tt, set_dev d2 w)
    /\ cluster_set v (w_dev w) d1 c
         (splice (32 * k) (renamed new (entry_at (cluster_data v (w_dev w) c0) k0)) (cluster_data v (w_dev w) c))
    /\ cluster_set v d1 d2 c0 (<[(32 * k0)%nat := 229]> (cluster_data v d1 c0)).
Proof.
  intros Hrt Hf [Hne Hn] Hnn Hlk Hlkn Hslot. pose proof Hrt as [Hg Hv Hch Ht Hd Hrne _].
  destruct (slot_dir _ _ _ _ _ Hslot) as (Hc & Hk & _). destruct (lookup_dir _ _ _ _ _ _ Hlk) as (Hc0 & Hk0 & _).
  pose proof (proj1 (Forall_forall _ _) Hd c Hc) as Hcd. pose proof (proj1 (Forall_forall _ _) Hd c0 Hc0) as Hc0d.
  set (e0 := entry_at (cluster_data v (w_dev w) c0) k0) in *.
  pose proof (length_entry_at _ _ (slot_fits v _ c0 k0 Hg Hc0d Hk0)) as Hle0. fold e0 in Hle0.
  destruct (cluster_data_length v (w_dev w) c Hg Hcd) as [Hl Hby].
  destruct (cluster_data_length v (w_dev w) c0 Hg Hc0d) as [_ Hby0].
  destruct (renamed_entry new e0 Hnn Hle0) as (Hlr & _).
  destruct (entry_at_splice _ (renamed new e0) k (slot_fits v _ c k Hg Hcd Hk) Hlr) as (_ & El & _).
  assert (bytes (renamed new e0)) as Hbr.
  { apply Forall_app. split; [apply bytes_encode_name; apply Hnn|]. apply Forall_drop. by apply Forall_take, Forall_drop. }
  destruct (write_cluster_run v w c (splice (32 * k) (renamed new e0) (cluster_data v (w_dev w) c)) Hg Hcd)
    as (d1 & R1 & Hset1); [by rewrite El|by apply bytes_splice|].
  pose proof (rooted_frame v w (set_dev d1 w) rc [] Hrt (set_frame _ _ _ _ _ _ Hset1) eq_refl) as [Hg1 _ _ _ Hd1 _ _].
  cbn [w_dev set_dev] in *. pose proof (proj1 (Forall_forall _ _) Hd1 c0 Hc0) as Hc0d1.
  destruct (cluster_data_length v d1 c0 Hg1 Hc0d1) as [Hl1 Hby1].
  destruct (write_cluster_run v (set_dev d1 w) c0 (<[(32 * k0)%nat := 229]> (cluster_data v d1 c0)) Hg1 Hc0d1)
    as (d2 & R2 & Hset2); [by rewrite length_insert|by apply Forall_insert; [done|cbv]|].
  cbn [w_dev set_dev] in Hset2. exists d1, d2. split_and!; [|done|done].
  destruct (new_name_ok new Hnn) as [Hnm Hn0].
  assert (Forall (fun b => b <> SLASH) old /\ Forall (fun b => b <> 0) old) as [Hsl H0n]
    by (split; (eapply Forall_impl; [exact Hn|]); by intros ? []).
  unfold f_rename, with_vol, find_entry_in_dir. rewrite Hv.
  run_with (resolve_root fuel v old w Hne Hsl).
  pose proof (find_in_chain_run fuel v w _ rc old Hg Hch Hd Hf H0n) as Rf. rewrite Hlk in Rf. run_with Rf.
  run_with (read_cluster_run v w c0 Hg Hc0d). run_with (resolve_root fuel v new w Hnm (nn_slash _ Hnn)).
  rewrite decide_False by done.
  pose proof (find_in_chain_run fuel v w _ rc new Hg Hch Hd Hf Hn0) as Rn. rewrite Hlkn in Rn. run_with Rn.
  pose proof (slot_in_chain_run fuel v w _ rc Hg Hch Ht Hd Hrne Hf) as Rs. rewrite Hslot in Rs. run_with Rs.
  fold e0. fold (renamed new e0). run_with R1. run_with (read_cluster_run v (set_dev d1 w) c0 Hg1 Hc0d1). exact R2.
Qed.

Lemma f_rename_run fuel v w rc old new data c0 k0 cs0 c k :
  rooted v w rc -> (length rc < fuel)%nat -> old_name old -> stored_at v (w_dev w) rc old data c0 k0 cs0 ->
  new_name new -> lookup_entry new (dir_entries v (w_dev w) rc) = None ->
  first_slot (dir_entries v (w_dev w) rc) = Some (c, k) ->
  exists d', f_rename fuel (SLASH :: old) (SLASH :: new) w = (Ret tt, set_dev d' w) /\ rooted v (set_dev d' w) rc
    /\ stored_at v d' rc new data c k cs0
    /\ byte_at (entry_at (cluster_data v d' c0) k0) 0 = 229
    /\ (forall x, 0 <= x < entries v -> fat_entry v d' x = fat_entry v (w_dev w) x)
    /\ forall t data' ct kt cst, ci_prefix t new = false -> (ct, kt) <> (c0, k0) ->
         stored_at v (w_dev w) rc t data' ct kt cst -> stored_at v d' rc t data' ct kt cst.
Proof.
  intros Hrt Hf Hold Hst Hnn Hlkn Hslot. pose proof Hrt as [Hg Hv Hch Ht Hd Hrne _].
  pose proof (chain_NoDup _ _ _ Hch) as Hnd. pose proof Hst as [Hlk Ha Hsch Hst1 Hsd Hsne Hap Hsz Hdata].
  destruct (slot_dir _ _ _ _ _ Hslot) as (Hc & Hk & Hdead). destruct (lookup_dir _ _ _ _ _ _ Hlk) as (Hc0 & Hk0 & Hm0).
  assert ((c0, k0) <> (c, k)) as Hdiff by (intros [= -> ->]; apply matches_live in Hm0; congruence).
  pose proof (proj1 (Forall_forall _ _) Hd c Hc) as Hcd. pose proof (proj1 (Forall_forall _ _) Hd c0 Hc0) as Hc0d.
  destruct (f_rename_writes fuel v w rc old new c0 k0 c k Hrt Hf Hold Hnn Hlk Hlkn Hslot) as (d1 & d2 & R & Hset1 & Hset2).
  set (e0 := entry_at (cluster_data v (w_dev w) c0) k0) in *.
  pose proof (slot_fits v _ c k Hg Hcd Hk) as Hfit. pose proof (slot_fits v _ c0 k0 Hg Hc0d Hk0) as Hfit0.
  pose proof (length_entry_at _ _ Hfit0) as Hle0. fold e0 in Hle0.
  destruct (renamed_entry new e0 Hnn Hle0) as (Hlr & Htr & Hdr). destruct (fields_drop _ _ Hdr) as (Fa & Fs & Fz).
  destruct (entry_at_splice _ (renamed new e0) k Hfit Hlr) as (Es & _ & Eo).
  pose proof (cs_same _ _ _ _ _ Hset1) as Hs1. pose proof (cs_same _ _ _ _ _ Hset2) as Hs2.
  pose proof (rooted_frame v w (set_dev d1 w) rc [] Hrt (set_frame _ _ _ _ _ _ Hset1) eq_refl) as Hrt1.
  pose proof Hrt1 as [Hg1 _ Hch1 _ Hd1 _ _]. cbn [w_dev set_dev] in *.
  pose proof (slot_fits v _ c0 k0 Hg1 (proj1 (Forall_forall _ _) Hd1 c0 Hc0) Hk0) as Hfit1.
  assert (live (renamed new e0) = true /\ forall t, matches t (renamed new e0) = ci_prefix t new) as [Hlive Hmt].
  { destruct (name_seen new (renamed new e0) Hnn Htr) as (_ & H2 & H3). split; [done|]. apply H3. rewrite Fa.
    unfold matches in Hm0. rewrite !andb_true_iff in Hm0. destruct Hm0 as [[[Hh _] _] _]. by apply negb_true_iff in Hh. }
  assert (forall t data' ct kt cst, ci_prefix t new = false ->
    stored_at v (w_dev w) rc t data' ct kt cst -> stored_at v d1 rc t data' ct kt cst) as HA.
  { intros t data' ct kt cst Hpre. apply (stored_frame v (w_dev w) d1 rc [] c k); try done; rewrite ?Hs1; rewrite ?Es; try done.
    - by eapply effect_none.
    - intros i Hi. rewrite Hs1. by apply Eo.
    - by rewrite Hmt. }
  assert (forall x, on_disk v (sector_count (w_dev w)) x -> x <> c -> cluster_data v d1 x = cluster_data v (w_dev w) x) as Hoth1
    by (intros x Hx Hxc; by apply (cs_other _ _ _ _ _ Hset1)).
  assert (forall x, x ∈ cs0 -> on_disk v (sector_count (w_dev w)) x /\ x <> c) as Hcs0.
  { intros x Hx. split; [by apply (proj1 (Forall_forall _ _) Hsd)|]. intros ->. by apply (Hap c). }
  assert (stored_at v d1 rc new data c k cs0) as Hnew1.
  { destruct (chain_frame _ _ _ _ _ (entry_start e0) _ (set_frame _ _ _ rc _ _ Hset1) Hsd) as [C1 C2]; [by intros x _ ?%elem_of_nil|].
    split; rewrite ?Hs1, ?Es, ?Fa, ?Fs, ?Fz; auto; [|by rewrite (cs_count _ _ _ _ _ Hset1)|].
    - rewrite (dir_entries_update v (w_dev w) d1 rc c k), Hs1, Es.
      + destruct (slot_filled v (w_dev w) rc c k Hnd Hslot) as (l & e & r & Heq & Hll & _ & Hrep).
        rewrite Hrep. rewrite Heq in Hlkn. apply (lookup_put new l c k e); [done| |done]. rewrite Hmt. apply ci_prefix_refl.
      + intros x Hx. apply Hoth1. by apply (proj1 (Forall_forall _ _) Hd).
      + intros j Hj _. rewrite Hs1. apply (entry_at_outside _ _ k); [exact Eo|done].
    - rewrite <- Hdata. f_equal. apply file_bytes_same. intros x Hx. by apply Hoth1; apply Hcs0. }
  assert (forall x, on_disk v (sector_count d1) x -> x <> c0 -> cluster_data v d2 x = cluster_data v d1 x) as Hoth2
    by (intros x Hx Hxc; by apply (cs_other _ _ _ _ _ Hset2)).
  exists d2. split_and!; [exact R| | | | |].
  - by apply (rooted_frame v (set_dev d1 w) (set_dev d2 w) rc [] Hrt1 (set_frame _ _ _ _ _ _ Hset2)).
  - apply (stored_killed v d1 d2 rc [] c0 k0); try done; [by eapply set_frame|by intros x _ ?%elem_of_nil].
  - rewrite Hs2, entry_at_byte, Nat.add_0_r by lia. unfold byte_at. rewrite list_lookup_insert_eq; [done|]. lia.
  - intros x Hx. by rewrite (cs_table _ _ _ _ _ Hset2), (cs_table _ _ _ _ _ Hset1).
  - intros t data' ct kt cst Hpre Hn1 Hsa. apply (stored_killed v d1 d2 rc [] c0 k0); try done;
      [by eapply set_frame|by apply HA|by intros x _ ?%elem_of_nil].
Qed.

(** A rename that returns found its file, no other of the new name, and a slot. *)
Lemma f_rename_inv fuel v w rc old new w' :
  rooted v w rc -> (length rc < fuel)%nat -> old_name old -> new_name new ->
  f_rename fuel (SLASH :: old) (SLASH :: new) w = (Ret tt, w') ->
  exists c0 k0 c k, lookup_entry old (dir_entries v (w_dev w) rc) = Some (c0, k0)
    /\ lookup_entry new (dir_entries v (w_dev w) rc) = None /\ first_slot (dir_entries v (w_dev w) rc) = Some (c, k).
Proof.
  intros [Hg Hv Hch Ht Hd Hrne _] Hf [Hne Hn] Hnn R. destruct (new_name_ok new Hnn) as [Hnm Hn0].
  assert (Forall (fun b => b <> SLASH) old /\ Forall (fun b => b <> 0) old) as [Hsl H0n]
    by (split; (eapply Forall_impl; [exact Hn|]); by intros ? []).
  unfold f_rename, with_vol, find_entry_in_dir in R. rewrite Hv in R.
  rewrite (bind_ret _ _ _ _ _ (resolve_root fuel v old w Hne Hsl)) in R. cbv beta in R.
  rewrite (bind_ret _ _ _ _ _ (find_in_chain_run fuel v w _ rc old Hg Hch Hd Hf H0n)) in R. cbv beta in R.
  destruct (lookup_entry old _) as [[c0 k0]|] eqn:Hlk; [|done].
  destruct (lookup_dir _ _ _ _ _ _ Hlk) as (Hc0 & _). pose proof (proj1 (Forall_forall _ _) Hd c0 Hc0) as Hc0d.
  rewrite (bind_ret _ _ _ _ _ (read_cluster_run v w c0 Hg Hc0d)) in R. cbv beta zeta in R.
  rewrite (bind_ret _ _ _ _ _ (resolve_root fuel v new w Hnm (nn_slash _ Hnn))) in R. cbv beta in R.
  rewrite decide_False in R by done.
  rewrite (bind_ret _ _ _ _ _ (find_in_chain_run fuel v w _ rc new Hg Hch Hd Hf Hn0)) in R. cbv beta in R.
  destruct (lookup_entry new _) as [[]|] eqn:Hlkn; [done|].
  pose proof (slot_in_chain_run fuel v w _ rc Hg Hch Ht Hd Hrne Hf) as Rs.
  destruct (first_slot _) as [[c k]|] eqn:Hslot; [by exists c0, k0, c, k|]. unfold bind in R. by rewrite Rs in R.
Qed.

(** The entries of the directory after one cluster is written. *)
Lemma set_other v d d' rc c k buf c' k' :
  cluster_set v d d' c buf -> Forall (on_disk v (sector_count d)) rc ->
  (forall i, (i < 32 * k \/ 32 * k + 32 <= i)%nat -> buf !! i = cluster_data v d c !! i) ->
  c' ∈ rc -> (c', k') <> (c, k) -> entry_of v d' c' k' = entry_of v d c' k'.
Proof.
  intros Hs Hd Hout. apply entry_other.
  - intros x Hx Hxc. apply (cs_other _ _ _ _ _ Hs); [by apply (proj1 (Forall_forall _ _) Hd)|done].
  - intros i Hi. rewrite (cs_same _ _ _ _ _ Hs). by apply Hout.
Qed.

(** The entry deleted, its clusters left in the table. *)
Lemma entry_killed v rc w hs c k :
  consistent v rc (w, hs) -> in_use v (w_dev w) rc c k -> ~ ((c, Z.of_nat k) ∈ (place_of <$> hs)) ->
  exists d, cluster_set v (w_dev w) d c (<[(32 * k)%nat := 229]> (cluster_data v (w_dev w) c))
    /\ entry_of v d c k = <[0%nat := 229]> (entry_of v (w_dev w) c k)
    /\ operation v rc [] w (set_dev d w) hs hs c k /\ step_effect v rc (w, hs) (set_dev d w, hs) c k None.
Proof.
  intros Hc Hu Hn. pose proof Hu as (Hcin & Hk & _). pose proof Hc as [[Hg _ _ _ Hd _ _] _ _ Hop Hnd]. cbn [fst snd] in *.
  pose proof (proj1 (Forall_forall _ _) Hd c Hcin) as Hcd. destruct (cluster_data_length v (w_dev w) c Hg Hcd) as [Hl Hby].
  destruct (write_cluster_run v w c (<[(32 * k)%nat := 229]> (cluster_data v (w_dev w) c)) Hg Hcd)
    as (d & _ & Hset); [by rewrite length_insert|by apply Forall_insert; [done|cbv]|].
  pose proof (cs_same _ _ _ _ _ Hset) as Hs. pose proof (set_frame v _ d rc c _ Hset) as Htf.
  assert (entry_of v d c k = <[0%nat := 229]> (entry_of v (w_dev w) c k)) as He
    by (unfold entry_of; by rewrite Hs, entry_at_insert).
  assert (forall c' k', c' ∈ rc -> (c', k') <> (c, k) -> entry_of v d c' k' = entry_of v (w_dev w) c' k') as Hents.
  { intros c' k'. apply (set_other v _ d rc c k _ c' k' Hset Hd). intros i Hi. apply list_lookup_insert_ne. lia. }
  assert (~ in_use v d rc c k) as Hgone.
  { apply (killed_unused v d rc c k _ He), length_entry_at. exact (slot_fits v _ c k Hg Hcd Hk). }
  assert (operation v rc [] w (set_dev d w) hs hs c k) as Hopn.
  { split; cbn [w_dev set_dev w_vol]; try done; auto.
    - by intros c' k' cs x _ _ _ _ ?%elem_of_nil.
    - apply Forall_forall. intros g Hin. apply (opened_frame v (w_dev w) d rc []); [done|by apply (proj1 (Forall_forall _ _) Hop)| |].
      + by intros c' k' cs x _ _ _ _ ?%elem_of_nil.
      + intros c' k' Hp (U1 & _). apply Hents; [done|]. intros [= -> ->]. apply Hn, list_elem_of_fmap. by exists g.
    - intros x Hx _ Hr. apply (cs_other _ _ _ _ _ Hset); [done|]. by intros ->. }
  exists d. split_and!; [done|done|done|by apply (operation_effect v rc [])].
Qed.

(** The entries after both writes: the old one's is deleted, the new one's has the
    old one's fields. *)
Lemma renamed_entries v rc w dI d1 d2 name c0 k0 c k :
  let e0 := entry_of v (w_dev w) c0 k0 in
  new_name name -> geometry v (sector_count (w_dev w)) -> Forall (on_disk v (sector_count (w_dev w))) rc ->
  c ∈ rc -> (k < entries_per_cluster v)%nat -> c0 ∈ rc -> (k0 < entries_per_cluster v)%nat -> (c0, k0) <> (c, k) ->
  cluster_set v (w_dev w) dI c0 (<[(32 * k0)%nat := 229]> (cluster_data v (w_dev w) c0)) ->
  cluster_set v (w_dev w) d1 c (splice (32 * k) (renamed name e0) (cluster_data v (w_dev w) c)) ->
  cluster_set v d1 d2 c0 (<[(32 * k0)%nat := 229]> (cluster_data v d1 c0)) ->
  entry_of v d2 c k = renamed name e0
  /\ forall c' k', c' ∈ rc -> (c', k') <> (c, k) -> entry_of v d2 c' k' = entry_of v dI c' k'.
Proof.
  intros e0 Hnn Hg Hd Hc Hk Hc0 Hk0 Hdiff HI H1 H2.
  pose proof (slot_fits v _ c k Hg (proj1 (Forall_forall _ _) Hd c Hc) Hk) as Hfit.
  pose proof (length_entry_at _ _ (slot_fits v _ c0 k0 Hg (proj1 (Forall_forall _ _) Hd c0 Hc0) Hk0)) as Hl0.
  destruct (renamed_entry name e0 Hnn Hl0) as (Hlr & _). destruct (entry_at_splice _ _ k Hfit Hlr) as (Es & _ & Eo).
  assert (Forall (on_disk v (sector_count d1)) rc) as Hd1 by by rewrite (cs_count _ _ _ _ _ H1).
  assert (forall (buf : list Z) i, (i < 32 * k0 \/ 32 * k0 + 32 <= i)%nat -> <[(32 * k0)%nat := 229]> buf !! i = buf !! i) as Hk0o
    by (intros buf i Hi; apply list_lookup_insert_ne; lia).
  split.
  - rewrite (set_other v d1 d2 rc c0 k0 _ c k H2 Hd1 (Hk0o _) Hc) by congruence. unfold entry_of at 1.
    by rewrite (cs_same _ _ _ _ _ H1).
  - intros c' k' Hc' Hne. pose proof (set_other v _ d1 rc c k _ c' k' H1 Hd Eo Hc' Hne) as E1.
    destruct (decide ((c', k') = (c0, k0))) as [[= -> ->]|Hne0].
    + unfold entry_of in *. by rewrite (cs_same _ _ _ _ _ H2), (cs_same _ _ _ _ _ HI), !entry_at_insert, E1.
    + rewrite (set_other v d1 d2 rc c0 k0 _ c' k' H2 Hd1 (Hk0o _) Hc' Hne0), E1.
      by rewrite (set_other v _ dI rc c0 k0 _ c' k' HI Hd (Hk0o _) Hc' Hne0).
Qed.

(** The old entry's clusters under another entry. *)
Lemma entry_moved v rc w hs c0 k0 c k cs dI d2 e :
  let e0 := entry_of v (w_dev w) c0 k0 in
  consistent v rc (w, hs) -> in_use v (w_dev w) rc c0 k0 -> owns v (w_dev w) rc c0 k0 cs ->
  entry_size e0 <= Z.of_nat (length cs) * csize v ->
  c ∈ rc -> (k < entries_per_cluster v)%nat -> ~ in_use v (w_dev w) rc c k -> (c0, k0) <> (c, k) ->
  (forall y, on_disk v (sector_count (w_dev w)) y -> y <> c0 -> cluster_data v dI y = cluster_data v (w_dev w) y) ->
  operation v rc [] w (set_dev dI w) hs hs c0 k0 -> step_effect v rc (w, hs) (set_dev dI w, hs) c0 k0 None ->
  entry_of v d2 c k = e -> live e = true ->
  entry_attr e = entry_attr e0 /\ entry_start e = entry_start e0 /\ entry_size e = entry_size e0 ->
  (forall c' k', c' ∈ rc -> (c', k') <> (c, k) -> entry_of v d2 c' k' = entry_of v dI c' k') ->
  table_frame v (w_dev w) d2 rc [] ->
  (forall y, on_disk v (sector_count (w_dev w)) y -> ~ (y ∈ rc) -> cluster_data v d2 y = cluster_data v (w_dev w) y) ->
  step_effect v rc (set_dev dI w, hs) (set_dev d2 w, hs) c k
    (Some (entry_name e, take (Z.to_nat (entry_size e0)) (file_bytes v (w_dev w) cs))).
Proof.
  intros e0 Hc Hu0 Ho Hsz Hcin Hk Hfree Hdiff HIdat HopI HstI Her Fl (Fa & Fs & Fz) Hents Htf2 Hdat.
  pose proof Hc as [_ _ Hapart Hop Hnd]. pose proof Hu0 as (Hc0 & _ & _ & Hhid0).
  pose proof (op_table _ _ _ _ _ _ _ _ _ HopI) as HtfI. cbn [fst snd w_dev set_dev] in *.
  pose proof HstI as [HcI _ Hgone]. cbn [fst snd w_dev set_dev] in *.
  assert (~ ((c, Z.of_nat k) ∈ (place_of <$> hs))) as Hnp.
  { intros (g & Hpg & Hin)%list_elem_of_fmap. pose proof (proj1 (Forall_forall _ _) Hop g Hin) as Hg'.
    destruct (opened_at _ _ _ _ _ _ Hg' (eq_sym Hpg)) as (_ & Hu' & _). done. }
  assert (owns v d2 rc c k cs) as Ho2.
  { destruct Ho as [O1 O2 O3 O4 O5]. destruct (chain_frame v (w_dev w) d2 rc [] (entry_start e0) cs) as [C1 C2]; [done|done|by intros y _ ?%elem_of_nil|].
    split; auto; [rewrite Her, Fs; auto|by rewrite (tf_count _ _ _ _ _ Htf2)]. }
  assert (file_bytes v d2 cs = file_bytes v (w_dev w) cs) as Hfb.
  { apply file_bytes_same. intros y Hy. apply Hdat; [|by apply Ho]. by apply (proj1 (Forall_forall _ _) (ow_disk _ _ _ _ _ _ Ho)). }
  assert (in_use v d2 rc c k) as Hu2.
  { unfold in_use. rewrite Her, Fa. split_and!; [exact Hcin|exact Hk|exact Fl|exact Hhid0]. }
  apply (operation_effect v rc cs (set_dev dI w) (set_dev d2 w) hs hs c k); [done| |].
  2: { split; cbn [fst snd w_dev set_dev]; [done|by rewrite Her|]. exists cs, (entry_size e0). split_and!; [done| |by rewrite Hfb].
       right. split; [done|]. cbn [fst snd w_dev set_dev]. by rewrite Her, Fz. }
  assert (table_frame v dI d2 rc cs) as Htf.
  { split; [by rewrite (tf_count _ _ _ _ _ Htf2), (tf_count _ _ _ _ _ HtfI)| |by rewrite (tf_count _ _ _ _ _ HtfI); apply Ho|by apply Ho].
    intros y Hy _. by rewrite (tf_fat _ _ _ _ _ Htf2), (tf_fat _ _ _ _ _ HtfI) by (done || by intros ?%elem_of_nil). }
  assert (forall c' k' cs' y, in_use v dI rc c' k' -> owns v dI rc c' k' cs' -> y ∈ cs' -> ~ (y ∈ cs)) as Hapt.
  { intros c' k' cs' y Hu' Ho' Hy. assert ((c', k') <> (c0, k0)) as Hne' by (by intros [= -> ->]).
    apply (in_use_other v rc [] w (set_dev dI w) hs hs c0 k0 c' k' HopI Hne') in Hu'.
    apply (owns_other v rc [] w (set_dev dI w) hs hs c0 k0 c' k' cs' Hc HopI Hne' Hu') in Ho'.
    by apply (Hapart c' k' c0 k0 cs' cs y). }
  split; cbn [w_dev set_dev w_vol]; try done.
  - intros c' k' Hc' _ Hne'. by apply Hents.
  - intros c' k' cs' y Hu' _. by apply Hapt.
  - intros _. exists cs. split_and!; [done|done|]. intros _. by rewrite Her, Fz.
  - apply Forall_forall. intros g Hin. pose proof (proj1 (Forall_forall _ _) (cn_open _ _ _ HcI) g Hin) as Hg'.
    apply (opened_frame v dI d2 rc cs); [done|done| |].
    + intros c' k' cs' y _ Hu'. by apply Hapt.
    + intros c' k' Hpg (U1 & _). apply Hents; [done|]. intros [= -> ->]. apply Hnp, list_elem_of_fmap. by exists g.
  - intros y Hy _ Hr. rewrite (tf_count _ _ _ _ _ HtfI) in Hy. rewrite Hdat by done.
    symmetry. apply HIdat; [done|]. by intros ->.
Qed.

(** A rename is a deletion of the old entry and a creation of the new one with the
    old one's bytes. *)
Lemma rename_effect fuel v rc w hs old new w' :
  entries v <= Z.of_nat fuel -> consistent v rc (w, hs) -> old_name old -> new_name new ->
  (forall i j, (f_stat fuel (SLASH :: old) w).1 = Ret i -> j ∈ hs -> fi_start_cluster i <> f_start_cluster j) ->
  f_rename fuel (SLASH :: old) (SLASH :: new) w = (Ret tt, w') ->
  exists c0 k0 c k x dI, file_at v rc (w, hs) c0 k0 x /\ ci_prefix old x.1 = true
    /\ ~ ((c0, Z.of_nat k0) ∈ (place_of <$> hs)) /\ ~ in_use v (w_dev w) rc c k
    /\ step_effect v rc (w, hs) (set_dev dI w, hs) c0 k0 None
    /\ step_effect v rc (set_dev dI w, hs) (w', hs) c k (Some (new, x.2)).
Proof.
  intros Hfuel Hc Hold Hnn Hclosed R. pose proof (root_short fuel v rc _ Hfuel Hc) as Hf.
  pose proof Hc as [Hrt Hown Hapart Hop Hnd]. cbn [fst snd] in *. pose proof Hrt as [Hg Hv Hch _ Hd _ _].
  destruct (f_rename_inv fuel v w rc old new w' Hrt Hf Hold Hnn R) as (c0 & k0 & c & k & Hlk & Hlkn & Hslot).
  pose proof (not_open fuel v rc w hs old c0 k0 Hfuel Hc Hold Hlk Hclosed) as Hn0.
  pose proof (lookup_in_use _ _ _ _ _ _ Hlk) as Hu0. pose proof Hu0 as (Hc0 & Hk0 & Hlive0 & Hhid0).
  destruct (slot_dir _ _ _ _ _ Hslot) as (Hcin & Hk & Hdead).
  assert (forall d, d = w_dev w -> ~ in_use v d rc c k) as Hfree
    by (intros d -> (_ & _ & Hl & _); unfold entry_of in Hl; congruence).
  assert ((c0, k0) <> (c, k)) as Hdiff by (intros [= -> ->]; by apply (Hfree (w_dev w))).
  destruct (f_rename_writes fuel v w rc old new c0 k0 c k Hrt Hf Hold Hnn Hlk Hlkn Hslot) as (d1 & d2 & R2 & Hset1 & Hset2).
  rewrite R in R2. injection R2 as ->.
  destruct (entry_killed v rc w hs c0 k0 Hc Hu0 Hn0) as (dI & HsetI & HeI & HopI & HstI).
  destruct (renamed_entries v rc w dI d1 d2 new c0 k0 c k Hnn Hg Hd Hcin Hk Hc0 Hk0 Hdiff HsetI Hset1 Hset2) as [Her Hents].
  set (e0 := entry_of v (w_dev w) c0 k0) in *.
  pose proof (length_entry_at _ _ (slot_fits v _ c0 k0 Hg (proj1 (Forall_forall _ _) Hd c0 Hc0) Hk0)) as Hl0.
  destruct (renamed_entry new e0 Hnn Hl0) as (_ & Htr & Hdr). destruct (fields_drop _ _ Hdr) as (Fa & Fs & Fz).
  destruct (name_seen new (renamed new e0) Hnn Htr) as (Fn & Fl & _).
  destruct (Hown c0 k0 Hu0) as (cs & Ho & Hsz). specialize (Hsz Hn0).
  set (x := (entry_name e0, take (Z.to_nat (entry_size e0)) (file_bytes v (w_dev w) cs))).
  exists c0, k0, c, k, x, dI. split_and!; [| |done|by apply Hfree|done|].
  { by apply file_at_closed. }
  { destruct (lookup_dir _ _ _ _ _ _ Hlk) as (_ & _ & Hm). unfold matches in Hm. rewrite !andb_true_iff in Hm. by destruct Hm. }
  assert (table_frame v (w_dev w) d2 rc []) as Htf2.
  { split; [by rewrite (cs_count _ _ _ _ _ Hset2), (cs_count _ _ _ _ _ Hset1)| |constructor|by intros y ?%elem_of_nil].
    intros y Hy _. by rewrite (cs_table _ _ _ _ _ Hset2), (cs_table _ _ _ _ _ Hset1). }
  assert (forall y, on_disk v (sector_count (w_dev w)) y -> ~ (y ∈ rc) -> cluster_data v d2 y = cluster_data v (w_dev w) y) as Hdat.
  { intros y Hy Hr. rewrite (cs_other _ _ _ _ _ Hset2); [|by rewrite (cs_count _ _ _ _ _ Hset1)|by intros ->].
    apply (cs_other _ _ _ _ _ Hset1); [done|]. by intros ->. }
  rewrite <- Fn. apply (entry_moved v rc w hs c0 k0 c k cs dI d2 (renamed new e0)); try done; [by apply Hfree|].
  apply (cs_other _ _ _ _ _ HsetI).
Qed.

(** ** Deleting *)

(** Giving back the clusters of a chain makes exactly them free. *)
Lemma free_count_given v (f g : Z -> Z) cs :
  NoDup cs -> (forall x, x ∈ cs -> 2 <= x < entries v /\ f x <> 0) ->
  (forall x, 0 <= x < entries v -> g x = if decide (x ∈ cs) then 0 else f x) ->
  free_count v g = (free_count v f + length cs)%nat.
Proof.
  intros Hnd Hcs Hg. unfold free_count. rewrite <- length_app. apply Permutation_length, NoDup_Permutation.
  - apply NoDup_filter, NoDup_seqZ.
  - apply NoDup_app. split_and!; [apply NoDup_filter, NoDup_seqZ| |done].
    intros x [Hz _]%list_elem_of_filter Hx. by apply (Hcs x Hx).
  - intros x. rewrite elem_of_app, !list_elem_of_filter, data_clusters_elem. split.
    + intros [Hz Hx]. rewrite Hg in Hz by lia. destruct (decide (x ∈ cs)); [by right|by left].
    + intros [[Hz Hx]|Hx]; [|destruct (Hcs x Hx) as [Hr _]]; (split; [|lia]); rewrite Hg by lia; by case_decide.
Qed.

Lemma stored_in_use v d rc t data c k cs :
  stored_at v d rc t data c k cs -> in_use v d rc c k /\ owns v d rc c k cs.
Proof.
  intros [Hlk Ha Hch Ht Hd Hne Hap Hsz _]. split; [by eapply lookup_in_use|by split].
Qed.

Lemma f_unlink_map_run fuel v rc w hs name data c k cs :
  entries v <= Z.of_nat fuel -> consistent v rc (w, hs) -> old_name name ->
  stored_at v (w_dev w) rc name data c k cs ->
  exists d', f_unlink fuel (SLASH :: name) w = (Ret tt, set_dev d' w)
    /\ free_count v (fat_entry v d') = (free_count v (fat_entry v (w_dev w)) + length cs)%nat
    /\ ~ in_use v d' rc c k
    /\ forall t data' ct kt cst, (ct, kt) <> (c, k) ->
         stored_at v (w_dev w) rc t data' ct kt cst -> stored_at v d' rc t data' ct kt cst.
Proof.
  intros Hfuel Hc [Hne Hn] Hst. pose proof Hc as [Hrt _ Hapart _ _]. cbn [fst snd] in *.
  pose proof Hrt as [Hg Hv Hch _ Hd _ _]. pose proof (entries_bounds _ _ Hg) as Hb.
  pose proof (chain_short v _ _ _ _ Hch Hd) as Hf. destruct (stored_in_use _ _ _ _ _ _ _ _ Hst) as [Hu Ho].
  pose proof Ho as [Hsch Hst1 Hsd Hsne Hroot]. pose proof (chain_short v _ _ _ _ Hsch Hsd) as Hshort.
  pose proof Hu as (Hcin & Hk & _).
  assert (forall x, x ∈ cs -> 2 <= x < entries v) as Hrange by (intros x Hx; by apply (proj1 (Forall_forall _ _) Hsd x Hx)).
  destruct (f_unlink_run fuel v w rc name c k cs Hg Hv Hch Hd ltac:(lia) Hne Hn (sa_found _ _ _ _ _ _ _ _ Hst) Hsch)
    as (d' & R & Hcnt & Hdc & Hdata & Hfat); [apply Forall_forall; intros x Hx; by apply Hrange|lia|].
  assert (table_frame v (w_dev w) d' rc cs) as Htf.
  { split; [done| |done|done]. intros x Hx Hnx. rewrite Hfat by done. by rewrite decide_False. }
  exists d'. split_and!; [done| | |].
  - apply (free_count_given v (fat_entry v (w_dev w)) _ cs); [by eapply chain_NoDup| |done].
    intros x Hx. split; [by apply Hrange|]. by apply (chain_not_free _ _ _ _ Hsch Hst1).
  - intros (_ & _ & Hl & _). apply live_spec in Hl as [_ Hl]. apply Hl. unfold entry_of.
    rewrite entry_at_byte, Hdc by lia. unfold byte_at. rewrite Nat.add_0_r, list_lookup_insert_eq; [done|].
    pose proof (slot_fits v (w_dev w) c k Hg (proj1 (Forall_forall _ _) Hd c Hcin) Hk). lia.
  - intros t data' ct kt cst Hdiff Hsa. apply (stored_killed v (w_dev w) d' rc cs c k); try done; [by eapply chain_NoDup|].
    intros x Hx Hin. destruct (stored_in_use _ _ _ _ _ _ _ _ Hsa) as [Hu' Ho']. by apply (Hapart ct kt c k cst cs x).
Qed.

(** ** Properties *)

(** [f_rename] of a file of the root directory to a new name: the new name
    holds what the old one held, in the same clusters, the old entry is deleted,
    the table is untouched, and every other file whose search the new name does
    not catch holds what it held. *)
Theorem f_rename_moves fuel v w rc old new data c0 k0 cs0 c k :
  rooted v w rc -> (length rc < fuel)%nat -> old_name old -> stored_at v (w_dev w) rc old data c0 k0 cs0 ->
  new_name new -> lookup_entry new (dir_entries v (w_dev w) rc) = None ->
  first_slot (dir_entries v (w_dev w) rc) = Some (c, k) ->
  exists d', f_rename fuel (SLASH :: old) (SLASH :: new) w = (Ret tt, set_dev d' w) /\ rooted v (set_dev d' w) rc
    /\ stored_at v d' rc new data c k cs0
    /\ byte_at (entry_at (cluster_data v d' c0) k0) 0 = 229
    /\ (forall x, 0 <= x < entries v -> fat_entry v d' x = fat_entry v (w_dev w) x)
    /\ forall t data' ct kt cst, ci_prefix t new = false -> (ct, kt) <> (c0, k0) ->
         stored_at v (w_dev w) rc t data' ct kt cst -> stored_at v d' rc t data' ct kt cst.
Proof. apply f_rename_run. Qed.

(** [f_unlink] on a consistent volume removes one file from its map: the
    entry is not in use any more, exactly the clusters of the file are free
    again, and every file with another entry holds what it held. *)
Theorem f_unlink_removes fuel v rc w hs name data c k cs :
  entries v <= Z.of_nat fuel -> consistent v rc (w, hs) -> old_name name ->
  stored_at v (w_dev w) rc name data c k cs ->
  exists d', f_unlink fuel (SLASH :: name) w = (Ret tt, set_dev d' w)
    /\ free_count v (fat_entry v d') = (free_count v (fat_entry v (w_dev w)) + length cs)%nat
    /\ ~ in_use v d' rc c k
    /\ forall t data' ct kt cst, (ct, kt) <> (c, k) ->
         stored_at v (w_dev w) rc t data' ct kt cst -> stored_at v d' rc t data' ct kt cst.
Proof. apply f_unlink_map_run. Qed.
End Rename.

Lemma f_rename_moves_witness : exists d',
  f_rename 4 (SLASH :: demo_name) (SLASH :: copy_name) demo_world = (Ret tt, set_dev d' demo_world)
  /\ stored_at demo_vol d' [2] copy_name demo_data 2 1 [3; 5; 4].
Proof.
  destruct (f_rename_moves 4 demo_vol demo_world [2] demo_name copy_name demo_data 2 0 [3; 5; 4] 2 1
    demo_rooted ltac:(cbn; lia) demo_old_name demo_stored_at demo_new_name) as (d' & R & _ & Hs & _).
  - vm_compute. reflexivity.
  - vm_compute. reflexivity.
  - exists d'. exact (conj R Hs).
Defined.

Lemma f_unlink_removes_witness : exists d',
  f_unlink 200 (SLASH :: demo_name) demo_world = (Ret tt, set_dev d' demo_world)
  /\ free_count demo_vol (fat_entry demo_vol d') = 125%nat.
Proof.
  destruct (f_unlink_removes 200 demo_vol [2] demo_world [] demo_name demo_data 2 0 [3; 5; 4]
    ltac:(vm_compute; discriminate) demo_consistent demo_old_name demo_stored_at) as (d' & R & Hc & _).
  exists d'. split; [exact R|]. rewrite Hc. vm_compute. reflexivity.
Defined.
