(* ===== verification/FatConsistent.v ===== *)
(** Consistency of the volume as an invariant: whatever sequence of the
    operations that [fs_step] allows clients perform on the files of the root
    directory, every entry in use owns a chain of clusters of its own. Each operation's effect on the files is a
    lemma of its own. *)

From stdpp Require Import base numbers list gmap relations.
From Stdlib Require Import ZArith Lia.
From S2P Require Import Prelude Block Fat32 Fat32Dir Fat32File.
From S2P Require Import FatSpec FatChain FatCluster FatDirSpec FatFileSpec FatWrite FatDemo FatTheorems FatFileTheorems.
From S2P Require Import FatSync FatDirUpdate FatFiles FatCreate FatResize FatState FatRename.

Section Steps.
Context {D : Type} `{ReliableDevice D}.

(** ** The client *)

(** An operation with its argument and result; an open file is named by its
    place in the list of open files. *)
Inductive event : Type :=
| Opened (name : list Z) (flags : Z)
| Created (name : list Z) (flags : Z)
| Read (i : nat) (n : Z) (data : list Z)
| Sought (i : nat) (offset : Z)
| Wrote (i : nat) (buf : list Z)
| Truncated (i : nat)
| Expanded (i : nat) (size : Z)
| Synced (i : nat)
| Closed (i : nat)
| Unlinked (name : list Z)
| Renamed (old new : list Z).

(** Where a cursor may be put: inside the file or at its end, but not behind a
    last cluster that is full, where there is no cluster for the cursor. *)
Definition seekable v (f : File) (offset : Z) : Prop :=
  0 <= offset <= f_size f /\ (offset < f_size f \/ offset = 0 \/ offset mod csize v <> 0).

(** What a client may do, in the root directory, when the operation returns
    [Ok]: open a file that is not open, without flags that create; create one
    under a new 8.3 name with [FA_CREATE_NEW]; read; seek to a [seekable]
    offset; write, cut and expand with the cursor at a cluster
    ([f_current_cluster <> 0]), with as many free clusters as the length may
    need and below 4 GiB; write back; close what is written back; and delete
    and rename what is not open. The orders left out (writing with the cursor
    behind a full last cluster, [FA_CREATE_ALWAYS], closing or deleting in
    between) lose clusters or files in the code. *)
Inductive fs_step (fuel : nat) (v : FatVolume) : event -> World D * list File -> World D * list File -> Prop :=
| step_open w hs name flags f w' :
    name <> [] -> Forall (fun b => b <> 0 /\ b <> SLASH) name ->
    Z.land flags (Z.lor (Z.lor FA_CREATE_NEW FA_CREATE_ALWAYS) FA_OPEN_ALWAYS) = 0 ->
    f_open fuel (SLASH :: name) flags w = (Ret f, w') -> ~ (place_of f ∈ (place_of <$> hs)) ->
    fs_step fuel v (Opened name flags) (w, hs) (w', f :: hs)
| step_create w hs name flags f w' :
    new_name name -> Z.land flags FA_CREATE_NEW <> 0 ->
    f_open fuel (SLASH :: name) flags w = (Ret f, w') ->
    fs_step fuel v (Created name flags) (w, hs) (w', f :: hs)
| step_read w l f r n data w' f' :
    0 <= n -> f_read n (w, f) = (Ret data, (w', f')) ->
    fs_step fuel v (Read (length l) n data) (w, l ++ f :: r) (w', l ++ f' :: r)
| step_seek w l f r offset w' f' :
    seekable v f offset -> f_lseek offset (w, f) = (Ret tt, (w', f')) ->
    fs_step fuel v (Sought (length l) offset) (w, l ++ f :: r) (w', l ++ f' :: r)
| step_write w l f r buf n w' f' :
    bytes buf -> f_current_cluster f <> 0 -> f_position f + Z.of_nat (length buf) < 2 ^ 32 ->
    Z.of_nat (length buf) / csize v + 1 <= Z.of_nat (free_count v (fat_entry v (w_dev w))) ->
    f_write buf (w, f) = (Ret n, (w', f')) ->
    fs_step fuel v (Wrote (length l) buf) (w, l ++ f :: r) (w', l ++ f' :: r)
| step_truncate w l f r w' f' :
    f_current_cluster f <> 0 -> f_truncate fuel (w, f) = (Ret tt, (w', f')) ->
    fs_step fuel v (Truncated (length l)) (w, l ++ f :: r) (w', l ++ f' :: r)
| step_expand w l f r size w' f' :
    f_current_cluster f <> 0 -> 0 <= size -> size + csize v < 2 ^ 32 ->
    size / csize v + 1 <= Z.of_nat (free_count v (fat_entry v (w_dev w))) ->
    f_expand fuel size (w, f) = (Ret tt, (w', f')) ->
    fs_step fuel v (Expanded (length l) size) (w, l ++ f :: r) (w', l ++ f' :: r)
| step_sync w l f r w' f' :
    f_sync (w, f) = (Ret tt, (w', f')) ->
    fs_step fuel v (Synced (length l)) (w, l ++ f :: r) (w', l ++ f' :: r)
| step_close w l f r :
    f_modified f = false -> fs_step fuel v (Closed (length l)) (w, l ++ f :: r) (w, l ++ r)
| step_unlink w hs name w' :
    name <> [] -> Forall (fun b => b <> 0 /\ b <> SLASH) name ->
    (forall i j, (f_stat fuel (SLASH :: name) w).1 = Ret i -> j ∈ hs -> fi_start_cluster i <> f_start_cluster j) ->
    f_unlink fuel (SLASH :: name) w = (Ret tt, w') ->
    fs_step fuel v (Unlinked name) (w, hs) (w', hs)
| step_rename w hs old new w' :
    old_name old -> new_name new ->
    (forall i j, (f_stat fuel (SLASH :: old) w).1 = Ret i -> j ∈ hs -> fi_start_cluster i <> f_start_cluster j) ->
    f_rename fuel (SLASH :: old) (SLASH :: new) w = (Ret tt, w') ->
    fs_step fuel v (Renamed old new) (w, hs) (w', hs).

(** A sequence of events. *)
Fixpoint trace {E S : Type} (step : E -> S -> S -> Prop) (es : list E) (s s' : S) : Prop :=
  match es with
  | [] => s = s'
  | e :: es => exists s1, step e s s1 /\ trace step es s1 s'
  end.

(** ** The steps *)

Lemma read_effect v rc w l f r n data w' f' :
  consistent v rc (w, l ++ f :: r) -> 0 <= n -> f_read n (w, f) = (Ret data, (w', f')) ->
  exists c k x, place_of f = (c, Z.of_nat k) /\ place_of f' = place_of f /\ file_at v rc (w, l ++ f :: r) c k x
    /\ data = take (Z.to_nat n) (drop (Z.to_nat (f_position f)) x.2)
    /\ f_position f' = f_position f + Z.of_nat (length data)
    /\ step_effect v rc (w, l ++ f :: r) (w', l ++ f' :: r) c k (Some x).
Proof.
  intros Hc Hn R. pose proof (handle_opened _ _ _ _ _ _ Hc) as (c & k & cs & Hp & Hu & Ho & Hok & Hs).
  pose proof (cn_rooted _ _ _ Hc) as [Hg Hv _ _ _ _ _]. cbn [fst snd] in *. destruct (lacks f FA_READ) eqn:Hl.
  { unfold f_read, get_file in R. unfold bind at 1 in R. cbn [gets fst snd] in R. rewrite Hl in R. done. }
  destruct (f_read_run v w f cs n Hg Hv Hok Hl Hn) as (c1 & s & b & R' & Hok'). cbv zeta in R', Hok'. rewrite R in R'.
  injection R' as Hdata -> ->. rewrite (read_contents v (w_dev w) cs f n Hok) in Hdata.
  exists c, k, (entry_name (entry_of v (w_dev w) c k), contents v (w_dev w) cs f). split_and!; try done.
  - apply file_at_open; [apply elem_of_app; right; apply elem_of_cons; by left|done..].
  - cbn. rewrite Hdata, length_take, length_drop, (contents_length v (w_dev w) cs f Hg Hok).
    pose proof (fo_pos _ _ _ _ Hok). lia.
  - by apply cursor_effect.
Qed.

Lemma seekable_inside v w cs f offset :
  geometry v (sector_count (w_dev w)) -> file_ok v (w_dev w) cs f -> cs <> [] -> seekable v f offset ->
  offset < Z.of_nat (length cs) * csize v.
Proof.
  intros Hg Hok Hne [Ho Hcase]. destruct (csize_nat _ _ Hg) as [_ Hcs]. pose proof (fo_size _ _ _ _ Hok).
  assert (0 < length cs)%nat by (destruct cs; [done|cbn; lia]).
  destruct Hcase as [?|[?|Hmod]]; [lia|nia|]. destruct (decide (offset = Z.of_nat (length cs) * csize v)) as [He|]; [|lia].
  rewrite He, Z.mod_mul in Hmod by lia. done.
Qed.

Lemma seek_effect v rc w l f r offset w' f' :
  consistent v rc (w, l ++ f :: r) -> seekable v f offset -> f_lseek offset (w, f) = (Ret tt, (w', f')) ->
  exists c k x, place_of f = (c, Z.of_nat k) /\ place_of f' = place_of f /\ file_at v rc (w, l ++ f :: r) c k x
    /\ 0 <= offset <= Z.of_nat (length x.2) /\ f_position f' = offset
    /\ step_effect v rc (w, l ++ f :: r) (w', l ++ f' :: r) c k (Some x).
Proof.
  intros Hc Hn R. pose proof (handle_opened _ _ _ _ _ _ Hc) as (c & k & cs & Hp & Hu & Ho & Hok & Hs).
  pose proof (cn_rooted _ _ _ Hc) as [Hg Hv _ _ _ _ _]. cbn [fst snd] in *. pose proof (fo_size _ _ _ _ Hok).
  destruct (f_lseek_inside_run v w f cs offset Hg Hv Hok) as (c1 & s & b & R' & Hok'); [apply Hn|apply (seekable_inside v w cs f offset); [done|done|apply Ho|done]|].
  cbv zeta in R', Hok'. rewrite R in R'. injection R' as -> ->.
  exists c, k, (entry_name (entry_of v (w_dev w) c k), contents v (w_dev w) cs f). split_and!; try done.
  - apply file_at_open; [apply elem_of_app; right; apply elem_of_cons; by left|done..].
  - apply Hn.
  - cbn. rewrite (contents_length v (w_dev w) cs f Hg Hok). destruct Hn. lia.
  - by apply cursor_effect.
Qed.

Lemma close_effect v rc w l f r :
  consistent v rc (w, l ++ f :: r) -> f_modified f = false ->
  exists c k x, place_of f = (c, Z.of_nat k) /\ file_at v rc (w, l ++ f :: r) c k x
    /\ step_effect v rc (w, l ++ f :: r) (w, l ++ r) c k (Some x).
Proof.
  intros Hc Hm. pose proof (handle_opened _ _ _ _ _ _ Hc) as (c0 & k0 & cs0 & Hp0 & Hu0 & Ho0 & Hok0 & Hs0).
  pose proof Hc as [Hrt Hown Hap Hop Hnd]. cbn [fst snd] in *.
  assert (f ∈ l ++ f :: r) as Hin by (apply elem_of_app; right; apply elem_of_cons; by left).
  assert (file_at v rc (w, l ++ f :: r) c0 k0 (entry_name (entry_of v (w_dev w) c0 k0), contents v (w_dev w) cs0 f)) as Hfa
    by by apply file_at_open.
  exists c0, k0, (entry_name (entry_of v (w_dev w) c0 k0), contents v (w_dev w) cs0 f). split_and!; [done|done|].
  assert (place_of <$> (l ++ f :: r) ≡ₚ place_of f :: (place_of <$> (l ++ r))) as Hperm
    by (rewrite !fmap_app, fmap_cons; symmetry; apply Permutation_middle).
  pose proof Hnd as Hnd'. rewrite Hperm in Hnd'. apply NoDup_cons in Hnd' as [Hnp Hnd'].
  assert (forall g, g ∈ l ++ f :: r <-> g = f \/ g ∈ l ++ r) as Hel
    by (intros g; rewrite !elem_of_app, elem_of_cons; tauto).
  apply handle_effect; [|intros c k n Hu; unfold size_of; cbn [fst snd]|done].
  - split; cbn [fst snd]; try done.
    + intros c k Hu. destruct (Hown c k Hu) as (cs & Ho & Hsz). exists cs. split; [done|]. intros Hn.
      destruct (decide ((c, Z.of_nat k) = place_of f)) as [He|He].
      * rewrite Hp0 in He. injection He as -> Hk. apply Nat2Z.inj in Hk as ->.
        rewrite (owns_unique _ _ _ _ _ _ _ Ho Ho0), (Hs0 Hm). apply (fo_size _ _ _ _ Hok0).
      * apply Hsz. rewrite Hperm, elem_of_cons. intros [?|?]; done.
    + apply Forall_app in Hop as [H1 H2]. apply Forall_cons in H2 as [_ H2]. by apply Forall_app.
  - rewrite Hperm, elem_of_cons. destruct (decide ((c, Z.of_nat k) = place_of f)) as [He|He].
    + assert (entry_size (entry_of v (w_dev w) c k) = f_size f) as Hes.
      { rewrite Hp0 in He. injection He as -> Hk. apply Nat2Z.inj in Hk as ->. by apply Hs0. }
      rewrite He. split.
      * intros [(g & Hg & Hpg & Hsg)|[[] _]]; [|by left]. right. split; [done|].
        rewrite (place_inj _ g f Hnd Hg Hin Hpg) in Hsg. congruence.
      * intros [(g & Hg & Hpg & _)|[_ Hsn]].
        -- destruct Hnp. rewrite <- Hpg. apply list_elem_of_fmap. by exists g.
        -- left. exists f. split_and!; [done|done|congruence].
    + unfold open_size. setoid_rewrite Hel. split.
      * intros [(g & [->|Hg] & Hpg & Hsg)|[Hn Hsn]]; [by destruct He|left; by exists g|right; tauto].
      * intros [(g & Hg & Hpg & Hsg)|[Hn Hsn]]; [left; exists g; tauto|right; tauto].
Qed.

Lemma open_effect fuel v rc w hs name flags f w' :
  (length rc < fuel)%nat -> consistent v rc (w, hs) -> name <> [] -> Forall (fun b => b <> 0 /\ b <> SLASH) name ->
  Z.land flags (Z.lor (Z.lor FA_CREATE_NEW FA_CREATE_ALWAYS) FA_OPEN_ALWAYS) = 0 ->
  f_open fuel (SLASH :: name) flags w = (Ret f, w') -> ~ (place_of f ∈ (place_of <$> hs)) ->
  exists c k x, place_of f = (c, Z.of_nat k) /\ f_position f = 0 /\ file_at v rc (w, hs) c k x /\ ci_prefix name x.1 = true
    /\ step_effect v rc (w, hs) (w', f :: hs) c k (Some x).
Proof.
  intros Hf Hc Hne Hn Hfl R Hnew. pose proof Hc as [Hrt Hown Hap Hop Hnd]. cbn [fst snd] in *.
  pose proof Hrt as [Hg Hv Hch _ Hd _ _].
  pose proof (f_open_run fuel v w rc name flags Hg Hv Hch Hd Hf Hne Hn Hfl) as Hopen.
  destruct (lookup_entry name (dir_entries v (w_dev w) rc)) as [[c k]|] eqn:Hlk; [|by rewrite R in Hopen].
  cbv zeta in Hopen. destruct Hopen as (f0 & R0 & Hpos & Hs & _ & Hp & Hok). rewrite R in R0. injection R0 as -> ->.
  destruct (lookup_dir _ _ _ _ _ _ Hlk) as (Hcin & Hk & Hm).
  pose proof (lookup_in_use _ _ _ _ _ _ Hlk) as Hu.
  fold (place_of f0) in Hp. destruct (Hown c k Hu) as (cs & Ho & Hsz). rewrite Hp in Hnew. specialize (Hsz Hnew).
  pose proof Ho as [Hch1 Ht1 Hd1 Hne1 _].
  assert (file_at v rc (w, hs) c k (entry_name (entry_of v (w_dev w) c k),
    take (Z.to_nat (entry_size (entry_of v (w_dev w) c k))) (file_bytes v (w_dev w) cs))) as Hfa.
  { by apply file_at_closed. }
  eexists c, k, _. split_and!; [done|done|exact Hfa| |].
  { unfold matches in Hm. rewrite !andb_true_iff in Hm. by destruct Hm as [_ Hm]. }
  apply handle_effect; [|intros c1 k1 n Hu1; unfold size_of, open_size; cbn [fst snd]|done].
  - split; cbn [fst snd]; try done.
    + intros c1 k1 Hu1. destruct (Hown c1 k1 Hu1) as (cs1 & Ho1 & Hsz1). exists cs1. split; [done|].
      rewrite fmap_cons, not_elem_of_cons. intros [_ Hn1]. by apply Hsz1.
    + constructor; [|done]. exists c, k, cs. split_and!; [done|done|done|by apply Hok|done].
    + rewrite fmap_cons, Hp. by constructor.
  - rewrite fmap_cons, Hp, elem_of_cons. setoid_rewrite elem_of_cons. split.
    + intros [(g & Hin & Hpg & Hsg)|[Hn1 Hsn]]; [left; exists g; auto|].
      destruct (decide ((c1, Z.of_nat k1) = (c, Z.of_nat k))) as [[= -> Hkk]|He]; [|right; tauto].
      apply Nat2Z.inj in Hkk as ->. left. exists f0. split_and!; [by left|done|by rewrite Hs].
    + intros [(g & [->|Hin] & Hpg & Hsg)|[Hn1 Hsn]]; [|left; by exists g|right; tauto].
      rewrite Hp in Hpg. injection Hpg as <- Hkk. apply Nat2Z.inj in Hkk as <-. right. split; [done|unfold entry_of; congruence].
Qed.

(** A successful creation found no entry, a free cluster and a free slot. *)
Lemma f_open_new_inv fuel v w rc name flags f w' :
  rooted v w rc -> (length rc < fuel)%nat -> new_name name -> Z.land flags FA_CREATE_NEW <> 0 ->
  f_open fuel (SLASH :: name) flags w = (Ret f, w') ->
  lookup_entry name (dir_entries v (w_dev w) rc) = None /\ (0 < free_count v (fat_entry v (w_dev w)))%nat
  /\ exists c k, first_slot (dir_entries v (w_dev w) rc) = Some (c, k).
Proof.
  intros Hrt Hf Hnn Hfl R. pose proof Hrt as [Hg Hv Hch Ht Hd Hne _].
  destruct (new_name_ok name Hnn) as [Hnm H0n].
  unfold f_open, with_vol, find_entry_in_dir in R. rewrite Hv in R.
  rewrite (bind_ret _ _ _ _ _ (resolve_root fuel v name w Hnm (nn_slash _ Hnn))) in R. cbv beta in R.
  rewrite (bind_ret _ _ _ _ _ (find_in_chain_run fuel v w _ rc name Hg Hch Hd Hf H0n)) in R. cbv beta in R.
  destruct (lookup_entry name (dir_entries v (w_dev w) rc)) as [[c k]|] eqn:Hlk.
  { rewrite (proj2 (Z.eqb_neq _ _) Hfl) in R. done. }
  split; [done|].
  assert (Z.land flags (Z.lor (Z.lor FA_CREATE_NEW FA_CREATE_ALWAYS) FA_OPEN_ALWAYS) <> 0) as Hfl'.
  { rewrite !Z.land_lor_distr_r. intros H1. by apply Z.lor_eq_0_iff in H1 as [[? ?]%Z.lor_eq_0_iff _]. }
  rewrite (proj2 (Z.eqb_neq _ _) Hfl') in R.
  destruct (decide (0 < free_count v (fat_entry v (w_dev w)))%nat) as [Hpos|Hz].
  - split; [done|]. destruct (first_slot (dir_entries v (w_dev w) rc)) as [[c k]|] eqn:Hslot; [by exists c, k|].
    destruct (alloc_effect v w rc 0 Hrt Hpos) as (d1 & new & Ralloc & Hef & Hz & _ & _ & _ & Hdata).
    rewrite (bind_ret _ _ _ _ _ Ralloc) in R. cbv beta in R.
    assert (Forall (fun x => fat_entry v (w_dev w) x = 0) [new]) as HT by by apply Forall_singleton.
    pose proof (rooted_effect v w (set_dev d1 w) rc [new] 0 Hrt HT Hef eq_refl) as [Hg1 _ Hch1 Ht1 Hd1 _ _].
    pose proof (slot_in_chain_run fuel v (set_dev d1 w) _ rc Hg1 Hch1 Ht1 Hd1 Hne Hf) as Rslot. cbn [w_dev set_dev] in Rslot.
    rewrite (dir_entries_same v (w_dev w) d1 rc), Hslot in Rslot
      by (intros x Hx; apply Hdata; by apply (proj1 (Forall_forall _ _) Hd)).
    unfold bind in R. by rewrite Rslot in R.
  - exfalso. destruct (find_free_run v w Hg) as [(x & Hrun & Hx & Hz0 & _)|[Hrun _]].
    + apply Hz. unfold free_count.
      assert (x ∈ filter (fun c => fat_entry v (w_dev w) c = 0) (data_clusters v)) as Hin
        by (apply list_elem_of_filter; split; [done|]; by apply data_clusters_elem).
      destruct (filter _ _); [by apply elem_of_nil in Hin|cbn; lia].
    + unfold alloc_cluster, bind in R. by rewrite Hrun in R.
Qed.

Lemma create_effect fuel v rc w hs name flags f w' :
  (length rc < fuel)%nat -> consistent v rc (w, hs) -> new_name name -> Z.land flags FA_CREATE_NEW <> 0 ->
  f_open fuel (SLASH :: name) flags w = (Ret f, w') ->
  exists c k, place_of f = (c, Z.of_nat k) /\ f_position f = 0 /\ ~ in_use v (w_dev w) rc c k
    /\ step_effect v rc (w, hs) (w', f :: hs) c k (Some (name, [])).
Proof.
  intros Hf Hc Hnn Hfl R. pose proof Hc as [Hrt Hown Hap Hop Hnd]. cbn [fst snd] in *.
  destruct (f_open_new_inv fuel v w rc name flags f w' Hrt Hf Hnn Hfl R) as (Hlk & Hpos & c & k & Hslot).
  assert (Z.land flags (Z.lor (Z.lor FA_CREATE_NEW FA_CREATE_ALWAYS) FA_OPEN_ALWAYS) <> 0) as Hfl'.
  { rewrite !Z.land_lor_distr_r. intros H1. by apply Z.lor_eq_0_iff in H1 as [[? ?]%Z.lor_eq_0_iff _]. }
  destruct (f_open_new_run fuel v w rc name flags c k Hrt Hf Hnn Hlk Hfl' Hpos Hslot)
    as (d' & f0 & new & R0 & [Hef Hent Hfree Hok Hne [Hp1 Hp2] Hm Hnam] & Hs0 & Hps0 & _ & Hst & Hes & _).
  rewrite R in R0. injection R0 as -> ->.
  destruct (slot_dir _ _ _ _ _ Hslot) as (Hcin & Hk & Hdead).
  destruct (named_spec name _ Hnn Hnam) as (Hname & Hattr & Hlive & _).
  assert (forall c' k', in_use v (w_dev w) rc c' k' -> (c', k') <> (c, k)) as Hother.
  { intros c' k' (_ & _ & Hl & _) [= -> ->]. unfold entry_of in Hl. congruence. }
  assert (table_frame v (w_dev w) d' rc [new]) as Htf.
  { split; [apply (ef_count _ _ _ _ _ Hef)|apply (ef_fat _ _ _ _ _ Hef)| |].
    - rewrite <- (ef_count _ _ _ _ _ Hef). apply (fo_disk _ _ _ _ Hok).
    - intros x Hx Hr. by apply (root_not_free v w rc [new] x). }
  assert (forall c' k', c' ∈ rc -> (k' < entries_per_cluster v)%nat -> (c', k') <> (c, k) ->
    entry_of v d' c' k' = entry_of v (w_dev w) c' k') as Hents.
  { intros c' k' Hc' _ Hne'. apply (entry_other v _ d' rc c k); [|exact Hent|done|done]. intros y Hy Hyc.
    apply (ef_data _ _ _ _ _ Hef); [by apply (proj1 (Forall_forall _ _) (rt_disk _ _ _ Hrt))|by apply (root_not_free v w rc)|done]. }
  assert (forall c' k' cs' x, in_use v (w_dev w) rc c' k' -> owns v (w_dev w) rc c' k' cs' -> x ∈ cs' -> ~ (x ∈ [new])) as Hapt.
  { intros c' k' cs' x _ Ho Hx Hin. apply (owned_not_free _ _ _ _ _ _ _ Ho Hx). by apply (proj1 (Forall_forall _ _) Hfree). }
  assert (in_use v d' rc c k) as Hu by (split_and!; try done; unfold entry_of; by rewrite Hattr).
  assert (owns v d' rc c k [new]) as Ho.
  { pose proof Hok as [Hch1 Ht1 Hd1 _ _ _ _]. split; try done.
    - unfold entry_of. rewrite Hes. by rewrite Hst in Hch1.
    - apply (tf_root _ _ _ _ _ Htf). }
  assert (place_of f0 = (c, Z.of_nat k)) as Hp by (unfold place_of; by rewrite Hp1, Hp2).
  exists c, k. split_and!; [done|done|by intros Hu1; apply (Hother c k Hu1)|].
  apply (operation_effect v rc [new] w (set_dev d' w) hs (f0 :: hs) c k); [done| |].
  2: { pose proof (file_at_open v rc (set_dev d' w) (f0 :: hs) f0 c k [new] ltac:(apply elem_of_cons; by left) Hp Hu Ho) as Hfa.
       unfold contents in Hfa. rewrite Hs0 in Hfa. cbn [w_dev set_dev] in Hfa. unfold entry_of in Hfa at 1. by rewrite Hname in Hfa. }
  split; cbn [w_dev set_dev w_vol]; try done.
  - intros c' k' cs' x Hu' _. by apply Hapt.
  - intros _. exists [new]. split_and!; [done|done|]. rewrite fmap_cons, not_elem_of_cons, Hp. tauto.
  - constructor.
    + exists c, k, [new]. split_and!; [done..|]. congruence.
    + eapply Forall_impl; [exact Hop|]. intros g Hg. apply (opened_frame v (w_dev w) d' rc [new]); [done|done| |].
      * intros c' k' cs' x _. by apply Hapt.
      * intros c' k' _ Hu'. pose proof (Hother _ _ Hu'). destruct Hu' as (U1 & U2 & _). by apply Hents.
  - rewrite fmap_cons. constructor; [|done]. intros (g & Hpg & Hg)%list_elem_of_fmap.
    apply (proj1 (Forall_forall _ _) Hop) in Hg. rewrite Hp in Hpg. symmetry in Hpg.
    destruct (opened_at _ _ _ _ _ _ Hg Hpg) as (_ & Hu' & _). by apply (Hother c k).
  - intros c' k' n Hne'. unfold open_size. setoid_rewrite elem_of_cons. split.
    + intros (g & Hg & Hg'). exists g. auto.
    + intros (g & [->|Hg] & Hpg & Hsg); [|by exists g]. rewrite Hp in Hpg. injection Hpg as <- Hkk. apply Nat2Z.inj in Hkk as <-. done.
  - intros x Hx HT Hr. apply (ef_data _ _ _ _ _ Hef); [done|done|]. by intros ->.
Qed.

Lemma write_effect v rc w l f r buf n w' f' :
  consistent v rc (w, l ++ f :: r) -> bytes buf -> f_current_cluster f <> 0 ->
  f_position f + Z.of_nat (length buf) < 2 ^ 32 ->
  Z.of_nat (length buf) / csize v + 1 <= Z.of_nat (free_count v (fat_entry v (w_dev w))) ->
  f_write buf (w, f) = (Ret n, (w', f')) ->
  exists c k x, place_of f = (c, Z.of_nat k) /\ place_of f' = place_of f /\ file_at v rc (w, l ++ f :: r) c k x
    /\ f_position f' = f_position f + Z.of_nat (length buf)
    /\ step_effect v rc (w, l ++ f :: r) (w', l ++ f' :: r) c k
         (let p := Z.to_nat (f_position f) in Some (x.1, take p x.2 ++ buf ++ drop (p + length buf) x.2)).
Proof.
  intros Hc Hby Hcur H32 Hsp R. pose proof (handle_opened _ _ _ _ _ _ Hc) as (c & k & cs & Hp & Hu & Ho & Hok & Hsz).
  pose proof (cn_rooted _ _ _ Hc) as [Hg Hv _ _ _ _ Hfree]. cbn [fst snd] in *.
  destruct (lacks f FA_WRITE) eqn:Hl.
  { unfold f_write, get_file in R. unfold bind at 1 in R. cbn [gets fst snd] in R. rewrite Hl in R. done. }
  destruct (csize_nat _ _ Hg) as [_ Hcs]. pose proof (fo_pos _ _ _ _ Hok) as Hpos.
  pose proof (cursor_inside _ _ _ _ Hok Hcur) as Hin.
  assert (clusters_needed v (length cs) (f_position f) (Z.of_nat (length buf)) <= Z.of_nat (free_count v (fat_entry v (w_dev w)))) as Hneed.
  { pose proof (needed_bound v (length cs) (f_position f) (Z.of_nat (length buf)) ltac:(lia) ltac:(lia) Hin). lia. }
  destruct (f_write_run v w f cs buf Hg Hv Hok Hl (or_intror Hin) Hby H32 Hfree Hneed)
    as (d' & cs' & f0 & R0 & Hok' & Hgr & Hpos' & Hs' & (S1 & S2 & _ & S4) & Hmod & Hbytes).
  rewrite R in R0. injection R0 as _ -> ->. destruct (gr_new _ _ _ _ _ Hgr) as (new & -> & _).
  assert (place_of f0 = place_of f) as Hpl by (unfold place_of; by rewrite S1, S2).
  exists c, k, (entry_name (entry_of v (w_dev w) c k), contents v (w_dev w) cs f). split_and!; try done.
  { apply file_at_open; [apply elem_of_app; right; apply elem_of_cons; by left|done..]. }
  cbn [fst snd]. rewrite <- (contents_written v (w_dev w) d' cs (cs ++ new) f f0 buf) by (done || by rewrite Hpos', Hs').
  apply (grown_effect v rc w l f r c k cs d' new f0); try done.
  intros Hm. destruct (decide (buf = [])) as [->|Hb]; [|by destruct (Hmod Hb); congruence].
  rewrite Hs'. cbn [length]. rewrite Hsz; [lia|]. destruct (f_modified f); [by rewrite S4 in Hm|done].
Qed.

Lemma truncate_effect fuel v rc w l f r w' f' :
  entries v <= Z.of_nat fuel -> consistent v rc (w, l ++ f :: r) -> f_current_cluster f <> 0 ->
  f_truncate fuel (w, f) = (Ret tt, (w', f')) ->
  exists c k x, place_of f = (c, Z.of_nat k) /\ place_of f' = place_of f /\ file_at v rc (w, l ++ f :: r) c k x
    /\ f_position f' = f_position f
    /\ step_effect v rc (w, l ++ f :: r) (w', l ++ f' :: r) c k (Some (x.1, take (Z.to_nat (f_position f)) x.2)).
Proof.
  intros Hfuel Hc Hcur R. pose proof (handle_opened _ _ _ _ _ _ Hc) as (c & k & cs & Hp & Hu & Ho & Hok & Hsz).
  pose proof (cn_rooted _ _ _ Hc) as [Hg Hv _ _ _ _ Hfree]. cbn [fst snd] in *. pose proof (entries_bounds _ _ Hg).
  destruct (lacks f FA_WRITE) eqn:Hl.
  { unfold f_truncate, get_file in R. unfold bind at 1 in R. cbn [gets fst snd] in R. rewrite Hl in R. done. }
  pose proof (chain_short v _ _ _ _ (fo_chain _ _ _ _ Hok) (fo_disk _ _ _ _ Hok)) as Hshort.
  destruct (f_truncate_run fuel v w f cs Hg Hv Hok Hl (cursor_inside _ _ _ _ Hok Hcur) ltac:(lia))
    as (d' & R0 & Hok' & _ & Hfat & Hdata & Hcnt).
  rewrite R in R0. injection R0 as -> ->. set (i := S (Z.to_nat (f_position f / csize v))) in *.
  exists c, k, (entry_name (entry_of v (w_dev w) c k), contents v (w_dev w) cs f). split_and!; try done.
  { apply file_at_open; [apply elem_of_app; right; apply elem_of_cons; by left|done..]. }
  cbn [fst snd]. rewrite <- (truncated_contents v (w_dev w) d' cs f i Hg Hok Hok' (fun x _ Hx => Hdata x Hx)).
  apply (resized_effect v rc w l f r c k cs d' cs (take i cs)); try done.
  - apply (fo_disk _ _ _ _ Hok).
  - intros x Hx _. by apply Hdata.
  - by left.
  - intros x Hx. rewrite <- (take_drop i cs). apply elem_of_app. by left.
  - pose proof (ow_some _ _ _ _ _ _ Ho). by destruct cs.
Qed.

Lemma expand_effect fuel v rc w l f r size w' f' :
  entries v <= Z.of_nat fuel -> consistent v rc (w, l ++ f :: r) -> f_current_cluster f <> 0 ->
  0 <= size -> size + csize v < 2 ^ 32 -> size / csize v + 1 <= Z.of_nat (free_count v (fat_entry v (w_dev w))) ->
  f_expand fuel size (w, f) = (Ret tt, (w', f')) ->
  exists c k x y, place_of f = (c, Z.of_nat k) /\ place_of f' = place_of f /\ file_at v rc (w, l ++ f :: r) c k x
    /\ f_position f' = f_position f /\ (y = x.2 \/ Z.of_nat (length y) = size /\ take (length x.2) y = x.2)
    /\ step_effect v rc (w, l ++ f :: r) (w', l ++ f' :: r) c k (Some (x.1, y)).
Proof.
  intros Hfuel Hc Hcur H0s H32 Hsp R. pose proof (handle_opened _ _ _ _ _ _ Hc) as (c & k & cs & Hp & Hu & Ho & Hok & Hsz).
  pose proof (cn_rooted _ _ _ Hc) as [Hg Hv _ _ _ _ Hfree]. cbn [fst snd] in *. pose proof (entries_bounds _ _ Hg).
  destruct (lacks f FA_WRITE) eqn:Hl.
  { unfold f_expand, get_file in R. unfold bind at 1 in R. cbn [gets fst snd] in R. rewrite Hl in R. done. }
  pose proof (chain_short v _ _ _ _ (fo_chain _ _ _ _ Hok) (fo_disk _ _ _ _ Hok)) as Hshort.
  pose proof (cursor_inside _ _ _ _ Hok Hcur) as Hin. destruct (csize_nat _ _ Hg) as [_ Hcs].
  destruct (decide (size <= Z.of_nat (length cs) * csize v)) as [Hle|Hgt].
  - rewrite (f_expand_within_run fuel v w f cs size Hg Hv Hok Hl (ow_some _ _ _ _ _ _ Ho)) in R by lia.
    injection R as <- <-. set (x := (entry_name (entry_of v (w_dev w) c k), contents v (w_dev w) cs f)).
    exists c, k, x, x.2. split_and!; try done; [|by left|by apply cursor_effect].
    apply file_at_open; [apply elem_of_app; right; apply elem_of_cons; by left|done..].
  - destruct (f_expand_run fuel v w f cs size Hg Hv Hfree Hok Hl Hin ltac:(lia) ltac:(lia) H32) as (d' & new & R0 & Hok' & Hgr & Hold).
    { pose proof (Z.div_le_mono (size - 1) size (csize v) ltac:(lia) ltac:(lia)). lia. }
    rewrite R in R0. injection R0 as -> ->. set (f0 := set_size size true f) in *.
    exists c, k, (entry_name (entry_of v (w_dev w) c k), contents v (w_dev w) cs f), (contents v d' (cs ++ new) f0).
    split_and!; try done; [| |by apply (grown_effect v rc w l f r c k cs d' new)].
    + apply file_at_open; [apply elem_of_app; right; apply elem_of_cons; by left|done..].
    + right. assert (geometry v (sector_count d')) as Hg' by by rewrite (gr_count _ _ _ _ _ Hgr).
      cbn [snd]. rewrite !contents_length by done. rewrite Hold. cbn [f0 set_size f_size]. split; [lia|done].
Qed.

(** An entry written back: it names the same file, in the same clusters. *)
Lemma entry_synced v d d' rc c k cs buf :
  cluster_set v d d' c buf -> Forall (on_disk v (sector_count d)) rc ->
  (forall i, (i < 32 * k + 20 \/ 32 * k + 22 <= i < 32 * k + 26 \/ 32 * k + 32 <= i)%nat -> buf !! i = cluster_data v d c !! i) ->
  entry_start (entry_at buf k) = entry_start (entry_of v d c k) -> in_use v d rc c k -> owns v d rc c k cs ->
  in_use v d' rc c k /\ owns v d' rc c k cs /\ entry_name (entry_of v d' c k) = entry_name (entry_of v d c k)
  /\ forall c' k', c' ∈ rc -> (c', k') <> (c, k) -> entry_of v d' c' k' = entry_of v d c' k'.
Proof.
  intros Hset Hd Hout Hec Hu Ho. pose proof (cs_same _ _ _ _ _ Hset) as Hbuf. pose proof Hu as (U1 & U2 & U3 & U4).
  assert (forall i, (i < 12)%nat -> byte_at (entry_at buf k) i = byte_at (entry_of v d c k) i) as Hseen.
  { intros i Hi. unfold entry_of. rewrite !entry_at_byte by lia. unfold byte_at. by rewrite Hout by lia. }
  split_and!.
  - unfold in_use, entry_of, live, entry_attr in *. rewrite Hbuf, !Hseen by lia. by split_and!.
  - destruct Ho as [O1 O2 O3 O4 O5].
    destruct (chain_frame v d d' rc [] (entry_start (entry_of v d c k)) cs) as [C1 C2]; [by eapply set_frame|done|by intros y _ ?%elem_of_nil|].
    split; auto; [|by rewrite (cs_count _ _ _ _ _ Hset)]. unfold entry_of. rewrite Hbuf, Hec. by apply C1.
  - apply entry_name_ext. unfold entry_of, entry_at. rewrite Hbuf, !take_take. change (11 `min` 32)%nat with 11%nat.
    apply list_eq. intros i. destruct (decide (i < 11)%nat); [|by rewrite !lookup_take_ge by lia].
    rewrite !lookup_take_lt, !lookup_drop by lia. apply Hout. lia.
  - intros c' k'. apply (set_other v d d' rc c k buf c' k' Hset Hd). intros i Hi. apply Hout. lia.
Qed.

Lemma sync_effect v rc w l f r w' f' :
  consistent v rc (w, l ++ f :: r) -> f_sync (w, f) = (Ret tt, (w', f')) ->
  exists c k x, place_of f = (c, Z.of_nat k) /\ place_of f' = place_of f /\ file_at v rc (w, l ++ f :: r) c k x
    /\ f_position f' = f_position f /\ step_effect v rc (w, l ++ f :: r) (w', l ++ f' :: r) c k (Some x).
Proof.
  intros Hc R. pose proof (handle_opened _ _ _ _ _ _ Hc) as (c & k & cs & Hp & Hu & Ho & Hok & Hsz).
  pose proof Hc as [Hrt Hown Hapart Hop Hnd]. cbn [fst snd] in *. pose proof Hrt as [Hg Hv _ _ Hrd _ _].
  assert (f ∈ l ++ f :: r) as Hinf by (apply elem_of_app; right; apply elem_of_cons; by left).
  set (x := (entry_name (entry_of v (w_dev w) c k), contents v (w_dev w) cs f)).
  assert (file_at v rc (w, l ++ f :: r) c k x) as Hfa by by apply file_at_open.
  destruct (f_modified f) eqn:Hm.
  2: { unfold f_sync, get_file in R. unfold bind at 1 in R. cbn [gets fst snd] in R. rewrite Hm in R.
       injection R as <- <-. exists c, k, x. by split_and!. }
  pose proof Hp as [= Hp1 Hp2]. pose proof Hu as (U1 & U2 & U3 & U4).
  pose proof (proj1 (Forall_forall _ _) Hrd c U1) as Hcd.
  destruct (decide (k < 16)%nat) as [Hk|Hk].
  2: { destruct (f_sync_late_run v w f Hv Hm ltac:(lia)) as (w1 & R1 & _); [|by rewrite R in R1].
       rewrite Hp1, (cluster_lba_run v _ c Hg Hcd). pose proof (cluster_lba_range v _ c Hg Hcd). pose proof (g_spc _ _ Hg). lia. }
  pose proof (owns_start _ _ _ _ _ _ _ Ho Hok) as Hst.
  assert (0 <= f_start_cluster f < 2 ^ 32) as Hst32 by (rewrite Hst; by apply (owns_first v (w_dev w) rc c k cs)).
  pose proof (fo_pos _ _ _ _ Hok). pose proof (fo_width _ _ _ _ Hok).
  destruct (f_sync_entry_run v w f c k Hg Hv Hcd Hp1 Hp2 Hk Hm ltac:(lia) Hst32) as (w1 & buf & R1 & Hvol & Hset & Hes & Hec & Hout).
  rewrite R in R1. injection R1 as -> ->. pose proof (cs_same _ _ _ _ _ Hset) as Hbuf.
  assert (table_frame v (w_dev w) (w_dev w1) rc cs) as Htf.
  { split; [apply Hset|by intros; apply (cs_table _ _ _ _ _ Hset)|apply Ho|apply Ho]. }
  destruct (entry_synced v _ _ rc c k cs buf Hset Hrd Hout) as (Hu' & Ho' & Hname & Hents); [congruence|done|done|].
  assert (place_of (set_size (f_size f) false f) = place_of f) as Hpl by done.
  destruct (others_kept v rc w w1 cs l f (set_size (f_size f) false f) r c k Hc Hp Hpl Htf) as [Hopen Hplaces]; [by intros; apply Hents| | |].
  { intros c' k' cs' y Hu1 Hne1 Ho1 Hx. by apply (Hapart c' k' c k cs' cs y). }
  { exists c, k, cs. split_and!; [done|done|done| |intros _; unfold entry_of; by rewrite Hbuf, Hes].
    apply (file_ok_frame v (w_dev w)); [apply Hset| |by destruct Hok].
    intros y Hy. apply (cs_table _ _ _ _ _ Hset). eapply on_disk_entries. by apply (proj1 (Forall_forall _ _) (ow_disk _ _ _ _ _ _ Ho)). }
  assert (file_bytes v (w_dev w1) cs = file_bytes v (w_dev w) cs) as Hfb.
  { apply file_bytes_same. intros y Hy. apply (cs_other _ _ _ _ _ Hset).
    - by apply (proj1 (Forall_forall _ _) (ow_disk _ _ _ _ _ _ Ho)).
    - intros ->. by apply (ow_root _ _ _ _ _ _ Ho c). }
  exists c, k, x. split_and!; try done.
  apply (operation_effect v rc cs w w1 (l ++ f :: r) (l ++ set_size (f_size f) false f :: r) c k); [done| |].
  2: { assert (x = (entry_name (entry_of v (w_dev w1) c k), contents v (w_dev w1) cs (set_size (f_size f) false f))) as ->
         by (unfold x, contents; cbn [set_size f_size]; by rewrite Hfb, Hname).
       apply file_at_open; [apply elem_of_app; right; apply elem_of_cons; by left|done..]. }
  split; rewrite ?Hplaces; try done.
  - intros c' k' Hc' _ Hne'. by apply Hents.
  - intros c' k' cs' y Hu1 Hne1 Ho1 Hx. by apply (Hapart c' k' c k cs' cs y).
  - intros _. exists cs. split_and!; [done|done|]. intros Hn. destruct Hn. apply list_elem_of_fmap. by exists f.
  - intros c' k' n Hne'. by apply open_size_replace.
  - intros y Hy _ Hyr. apply (cs_other _ _ _ _ _ Hset); [done|]. by intros ->.
Qed.

(** A deletion that returns found its file. *)
Lemma f_unlink_inv fuel v w rc name w' :
  rooted v w rc -> (length rc < fuel)%nat -> name <> [] -> Forall (fun b => b <> 0 /\ b <> SLASH) name ->
  f_unlink fuel (SLASH :: name) w = (Ret tt, w') ->
  exists c k, lookup_entry name (dir_entries v (w_dev w) rc) = Some (c, k).
Proof.
  intros [Hg Hv Hch _ Hd _ _] Hf Hne Hn R.
  assert (Forall (fun b => b <> SLASH) name /\ Forall (fun b => b <> 0) name) as [Hsl H0n]
    by (split; (eapply Forall_impl; [exact Hn|]); by intros ? []).
  unfold f_unlink, with_vol, find_entry_in_dir in R. rewrite Hv in R.
  rewrite (bind_ret _ _ _ _ _ (resolve_root fuel v name w Hne Hsl)) in R. cbv beta in R.
  rewrite decide_False in R by done.
  rewrite (bind_ret _ _ _ _ _ (find_in_chain_run fuel v w _ rc name Hg Hch Hd Hf H0n)) in R. cbv beta in R.
  destruct (lookup_entry name _) as [[c k]|]; [by exists c, k|done].
Qed.

Lemma unlink_effect fuel v rc w hs name w' :
  entries v <= Z.of_nat fuel -> consistent v rc (w, hs) ->
  name <> [] -> Forall (fun b => b <> 0 /\ b <> SLASH) name ->
  (forall i j, (f_stat fuel (SLASH :: name) w).1 = Ret i -> j ∈ hs -> fi_start_cluster i <> f_start_cluster j) ->
  f_unlink fuel (SLASH :: name) w = (Ret tt, w') ->
  exists c k x, file_at v rc (w, hs) c k x /\ ci_prefix name x.1 = true /\ ~ ((c, Z.of_nat k) ∈ (place_of <$> hs))
    /\ step_effect v rc (w, hs) (w', hs) c k None.
Proof.
  intros Hfuel Hc Hne Hn Hclosed R. pose proof Hc as [Hrt Hown Hapart Hop Hnd]. cbn [fst snd] in *.
  pose proof Hrt as [Hg Hv Hch _ Hd _ _]. pose proof (entries_bounds _ _ Hg) as Hb.
  assert (length rc < fuel)%nat as Hf by (pose proof (chain_short v _ _ _ _ Hch Hd); lia).
  destruct (f_unlink_inv fuel v w rc name w' Hrt Hf Hne Hn R) as (c & k & Hlk).
  destruct (lookup_dir _ _ _ _ _ _ Hlk) as (Hcin & Hk & Hm).
  pose proof (lookup_in_use _ _ _ _ _ _ Hlk) as Hu.
  destruct (Hown c k Hu) as (cs & Ho & _). pose proof (ow_disk _ _ _ _ _ _ Ho) as Hcsd.
  pose proof (chain_short v _ _ _ _ (ow_chain _ _ _ _ _ _ Ho) Hcsd) as Hshort.
  destruct (f_unlink_run fuel v w rc name c k cs Hg Hv Hch Hd Hf Hne Hn Hlk (ow_chain _ _ _ _ _ _ Ho))
    as (d' & R1 & Hcnt & Hdc & Hdata & Hfat); [|lia|].
  { eapply Forall_impl; [exact Hcsd|]. intros x Hx. by apply on_disk_entries in Hx as [_ ?]. }
  rewrite R in R1. injection R1 as ->.
  assert (table_frame v (w_dev w) d' rc cs) as Htf.
  { split; [done| |done|apply Ho]. intros x Hx Hnx. rewrite Hfat by done. by rewrite decide_False. }
  assert (forall c' k', c' ∈ rc -> (k' < entries_per_cluster v)%nat -> (c', k') <> (c, k) ->
    entry_of v d' c' k' = entry_of v (w_dev w) c' k') as Hents.
  { intros c' k' Hc' _ Hne'. apply (entry_other v _ d' rc c k); [| |done|done].
    - intros y Hy. by apply Hdata, (proj1 (Forall_forall _ _) Hd).
    - intros i Hi. rewrite Hdc. apply list_lookup_insert_ne. lia. }
  assert (~ in_use v d' rc c k) as Hgone.
  { apply (killed_unused v d' rc c k (entry_of v (w_dev w) c k)).
    - unfold entry_of. by rewrite Hdc, entry_at_insert.
    - apply length_entry_at. exact (slot_fits v (w_dev w) c k Hg (proj1 (Forall_forall _ _) Hd c Hcin) Hk). }
  assert (forall c' k' cs' x, in_use v (w_dev w) rc c' k' -> (c', k') <> (c, k) -> owns v (w_dev w) rc c' k' cs' ->
    x ∈ cs' -> ~ (x ∈ cs)) as Hapt by (intros c' k' cs' x Hu1 Hne1 Ho1 Hx; by apply (Hapart c' k' c k cs' cs x)).
  pose proof (not_open fuel v rc w hs name c k Hfuel Hc (conj Hne Hn) Hlk Hclosed) as Hnp.
  assert (forall g c' k', g ∈ hs -> place_of g = (c', Z.of_nat k') -> (c', k') <> (c, k)) as Hnot
    by (intros g c' k' Hin Hp [= -> ->]; apply Hnp, list_elem_of_fmap; by exists g).
  exists c, k, (entry_name (entry_of v (w_dev w) c k),
    take (Z.to_nat (entry_size (entry_of v (w_dev w) c k))) (file_bytes v (w_dev w) cs)). split_and!; [| |done|].
  { by apply file_at_closed. }
  { unfold matches in Hm. rewrite !andb_true_iff in Hm. by destruct Hm as [_ Hm]. }
  apply (operation_effect v rc cs w (set_dev d' w) hs hs c k); [done| |done]. split; cbn [w_dev set_dev w_vol]; try done.
  - apply Forall_forall. intros g Hin. pose proof (proj1 (Forall_forall _ _) Hop g Hin) as Hg'.
    apply (opened_frame v (w_dev w) d' rc cs); [done|done| |].
    + intros c' k' cs' x Hp Hu1. apply Hapt; [done|by eapply Hnot].
    + intros c' k' Hp (U1 & U2 & _). apply Hents; [done|done|by eapply Hnot].
  - intros y Hy _ Hyr. apply Hdata; [done|]. by intros ->.
Qed.

Lemma step_consistent fuel v rc e s s' :
  entries v <= Z.of_nat fuel -> consistent v rc s -> fs_step fuel v e s s' -> consistent v rc s'.
Proof.
  intros Hfuel Hc Hst. pose proof (root_short fuel v rc s Hfuel Hc) as Hf. inversion Hst; subst.
  - edestruct open_effect as (? & ? & ? & _ & _ & _ & _ & []); eauto.
  - edestruct create_effect as (? & ? & _ & _ & _ & []); eauto.
  - edestruct read_effect as (? & ? & ? & _ & _ & _ & _ & _ & []); eauto.
  - edestruct seek_effect as (? & ? & ? & _ & _ & _ & _ & _ & []); eauto.
  - edestruct write_effect as (? & ? & ? & _ & _ & _ & _ & []); eauto.
  - edestruct truncate_effect as (? & ? & ? & _ & _ & _ & _ & []); eauto.
  - edestruct expand_effect as (? & ? & ? & ? & _ & _ & _ & _ & _ & []); eauto.
  - edestruct sync_effect as (? & ? & ? & _ & _ & _ & _ & []); eauto.
  - edestruct close_effect as (? & ? & ? & _ & _ & []); eauto.
  - edestruct unlink_effect as (? & ? & ? & _ & _ & _ & []); eauto.
  - edestruct rename_effect as (? & ? & ? & ? & ? & ? & _ & _ & _ & _ & _ & []); eauto.
Qed.

Lemma trace_consistent fuel v rc es s s' :
  entries v <= Z.of_nat fuel -> consistent v rc s -> trace (fs_step fuel v) es s s' -> consistent v rc s'.
Proof.
  intros Hf. revert s. induction es as [|e es IH]; intros s Hc Hr; [by destruct Hr|].
  destruct Hr as (s1 & Hst & Hr). apply (IH s1); [|done]. by eapply step_consistent.
Qed.

(** ** Properties *)

(** C3: From a consistent volume, any sequence of operations that [fs_step]
    allows keeps it consistent: files of the root directory opened, created,
    read, sought in, written, cut, expanded, written back, closed, renamed and
    deleted, several of them open at a time, each operation returning [Ok].
    The conditions are those of [fs_step]: only [FA_CREATE_NEW] creates; an
    entry is open once at a time; seeks stay inside the file, and reach its
    end only when that is not the end of a cluster; writing, cutting and
    expanding need the cursor at a cluster, so not behind a full last one,
    enough free clusters and a size below 2^32; a file is closed when it is
    written back, and deleted or renamed when it is not open. Consistent
    means: every entry in use owns a chain of clusters that ends, lies on the
    disk and has room for its size; no two entries share a cluster, and none
    has a cluster of the directory; every open file agrees with its entry; and
    the volume stays in order. *)
Theorem volume_consistent fuel v rc es s s' :
  entries v <= Z.of_nat fuel -> consistent v rc s -> trace (fs_step fuel v) es s s' -> consistent v rc s'.
Proof. apply trace_consistent. Qed.
End Steps.

(** ** The demonstration volume *)

Definition new_file : File := mkFile 0 0 6 6 0 0 (Z.lor FA_WRITE FA_CREATE_NEW) 2 1 true FOk.
Definition old_file : File := mkFile 1300 0 3 3 0 0 FA_READ 2 0 false FOk.
Abbreviation opened_old := (f_open 200 (SLASH :: demo_name) FA_READ demo_world).
Abbreviation read_old := (f_read 20 (opened_old.2, old_file)).
Abbreviation created := (f_open 200 (SLASH :: [65]) (Z.lor FA_WRITE FA_CREATE_NEW) read_old.2.1).
Abbreviation written := (f_write (replicate 700 7) (created.2, new_file)).
Abbreviation put_back := (f_sync written.2).
Abbreviation moved := (f_rename 200 (SLASH :: [65]) (SLASH :: [66]) put_back.2.1).
Abbreviation deleted := (f_unlink 200 (SLASH :: demo_name) moved.2).

Lemma pair_run {A B} (x : A * B) a : x.1 = a -> x = (a, x.2).
Proof. destruct x. by intros <-. Qed.
Lemma triple_run {A B C} (x : A * (B * C)) a : x.1 = a -> x = (a, (x.2.1, x.2.2)).
Proof. destruct x as [? []]. by intros <-. Qed.

(** KERNEL.BIN is read while a file is created, written and closed; the new file
    is renamed and KERNEL.BIN deleted. *)
Definition demo_events : list event :=
  [Opened demo_name FA_READ; Read 0 20 (take 20 demo_data); Created [65] (Z.lor FA_WRITE FA_CREATE_NEW);
   Wrote 0 (replicate 700 7); Synced 0; Closed 0; Closed 0; Renamed [65] [66]; Unlinked demo_name].

Lemma demo_letter b : b = 65 \/ b = 66 -> new_name [b].
Proof.
  intros Hb. assert (new_name [65] /\ new_name [66]) as [HA HB]; [|by destruct Hb as [-> | ->]].
  split; (split; [apply (short_base [_]); [cbn; lia|]|..]); by repeat constructor.
Qed.

Lemma demo_trace : trace (fs_step 200 demo_vol) demo_events (demo_world, []) (deleted.2, []).
Proof.
  eexists. split.
  { apply (step_open 200 demo_vol demo_world [] demo_name FA_READ old_file opened_old.2); try apply demo_old_name.
    - done.
    - apply pair_run. vm_compute. reflexivity.
    - by intros ?%elem_of_nil. }
  eexists. split.
  { apply (step_read 200 demo_vol opened_old.2 [] old_file [] 20 (take 20 demo_data) read_old.2.1 read_old.2.2); [lia|].
    apply triple_run. vm_compute. reflexivity. }
  eexists. split.
  { apply (step_create 200 demo_vol read_old.2.1 [read_old.2.2] [65] (Z.lor FA_WRITE FA_CREATE_NEW) new_file created.2).
    - apply demo_letter. by left.
    - done.
    - apply pair_run. vm_compute. reflexivity. }
  eexists. split.
  { apply (step_write 200 demo_vol created.2 [] new_file [read_old.2.2] (replicate 700 7) 700 written.2.1 written.2.2).
    - apply Forall_replicate. by cbv.
    - done.
    - vm_compute. reflexivity.
    - vm_compute. discriminate.
    - apply triple_run. vm_compute. reflexivity. }
  eexists. split.
  { apply (step_sync 200 demo_vol written.2.1 [] written.2.2 [read_old.2.2] put_back.2.1 put_back.2.2).
    rewrite <- (surjective_pairing written.2). apply triple_run. vm_compute. reflexivity. }
  eexists. split.
  { apply (step_close 200 demo_vol put_back.2.1 [] put_back.2.2 [read_old.2.2]). vm_compute. reflexivity. }
  eexists. split.
  { apply (step_close 200 demo_vol put_back.2.1 [] read_old.2.2 []). vm_compute. reflexivity. }
  eexists. split.
  { apply (step_rename 200 demo_vol put_back.2.1 [] [65] [66] moved.2).
    - split; [done|]. by repeat constructor.
    - apply demo_letter. by right.
    - by intros i j _ ?%elem_of_nil.
    - apply pair_run. vm_compute. reflexivity. }
  eexists. split; [|reflexivity]. destruct demo_old_name. apply (step_unlink 200 demo_vol moved.2 [] demo_name deleted.2).
  - done.
  - done.
  - by intros i j _ ?%elem_of_nil.
  - apply pair_run. vm_compute. reflexivity.
Qed.

Lemma volume_consistent_witness : exists s,
  trace (fs_step 200 demo_vol) demo_events (demo_world, []) s /\ consistent demo_vol [2] s.
Proof.
  exists (deleted.2, []). split; [exact demo_trace|].
  apply (volume_consistent 200 demo_vol [2] demo_events (demo_world, []));
    [vm_compute; discriminate|exact demo_consistent|exact demo_trace].
Defined.
