(* ===== verification/FatModel.v ===== *)
(** The files of the root directory as an abstract map: what a client of the
    volume may rely on, without clusters, sectors and tables. A file is a name
    and its bytes, at a place of the directory; an open file is a place and a
    position. Every sequence of operations on the volume that [fs_step] allows is one of the
    map, and an operation whose conditions hold returns. *)

From stdpp Require Import base numbers list gmap.
From Stdlib Require Import ZArith Lia.
From S2P Require Import Prelude Block Fat32 Fat32Dir Fat32File.
From S2P Require Import FatSpec FatChain FatCluster FatDirSpec FatFileSpec FatWrite FatDemo FatTheorems FatFileTheorems.
From S2P Require Import FatSync FatDirUpdate FatFiles FatCreate FatResize FatState FatRename FatConsistent.

(** ** The map *)

(** A place of the directory: a cluster and the number of an entry in it. *)
Definition place : Type := Z * nat.

(** The stored files and the open ones. *)
Record Files := mkFiles {
  stored_files : gmap place (list Z * list Z);
  open_files : list (place * Z);
}.

(** [buf] put over the bytes from [pos] on. *)
Definition overwrite (pos : Z) (buf data : list Z) : list Z :=
  take (Z.to_nat pos) data ++ buf ++ drop (Z.to_nat pos + length buf) data.

(** A file whose bytes become [data']. *)
Definition put_data (p : place) (x : list Z * list Z) (data' : list Z) (m : gmap place (list Z * list Z)) :=
  <[p := (x.1, data')]> m.

(** The operations on the map. *)
Inductive spec_step : event -> Files -> Files -> Prop :=
| spec_open m hs name flags p x :
    m !! p = Some x -> ci_prefix name x.1 = true -> ~ (p ∈ hs.*1) ->
    spec_step (Opened name flags) (mkFiles m hs) (mkFiles m ((p, 0) :: hs))
| spec_create m hs name flags p :
    m !! p = None -> ~ (p ∈ hs.*1) ->
    spec_step (Created name flags) (mkFiles m hs) (mkFiles (<[p := (name, [])]> m) ((p, 0) :: hs))
| spec_read m l p pos r n x data :
    m !! p = Some x -> data = take (Z.to_nat n) (drop (Z.to_nat pos) x.2) ->
    spec_step (Read (length l) n data) (mkFiles m (l ++ (p, pos) :: r))
      (mkFiles m (l ++ (p, pos + Z.of_nat (length data)) :: r))
| spec_seek m l p pos r offset x :
    m !! p = Some x -> 0 <= offset <= Z.of_nat (length x.2) ->
    spec_step (Sought (length l) offset) (mkFiles m (l ++ (p, pos) :: r)) (mkFiles m (l ++ (p, offset) :: r))
| spec_write m l p pos r buf x :
    m !! p = Some x ->
    spec_step (Wrote (length l) buf) (mkFiles m (l ++ (p, pos) :: r))
      (mkFiles (put_data p x (overwrite pos buf x.2) m) (l ++ (p, pos + Z.of_nat (length buf)) :: r))
| spec_truncate m l p pos r x :
    m !! p = Some x ->
    spec_step (Truncated (length l)) (mkFiles m (l ++ (p, pos) :: r))
      (mkFiles (put_data p x (take (Z.to_nat pos) x.2) m) (l ++ (p, pos) :: r))
| spec_expand m l p pos r size x y :
    m !! p = Some x -> y = x.2 \/ Z.of_nat (length y) = size /\ take (length x.2) y = x.2 ->
    spec_step (Expanded (length l) size) (mkFiles m (l ++ (p, pos) :: r))
      (mkFiles (put_data p x y m) (l ++ (p, pos) :: r))
| spec_sync m l h r :
    spec_step (Synced (length l)) (mkFiles m (l ++ h :: r)) (mkFiles m (l ++ h :: r))
| spec_close m l h r :
    spec_step (Closed (length l)) (mkFiles m (l ++ h :: r)) (mkFiles m (l ++ r))
| spec_unlink m hs name p x :
    m !! p = Some x -> ci_prefix name x.1 = true -> ~ (p ∈ hs.*1) ->
    spec_step (Unlinked name) (mkFiles m hs) (mkFiles (delete p m) hs)
| spec_rename m hs old new p q x :
    m !! p = Some x -> ci_prefix old x.1 = true -> ~ (p ∈ hs.*1) -> m !! q = None ->
    spec_step (Renamed old new) (mkFiles m hs) (mkFiles (<[q := (new, x.2)]> (delete p m)) hs).

(** ** The map of a volume *)

Section Model.
Context {D : Type} `{ReliableDevice D}.

(** The handle of an open file. *)
Definition handle_of (f : File) (h : place * Z) : Prop :=
  place_of f = (h.1.1, Z.of_nat h.1.2) /\ f_position f = h.2.

Record models v rc (s : World D * list File) (a : Files) : Prop := {
  md_stored : forall c k x, stored_files a !! (c, k) = Some x <-> file_at v rc s c k x;
  md_open : Forall2 handle_of s.2 (open_files a);
}.

(** ** Lemmas *)

(** Every entry in use is a file of the map. *)
Lemma file_at_use v rc s c k : consistent v rc s -> in_use v (w_dev s.1) rc c k -> exists x, file_at v rc s c k x.
Proof.
  intros Hc Hu. destruct s as [w hs]. destruct (cn_owns _ _ _ Hc c k Hu) as (cs & Ho & _). cbn [fst snd] in *.
  destruct (decide ((c, Z.of_nat k) ∈ (place_of <$> hs))) as [(f & Hp & Hf)%list_elem_of_fmap|Hn].
  - eexists. by apply (file_at_open v rc w hs f c k cs).
  - eexists. by apply file_at_closed.
Qed.

(** The map after a step on one entry. *)
Lemma models_update v rc s s' a c k o hs' :
  models v rc s a -> step_effect v rc s s' c k o -> Forall2 handle_of s'.2 hs' ->
  models v rc s' (mkFiles (partial_alter (fun _ => o) (c, k) (stored_files a)) hs').
Proof.
  intros [Hm _] [Hc Hot He] Hh. split; [|done]. cbn [stored_files]. intros c' k' x.
  destruct (decide ((c', k') = (c, k))) as [[= -> ->]|Hne].
  - rewrite lookup_partial_alter_eq. destruct o as [y|].
    + split; [by intros [= <-]|]. intros Hx. f_equal. by apply (file_at_det v rc s' c k).
    + split; [done|]. intros Hx. by destruct He, Hx.
  - rewrite lookup_partial_alter_ne by done. rewrite <- (Hot c' k' x Hne). apply Hm.
Qed.

(** A step that leaves the file at the entry as it was. *)
Lemma models_same v rc s s' m hs hs' c k x :
  models v rc s (mkFiles m hs) -> file_at v rc s c k x -> step_effect v rc s s' c k (Some x) ->
  Forall2 handle_of s'.2 hs' -> models v rc s' (mkFiles m hs').
Proof.
  intros Hm Hx He Hh. assert (m !! (c, k) = Some x) as Hl by by apply (md_stored _ _ _ _ Hm).
  pose proof (models_update _ _ _ _ _ _ _ _ hs' Hm He Hh) as Hm'. cbn [stored_files] in Hm'.
  change (partial_alter (fun _ => Some x) (c, k) m) with (<[(c, k) := x]> m) in Hm'. by rewrite insert_id in Hm'.
Qed.

Lemma models_insert v rc s s' m hs hs' c k x :
  models v rc s (mkFiles m hs) -> step_effect v rc s s' c k (Some x) ->
  Forall2 handle_of s'.2 hs' -> models v rc s' (mkFiles (<[(c, k) := x]> m) hs').
Proof. intros Hm He Hh. exact (models_update _ _ _ _ _ _ _ _ hs' Hm He Hh). Qed.

Lemma unused_place v rc s a c k : models v rc s a -> ~ in_use v (w_dev s.1) rc c k -> stored_files a !! (c, k) = None.
Proof.
  intros Hm Hu. destruct (stored_files a !! (c, k)) as [x|] eqn:Hl; [|done]. apply (md_stored _ _ _ _ Hm) in Hl. by destruct Hu, Hl.
Qed.

(** The handle at a place of the list. *)
Lemma handles_at l f r hs c k :
  Forall2 handle_of (l ++ f :: r) hs -> place_of f = (c, Z.of_nat k) ->
  exists l' r', hs = l' ++ ((c, k), f_position f) :: r' /\ length l = length l'
    /\ Forall2 handle_of l l' /\ Forall2 handle_of r r'.
Proof.
  intros (l' & r0 & Hl & Hr & ->)%Forall2_app_inv_l Hp.
  apply Forall2_cons_inv_l in Hr as ([[c0 k0] pos] & r' & [Hp0 Hpos] & Hr & ->).
  cbn [fst snd] in *. rewrite Hp in Hp0. injection Hp0 as -> Hk. apply Nat2Z.inj in Hk as ->. subst pos.
  exists l', r'. split_and!; [done|by eapply Forall2_length|done|done].
Qed.

Lemma handles_put l l' r r' f c k pos :
  Forall2 handle_of l l' -> Forall2 handle_of r r' -> place_of f = (c, Z.of_nat k) -> f_position f = pos ->
  Forall2 handle_of (l ++ f :: r) (l' ++ ((c, k), pos) :: r').
Proof. intros Hl Hr Hp Hpos. apply Forall2_app; [done|]. by constructor. Qed.

Lemma handles_places fs hs c k : Forall2 handle_of fs hs -> (c, k) ∈ hs.*1 <-> (c, Z.of_nat k) ∈ (place_of <$> fs).
Proof.
  induction 1 as [|f [[c0 k0] pos] fs hs [Hp _] _ IH]; [by rewrite !elem_of_nil|].
  rewrite !fmap_cons, !elem_of_cons, IH. cbn [fst snd] in *. rewrite Hp.
  split; intros [[= -> He]|Hin]; auto; left; [by rewrite He|]. apply Nat2Z.inj in He as ->. done.
Qed.

(** What a step at a handle changes: the position and the bytes. *)
Ltac at_handle l Hh Hp :=
  let l' := fresh "l'" in let r' := fresh "r'" in let Hlen := fresh "Hlen" in
  destruct (handles_at l _ _ _ _ _ Hh Hp) as (l' & r' & -> & Hlen & ? & ?); rewrite Hlen.

Lemma step_models fuel v rc e s s' a :
  entries v <= Z.of_nat fuel -> consistent v rc s -> models v rc s a -> fs_step fuel v e s s' ->
  exists a', spec_step e a a' /\ models v rc s' a'.
Proof.
  intros Hfuel Hc Hm Hst. pose proof (root_short fuel v rc s Hfuel Hc) as Hf. destruct a as [m hs0].
  pose proof (md_open _ _ _ _ Hm) as Hh. cbn [open_files] in Hh. inversion Hst; subst; cbn [fst snd] in *.
  - edestruct open_effect as (c & k & x & Hp & Hpos & Hx & Hn & He); eauto.
    exists (mkFiles m (((c, k), 0) :: hs0)). split.
    + apply (spec_open m hs0 name flags (c, k) x); [by apply (md_stored _ _ _ _ Hm)|done|].
      rewrite (handles_places hs) by done. by rewrite <- Hp.
    + apply (models_same v rc _ _ m hs0 _ c k x Hm Hx He). by constructor.
  - edestruct create_effect as (c & k & Hp & Hpos & Hu & He); eauto.
    exists (mkFiles (<[(c, k) := (name, [])]> m) (((c, k), 0) :: hs0)). split.
    + apply spec_create.
      * by apply (unused_place v rc _ _ _ _ Hm).
      * rewrite (handles_places hs) by done. intros (g & Hpg & Hg)%list_elem_of_fmap.
        pose proof (proj1 (Forall_forall _ _) (cn_open _ _ _ Hc) g Hg) as Hog. symmetry in Hpg.
        by destruct (opened_at _ _ _ _ _ _ Hog Hpg) as (_ & Hu' & _).
    + apply (models_insert v rc _ _ m hs0 _ c k _ Hm He). by constructor.
  - edestruct read_effect as (c & k & x & Hp & Hp' & Hx & Hd & Hpos & He); eauto. at_handle l Hh Hp.
    eexists. split; [eapply spec_read; [by apply (md_stored _ _ _ _ Hm)|exact Hd]|].
    apply (models_same v rc _ _ m _ _ c k x Hm Hx He). apply handles_put; congruence.
  - edestruct seek_effect as (c & k & x & Hp & Hp' & Hx & Ho & Hpos & He); eauto. at_handle l Hh Hp.
    eexists. split; [eapply spec_seek; [by apply (md_stored _ _ _ _ Hm)|exact Ho]|].
    apply (models_same v rc _ _ m _ _ c k x Hm Hx He). apply handles_put; congruence.
  - edestruct write_effect as (c & k & x & Hp & Hp' & Hx & Hpos & He); eauto. at_handle l Hh Hp.
    eexists. split; [eapply spec_write; by apply (md_stored _ _ _ _ Hm)|].
    apply (models_insert v rc _ _ m _ _ c k _ Hm He). apply handles_put; congruence.
  - edestruct truncate_effect as (c & k & x & Hp & Hp' & Hx & Hpos & He); eauto. at_handle l Hh Hp.
    eexists. split; [eapply spec_truncate; by apply (md_stored _ _ _ _ Hm)|].
    apply (models_insert v rc _ _ m _ _ c k _ Hm He). apply handles_put; congruence.
  - edestruct expand_effect as (c & k & x & y & Hp & Hp' & Hx & Hpos & Hy & He); eauto. at_handle l Hh Hp.
    eexists. split; [eapply spec_expand; [by apply (md_stored _ _ _ _ Hm)|exact Hy]|].
    apply (models_insert v rc _ _ m _ _ c k _ Hm He). apply handles_put; congruence.
  - edestruct sync_effect as (c & k & x & Hp & Hp' & Hx & Hpos & He); eauto. at_handle l Hh Hp.
    eexists. split; [apply spec_sync|]. apply (models_same v rc _ _ m _ _ c k x Hm Hx He). apply handles_put; congruence.
  - edestruct close_effect as (c & k & x & Hp & Hx & He); eauto. at_handle l Hh Hp.
    eexists. split; [apply spec_close|]. apply (models_same v rc _ _ m _ _ c k x Hm Hx He). by apply Forall2_app.
  - edestruct unlink_effect as (c & k & x & Hx & Hn & Hnp & He); eauto.
    exists (mkFiles (delete (c, k) m) hs0). split.
    + apply (spec_unlink m hs0 name (c, k) x); [by apply (md_stored _ _ _ _ Hm)|done|]. by rewrite (handles_places hs).
    + exact (models_update v rc _ _ _ c k None hs0 Hm He Hh).
  - edestruct rename_effect as (c0 & k0 & c & k & x & dI & Hx & Hn & Hnp & Hu & HeI & He); eauto.
    exists (mkFiles (<[(c, k) := (new, x.2)]> (delete (c0, k0) m)) hs0). split.
    + apply (spec_rename m hs0 old new (c0, k0) (c, k) x); [by apply (md_stored _ _ _ _ Hm)|done|by rewrite (handles_places hs)|].
      by apply (unused_place v rc _ _ _ _ Hm).
    + pose proof (models_update v rc _ _ _ c0 k0 None hs0 Hm HeI Hh) as HmI. exact (models_insert v rc _ _ _ hs0 hs0 c k _ HmI He Hh).
Qed.

Lemma trace_models fuel v rc es s s' a :
  entries v <= Z.of_nat fuel -> consistent v rc s -> models v rc s a -> trace (fs_step fuel v) es s s' ->
  exists a', trace spec_step es a a' /\ models v rc s' a'.
Proof.
  intros Hf. revert s a. induction es as [|e es IH]; intros s a Hc Hm Hr; [destruct Hr; by exists a|].
  destruct Hr as (s1 & Hst & Hr). destruct (step_models fuel v rc e s s1 a Hf Hc Hm Hst) as (a1 & H1 & Hm1).
  destruct (IH s1 a1) as (a' & Ha & Hm'); [by eapply step_consistent|done|done|]. exists a'. split; [|done]. by exists a1.
Qed.

(** ** Properties *)

(** C2: Every sequence of operations that [fs_step] allows on a consistent
    volume is a sequence of operations on the map of its files, with the same
    names and the same bytes read, and the volume holds the map's files at the
    end. The operations are on files of the root directory and return [Ok].
    The conditions of [fs_step] are part of the claim: no flag but
    [FA_CREATE_NEW] creates; an entry is open once at a time; seeks stay
    inside the file, and reach its end only when that is not the end of a
    cluster; writing, cutting and expanding need the cursor at a cluster
    (behind a full last one the code loses the file's chain), enough free
    clusters and a size below 2^32; a file is closed when it is written back,
    and deleted or renamed when it is not open. *)
Theorem volume_refines_map fuel v rc es s s' a :
  entries v <= Z.of_nat fuel -> consistent v rc s -> models v rc s a -> trace (fs_step fuel v) es s s' ->
  exists a', trace spec_step es a a' /\ models v rc s' a'.
Proof. apply trace_models. Qed.
End Model.

(** ** The demonstration volume *)

Definition demo_files : Files := mkFiles {[(2, O) := (demo_name, demo_data)]} [].

Lemma demo_models : models demo_vol [2] (demo_world, []) demo_files.
Proof.
  assert (file_at demo_vol [2] (demo_world, []) 2 0 (demo_name, demo_data)) as Hx.
  { destruct demo_stored_at. split; cbn [fst snd].
    - unfold in_use. split_and!; [by apply list_elem_of_singleton|change (entries_per_cluster demo_vol) with 16%nat; lia|vm_compute; reflexivity..].
    - by vm_compute.
    - exists [3; 5; 4], 1300. split_and!; [by split|right; split; [by intros ?%elem_of_nil|by vm_compute]|by vm_compute]. }
  split; [|by constructor]. intros c k x. cbn [stored_files demo_files]. split.
  - intros [[= <- <-] <-]%lookup_singleton_Some. exact Hx.
  - intros Hx'. pose proof (fa_use _ _ _ _ _ _ Hx') as [-> ->]%demo_in_use.
    rewrite (file_at_det _ _ _ _ _ _ _ demo_consistent Hx' Hx). apply lookup_singleton_eq.
Qed.

Lemma volume_refines_map_witness : exists s a,
  trace (fs_step 200 demo_vol) demo_events (demo_world, []) s /\ trace spec_step demo_events demo_files a
  /\ models demo_vol [2] s a.
Proof.
  destruct (volume_refines_map 200 demo_vol [2] demo_events (demo_world, []) (deleted.2, []) demo_files) as (a & Ha & Hm);
    [vm_compute; discriminate|exact demo_consistent|exact demo_models|exact demo_trace|].
  exists (deleted.2, []), a. split_and!; [exact demo_trace|exact Ha|exact Hm].
Defined.

(** ** What a client may ask for is done *)

Section Progress.
Context {D : Type} `{ReliableDevice D}.

(** The open file at [i] satisfies [P]. *)
Definition at_open (s : World D * list File) (i : nat) (P : File -> Prop) : Prop :=
  exists f, s.2 !! i = Some f /\ P f.

(** A file open for [flag], at a cluster of its own. *)
Definition ready (flag : Z) (f : File) : Prop := lacks f flag = false /\ f_current_cluster f <> 0.

Definition room v (s : World D * list File) : Z := Z.of_nat (free_count v (fat_entry v (w_dev s.1))).

(** The conditions of an operation. *)
Definition enabled v rc (s : World D * list File) (e : event) : Prop :=
  let found name := lookup_entry name (dir_entries v (w_dev s.1) rc) in
  match e with
  | Opened name flags =>
      old_name name /\ Z.land flags (Z.lor (Z.lor FA_CREATE_NEW FA_CREATE_ALWAYS) FA_OPEN_ALWAYS) = 0
      /\ exists c k, found name = Some (c, k) /\ ~ ((c, Z.of_nat k) ∈ (place_of <$> s.2))
  | Created name flags =>
      new_name name /\ Z.land flags FA_CREATE_NEW <> 0 /\ found name = None /\ 0 < room v s
      /\ is_Some (first_slot (dir_entries v (w_dev s.1) rc))
  | Read i n data =>
      at_open s i (fun f => lacks f FA_READ = false /\ 0 <= n /\ exists c k x, place_of f = (c, Z.of_nat k)
        /\ file_at v rc s c k x /\ data = take (Z.to_nat n) (drop (Z.to_nat (f_position f)) x.2))
  | Sought i offset => at_open s i (fun f => seekable v f offset)
  | Wrote i buf =>
      at_open s i (fun f => ready FA_WRITE f /\ bytes buf /\ f_position f + Z.of_nat (length buf) < 2 ^ 32
        /\ Z.of_nat (length buf) / csize v + 1 <= room v s)
  | Truncated i => at_open s i (ready FA_WRITE)
  | Expanded i size =>
      at_open s i (fun f => ready FA_WRITE f /\ 0 <= size /\ size + csize v < 2 ^ 32 /\ size / csize v + 1 <= room v s)
  | Synced i => at_open s i (fun f => f_modified f = true -> f_dir_offset f < 16)
  | Closed i => at_open s i (fun f => f_modified f = false)
  | Unlinked name =>
      old_name name /\ exists c k, found name = Some (c, k) /\ ~ ((c, Z.of_nat k) ∈ (place_of <$> s.2))
  | Renamed old new =>
      old_name old /\ new_name new /\ found new = None /\ is_Some (first_slot (dir_entries v (w_dev s.1) rc))
      /\ exists c k, found old = Some (c, k) /\ ~ ((c, Z.of_nat k) ∈ (place_of <$> s.2))
  end.

(** ** Lemmas *)

Lemma at_open_split w hs i P : at_open (w, hs) i P -> exists l f r, hs = l ++ f :: r /\ i = length l /\ P f.
Proof.
  intros (f & Hi & HP). cbn [snd] in Hi. apply list_elem_of_split_length in Hi as (l & r & -> & ->). by exists l, f, r.
Qed.

(** Files at different places begin at different clusters. *)
Lemma starts_differ v rc w hs c k f :
  consistent v rc (w, hs) -> in_use v (w_dev w) rc c k -> ~ ((c, Z.of_nat k) ∈ (place_of <$> hs)) -> f ∈ hs ->
  entry_start (entry_of v (w_dev w) c k) <> f_start_cluster f.
Proof.
  intros Hc Hu Hn Hf He. destruct (cn_owns _ _ _ Hc c k Hu) as (cs & Ho & _).
  destruct (proj1 (Forall_forall _ _) (cn_open _ _ _ Hc) f Hf) as (c' & k' & cs' & Hp & Hu' & Ho' & Hok & _).
  rewrite (owns_start _ _ _ _ _ _ _ Ho' Hok) in He. cbn [fst snd] in *.
  apply (cn_apart _ _ _ Hc c k c' k' cs cs' (entry_start (entry_of v (w_dev w) c k))); try done.
  - intros [= -> ->]. apply Hn, list_elem_of_fmap. by exists f.
  - by apply (owns_first v (w_dev w) rc).
  - rewrite He. by apply (owns_first v (w_dev w) rc).
Qed.

Section Runs.
Context (fuel : nat) (v : FatVolume) (rc : list Z) (w : World D) (hs : list File).
Context (Hfuel : entries v <= Z.of_nat fuel) (Hc : consistent v rc (w, hs)).

Lemma open_runs name flags c k :
  old_name name -> Z.land flags (Z.lor (Z.lor FA_CREATE_NEW FA_CREATE_ALWAYS) FA_OPEN_ALWAYS) = 0 ->
  lookup_entry name (dir_entries v (w_dev w) rc) = Some (c, k) ->
  exists f, f_open fuel (SLASH :: name) flags w = (Ret f, w) /\ place_of f = (c, Z.of_nat k).
Proof.
  intros [Hne Hn] Hfl Hlk. pose proof (root_short fuel v rc _ Hfuel Hc) as Hf.
  pose proof (cn_rooted _ _ _ Hc) as [Hg Hv Hch _ Hd _ _]. cbn [fst snd] in *.
  pose proof (f_open_run fuel v w rc name flags Hg Hv Hch Hd Hf Hne Hn Hfl) as R. rewrite Hlk in R.
  destruct R as (f & R & _ & _ & _ & Hp & _). by exists f.
Qed.

Lemma create_runs name flags p :
  new_name name -> Z.land flags FA_CREATE_NEW <> 0 -> lookup_entry name (dir_entries v (w_dev w) rc) = None ->
  0 < room v (w, hs) -> first_slot (dir_entries v (w_dev w) rc) = Some p ->
  exists f w', f_open fuel (SLASH :: name) flags w = (Ret f, w').
Proof.
  intros Hnn Hfl Hlk Hr Hs. destruct p as [c k]. unfold room in Hr. cbn [fst] in Hr.
  destruct (f_open_new_run fuel v w rc name flags c k (cn_rooted _ _ _ Hc) (root_short fuel v rc _ Hfuel Hc) Hnn Hlk)
    as (d' & f & _ & R & _); [|lia|done|by exists f, (set_dev d' w)].
  rewrite !Z.land_lor_distr_r. intros H1. by apply Z.lor_eq_0_iff in H1 as [[? ?]%Z.lor_eq_0_iff _].
Qed.

Lemma unlink_runs name c k :
  old_name name -> lookup_entry name (dir_entries v (w_dev w) rc) = Some (c, k) ->
  exists w', f_unlink fuel (SLASH :: name) w = (Ret tt, w').
Proof.
  intros [Hne Hn] Hlk. pose proof (root_short fuel v rc _ Hfuel Hc) as Hf.
  pose proof (cn_rooted _ _ _ Hc) as [Hg Hv Hch _ Hd _ _]. cbn [fst snd] in *. pose proof (entries_bounds _ _ Hg).
  destruct (cn_owns _ _ _ Hc c k (lookup_in_use _ _ _ _ _ _ Hlk)) as (cs & [O1 O2 O3 _ _] & _). cbn [fst snd] in *.
  pose proof (chain_short v _ _ _ _ O1 O3) as Hshort.
  destruct (f_unlink_run fuel v w rc name c k cs Hg Hv Hch Hd Hf Hne Hn Hlk O1) as (d' & R & _);
    [|lia|by exists (set_dev d' w)].
  eapply Forall_impl; [exact O3|]. intros x Hx. by apply on_disk_entries in Hx as [_ ?].
Qed.

(** What [f_stat] says of a file that is not open. *)
Lemma stat_apart name c k :
  old_name name -> lookup_entry name (dir_entries v (w_dev w) rc) = Some (c, k) -> ~ ((c, Z.of_nat k) ∈ (place_of <$> hs)) ->
  forall i j, (f_stat fuel (SLASH :: name) w).1 = Ret i -> j ∈ hs -> fi_start_cluster i <> f_start_cluster j.
Proof.
  intros [Hne Hz] Hlk Hn i j Ri Hj. pose proof (root_short fuel v rc _ Hfuel Hc) as Hf.
  pose proof (cn_rooted _ _ _ Hc) as [Hg Hv Hch _ Hd _ _]. cbn [fst] in *.
  destruct (f_stat_run fuel v w rc name c k Hg Hv Hch Hd Hf Hne Hz Hlk) as (info & Rs & _ & Hst & _).
  rewrite Rs in Ri. injection Ri as <-. rewrite Hst. apply (starts_differ v rc w hs c k j Hc); [by eapply lookup_in_use|done..].
Qed.

(** The cursor is inside the chain of the file. *)
Lemma ready_cursor f : f ∈ hs -> f_current_cluster f <> 0 ->
  exists cs, file_ok v (w_dev w) cs f /\ f_position f < Z.of_nat (length cs) * csize v /\ (length cs < fuel)%nat /\ cs <> [].
Proof.
  intros Hf Hcur. destruct (proj1 (Forall_forall _ _) (cn_open _ _ _ Hc) f Hf) as (c & k & cs & _ & _ & Ho & Hok & _).
  pose proof (entries_bounds _ _ (rt_geometry _ _ _ (cn_rooted _ _ _ Hc))). cbn [fst snd] in *.
  pose proof (chain_short v _ _ _ _ (fo_chain _ _ _ _ Hok) (fo_disk _ _ _ _ Hok)) as Hshort.
  exists cs. split_and!; [done|by apply (cursor_inside v (w_dev w))|lia|apply Ho].
Qed.
End Runs.

(** What a read returns. *)
Lemma read_runs v rc w l f r c k x n :
  consistent v rc (w, l ++ f :: r) -> lacks f FA_READ = false -> 0 <= n -> place_of f = (c, Z.of_nat k) ->
  file_at v rc (w, l ++ f :: r) c k x ->
  exists f', f_read n (w, f) = (Ret (take (Z.to_nat n) (drop (Z.to_nat (f_position f)) x.2)), (w, f')).
Proof.
  intros Hc Hl Hn Hp Hx. pose proof (handle_opened _ _ _ _ _ _ Hc) as (c0 & k0 & cs & Hp0 & Hu & Ho & Hok & _).
  rewrite Hp in Hp0. injection Hp0 as <- Hk. apply Nat2Z.inj in Hk as <-.
  pose proof (cn_rooted _ _ _ Hc) as [Hg Hv _ _ _ _ _]. cbn [fst snd] in *.
  assert (f ∈ l ++ f :: r) as Hf by (apply elem_of_app; right; apply elem_of_cons; by left).
  rewrite (file_at_det _ _ _ _ _ _ _ Hc Hx (file_at_open v rc w _ f c k cs Hf Hp Hu Ho)). cbn [snd].
  rewrite <- (read_contents v (w_dev w) cs f n Hok).
  destruct (f_read_run v w f cs n Hg Hv Hok Hl Hn) as (c1 & s1 & b & R & _). cbv zeta in R. eexists. exact R.
Qed.

Lemma sync_runs v rc w l f r :
  consistent v rc (w, l ++ f :: r) -> (f_modified f = true -> f_dir_offset f < 16) ->
  exists w' f', f_sync (w, f) = (Ret tt, (w', f')).
Proof.
  intros Hc Hk. pose proof (handle_opened _ _ _ _ _ _ Hc) as (c & k & cs & Hp & Hu & Ho & Hok & _).
  pose proof (cn_rooted _ _ _ Hc) as [Hg Hv _ _ Hd _ _]. cbn [fst snd] in *. injection Hp as Hp1 Hp2.
  destruct (f_modified f) eqn:Hm.
  - pose proof (fo_pos _ _ _ _ Hok). pose proof (fo_width _ _ _ _ Hok). pose proof (owns_first _ _ _ _ _ _ Ho) as [_ Hst].
    rewrite <- (owns_start _ _ _ _ _ _ _ Ho Hok) in Hst. specialize (Hk eq_refl).
    destruct (f_sync_entry_run v w f c k Hg Hv (proj1 (Forall_forall _ _) Hd c (proj1 Hu)) Hp1 Hp2 ltac:(lia) Hm ltac:(lia) Hst)
      as (w' & buf & R & _). eauto.
  - exists w, f. unfold f_sync, get_file. unfold bind at 1. cbn [gets fst snd]. by rewrite Hm.
Qed.

Lemma expand_runs fuel v rc w l f r size :
  entries v <= Z.of_nat fuel -> consistent v rc (w, l ++ f :: r) -> ready FA_WRITE f -> 0 <= size ->
  size + csize v < 2 ^ 32 -> size / csize v + 1 <= room v (w, l ++ f :: r) ->
  exists w' f', f_expand fuel size (w, f) = (Ret tt, (w', f')).
Proof.
  intros Hfuel Hc [Hl Hcur] H0s H32 Hr. pose proof (cn_rooted _ _ _ Hc) as [Hg Hv _ _ _ _ Hfree].
  assert (f ∈ l ++ f :: r) as Hf by (apply elem_of_app; right; apply elem_of_cons; by left).
  destruct (ready_cursor fuel v rc w _ Hfuel Hc f Hf Hcur) as (cs & Hok & Hin & Hlen & Hne). unfold room in Hr. cbn [fst snd] in *.
  destruct (csize_nat _ _ Hg) as [_ Hcs]. destruct (decide (size <= Z.of_nat (length cs) * csize v)) as [Hle|Hgt].
  - exists w, f. apply (f_expand_within_run fuel v w f cs); try done; lia.
  - pose proof (Z.div_le_mono (size - 1) size (csize v) ltac:(lia) ltac:(lia)).
    destruct (f_expand_run fuel v w f cs size Hg Hv Hfree Hok Hl Hin) as (d' & new & R & _); [lia..|]. eauto.
Qed.

Lemma step_enabled fuel v rc s e :
  entries v <= Z.of_nat fuel -> consistent v rc s -> enabled v rc s e -> exists s', fs_step fuel v e s s'.
Proof.
  intros Hfuel Hc. destruct s as [w hs]. pose proof (cn_rooted _ _ _ Hc) as [Hg Hv _ _ _ _ Hfree]. cbn [fst snd] in *.
  destruct (csize_nat _ _ Hg) as [_ Hcs]. destruct e; cbn [enabled fst snd].
  - intros (Hold & Hfl & c & k & Hlk & Hn). destruct (open_runs fuel v rc w hs Hfuel Hc name flags c k Hold Hfl Hlk) as (f & R & Hp).
    exists (w, f :: hs). destruct Hold. apply step_open; try done. by rewrite Hp.
  - intros (Hnn & Hfl & Hlk & Hr & [p Hs]). destruct (create_runs fuel v rc w hs Hfuel Hc name flags p Hnn Hfl Hlk Hr Hs) as (f & w' & R).
    exists (w', f :: hs). by apply (step_create fuel v w hs name flags).
  - intros (l & f & r & -> & -> & Hl & Hn & c & k & x & Hp & Hx & ->)%at_open_split.
    destruct (read_runs v rc w l f r c k x n Hc Hl Hn Hp Hx) as (f' & R). eexists. by apply step_read, R.
  - intros (l & f & r & -> & -> & Ho)%at_open_split. cbn [snd] in *.
    pose proof (handle_opened _ _ _ _ _ _ Hc) as (c & k & cs & _ & _ & How & Hok & _).
    destruct (f_lseek_inside_run v w f cs offset Hg Hv Hok (proj1 Ho)) as (c1 & s1 & b & R & _);
      [apply (seekable_inside v w cs f offset); [done|done|apply How|done]|].
    eexists. by apply step_seek, R.
  - intros (l & f & r & -> & -> & [Hl Hcur] & Hb & H32 & Hr)%at_open_split.
    assert (f ∈ l ++ f :: r) as Hf by (apply elem_of_app; right; apply elem_of_cons; by left).
    destruct (ready_cursor fuel v rc w _ Hfuel Hc f Hf Hcur) as (cs & Hok & Hin & _).
    pose proof (needed_bound v (length cs) (f_position f) (Z.of_nat (length buf)) ltac:(lia) ltac:(lia) Hin).
    unfold room in Hr. cbn [fst] in Hr.
    destruct (f_write_run v w f cs buf Hg Hv Hok Hl (or_intror Hin) Hb H32 Hfree ltac:(lia)) as (d' & cs' & f' & R & _).
    eexists. by eapply step_write; [..|exact R].
  - intros (l & f & r & -> & -> & [Hl Hcur])%at_open_split.
    assert (f ∈ l ++ f :: r) as Hf by (apply elem_of_app; right; apply elem_of_cons; by left).
    destruct (ready_cursor fuel v rc w _ Hfuel Hc f Hf Hcur) as (cs & Hok & Hin & Hlen & _).
    destruct (f_truncate_run fuel v w f cs Hg Hv Hok Hl Hin Hlen) as (d' & R & _). eexists. by apply step_truncate, R.
  - intros (l & f & r & -> & -> & Hw & H0s & H32 & Hr)%at_open_split.
    destruct (expand_runs fuel v rc w l f r size Hfuel Hc Hw H0s H32 Hr) as (w' & f' & R). destruct Hw.
    eexists. by apply step_expand, R.
  - intros (l & f & r & -> & -> & Hk)%at_open_split. destruct (sync_runs v rc w l f r Hc Hk) as (w' & f' & R).
    eexists. by apply step_sync, R.
  - intros (l & f & r & -> & -> & Hm)%at_open_split. eexists. by apply step_close.
  - intros (Hold & c & k & Hlk & Hn). destruct (unlink_runs fuel v rc w hs Hfuel Hc name c k Hold Hlk) as (w' & R).
    pose proof (stat_apart fuel v rc w hs Hfuel Hc name c k Hold Hlk Hn). destruct Hold. exists (w', hs). by apply step_unlink.
  - intros (Hold & Hnn & Hlkn & [[c k] Hslot] & c0 & k0 & Hlk & Hn).
    pose proof (stat_apart fuel v rc w hs Hfuel Hc old c0 k0 Hold Hlk Hn).
    destruct (f_rename_writes fuel v w rc old new c0 k0 c k (cn_rooted _ _ _ Hc) (root_short fuel v rc _ Hfuel Hc) Hold Hnn Hlk Hlkn Hslot)
      as (d1 & d2 & R & _). eexists. by apply step_rename, R.
Qed.

(** ** Properties *)

(** C4: On a consistent volume an operation whose conditions hold always returns,
    and what it does is what it does on the map of the files: the bytes read are
    the map's, and the volume is consistent and holds the new map. *)
Theorem volume_progress fuel v rc s a e :
  entries v <= Z.of_nat fuel -> consistent v rc s -> models v rc s a -> enabled v rc s e ->
  exists s' a', fs_step fuel v e s s' /\ spec_step e a a' /\ consistent v rc s' /\ models v rc s' a'.
Proof.
  intros Hf Hc Hm He. destruct (step_enabled fuel v rc s e Hf Hc He) as (s' & Hs).
  destruct (step_models fuel v rc e s s' a Hf Hc Hm Hs) as (a' & Ha & Hm').
  exists s', a'. split_and!; [done|done|by eapply step_consistent|done].
Qed.
End Progress.

Lemma volume_progress_witness : exists s a,
  fs_step 200 demo_vol (Created copy_name FA_CREATE_NEW) (demo_world, []) s
  /\ spec_step (Created copy_name FA_CREATE_NEW) demo_files a /\ models demo_vol [2] s a.
Proof.
  destruct (volume_progress 200 demo_vol [2] (demo_world, []) demo_files (Created copy_name FA_CREATE_NEW))
    as (s & a & Hs & Ha & _ & Hm); [vm_compute; discriminate|exact demo_consistent|exact demo_models| |].
  - split_and!; [exact demo_new_name|done|by vm_compute|by vm_compute|]. exists (2, 1%nat). vm_compute. reflexivity.
  - exists s, a. exact (conj Hs (conj Ha Hm)).
Defined.
