(* ===== verification/FatMkdir.v ===== *)
(** Making a directory: the entry in the root directory, the new directory's own
    cluster, and the files that stay. *)

From stdpp Require Import base numbers list gmap.
From Stdlib Require Import ZArith Lia.
From S2P Require Import Prelude Block Fat32 Fat32Dir Fat32File.
From S2P Require Import FatSpec FatChain FatCluster FatDirSpec FatFileSpec FatWrite FatDemo FatFileTheorems.
From S2P Require Import FatSync FatDirUpdate FatFiles FatCreate.

(** ** The bytes of the entry *)

(** The parts of a short name. *)
Definition name_base (name : list Z) : list Z := take (default (length name) (position (Z.eqb DOT) name)) name.

(** The name of a directory, as far as it is written: eight bytes, and the
    extension when there is a dot. *)
Definition dir_named (name : list Z) (old e : list Z) : Prop :=
  take 8 e = pad 8 (name_base name) /\
  take 3 (drop 8 e) = match position (Z.eqb DOT) name with
                      | Some dot => pad 3 (take 3 (drop (dot + 1) name))
                      | None => take 3 (drop 8 old)
                      end.

(** Bytes at [off] that are overwritten up to eight. *)
Lemma take_drop_splice_two (buf a b : list Z) off :
  (off + length a + length b <= length buf)%nat ->
  take (length a + length b) (drop off (splice (off + length a) b (splice off a buf))) = a ++ b.
Proof.
  intros Hl. rewrite splice_next by done. rewrite <- length_app. apply slice_splice_same. rewrite length_app. lia.
Qed.

Lemma short_name_parts name :
  short_name name ->
  (length (name_base name) <= 8)%nat /\
  match position (Z.eqb DOT) name with
  | Some dot => exists base ext, name = base ++ DOT :: ext /\ name_base name = base /\ drop (dot + 1) name = ext
      /\ (1 <= length base <= 8)%nat /\ (1 <= length ext <= 3)%nat /\ Forall name_char base /\ Forall name_char ext
  | None => name_base name = name /\ (1 <= length name <= 8)%nat /\ Forall name_char name
  end.
Proof.
  intros [base Hb Hc|base ext Hb He Hcb Hce]; unfold name_base.
  - pose proof (position_dot base [] (name_char_no_dot _ Hc)) as Hp. rewrite app_nil_r in Hp. rewrite Hp.
    cbn [option_map position default]. unfold id. rewrite firstn_all. split; [lia|done].
  - assert (position (Z.eqb DOT) (base ++ DOT :: ext) = Some (length base)) as ->.
    { rewrite (position_dot base (DOT :: ext) (name_char_no_dot _ Hcb)). cbn [position]. rewrite Z.eqb_refl.
      cbn [option_map]. by rewrite Nat.add_0_r. }
    cbn [default]. unfold id. rewrite take_app_length. split; [lia|]. exists base, ext.
    assert (drop (length base + 1) (base ++ DOT :: ext) = ext); [|split_and!; done || lia].
    replace (length base + 1)%nat with (length (base ++ [DOT])) by (rewrite length_app; cbn; lia).
    replace (base ++ DOT :: ext) with ((base ++ [DOT]) ++ ext) by (by rewrite <- app_assoc). apply drop_app_length.
Qed.

Lemma put_dir_name_spec buf off name :
  (off + 11 <= length buf)%nat -> short_name name ->
  let b := put_dir_name off name buf in
  length b = length buf /\ (bytes buf -> bytes name -> bytes b)
  /\ (forall i, (i < off \/ off + 11 <= i)%nat -> b !! i = buf !! i)
  /\ take 8 (drop off b) = pad 8 (name_base name)
  /\ take 3 (drop (off + 8) b) = match position (Z.eqb DOT) name with
                                 | Some dot => pad 3 (take 3 (drop (dot + 1) name))
                                 | None => take 3 (drop (off + 8) buf)
                                 end.
Proof.
  intros Hb Hs b. destruct (short_name_parts name Hs) as [Hl8 Hparts].
  set (base := name_base name) in *. set (sp := replicate (8 - length base) SPACE).
  assert (length sp = (8 - length base)%nat) as Hsp by (unfold sp; apply length_replicate).
  assert (bytes sp) as Hbsp by (apply Forall_replicate; by cbv).
  assert (take (Nat.min 8 (default (length name) (position (Z.eqb DOT) name))) name = base) as Hbase.
  { unfold base, name_base in *. rewrite length_take in Hl8. 
    destruct (position (Z.eqb DOT) name) as [dot|]; cbn [default] in *; unfold id in *.
    - destruct (decide (dot <= 8)%nat); [by rewrite Nat.min_r by lia|].
      rewrite Nat.min_l by lia. rewrite !take_ge; [done|lia|lia].
    - by rewrite Nat.min_r by lia. }
  destruct (position (Z.eqb DOT) name) as [dot|] eqn:Hdot.
  - destruct Hparts as (bs & ext & -> & Hbs & Hext & Hbl & Hel & Hcb & Hce).
    set (x := splice off base buf).
    assert (length x = length buf) as Hx by (unfold x; apply length_splice; lia).
    set (y := if (8 <? length (bs ++ DOT :: ext))%nat then splice (off + 8) (replicate 3 SPACE) x else x).
    assert (length y = length buf /\ (forall i, (i < off + 8 \/ off + 11 <= i)%nat -> y !! i = x !! i) /\ (bytes x -> bytes y)) as (Hy & Hyl & Hyb).
    { unfold y. destruct (8 <? _)%nat; [|done]. rewrite length_splice by (rewrite length_replicate; lia).
      split_and!; [done| |].
      - intros i Hi. apply splice_lookup_out; rewrite length_replicate; lia.
      - intros Hbx. apply bytes_splice; [|done]. apply Forall_replicate. by cbv. }
    set (z := splice (off + length base) sp y).
    assert (length z = length buf) as Hz by (unfold z; rewrite length_splice; lia).
    set (pe := pad 3 (take 3 (drop (dot + 1) (bs ++ DOT :: ext)))).
    assert (length pe = 3%nat) as Hpe by (unfold pe; apply length_pad; rewrite length_take; lia).
    assert (b = splice (off + 8) pe z) as ->.
    { unfold b, put_dir_name. rewrite Hdot. cbn [default] in Hbase |- *. unfold id in *. by rewrite Hbase. }
    split_and!.
    + rewrite length_splice; lia.
    + intros Hby Hnb. apply bytes_splice.
      * unfold pe. apply Forall_app. split; [|apply Forall_replicate; by cbv]. by apply Forall_take, Forall_drop.
      * apply bytes_splice; [done|]. apply Hyb. apply bytes_splice; [|done]. unfold base, name_base. by apply Forall_take.
    + intros i Hi. rewrite splice_lookup_out by lia. unfold z. rewrite splice_lookup_out by lia.
      rewrite Hyl by lia. unfold x. rewrite splice_lookup_out by lia. done.
    + rewrite slice_splice_other by lia. apply list_eq. intros i.
      destruct (decide (i < 8)%nat) as [Hi|Hi]; [|rewrite lookup_take_ge by lia; symmetry; apply lookup_ge_None; rewrite length_pad; lia].
      rewrite lookup_take_lt, lookup_drop by done. unfold z, pad. fold sp. destruct (decide (i < length base)%nat).
      * rewrite splice_lookup_out, Hyl by lia. unfold x. rewrite splice_lookup_in by lia.
        rewrite lookup_app_l by lia. f_equal. lia.
      * rewrite splice_lookup_in by lia. rewrite lookup_app_r by lia. f_equal. lia.
    + pose proof (slice_splice_same (off + 8) pe z ltac:(lia)) as Hss. by rewrite Hpe in Hss.
  - destruct Hparts as (Hbn & Hl & Hc).
    assert (b = splice off (pad 8 base) buf) as ->.
    { unfold b, put_dir_name. rewrite Hdot. cbn [default]. unfold id. cbn [default] in Hbase. unfold id in Hbase.
      rewrite Hbase. destruct (8 <? length name)%nat eqn:H8; [apply Nat.ltb_lt in H8; lia|].
      fold sp. unfold pad. fold sp. apply splice_next. lia. }
    pose proof (length_pad 8 base Hl8) as Hlp. split_and!.
    + rewrite length_splice; lia.
    + intros Hby Hnb. apply bytes_splice; [|done]. unfold pad. apply Forall_app. split; [|done].
      unfold base, name_base. by apply Forall_take.
    + intros i Hi. apply splice_lookup_out; lia.
    + pose proof (slice_splice_same off (pad 8 base) buf ltac:(lia)) as Hss. by rewrite Hlp in Hss.
    + apply slice_splice_other; lia.
Qed.

(** The entry that [f_mkdir] writes at [k]. *)
Definition dir_entry_buf (k : nat) (name : list Z) (c : Z) (buf : list Z) : list Z :=
  put_cluster (32 * k) c (<[(32 * k + 11)%nat := ATTR_DIRECTORY]> (put_dir_name (32 * k) name buf)).

(** The slot has no remains of an extension that the name would not overwrite. *)
Definition clean_slot (name e : list Z) : Prop :=
  position (Z.eqb DOT) name = None -> byte_at e 8 = 0 \/ byte_at e 8 = SPACE.

Lemma entry_parts (e : list Z) : (11 <= length e)%nat -> e = take 8 e ++ take 3 (drop 8 e) ++ drop 11 e.
Proof.
  intros He. rewrite <- (take_drop 8 e) at 1. f_equal. rewrite <- (take_drop 3 (drop 8 e)) at 1.
  by rewrite drop_drop.
Qed.

Lemma dir_entry_spec buf k name c :
  (32 * k + 32 <= length buf)%nat -> new_name name -> 0 <= c < 2 ^ 32 -> clean_slot name (entry_at buf k) ->
  let b := dir_entry_buf k name c buf in
  length b = length buf /\ (bytes buf -> bytes b)
  /\ (forall i, (i < 32 * k \/ 32 * k + 32 <= i)%nat -> b !! i = buf !! i)
  /\ entry_name (entry_at b k) = name /\ entry_attr (entry_at b k) = ATTR_DIRECTORY
  /\ entry_start (entry_at b k) = c /\ live (entry_at b k) = true.
Proof.
  intros Hb [Hs _ Hhead Hnb] Hc Hclean b.
  destruct (put_dir_name_spec buf (32 * k) name ltac:(lia) Hs) as (P1 & P2 & P3 & P4 & P5).
  set (p := put_dir_name (32 * k) name buf) in *. set (q := <[(32 * k + 11)%nat := ATTR_DIRECTORY]> p).
  assert (length q = length buf) as Hq by (unfold q; by rewrite length_insert).
  destruct (put_cluster_entry q k c ltac:(lia) Hc) as (C1 & C2 & C3 & C4). change (put_cluster (32 * k) c q) with b in *.
  assert (forall o n, (o + n <= 11)%nat -> take n (drop o (entry_at b k)) = take n (drop (32 * k + o) p)) as Hf.
  { intros o n Hon. rewrite field_at by lia. apply list_eq. intros i. destruct (decide (i < n)%nat).
    - rewrite !lookup_take_lt, !lookup_drop by done. rewrite C3 by lia. unfold q. apply list_lookup_insert_ne. lia.
    - by rewrite !lookup_take_ge by lia. }
  set (e := entry_at b k) in *. assert (length e = 32%nat) as He by (unfold e, entry_at; rewrite length_take, length_drop; lia).
  assert (take 8 e = pad 8 (name_base name)) as E8.
  { rewrite <- (drop_0 e), (Hf 0%nat 8%nat), Nat.add_0_r by lia. exact P4. }
  assert (take 3 (drop 8 e) = take 3 (drop (32 * k + 8) p)) as E3 by (apply Hf; lia). rewrite P5 in E3.
  destruct (short_name_parts name Hs) as [Hl8 Hparts].
  assert (entry_name e = name) as Hname.
  { destruct (position (Z.eqb DOT) name) as [dot|] eqn:Hdot.
    - destruct Hparts as (base & ext & -> & Hbs & Hext & Hbl & Hel & Hcb & Hce). rewrite Hbs in E8. rewrite Hext in E3.
      rewrite (entry_parts e ltac:(lia)), E8, E3, (take_ge ext) by lia.
      rewrite entry_name_fields by (done || lia). by destruct ext; [cbn in Hel; lia|].
    - destruct Hparts as (Hbn & Hl & Hnc). rewrite Hbn in E8. rewrite <- (field_at buf k 8 3) in E3 by lia.
      assert (byte_at e 8 = byte_at (entry_at buf k) 8) as H8.
      { unfold byte_at. assert (take 3 (drop 8 e) !! 0%nat = take 3 (drop 8 (entry_at buf k)) !! 0%nat) as Hh by (by rewrite E3).
        rewrite !lookup_take_lt, !lookup_drop in Hh by lia. by rewrite Nat.add_0_r in Hh; rewrite Hh. }
      unfold entry_name. rewrite H8, E8. assert (((byte_at (entry_at buf k) 8 =? SPACE) || (byte_at (entry_at buf k) 8 =? 0)) = true) as ->
        by (destruct (Hclean Hdot) as [-> | ->]; done).
      rewrite app_nil_r. apply take_name_id; [done|]. intros x Hx. left. destruct (8 - length name)%nat; [done|]. cbn in Hx. congruence. }
  assert (forall i, (i < 8)%nat -> byte_at e i = byte_at (pad 8 (name_base name)) i) as Hb8.
  { intros i Hi. by rewrite <- E8, byte_at_take. }
  split_and!.
  - lia.
  - intros Hby. apply C2. unfold q. apply Forall_insert; [by apply P2|by cbv].
  - intros i Hi. rewrite C3 by lia. unfold q. rewrite list_lookup_insert_ne by lia. apply P3. lia.
  - exact Hname.
  - unfold entry_attr, e. rewrite entry_at_byte by lia. unfold byte_at. rewrite C3 by lia. unfold q.
    by rewrite list_lookup_insert_eq by lia.
  - exact C4.
  - apply live_spec. rewrite Hb8 by lia.
    assert (exists x r, name_base name = x :: r /\ name_char x /\ head name = Some x) as (x & r & -> & (H0 & _) & Hh).
    { destruct (position (Z.eqb DOT) name) as [dot|].
      - destruct Hparts as (base & ext & -> & -> & _ & Hbl & _ & Hcb & _). destruct base as [|x base]; [cbn in Hbl; lia|].
        apply Forall_cons in Hcb as [Hx _]. by exists x, base.
      - destruct Hparts as (-> & Hl & Hnc). destruct name as [|x r]; [cbn in Hl; lia|]. apply Forall_cons in Hnc as [Hx _]. by exists x, r. }
    cbn. split; [done|]. intros ->. by apply Hhead.
Qed.

(** ** The new directory's cluster *)

Lemma dots_entry (b src : list Z) k c :
  (32 * k + 32 <= length b)%nat -> length src = 12%nat -> 0 <= c < 2 ^ 32 ->
  let b' := put_cluster (32 * k) c (splice (32 * k) src b) in
  length b' = length b /\ (bytes b -> bytes src -> bytes b') /\
  (forall i, (i < 32 * k \/ 32 * k + 32 <= i)%nat -> b' !! i = b !! i) /\
  take 12 (entry_at b' k) = src /\ entry_start (entry_at b' k) = c.
Proof.
  intros Hb Hs Hc b'. set (x := splice (32 * k) src b). assert (length x = length b) as Hx by (apply length_splice; lia).
  destruct (put_cluster_entry x k c ltac:(lia) Hc) as (C1 & C2 & C3 & C4). change (put_cluster (32 * k) c x) with b' in *.
  split_and!.
  - lia.
  - intros Hbb Hbs. apply C2. by apply bytes_splice.
  - intros i Hi. rewrite C3 by lia. apply splice_lookup_out; lia.
  - rewrite <- (drop_0 (entry_at b' k)), field_at, Nat.add_0_r by lia.
    pose proof (slice_splice_same (32 * k) src b ltac:(lia)) as Hss. rewrite Hs in Hss. fold x in Hss. rewrite <- Hss.
    apply list_eq. intros i. destruct (decide (i < 12)%nat).
    + rewrite !lookup_take_lt, !lookup_drop by done. apply C3. lia.
    + by rewrite !lookup_take_ge by lia.
  - exact C4.
Qed.

(** The entries of a new directory: itself, its parent, and the end marker. *)
Lemma dir_cluster_spec v n new parent :
  geometry v n -> 0 <= new < 2 ^ 32 -> 0 <= parent < 2 ^ 32 ->
  let b := dir_cluster_buf v new parent in
  length b = cluster_size v /\ bytes b
  /\ (entry_name (entry_at b 0), entry_attr (entry_at b 0), entry_start (entry_at b 0)) = ([DOT], ATTR_DIRECTORY, new)
  /\ (entry_name (entry_at b 1), entry_attr (entry_at b 1), entry_start (entry_at b 1)) = ([DOT; DOT], ATTR_DIRECTORY, parent)
  /\ forall k, (2 <= k < entries_per_cluster v)%nat -> byte_at (entry_at b k) 0 = 0.
Proof.
  intros Hg Hn Hp b. destruct (csize_nat v n Hg) as [Hcs Hr].
  set (z := replicate (cluster_size v) 0). assert (length z = cluster_size v) as Hz by (unfold z; apply length_replicate).
  set (s0 := DOT :: replicate 10 SPACE ++ [ATTR_DIRECTORY]). set (s1 := DOT :: DOT :: replicate 9 SPACE ++ [ATTR_DIRECTORY]).
  destruct (dots_entry z s0 0 new ltac:(lia) eq_refl Hn) as (A1 & A2 & A3 & A4 & A5). change (32 * 0)%nat with O in *.
  set (b0 := put_cluster 0 new (splice 0 s0 z)) in *.
  destruct (dots_entry b0 s1 1 parent ltac:(lia) eq_refl Hp) as (B1 & B2 & B3 & B4 & B5).
  change (put_cluster (32 * 1) parent (splice (32 * 1) s1 b0)) with b in *.
  assert (entry_at b 0 = entry_at b0 0) as E0 by (apply (entry_at_outside _ _ 1); [exact B3|done]).
  assert (bytes s0 /\ bytes s1) as [Hb0 Hb1] by (split; repeat constructor; by cbv).
  destruct (seen 12 (take 12 s0) (entry_at b 0)) as [S0 N0]; [lia|by rewrite E0, A4|].
  destruct (seen 12 (take 12 s1) (entry_at b 1)) as [S1 N1]; [lia|by rewrite B4|].
  split_and!.
  - lia.
  - apply B2; [|done]. apply A2; [|done]. apply Forall_replicate. by cbv.
  - rewrite N0. unfold entry_attr. rewrite S0, E0, A5 by lia. reflexivity.
  - rewrite N1. unfold entry_attr. rewrite S1, B5 by lia. reflexivity.
  - intros k Hk. rewrite entry_at_byte by lia. unfold byte_at. rewrite B3, A3 by lia. unfold z.
    unfold entries_per_cluster in Hk. pose proof (Nat.Div0.mul_div_le (cluster_size v) 32).
    rewrite lookup_replicate_2 by lia. done.
Qed.

Section Mkdir.
Context {D : Type} `{ReliableDevice D}.

(** Writing a cluster of [T]. *)
Lemma effect_inside v d d' T c x buf : x ∈ T -> cluster_set v d d' x buf -> effect v d d' T c.
Proof.
  intros Hx [Hc _ Ho Ht _]. split; [done|by intros; apply Ht|]. intros y Hy Hny _. apply Ho; [done|]. by intros ->.
Qed.

Lemma root_range v w rc : rooted v w rc -> 0 <= root_cluster v < 2 ^ 32.
Proof.
  intros [_ _ Hch _ _ Hne _]. destruct rc as [|y rc]; [done|]. destruct Hch as (<- & Hcl & _).
  apply is_cluster_iff in Hcl. unfold END_OF_CHAIN in *. lia.
Qed.

Lemma f_mkdir_run fuel v w rc name c k :
  rooted v w rc -> (length rc < fuel)%nat -> new_name name -> (length name <= 11)%nat ->
  lookup_entry name (dir_entries v (w_dev w) rc) = None -> (0 < free_count v (fat_entry v (w_dev w)))%nat ->
  first_slot (dir_entries v (w_dev w) rc) = Some (c, k) ->
  clean_slot name (entry_at (cluster_data v (w_dev w) c) k) ->
  exists d' new, f_mkdir fuel (SLASH :: name) w = (Ret tt, set_dev d' w) /\ rooted v (set_dev d' w) rc
    /\ 0 <= new < 2 ^ 32 /\ fat_entry v (w_dev w) new = 0 /\ fat_entry v d' new = CHAIN_END
    /\ (forall x, 0 <= x < entries v -> x <> new -> fat_entry v d' x = fat_entry v (w_dev w) x)
    /\ lookup_entry name (dir_entries v d' rc) = Some (c, k)
    /\ entry_attr (entry_at (cluster_data v d' c) k) = ATTR_DIRECTORY
    /\ entry_start (entry_at (cluster_data v d' c) k) = new
    /\ cluster_data v d' new = dir_cluster_buf v new (root_cluster v)
    /\ (forall x, on_disk v (sector_count (w_dev w)) x -> x <> new -> x <> c -> cluster_data v d' x = cluster_data v (w_dev w) x)
    /\ only_entry v (w_dev w) d' c k
    /\ forall t data, ci_prefix t name = false -> stored v (w_dev w) rc t data -> stored v d' rc t data.
Proof.
  intros Hrt Hf Hnn Hlen Hlk Hpos Hslot Hclean. pose proof Hrt as [Hg Hv Hch Ht Hd Hne _].
  pose proof (chain_NoDup _ _ _ Hch) as Hnd.
  destruct (alloc_effect v w rc c Hrt Hpos) as (d1 & new & Ralloc & Hef & Hz & Hend & Hdn & Hn & Hdata).
  assert (Forall (fun x => fat_entry v (w_dev w) x = 0) [new]) as HT by by apply Forall_singleton.
  destruct (slot_dir _ _ _ _ _ Hslot) as (Hc & Hk & _). pose proof (proj1 (Forall_forall _ _) Hd c Hc) as Hcd.
  assert (new <> c) as Hnc.
  { intros <-. apply (root_not_free v w rc [new] new Hrt HT Hc). by apply list_elem_of_singleton. }
  pose proof (root_range v w rc Hrt) as Hroot.
  assert (0 <= new < 2 ^ 32) as Hnew by (unfold END_OF_CHAIN in *; lia).
  pose proof (rooted_effect v w (set_dev d1 w) rc [new] c Hrt HT Hef eq_refl) as [Hg1 _ _ _ _ _ _]. cbn [w_dev set_dev] in Hg1.
  destruct (dir_cluster_spec v _ new (root_cluster v) Hg Hnew Hroot) as (Dl & Db & _).
  destruct (write_cluster_run v (set_dev d1 w) new (dir_cluster_buf v new (root_cluster v)) Hg1 Hdn Dl Db) as (d2 & R2 & Hset2).
  cbn [w_dev set_dev] in Hset2.
  assert (effect v (w_dev w) d2 [new] c) as Hef2.
  { eapply effect_trans; [exact Hef|]. eapply effect_inside; [|exact Hset2]. by apply list_elem_of_singleton. }
  pose proof (rooted_effect v w (set_dev d2 w) rc [new] c Hrt HT Hef2 eq_refl) as [Hg2 _ Hch2 Ht2 Hd2 _ _]. cbn [w_dev set_dev] in *.
  pose proof (proj1 (Forall_forall _ _) Hd2 c Hc) as Hcd2.
  assert (forall x, x ∈ rc -> cluster_data v d2 x = cluster_data v (w_dev w) x) as Hsame2.
  { intros x Hx. pose proof (proj1 (Forall_forall _ _) Hd x Hx) as Hxd. rewrite <- (Hdata x Hxd).
    apply (cs_other _ _ _ _ _ Hset2); [by rewrite (ef_count _ _ _ _ _ Hef)|]. intros ->.
    apply (root_not_free v w rc [new] new Hrt HT Hx). by apply list_elem_of_singleton. }
  pose proof (slot_in_chain_run fuel v (set_dev d2 w) _ rc Hg2 Hch2 Ht2 Hd2 Hne Hf) as Rslot. cbn [w_dev set_dev] in Rslot.
  rewrite (dir_entries_same v (w_dev w) d2 rc Hsame2), Hslot, (Hsame2 c Hc) in Rslot.
  set (buf := cluster_data v (w_dev w) c) in *. destruct (cluster_data_length v (w_dev w) c Hg Hcd) as [Hl Hby].
  pose proof (slot_fits v (w_dev w) c k Hg Hcd Hk) as Hfit. fold buf in Hl, Hby, Hfit.
  destruct (dir_entry_spec buf k name new Hfit Hnn Hnew Hclean) as (E1 & E2 & E3 & E4 & E5 & E6 & E7).
  destruct (write_cluster_run v (set_dev d2 w) c (dir_entry_buf k name new buf) Hg2 Hcd2) as (d3 & R3 & Hset3);
    [by rewrite E1|by apply E2|]. cbn [w_dev set_dev] in Hset3. pose proof (cs_same _ _ _ _ _ Hset3) as Hs3.
  assert (effect v (w_dev w) d3 [new] c) as Hef3 by (eapply effect_trans; [exact Hef2|by eapply effect_cluster]).
  assert (only_entry v (w_dev w) d3 c k) as Honly by (intros i Hi; rewrite Hs3; by apply E3).
  assert (forall t, matches t (entry_at (cluster_data v d3 c) k) = ci_prefix t name) as Hmt.
  { intros t. unfold matches. rewrite Hs3, E4, E5, E7. rewrite bool_decide_eq_false_2; [done|]. by destruct (new_name_ok name Hnn). }
  exists d3, new. split_and!; try done; try (by destruct Hnew).
  - destruct (new_name_ok name Hnn) as [Hnm H0n]. unfold f_mkdir, with_vol, find_entry_in_dir. rewrite Hv.
    run_with (resolve_root fuel v name w Hnm (nn_slash _ Hnn)). rewrite decide_False by done.
    rewrite (proj2 (Nat.ltb_ge 11 (length name)) Hlen).
    pose proof (find_in_chain_run fuel v w _ rc name Hg Hch Hd Hf H0n) as Rf. rewrite Hlk in Rf. run_with Rf.
    run_with Ralloc. run_with R2. run_with Rslot. exact R3.
  - by apply (rooted_effect v w (set_dev d3 w) rc [new] c).
  - rewrite (cs_table _ _ _ _ _ Hset3), (cs_table _ _ _ _ _ Hset2); [done|by eapply on_disk_entries..].
  - intros x Hx Hxn. apply (ef_fat _ _ _ _ _ Hef3); [done|]. by intros ->%list_elem_of_singleton.
  - rewrite (dir_entries_update v (w_dev w) d3 rc c k).
    + destruct (slot_filled v (w_dev w) rc c k Hnd Hslot) as (l & e & r & Heq & Hll & _ & Hrep).
      rewrite Hrep. rewrite Heq in Hlk. apply (lookup_put name l c k e); [done| |done]. rewrite Hmt. apply ci_prefix_refl.
    + intros x Hx Hxc. apply (ef_data _ _ _ _ _ Hef3); [by apply (proj1 (Forall_forall _ _) Hd)| |done].
      by apply (root_not_free v w rc).
    + intros j Hj _. by apply (entry_at_outside _ _ k).
  - by rewrite Hs3.
  - by rewrite Hs3.
  - rewrite (cs_other _ _ _ _ _ Hset3); [apply (cs_same _ _ _ _ _ Hset2)| |done].
    by rewrite (cs_count _ _ _ _ _ Hset2).
  - intros x Hx Hxn Hxc. apply (ef_data _ _ _ _ _ Hef3); [done| |done]. by intros ->%list_elem_of_singleton.
  - intros t data Hpre (ct & kt & cst & Hsa). exists ct, kt, cst.
    apply (stored_frame v (w_dev w) d3 rc [new] c k); try done; [by rewrite Hs3|by rewrite Hmt].
Qed.

(** ** Properties *)

(** C23: [f_mkdir] of a new name of at most eleven characters in 8.3 form, in the
    root directory, with a free cluster and a free entry whose bytes hold no
    remains of an extension when the name has none: the name is found, as a
    directory, in that entry; it owns one cluster that was free, which holds
    itself, its parent and the end marker. Nothing else changes: the other
    entries of the table, the bytes of every other cluster of the device and the
    other entries of the directory's cluster are as they were, so that every
    file whose search the new name does not catch is stored as before. *)
Theorem f_mkdir_correct fuel v w rc name c k :
  rooted v w rc -> (length rc < fuel)%nat -> new_name name -> (length name <= 11)%nat ->
  lookup_entry name (dir_entries v (w_dev w) rc) = None -> (0 < free_count v (fat_entry v (w_dev w)))%nat ->
  first_slot (dir_entries v (w_dev w) rc) = Some (c, k) ->
  clean_slot name (entry_at (cluster_data v (w_dev w) c) k) ->
  exists d' new, f_mkdir fuel (SLASH :: name) w = (Ret tt, set_dev d' w) /\ rooted v (set_dev d' w) rc
    /\ fat_entry v (w_dev w) new = 0 /\ fat_entry v d' new = CHAIN_END
    /\ (forall x, 0 <= x < entries v -> x <> new -> fat_entry v d' x = fat_entry v (w_dev w) x)
    /\ lookup_entry name (dir_entries v d' rc) = Some (c, k)
    /\ (let e := entry_at (cluster_data v d' c) k in entry_attr e = ATTR_DIRECTORY /\ entry_start e = new)
    /\ (let e := entry_at (cluster_data v d' new) in
        (entry_name (e O), entry_attr (e O), entry_start (e O)) = ([DOT], ATTR_DIRECTORY, new) /\
        (entry_name (e 1%nat), entry_attr (e 1%nat), entry_start (e 1%nat)) = ([DOT; DOT], ATTR_DIRECTORY, root_cluster v) /\
        forall j, (2 <= j < entries_per_cluster v)%nat -> byte_at (e j) 0 = 0)
    /\ (forall x, on_disk v (sector_count (w_dev w)) x -> x <> new -> x <> c -> cluster_data v d' x = cluster_data v (w_dev w) x)
    /\ (forall i, (i < 32 * k \/ 32 * k + 32 <= i)%nat -> cluster_data v d' c !! i = cluster_data v (w_dev w) c !! i)
    /\ forall t data, ci_prefix t name = false -> stored v (w_dev w) rc t data -> stored v d' rc t data.
Proof.
  intros Hrt Hf Hnn Hlen Hlk Hpos Hslot Hclean.
  destruct (f_mkdir_run fuel v w rc name c k Hrt Hf Hnn Hlen Hlk Hpos Hslot Hclean)
    as (d' & new & R & Hrt' & Hn & Hz & Hend & Hfat & Hfound & Ha & Hs & Hdir & Hother & Honly & Hst).
  pose proof (root_range v w rc Hrt) as Hr.
  destruct (dir_cluster_spec v _ new (root_cluster v) (rt_geometry _ _ _ Hrt) Hn Hr) as (_ & _ & D0 & D1 & D2).
  exists d', new. rewrite Hdir. by split_and!.
Qed.
End Mkdir.

Lemma f_mkdir_correct_witness : exists d' new,
  f_mkdir 4 (SLASH :: [68; 73; 82]) demo_world = (Ret tt, set_dev d' demo_world)
  /\ stored demo_vol d' [2] demo_name demo_data /\ entry_start (entry_at (cluster_data demo_vol d' 2) 1) = new.
Proof.
  destruct (f_mkdir_correct 4 demo_vol demo_world [2] [68; 73; 82] 2 1 demo_rooted ltac:(cbn; lia))
    as (d' & new & R & _ & _ & _ & _ & _ & [_ He] & _ & _ & _ & Hst).
  - split; [|by repeat constructor|done|by repeat constructor].
    apply (short_base [68; 73; 82]); [cbn; lia|]. by repeat constructor.
  - cbn. lia.
  - vm_compute. reflexivity.
  - apply Nat.ltb_lt. vm_compute. reflexivity.
  - vm_compute. reflexivity.
  - intros _. left. vm_compute. reflexivity.
  - exists d', new. split; [exact R|]. split; [|exact He]. apply Hst; [reflexivity|exact demo_stored].
Defined.
