(* ===== verification/FatFull.v ===== *)
(** Writing to a volume that runs out of space: what [f_write] leaves when the
    last free cluster is full. *)

From stdpp Require Import base numbers list gmap.
From Stdlib Require Import ZArith Lia.
From S2P Require Import Prelude Block Fat32 Fat32Dir Fat32File.
From S2P Require Import FatSpec FatChain FatCluster FatFileSpec FatWrite FatDemo FatFileTheorems.

Section Full.
Context {D : Type} `{ReliableDevice D}.
Implicit Types (w : World D) (v : FatVolume) (f : File) (d : D).

(** ** Counting *)

(** Free clusters taken are the difference of the counts. *)
Lemma free_count_taken v (f g : Z -> Z) new :
  NoDup new -> (forall x, x ∈ new -> 2 <= x < entries v /\ f x = 0) ->
  (forall x, 2 <= x < entries v -> g x = 0 <-> f x = 0 /\ ~ (x ∈ new)) ->
  free_count v f = (free_count v g + length new)%nat.
Proof.
  intros Hnd Hnew Hg. unfold free_count. rewrite <- length_app. apply Permutation_length, NoDup_Permutation.
  - apply NoDup_filter, NoDup_seqZ.
  - apply NoDup_app. split_and!; [apply NoDup_filter, NoDup_seqZ| |done].
    intros x [Hz Hx%data_clusters_elem]%list_elem_of_filter. by apply Hg.
  - intros x. rewrite elem_of_app, !list_elem_of_filter, data_clusters_elem. split.
    + intros [Hz Hx]. destruct (decide (x ∈ new)); [by right|left]. by rewrite Hg.
    + intros [[Hz Hx]|Hx]; [|by destruct (Hnew x Hx)]. by apply Hg in Hz as [].
Qed.

Lemma grown_count v d d' s cs cs' :
  grown v d d' cs cs' -> chain (fat_entry v d) s cs -> terminated (fat_entry v d) cs ->
  chain (fat_entry v d') s cs' -> terminated (fat_entry v d') cs' ->
  (length cs + free_count v (fat_entry v d) = length cs' + free_count v (fat_entry v d'))%nat.
Proof.
  intros Hgr Hch Ht Hch' Ht'. destruct (gr_new _ _ _ _ _ Hgr) as (new & -> & Hnew).
  pose proof (chain_NoDup _ _ _ Hch') as Hnd. apply NoDup_app in Hnd as (_ & Hdis & Hndn).
  rewrite Forall_forall in Hnew. rewrite length_app.
  rewrite (free_count_taken v (fat_entry v d) (fat_entry v d') new Hndn); [lia| |].
  - intros x Hx. destruct (Hnew x Hx) as [[Hr _] Hz]. by split.
  - intros x Hx. destruct (decide (x ∈ cs ++ new)) as [Hin|Hin].
    + split; [intros Hz; by destruct (chain_not_free _ _ _ _ Hch' Ht' Hin)|]. intros [Hz Hn].
      apply elem_of_app in Hin as [Hin|Hin]; [|done]. by destruct (chain_not_free _ _ _ _ Hch Ht Hin).
    + rewrite (gr_fat _ _ _ _ _ Hgr) by (done || lia). rewrite elem_of_app in Hin. tauto.
Qed.

(** The byte behind the last cluster that the file can have. *)
Definition limit v d (cs : list Z) : Z := Z.of_nat (length cs + free_count v (fat_entry v d)) * csize v.

Lemma writing_more v d cs p k f :
  geometry v (sector_count d) -> writing v d cs p 0 f -> 0 <= k -> p + k < 2 ^ 32 -> p + k < limit v d cs ->
  writing v d cs p k f.
Proof.
  intros Hg [Hch Ht Hd Hcur Hp Hsz _ _ Hf _] Hk Hw Hl. split; try done. unfold clusters_needed.
  destruct (csize_nat _ _ Hg) as [_ Hcs].
  assert ((p + k) / csize v < Z.of_nat (length cs + free_count v (fat_entry v d)))
    by (apply Z.div_lt_upper_bound; [lia|]; unfold limit in Hl; lia).
  lia.
Qed.

(** ** The failing step *)

Lemma vol_io_err {A} v w f (m : FatVolume -> M (World D) FError A) e w' :
  w_vol w = Some v -> m v w = (Err e, w') -> vol_io m (w, f) = (Err e, (w', set_error e f)).
Proof. intros Hv Hm. unfold vol_io, on_err, zoom, with_vol. cbn [fst snd]. by rewrite Hv, Hm. Qed.

(** At the end of the last cluster, with none free. *)
Lemma write_advance_full v w f cs p k :
  geometry v (sector_count (w_dev w)) -> w_vol w = Some v ->
  chain (fat_entry v (w_dev w)) (f_start_cluster f) cs -> terminated (fat_entry v (w_dev w)) cs ->
  Forall (on_disk v (sector_count (w_dev w))) cs -> cursor_at v cs p f ->
  0 <= p < Z.of_nat (length cs) * csize v -> p mod 512 + k = 512 -> p + k = Z.of_nat (length cs) * csize v ->
  free_count v (fat_entry v (w_dev w)) = O ->
  last cs = Some (f_current_cluster f) /\
  write_advance (w, advanced k f) =
    (Err MkfsAborted, (w, set_error MkfsAborted (set_cursor (p + k) (f_current_cluster f) 0 0 f))).
Proof.
  intros Hg Hv Hch Ht Hd Hcur Hp Hk Hend Hfree. destruct (csize_nat _ _ Hg) as [_ Hcs].
  destruct (cursor_in_chain v _ cs p f Hg Hp Hcur) as (Hc & Hs & Hb & Hpos). pose proof (g_spc _ _ Hg).
  destruct (place v _ p Hg ltac:(lia)) as (_ & Hsr & Hbr & _).
  destruct (Z.ltb_spec (f_sector_in_cluster f + 1) (sectors_per_cluster v)) as [Hl|Hl].
  { destruct (advance_sector v _ cs p k f Hg Hcur Hp Hk Hl) as [_ Hlt]. lia. }
  pose proof (advance_cluster v _ cs p k f Hg Hcur Hp Hk Hl) as Hadv.
  pose proof (next_link v (w_dev w) cs f p Hch Ht Hc) as Hlink.
  destruct (cs !! S (Z.to_nat (p / csize v))) as [y|] eqn:Hy.
  { destruct Hadv as [_ Hlt]. lia. }
  destruct Hadv as [_ Hlast]. split; [done|].
  assert (on_disk v (sector_count (w_dev w)) (f_current_cluster f)) as [Hcd _] by (by eapply Forall_lookup_1 in Hd).
  assert (forall x, vol_io (fun v => ret (sectors_per_cluster v)) (w, x) = (Ret (sectors_per_cluster v), (w, x))) as Hspc
    by (intros x; by apply (vol_io_run v)).
  assert (forall x, vol_io (fun v => read_fat_entry v (f_current_cluster f)) (w, x) =
            (Ret (fat_entry v (w_dev w) (f_current_cluster f)), (w, x))) as Hfat.
  { intros x. apply (vol_io_run v); [done|]. apply read_fat_run; [done|lia]. }
  unfold write_advance, get_file. unfold bind at 1. cbn [gets fst snd].
  change (f_byte_in_sector (advanced k f)) with (f_byte_in_sector f + k). rewrite Hb, Hk. cbn [Z.ltb Z.compare Pos.compare].
  destruct (Z.ltb_spec 512 512); [lia|]. unfold bind at 1. cbn [put_file modify fst snd].
  change (f_sector_in_cluster (advanced k f)) with (f_sector_in_cluster f). rewrite u16_small by lia.
  run_with (Hspc _). unfold advanced. rewrite Hpos. cbn [set_cursor f_position f_current_cluster].
  destruct (Z.ltb_spec (f_sector_in_cluster f + 1) (sectors_per_cluster v)); [lia|].
  unfold bind at 1. cbn [put_file modify fst snd set_cursor f_position f_current_cluster]. run_with (Hfat _).
  destruct (Z.leb_spec END_OF_CHAIN (fat_entry v (w_dev w) (f_current_cluster f))); [|lia].
  destruct (find_free_run v w Hg) as [(new & _ & Hn & Hz & _)|[Hrun _]].
  { assert (new ∈ filter (fun c => fat_entry v (w_dev w) c = 0) (data_clusters v)) as Hin
      by (by apply list_elem_of_filter; rewrite data_clusters_elem).
    unfold free_count in Hfree. apply nil_length_inv in Hfree. by rewrite Hfree, elem_of_nil in Hin. }
  unfold extend_chain. unfold bind at 1 2.
  by rewrite (vol_io_err v w _ find_free_cluster MkfsAborted w Hv Hrun).
Qed.

(** ** The loop *)

Lemma splice_parts {A} o k (l : list A) m (b : list A) :
  (k <= m)%nat -> (k <= length b)%nat -> (o + m <= length l)%nat ->
  splice (o + k) (take (m - k) (drop k b)) (splice o (take k b) l) = splice o (take m b) l.
Proof.
  intros Hk Hb Hl. replace (o + k)%nat with (o + length (take k b))%nat by (rewrite length_take; lia).
  rewrite splice_next.
  - f_equal. rewrite <- (take_drop k (take m b)), take_take, Nat.min_l by done. f_equal.
    by rewrite skipn_firstn_comm.
  - rewrite !length_take, length_drop. lia.
Qed.

(** The state that a failed write leaves: the chain has taken every free
    cluster. *)
Record filled v d d' (cs cs' : list Z) f : Prop := {
  fl_chain : chain (fat_entry v d') (f_start_cluster f) cs';
  fl_term : terminated (fat_entry v d') cs';
  fl_disk : Forall (on_disk v (sector_count d)) cs';
  fl_grown : grown v d d' cs cs';
  fl_free : free_count v (fat_entry v d') = O;
  fl_length : length cs' = (length cs + free_count v (fat_entry v d))%nat;
}.

Lemma write_loop_full fuel v w f cs p buf :
  geometry v (sector_count (w_dev w)) -> w_vol w = Some v -> writing v (w_dev w) cs p 0 f -> bytes buf ->
  p + Z.of_nat (length buf) < 2 ^ 32 -> limit v (w_dev w) cs <= p + Z.of_nat (length buf) -> (length buf < fuel)%nat ->
  let m := limit v (w_dev w) cs - p in
  exists d' cs' c,
    write_loop fuel buf (w, f) = (Err MkfsAborted, (set_dev d' w, set_error MkfsAborted (after_write p m c 0 0 f)))
    /\ filled v (w_dev w) d' cs cs' f /\ last cs' = Some c
    /\ file_bytes v d' cs' = splice (Z.to_nat p) (take (Z.to_nat m) buf) (file_bytes v (w_dev w) cs').
Proof.
  revert w f cs p buf. induction fuel as [|fuel IH]; intros w f cs p buf Hg Hv Hwg Hby Hw Hlim Hf m; [lia|].
  pose proof Hwg as [Hch Ht Hd Hcur Hp Hsz _ _ _ _]. pose proof Hcur as [Hpos _]. destruct (csize_nat _ _ Hg) as [_ Hcs].
  assert (0 < m) as Hm by (unfold m, limit; nia).
  cbn [write_loop]. destruct (decide (buf = [])) as [->|Hne]; [cbn [length] in Hlim; lia|].
  destruct (chunk_bounds p buf Hne) as (Hk & Hpk & Hlk & Hld). set (k := chunk p buf) in *.
  pose proof (sector_room v (length cs) p k (proj2 Hp) Hpk) as Hroom.
  destruct (decide (p + k < limit v (w_dev w) cs)) as [Hlt|Hge].
  - pose proof (writing_more v (w_dev w) cs p k f Hg Hwg ltac:(lia) ltac:(lia) Hlt) as Hwk.
    destruct (write_step_run v w f cs p k buf Hg Hv Hwk Hby Hne ltac:(fold k; lia) Hw)
      as (d1 & d2 & g & cs2 & f2 & R1 & R2 & Hwg2 & Hgr2 & (c2 & s2 & b2 & ->) & Hb2). fold k in R1, R2, Hwg2, Hgr2, Hb2.
    rewrite Z.sub_diag in Hwg2. pose proof Hwg2 as [Hch2 Ht2 Hd2 _ _ _ _ _ _ _]. cbn [f_start_cluster set_cursor put_at set_size] in Hch2.
    pose proof (grown_count v _ d2 _ cs cs2 Hgr2 Hch Ht Hch2 Ht2) as Hcount.
    assert (limit v d2 cs2 = limit v (w_dev w) cs) as Hle by (unfold limit; by rewrite Hcount).
    run_with R1. run_with R2.
    destruct (IH (set_dev d2 w) (set_cursor (p + k) c2 s2 b2 (put_at k f)) cs2 (p + k) (drop (Z.to_nat k) buf))
      as (d' & cs' & c & R & [Hch' Ht' Hd' Hgr' Hfree' Hlen'] & Hlast & Hb); cbn [w_dev set_dev] in *;
      rewrite ?Hle, ?Hld in *; try done; try lia;
      [by rewrite (gr_count _ _ _ _ _ Hgr2)|by apply Forall_drop|].
    assert (grown v (w_dev w) d' cs cs') as Hgr by (eapply grown_trans; [by eapply chain_NoDup|done|done]).
    rewrite (gr_count _ _ _ _ _ Hgr2) in Hd'.
    exists d', cs', c. split_and!; [|split; try done; lia|done|].
    + fold k. rewrite R. f_equal. f_equal. f_equal. rewrite <- (after_write_put p k m (m - k) c 0 0 c2 s2 b2 f); try done; try lia.
      by replace (limit v (w_dev w) cs - (p + k)) with (m - k) by (unfold m; lia).
    + destruct (gr_new _ _ _ _ _ Hgr) as (r & -> & _).
      pose proof (chain_NoDup _ _ _ Hch') as Hnd. rewrite Hb, Hb2 by done.
      destruct (file_bytes_length v (w_dev w) _ Hg Hd') as [_ Hl].
      replace (Z.to_nat (p + k)) with (Z.to_nat p + Z.to_nat k)%nat by lia.
      replace (Z.to_nat (limit v (w_dev w) cs - (p + k))) with (Z.to_nat m - Z.to_nat k)%nat by (unfold m; lia).
      apply splice_parts; [unfold m; lia|lia|].
      enough (p + m <= Z.of_nat (length (cs ++ r)) * csize v) by lia. unfold m, limit. rewrite Hlen'. lia.
  - assert (free_count v (fat_entry v (w_dev w)) = O) as Hfree by (unfold limit in *; nia).
    assert (p + k = Z.of_nat (length cs) * csize v) as Hend by (unfold limit in *; lia).
    assert (m = k) as -> by (unfold m, limit in *; lia).
    assert (p mod 512 + k = 512) as H512.
    { assert ((p + k) mod 512 = 0) as Hmod.
      { rewrite Hend. unfold csize. rewrite Z.mul_assoc. apply Z.mod_mul. lia. }
      pose proof (Z.mod_pos_bound p 512 ltac:(lia)). rewrite <- Zplus_mod_idemp_l in Hmod.
      destruct (decide (p mod 512 + k = 512)); [done|]. rewrite Z.mod_small in Hmod by lia. lia. }
    destruct (write_chunk_run v w f cs p buf) as (d1 & c & X & R1 & Hc & Hset & Hb1); try done; try lia; [by eapply chain_NoDup|].
    fold (chunk p buf) k in R1, Hb1. run_with R1.
    pose proof (writing_put _ _ _ _ _ _ _ _ _ Hwg Hset) as [Hch1 Ht1 Hd1 _ _ _ _ _ _ _].
    assert (free_count v (fat_entry v d1) = O) as Hfree1.
    { rewrite <- Hfree. apply free_count_ext. intros x Hx. apply (cs_table _ _ _ _ _ Hset). lia. }
    destruct (write_advance_full v (set_dev d1 w) (put_at k f) cs p k) as [Hlast R2]; try done;
      [cbn; by rewrite (cs_count _ _ _ _ _ Hset)|].
    exists d1, cs, (f_current_cluster f). split_and!; [|split; try done|done|done].
    + unfold bind. rewrite R2. f_equal. f_equal. f_equal. unfold after_write, put_at, set_cursor, set_size. cbn.
      rewrite Hpos. destruct (Z.eqb_spec k 0); [lia|]. by rewrite orb_true_r.
    + by eapply grown_put.
    + lia.
Qed.

Lemma f_write_full_run v w f cs buf :
  geometry v (sector_count (w_dev w)) -> w_vol w = Some v -> file_ok v (w_dev w) cs f ->
  lacks f FA_WRITE = false -> f_position f < Z.of_nat (length cs) * csize v -> bytes buf ->
  f_position f + Z.of_nat (length buf) < 2 ^ 32 -> free_on_disk v (w_dev w) ->
  limit v (w_dev w) cs <= f_position f + Z.of_nat (length buf) ->
  let m := limit v (w_dev w) cs - f_position f in
  exists d' cs' c, let f' := set_error MkfsAborted (after_write (f_position f) m c 0 0 f) in
    f_write buf (w, f) = (Err MkfsAborted, (set_dev d' w, f')) /\ filled v (w_dev w) d' cs cs' f /\ last cs' = Some c
    /\ f_size f' = limit v (w_dev w) cs
    /\ contents v d' cs' f' = take (Z.to_nat (f_position f)) (contents v (w_dev w) cs f) ++ take (Z.to_nat m) buf.
Proof.
  intros Hg Hv Hok Hfl Hp Hby Hw Hfd Hlim m. pose proof Hok as [Hch Ht Hd Hsz H32 Hpos Hcur].
  destruct (csize_nat _ _ Hg) as [_ Hcs]. assert (f_position f < limit v (w_dev w) cs) as Hpl by (unfold limit; nia).
  assert (buf <> []) as Hne by (intros ->; cbn [length] in Hlim; lia).
  assert (f_current_cluster f <> 0) as Hc0.
  { destruct (cursor_in_chain v _ cs (f_position f) f Hg ltac:(lia) Hcur) as (Hc & _).
    pose proof (chain_clusters _ _ _ Hch) as Hcl. eapply Forall_lookup_1 in Hcl; [|exact Hc]. apply is_cluster_iff in Hcl. lia. }
  assert (writing v (w_dev w) cs (f_position f) 0 f) as Hwg.
  { split; try done; try lia. unfold clusters_needed. rewrite Z.add_0_r.
    assert (f_position f / csize v < Z.of_nat (length cs)) by (apply Z.div_lt_upper_bound; lia). lia. }
  destruct (write_loop_full (S (length buf)) v w f cs (f_position f) buf Hg Hv Hwg Hby Hw Hlim ltac:(lia))
    as (d' & cs' & c & R & Hfi & Hlast & Hb). fold m in R, Hb.
  assert (Z.max (f_size f) (f_position f + m) = limit v (w_dev w) cs) as Hsize by (unfold m, limit; nia).
  exists d', cs', c. split_and!; [|done|done|exact Hsize|].
  - unfold f_write, get_file. unfold bind at 1. cbn [gets fst snd]. rewrite Hfl, decide_False by done.
    rewrite (proj2 (Z.eqb_neq _ _) Hc0). unfold bind at 1, ret at 1. unfold bind. by rewrite R.
  - unfold contents at 1. cbn [set_error after_write set_cursor set_size f_size]. rewrite Hsize, Hb.
    destruct Hfi as [_ _ Hd' Hgr _ Hlen].
    assert (Z.to_nat (limit v (w_dev w) cs) = length (file_bytes v (w_dev w) cs')) as ->.
    { destruct (file_bytes_length v (w_dev w) cs' Hg Hd') as [_ Hl]. unfold limit. rewrite <- Hlen. lia. }
    destruct (file_bytes_length v (w_dev w) cs' Hg Hd') as [_ Hl].
    assert (Z.to_nat (f_position f) + length (take (Z.to_nat m) buf) = length (file_bytes v (w_dev w) cs'))%nat as Hall.
    { rewrite length_take, Nat.min_l by lia. enough (f_position f + m = Z.of_nat (length cs') * csize v) by lia.
      rewrite Hlen. unfold m, limit. lia. }
    rewrite take_ge by (rewrite length_splice; lia). unfold splice. rewrite drop_ge, app_nil_r by lia. f_equal.
    destruct (gr_new _ _ _ _ _ Hgr) as (r & -> & _). unfold contents. rewrite take_take, Nat.min_l by lia.
    destruct (file_bytes_length v (w_dev w) cs Hg Hd) as [_ Hlc]. by rewrite file_bytes_app, take_app_le by lia.
Qed.

(** ** Properties *)

(** C8: [f_write] to a file open for writing whose cursor is inside the
    allocated chain, up to a position below 2^32, of at least as many bytes as
    the chain and all free clusters have room for, fails after it has filled
    them: the file takes every free cluster and its contents end with the part
    of the buffer that fits; nothing outside its chain changes. The error does
    not say how much was written, and the cursor is left at the beginning of
    the last cluster while the position is behind it. *)
Theorem f_write_full v w f cs buf :
  geometry v (sector_count (w_dev w)) -> w_vol w = Some v -> file_ok v (w_dev w) cs f ->
  lacks f FA_WRITE = false -> f_position f < Z.of_nat (length cs) * csize v -> bytes buf ->
  f_position f + Z.of_nat (length buf) < 2 ^ 32 -> free_on_disk v (w_dev w) ->
  limit v (w_dev w) cs <= f_position f + Z.of_nat (length buf) ->
  let m := limit v (w_dev w) cs - f_position f in
  exists d' cs' f', f_write buf (w, f) = (Err MkfsAborted, (set_dev d' w, f')) /\ filled v (w_dev w) d' cs cs' f
    /\ contents v d' cs' f' = take (Z.to_nat (f_position f)) (contents v (w_dev w) cs f) ++ take (Z.to_nat m) buf
    /\ f_error_code f' = MkfsAborted /\ f_size f' = limit v (w_dev w) cs /\ f_position f' = limit v (w_dev w) cs
    /\ last cs' = Some (f_current_cluster f') /\ f_sector_in_cluster f' = 0 /\ f_byte_in_sector f' = 0.
Proof.
  intros Hg Hv Hok Hfl Hp Hby Hw Hfd Hlim m.
  destruct (f_write_full_run v w f cs buf Hg Hv Hok Hfl Hp Hby Hw Hfd Hlim) as (d' & cs' & c & R & Hfi & Hlast & Hs & Hc).
  exists d', cs'. eexists. split_and!; try done. cbn. lia.
Qed.
End Full.

(** The demonstration volume with one free cluster, the seventh. *)
Definition tight_fat : list Z := splice 24 (0 :: 0 :: 0 :: 0 :: concat (replicate 121 (le_bytes 4 CHAIN_END))) demo_fat.
Definition tight_disk : RamDisk :=
  mkRamDisk 129 (<[1 := tight_fat]> (<[2 := tight_fat]> (rd_data demo_disk))).
Definition tight_world : World RamDisk :=
  mkWorld tight_disk (Some demo_vol) 2 (47 :: replicate 255 0) (replicate 512 0) true.

Lemma tight_geometry : geometry demo_vol (sector_count (w_dev tight_world)).
Proof. exact demo_geometry. Qed.

Lemma tight_file_ok : file_ok demo_vol (w_dev tight_world) [3; 5; 4] append_file.
Proof.
  destruct append_file_ok as [_ _ H3 H4 H5 H6 H7]. split; [| |exact H3|exact H4|exact H5|exact H6|exact H7].
  - vm_compute. repeat split.
  - intros x Hx. injection Hx as <-. vm_compute. discriminate.
Qed.

Lemma f_write_full_witness : exists d' cs' f',
  f_write (replicate 1000 65) (tight_world, append_file) = (Err MkfsAborted, (set_dev d' tight_world, f'))
  /\ contents demo_vol d' cs' f' = take 1300 (demo_sector 0 ++ demo_sector 1 ++ demo_sector 2) ++ replicate 748 65.
Proof.
  destruct (f_write_full demo_vol tight_world append_file [3; 5; 4] (replicate 1000 65) tight_geometry eq_refl tight_file_ok eq_refl)
    as (d' & cs' & f' & R & _ & Hc & _).
  - vm_compute. reflexivity.
  - apply demo_buffer.
  - vm_compute. reflexivity.
  - intros c Hc _. apply demo_on_disk. exact Hc.
  - vm_compute. discriminate.
  - exists d', cs', f'. split; [exact R|]. rewrite Hc. vm_compute. reflexivity.
Defined.

(** When a cluster is free again, the next write goes to the beginning of the
    last cluster: it replaces bytes at 1536 instead of adding some at 2048. *)
Example write_after_full :
  let '(_, (w, f)) := f_write (replicate 1000 65) (tight_world, append_file) in
  let '(_, w) := with_vol (fun v => write_fat_entry v 7 0) w in
  let '(r, (w, f)) := f_write [66; 66; 66] (w, f) in
  r = Ret 3 /\ f_position f = 2051 /\ f_size f = 2051 /\ take 4 (cluster_data demo_vol (w_dev w) 6) = [66; 66; 66; 65]
  /\ fat_entry demo_vol (w_dev w) 6 = CHAIN_END.
Proof. vm_compute. by repeat split. Qed.
