(* ===== verification/Ata.v ===== *)
(** The ATA driver ([src/src/hal/ata.rs]): sector reads and writes by
    programmed input and output on an IDE channel. *)

From Stdlib Require Import ZArith Lia.
From stdpp Require Import base numbers list gmap.
From S2P Require Import Prelude Machine.

#[local] Open Scope Z_scope.

(** Offsets from the channel's base, status bits and commands. *)
Definition DATA : Z := 0.
Definition ERROR : Z := 1.
Definition SECTOR_COUNT : Z := 2.
Definition LBA_LO : Z := 3.
Definition LBA_MID : Z := 4.
Definition LBA_HI : Z := 5.
Definition DRIVE : Z := 6.
Definition CMD_STATUS : Z := 7.

Definition STAT_BSY : Z := 128.
Definition STAT_DRDY : Z := 64.
Definition STAT_DRQ : Z := 8.
Definition STAT_ERR : Z := 1.

Definition CMD_IDENTIFY : Z := 236.
Definition CMD_READ : Z := 32.
Definition CMD_WRITE : Z := 48.
Definition LBA_BIT : Z := 64.

Record AtaChannel : Type := mkAta { base : Z; drive_select : Z; sector_count : Z }.

Definition AtaChannel_new (base : Z) (master : bool) : AtaChannel :=
  mkAta base (if master then 160 else 176) 0.

(** [st & mask != 0]. *)
Definition has (st mask : Z) : bool := negb (Z.land st mask =? 0).

Section Ata.
Context {D : Type} `{Machine D}.
(** The bound on the reads of a polling loop, and the channel. *)
Context (fuel : nat) (ch : AtaChannel).

Abbreviation AM := (M D Empty_set).

(** [loop { let st = inb(..); if done(st) { return st } }]. *)
Fixpoint poll (n : nat) (stop : Z -> bool) : AM Z :=
  match n with
  | O => hang
  | S n =>
      let! st := inb_m (base ch + CMD_STATUS) in
      if stop st then ret st else poll n stop
  end.

Definition wait_bsy : AM Z := poll fuel (fun st => negb (has st STAT_BSY)).
Definition wait_drq : AM Z := poll fuel (fun st => has st STAT_DRQ || has st STAT_ERR).
Definition wait_for_drq : AM Z :=
  poll fuel (fun st => negb (has st STAT_BSY) && (has st STAT_DRQ || has st STAT_ERR)).

Definition delay : AM unit :=
  do! inb_m (base ch + 518) in
  do! inb_m (base ch + 518) in
  do! inb_m (base ch + 518) in
  do! inb_m (base ch + 518) in
  ret tt.

Definition lba_write (lba count : Z) : AM unit :=
  do! outb_m (base ch + SECTOR_COUNT) count in
  do! outb_m (base ch + LBA_LO) (Z.land lba 255) in
  do! outb_m (base ch + LBA_MID) (Z.land (Z.shiftr lba 8) 255) in
  do! outb_m (base ch + LBA_HI) (Z.land (Z.shiftr lba 16) 255) in
  outb_m (base ch + DRIVE)
    (Z.lor (Z.lor (drive_select ch) LBA_BIT) (Z.land (Z.shiftr lba 24) 15)).

(** [n] words of the data register. *)
Fixpoint read_words (n : nat) : AM (list Z) :=
  match n with
  | O => ret []
  | S n =>
      let! w := inw_m (base ch + DATA) in
      let! ws := read_words n in
      ret (w :: ws)
  end.

(** The same into byte pairs. *)
Fixpoint read_chunks (n : nat) : AM (list Z) :=
  match n with
  | O => ret []
  | S n =>
      let! w := inw_m (base ch + DATA) in
      let! bs := read_chunks n in
      ret (Z.land w 255 :: Z.land (Z.shiftr w 8) 255 :: bs)
  end.

Fixpoint write_chunks (buf : list Z) : AM unit :=
  match buf with
  | a :: b :: buf =>
      do! outw_m (base ch + DATA) (Z.lor a (Z.shiftl b 8)) in
      write_chunks buf
  | _ => ret tt
  end.

(** A drive that is not ready is reset before the command. *)
Definition reset_unless_ready (st : Z) : AM unit :=
  if negb (has st STAT_DRDY) then
    do! outb_m (base ch + 518) 4 in
    do! delay in
    do! outb_m (base ch + 518) 0 in
    do! delay in
    do! wait_bsy in
    ret tt
  else ret tt.

(** [None] is the result [false]; the buffer is then as it was. *)
Definition ata_read_sector (lba : Z) : AM (option (list Z)) :=
  let! st := wait_bsy in
  do! reset_unless_ready st in
  do! lba_write lba 1 in
  do! outb_m (base ch + CMD_STATUS) CMD_READ in
  let! st := wait_for_drq in
  if has st STAT_ERR then
    do! inb_m (base ch + 1) in ret None
  else
    let! buf := read_chunks 256 in
    do! inb_m (base ch + CMD_STATUS) in
    ret (Some buf).

Definition ata_write_sector (lba : Z) (buf : list Z) : AM bool :=
  let! st := wait_bsy in
  do! reset_unless_ready st in
  do! lba_write lba 1 in
  do! outb_m (base ch + CMD_STATUS) CMD_WRITE in
  do! delay in
  let! st := wait_bsy in
  if has st STAT_ERR then ret false
  else
    let! st := wait_drq in
    if has st STAT_ERR then ret false
    else
      do! write_chunks buf in
      let! st := wait_bsy in
      do! (if has st STAT_ERR then do! inb_m (base ch + 1) in ret tt else ret tt) in
      ret true.

(** The result and the channel after it. *)
Definition probe : AM (bool * AtaChannel) :=
  do! outb_m (base ch + DRIVE) (Z.lor (drive_select ch) LBA_BIT) in
  do! delay in
  let! st := inb_m (base ch + CMD_STATUS) in
  if st =? 255 then ret (false, ch)
  else
    do! outb_m (base ch + SECTOR_COUNT) 0 in
    do! outb_m (base ch + LBA_LO) 0 in
    do! outb_m (base ch + LBA_MID) 0 in
    do! outb_m (base ch + LBA_HI) 0 in
    do! outb_m (base ch + CMD_STATUS) CMD_IDENTIFY in
    do! delay in
    let! st := wait_bsy in
    if has st STAT_ERR then ret (false, ch)
    else if negb (has st STAT_DRQ) then ret (false, ch)
    else
      let! ident := read_words 256 in
      do! inb_m (base ch + CMD_STATUS) in
      let low := byte_at ident 60 in
      let high := byte_at ident 61 in
      ret (true, mkAta (base ch) (drive_select ch) (Z.lor low (u64 (Z.shiftl high 16)))).

Definition is_present : bool := 0 <? sector_count ch.
End Ata.
