(* ===== verification/AtaSpec.v ===== *)
(** The ATA driver against the protocol of an ATA drive: on every drive that
    follows the protocol, whatever the time it stays busy, the driver returns,
    and sector reads and writes are those of a RAM disk. *)

From Stdlib Require Import ZArith Lia.
From stdpp Require Import base numbers list gmap.
From S2P Require Import Prelude Machine Block Ata.

#[local] Open Scope Z_scope.

(** ** A drive as the protocol sees it *)

Inductive phase : Type :=
| Idle
| DataIn (ws : list Z)
| DataOut (lba : Z) (got : list Z).

(** The task file's registers are named by their offsets; [ident] are the words
    of the identification. *)
Record drive : Type := mkDrive {
  capacity : Z;
  medium : Z -> list Z;
  ident : list Z;
  regs : Z -> Z;
  at_phase : phase;
  failed : bool;
}.

(** Sixteen-bit words and their bytes. *)
Fixpoint to_words (l : list Z) : list Z :=
  match l with
  | a :: b :: l => a + 256 * b :: to_words l
  | _ => []
  end.
Definition to_bytes (ws : list Z) : list Z := concat ((fun w => [w mod 256; w / 256]) <$> ws).

Definition set_reg (r v : Z) (x : drive) : drive :=
  mkDrive (capacity x) (medium x) (ident x) (fun r' => if r' =? r then v else regs x r') (at_phase x) (failed x).
Definition set_phase (p : phase) (err : bool) (x : drive) : drive :=
  mkDrive (capacity x) (medium x) (ident x) (regs x) p err.
Definition store_sector (lba : Z) (b : list Z) (x : drive) : drive :=
  mkDrive (capacity x) (fun l => if l =? lba then b else medium x l) (ident x) (regs x) Idle false.

(** The 28-bit address in the registers. *)
Definition reg_lba (r : Z -> Z) : Z := r 3 + 256 * r 4 + 65536 * r 5 + 16777216 * (r 6 mod 16).

(** A command: reads and writes of one sector in LBA mode, inside the drive;
    identification; everything else is refused. *)
Definition command (c : Z) (x : drive) : drive :=
  let lba := reg_lba (regs x) in
  if c =? CMD_IDENTIFY then set_phase (DataIn (ident x)) false x
  else if (lba <? capacity x) && (regs x 2 =? 1) && Z.testbit (regs x 6) 6 then
    if c =? CMD_READ then set_phase (DataIn (to_words (medium x lba))) false x
    else if c =? CMD_WRITE then set_phase (DataOut lba []) false x
    else set_phase Idle true x
  else set_phase Idle true x.

Definition data_in (ws : list Z) (x : drive) : drive :=
  set_phase (match ws with [] => Idle | _ => DataIn ws end) (failed x) x.

Definition data_out (lba : Z) (got : list Z) (w : Z) (x : drive) : drive :=
  if (S (length got) =? 256)%nat then store_sector lba (to_bytes (got ++ [w])) x
  else set_phase (DataOut lba (got ++ [w])) (failed x) x.

(** The status of a drive that is not busy. *)
Definition status_of (x : drive) (st : Z) : Prop :=
  has st STAT_BSY = false /\ has st STAT_DRDY = true
  /\ has st STAT_DRQ = negb (match at_phase x with Idle => true | _ => false end)
  /\ has st STAT_ERR = failed x.

(** The protocol at the ports of a channel. A busy drive shows its busy bit,
    and becomes ready within [patience] reads of its status. *)
Class AtaDrive (D : Type) `{Machine D} (b : Z) := {
  view : D -> drive;
  busy : D -> nat;
  patience : nat;
  ata_busy d : (busy d <= patience)%nat;
  ata_status d : view (inb (b + 7) d).2 = view d /\
    ((0 < busy d)%nat /\ has (inb (b + 7) d).1 STAT_BSY = true /\ (busy (inb (b + 7) d).2 < busy d)%nat
     \/ busy d = O /\ busy (inb (b + 7) d).2 = O /\ status_of (view d) (inb (b + 7) d).1);
  ata_alt d : view (inb (b + 518) d).2 = view d /\ (busy (inb (b + 518) d).2 <= busy d)%nat;
  ata_error d : view (inb (b + 1) d).2 = view d /\ (busy (inb (b + 1) d).2 <= busy d)%nat;
  ata_reg d r v : busy d = O -> at_phase (view d) = Idle -> 2 <= r <= 6 ->
    view (outb (b + r) v d) = set_reg r v (view d) /\ busy (outb (b + r) v d) = O;
  ata_command d c : busy d = O -> at_phase (view d) = Idle ->
    view (outb (b + 7) c d) = command c (view d);
  ata_in d w ws : busy d = O -> at_phase (view d) = DataIn (w :: ws) ->
    (inw b d).1 = w /\ view (inw b d).2 = data_in ws (view d) /\ busy (inw b d).2 = O;
  ata_out d w lba got : busy d = O -> at_phase (view d) = DataOut lba got ->
    view (outw b w d) = data_out lba got w (view d)
    /\ ((S (length got) < 256)%nat -> busy (outw b w d) = O);
}.

(** ** A simulated drive: busy for two status reads after each command *)

Record SimAta : Type := mkSimAta { sim : drive; wait : nat }.

Definition SIM_BASE : Z := 368.

Definition sim_status (s : SimAta) : Z :=
  match Nat.min (wait s) 2 with
  | S _ => 128
  | O => 64 + (match at_phase (sim s) with Idle => 0 | _ => 8 end) + (if failed (sim s) then 1 else 0)
  end.

#[export] Instance SimAta_Machine : Machine SimAta := {
  inb port s :=
    if port =? SIM_BASE + 7 then (sim_status s, mkSimAta (sim s) (Nat.pred (Nat.min (wait s) 2))) else (0, s);
  outb port v s :=
    if port =? SIM_BASE + 7 then mkSimAta (command v (sim s)) 2
    else if (SIM_BASE + 2 <=? port) && (port <=? SIM_BASE + 6)
    then mkSimAta (set_reg (port - SIM_BASE) v (sim s)) (wait s) else s;
  inw port s :=
    match at_phase (sim s) with
    | DataIn (w :: ws) => (w, mkSimAta (data_in ws (sim s)) (wait s))
    | _ => (0, s)
    end;
  outw port w s :=
    match at_phase (sim s) with
    | DataOut lba got =>
        mkSimAta (data_out lba got w (sim s)) (if (S (length got) =? 256)%nat then 2%nat else wait s)
    | _ => s
    end;
  rdtsc s := (0, s);
}.

#[export, refine] Instance SimAta_drive : AtaDrive SimAta SIM_BASE := {
  view := sim;
  busy s := Nat.min (wait s) 2;
  patience := 2;
}.
Proof.
  - intros s. lia.
  - intros s. cbn [inb SimAta_Machine]. rewrite Z.eqb_refl. cbn [fst snd sim wait]. split; [done|].
    unfold sim_status. destruct (Nat.min (wait s) 2) as [|k] eqn:Hk; [right|left].
    + split_and!; [done|done|]. unfold status_of. destruct (at_phase (sim s)), (failed (sim s)); by vm_compute.
    + split_and!; [lia|done|cbn [wait]; lia].
  - intros s. split; [done|]. by change (Nat.min (wait s) 2 <= Nat.min (wait s) 2)%nat.
  - intros s. split; [done|]. by change (Nat.min (wait s) 2 <= Nat.min (wait s) 2)%nat.
  - intros s r v Hb Hp Hr. cbn [outb SimAta_Machine].
    destruct (Z.eqb_spec (SIM_BASE + r) (SIM_BASE + 7)); [lia|].
    destruct (Z.leb_spec (SIM_BASE + 2) (SIM_BASE + r)), (Z.leb_spec (SIM_BASE + r) (SIM_BASE + 6)); try lia.
    cbn [andb sim wait]. split; [|done]. by replace (SIM_BASE + r - SIM_BASE) with r by lia.
  - intros s c Hb Hp. cbn [outb SimAta_Machine]. by rewrite Z.eqb_refl.
  - intros s w ws Hb Hp. cbn [inw SimAta_Machine]. by rewrite Hp.
  - intros s w lba got Hb Hp. cbn [outw SimAta_Machine]. rewrite Hp. cbn [sim wait]. split; [done|].
    intros Hl. destruct (Nat.eqb_spec (S (length got)) 256); [lia|done].
Defined.

(** A drive of four sectors; every word of sector [n] is [n]. *)
Definition sim_sector (n : Z) : list Z := concat (replicate 256 [n; 0]).
Definition sim_drive : SimAta :=
  mkSimAta (mkDrive 4 sim_sector (<[60%nat := 4]> (replicate 256 0)) (fun _ => 0) Idle true) 1.
Definition sim_ram : RamDisk :=
  mkRamDisk 4 (list_to_map ((fun n => (n, sim_sector n)) <$> [0; 1; 2; 3])).

(** ** Requests, served by the driver and by a RAM disk *)

Inductive request : Type :=
| ReadReq (lba : Z)
| WriteReq (lba : Z) (buf : list Z).

Inductive reply : Type :=
| Sector (o : option (list Z))
| Done (ok : bool).

Fixpoint ata_serve {D} `{Machine D} (fuel : nat) (ch : AtaChannel) (rs : list request) :
    M D Empty_set (list reply) :=
  match rs with
  | [] => ret []
  | ReadReq lba :: rs =>
      let! o := ata_read_sector fuel ch lba in
      let! l := ata_serve fuel ch rs in ret (Sector o :: l)
  | WriteReq lba buf :: rs =>
      let! ok := ata_write_sector fuel ch lba buf in
      let! l := ata_serve fuel ch rs in ret (Done ok :: l)
  end.

Fixpoint ram_serve (r : RamDisk) (rs : list request) : list reply * RamDisk :=
  match rs with
  | [] => ([], r)
  | ReadReq lba :: rs =>
      let '(l, r') := ram_serve r rs in (Sector (read_sector r lba) :: l, r')
  | WriteReq lba buf :: rs =>
      let '(ok, r1) := write_sector r lba buf in
      let '(l, r') := ram_serve r1 rs in (Done ok :: l, r')
  end.

(** Addresses of the 28 bits that the driver sends; whole sectors. *)
Definition request_ok (q : request) : Prop :=
  match q with
  | ReadReq lba => 0 <= lba < 2 ^ 28
  | WriteReq lba buf => 0 <= lba < 2 ^ 28 /\ sector buf
  end.

(** Requests with any address of 32 bits, as the callers make them, and the
    request that is sent: 28 bits of the address. *)
Definition request_u32 (q : request) : Prop :=
  match q with
  | ReadReq lba => 0 <= lba < 2 ^ 32
  | WriteReq lba buf => 0 <= lba < 2 ^ 32 /\ sector buf
  end.

Definition sent_as (q : request) : request :=
  match q with
  | ReadReq lba => ReadReq (lba mod 2 ^ 28)
  | WriteReq lba buf => WriteReq (lba mod 2 ^ 28) buf
  end.

(** The drive holds what the RAM disk holds. *)
Definition holds_disk (x : drive) (r : RamDisk) : Prop :=
  at_phase x = Idle /\ capacity x = rd_count r /\
  forall l, 0 <= l < capacity x -> read_sector r l = Some (medium x l).

(** ** Words *)

Lemma to_words_bytes l n :
  bytes l -> length l = (2 * n)%nat -> length (to_words l) = n /\ to_bytes (to_words l) = l.
Proof.
  revert l. induction n as [|n IH]; intros l Hb Hl; [by apply nil_length_inv in Hl as ->|].
  destruct l as [|a [|c l]]; [done|cbn in Hl; lia|]. apply Forall_cons in Hb as [Ha [Hc Hb]%Forall_cons].
  destruct (IH l Hb) as [IHl IHb]; [cbn in Hl; lia|]. unfold is_byte in *. cbn [to_words length]. split; [lia|].
  unfold to_bytes in *. cbn [fmap list_fmap concat app]. rewrite IHb.
  rewrite (Z.mul_comm 256), Z_mod_plus, Z.div_add, Z.mod_small, Z.div_small by lia. done.
Qed.

Lemma word_low_high w : Z.land w 255 = w mod 256 /\ (0 <= w < 65536 -> Z.land (Z.shiftr w 8) 255 = w / 256).
Proof.
  split; [apply (Z.land_ones w 8); lia|]. intros Hw.
  rewrite (Z.land_ones _ 8), Z.shiftr_div_pow2 by lia. change (2 ^ 8) with 256. apply Z.mod_small.
  split; [apply Z.div_pos; lia|apply Z.div_lt_upper_bound; lia].
Qed.

Lemma to_words_range l : bytes l -> Forall (fun w => 0 <= w < 65536) (to_words l).
Proof.
  assert (forall n l, (length l <= n)%nat -> bytes l -> Forall (fun w => 0 <= w < 65536) (to_words l)) as Hind.
  { intros n. induction n as [|n IH]; intros k Hn Hb; [by apply Nat.le_0_r, nil_length_inv in Hn as ->|].
    destruct k as [|a [|c k]]; try constructor; apply Forall_cons in Hb as [Ha [Hc Hb]%Forall_cons];
      unfold is_byte in *; [lia|]. apply IH; [cbn in Hn; lia|done]. }
  by apply (Hind (length l)).
Qed.

(** ** The driver's steps *)

Section Driver.
Context {D : Type} `{AtaDrive D b} (fuel : nat) (Hfuel : (patience < fuel)%nat).
Context (ch : AtaChannel) (Hbase : base ch = b).
Implicit Types (d : D).

(** A poll that does not stop while the drive is busy, and stops on the status
    the drive then has. *)
Lemma poll_run n stop d :
  (busy d < n)%nat -> (forall st, has st STAT_BSY = true -> stop st = false) ->
  (forall st, status_of (view d) st -> stop st = true) ->
  exists st d', poll ch n stop d = (Ret st, d') /\ view d' = view d /\ busy d' = O /\ status_of (view d) st.
Proof.
  revert d. induction n as [|n IH]; intros d Hn Hbsy Hst; [lia|]. cbn [poll].
  unfold bind, inb_m. rewrite Hbase. destruct (ata_status d) as [Hv Hcase]. unfold CMD_STATUS.
  destruct (inb (b + 7) d) as [st d1]. cbn [fst snd] in *.
  destruct Hcase as [(Hb & Hs & Hlt)|(Hb & Hb1 & Hs)].
  - rewrite (Hbsy st Hs). rewrite <- Hv in Hst.
    destruct (IH d1) as (st' & d' & Hrun & Hv' & Hb' & Hs'); [lia|done|done|].
    exists st', d'. rewrite Hrun, Hv'. rewrite Hv in *. by split_and!.
  - rewrite (Hst st Hs). by exists st, d1.
Qed.

Lemma wait_bsy_run d :
  exists st d', wait_bsy fuel ch d = (Ret st, d') /\ view d' = view d /\ busy d' = O /\ status_of (view d) st.
Proof.
  apply poll_run.
  - pose proof (ata_busy d). lia.
  - by intros st ->.
  - by intros st (-> & _).
Qed.

Lemma wait_for_drq_run d :
  at_phase (view d) <> Idle \/ failed (view d) = true ->
  exists st d', wait_for_drq fuel ch d = (Ret st, d') /\ view d' = view d /\ busy d' = O /\ status_of (view d) st.
Proof.
  intros Hp. apply poll_run.
  - pose proof (ata_busy d). lia.
  - by intros st ->.
  - intros st (-> & _ & -> & ->). cbn [negb andb]. destruct Hp as [Hp| ->]; [|apply orb_true_r].
    by destruct (at_phase (view d)).
Qed.

(** Without the busy check: on a drive that is not busy. *)
Lemma wait_drq_run d :
  busy d = O -> at_phase (view d) <> Idle ->
  exists st d', wait_drq fuel ch d = (Ret st, d') /\ view d' = view d /\ busy d' = O /\ status_of (view d) st.
Proof.
  intros Hb Hp. unfold wait_drq. destruct fuel as [|n]; [lia|]. cbn [poll]. unfold bind, inb_m. rewrite Hbase.
  destruct (ata_status d) as [Hv Hcase]. unfold CMD_STATUS. destruct (inb (b + 7) d) as [st d1]. cbn [fst snd] in *.
  destruct Hcase as [(? & _)|(_ & Hb1 & Hs)]; [lia|]. exists st, d1.
  destruct Hs as (? & ? & Hdrq & ?). rewrite Hdrq. destruct (at_phase (view d)) eqn:Hph; [done|..];
    by (split; [|split; [done|split; [done|by split_and!; rewrite ?Hph]]]).
Qed.

Lemma delay_run d : exists d', delay ch d = (Ret tt, d') /\ view d' = view d /\ (busy d' <= busy d)%nat.
Proof.
  unfold delay, bind, inb_m. rewrite Hbase.
  destruct (ata_alt d) as [Hv1 Hb1]. destruct (inb (b + 518) d) as [v1 d1]. cbn [fst snd] in *.
  destruct (ata_alt d1) as [Hv2 Hb2]. destruct (inb (b + 518) d1) as [v2 d2]. cbn [fst snd] in *.
  destruct (ata_alt d2) as [Hv3 Hb3]. destruct (inb (b + 518) d2) as [v3 d3]. cbn [fst snd] in *.
  destruct (ata_alt d3) as [Hv4 Hb4]. destruct (inb (b + 518) d3) as [v4 d4]. cbn [fst snd] in *.
  exists d4. split; [done|]. split; [congruence|lia].
Qed.

(** A drive of the protocol is ready: there is no reset. *)
Lemma no_reset st x d : status_of x st -> reset_unless_ready fuel ch st d = (Ret tt, d).
Proof. intros (_ & Hr & _). unfold reset_unless_ready. by rewrite Hr. Qed.

Lemma reg_run d r v :
  busy d = O -> at_phase (view d) = Idle -> 2 <= r <= 6 ->
  exists d', outb_m (E := Empty_set) (base ch + r) v d = (Ret tt, d') /\ view d' = set_reg r v (view d) /\ busy d' = O.
Proof.
  intros Hb Hp Hr. destruct (ata_reg d r v Hb Hp Hr) as [Hv Hb']. eexists. unfold outb_m. rewrite Hbase. by split_and!.
Qed.

(** The address registers after [lba_write]; the rest of the drive is the
    same. *)
Lemma lba_write_run d lba :
  busy d = O -> at_phase (view d) = Idle -> 0 <= lba < 2 ^ 32 -> drive_select ch = 160 \/ drive_select ch = 176 ->
  exists d', lba_write ch lba 1 d = (Ret tt, d') /\ busy d' = O /\ at_phase (view d') = Idle
    /\ capacity (view d') = capacity (view d) /\ medium (view d') = medium (view d)
    /\ ident (view d') = ident (view d)
    /\ reg_lba (regs (view d')) = lba mod 2 ^ 28 /\ regs (view d') 2 = 1 /\ Z.testbit (regs (view d') 6) 6 = true.
Proof.
  intros Hb Hp Hl Hds. unfold lba_write.
  destruct (reg_run d 2 1 Hb Hp ltac:(lia)) as (d1 & R1 & V1 & B1). run_with R1.
  assert (at_phase (view d1) = Idle) as P1 by (by rewrite V1).
  destruct (reg_run d1 3 (Z.land lba 255) B1 P1 ltac:(lia)) as (d2 & R2 & V2 & B2). run_with R2.
  assert (at_phase (view d2) = Idle) as P2 by (by rewrite V2).
  destruct (reg_run d2 4 (Z.land (Z.shiftr lba 8) 255) B2 P2 ltac:(lia)) as (d3 & R3 & V3 & B3). run_with R3.
  assert (at_phase (view d3) = Idle) as P3 by (by rewrite V3).
  destruct (reg_run d3 5 (Z.land (Z.shiftr lba 16) 255) B3 P3 ltac:(lia)) as (d4 & R4 & V4 & B4). run_with R4.
  assert (at_phase (view d4) = Idle) as P4 by (by rewrite V4).
  set (sel := Z.lor (Z.lor (drive_select ch) LBA_BIT) (Z.land (Z.shiftr lba 24) 15)).
  destruct (reg_run d4 6 sel B4 P4 ltac:(lia)) as (d5 & R5 & V5 & B5).
  exists d5. rewrite V5, V4, V3, V2, V1. split_and!; try done.
  - unfold reg_lba. cbn [set_reg regs Z.eqb Pos.eqb].
    rewrite !(Z.land_ones _ 8), !Z.shiftr_div_pow2 by lia.
    assert (sel mod 16 = lba / 16777216 mod 16) as ->.
    { unfold sel. rewrite (Z.land_ones _ 4), Z.shiftr_div_pow2 by lia. change (2 ^ 4) with 16.
      change (2 ^ 24) with 16777216. pose proof (Z.mod_pos_bound (lba / 16777216) 16).
      destruct Hds as [-> | ->]; (rewrite (lor_add _ _ 4); [|lia|lia|done]);
        rewrite Z.add_comm; rewrite <- Z.add_mod_idemp_r by lia; cbn [Z.lor LBA_BIT];
        rewrite Z.add_0_r; by rewrite Z.mod_mod by lia. }
    change (2 ^ 8) with 256. change (2 ^ 16) with 65536. change (2 ^ 28) with 268435456. Z.div_mod_to_equations. lia.
  - cbn [set_reg regs Z.eqb Pos.eqb]. unfold sel. rewrite !Z.lor_spec. by destruct Hds as [-> | ->].
Qed.

(** ** Transfers *)

Lemma read_chunks_run ws d :
  busy d = O -> at_phase (view d) = DataIn ws -> ws <> [] -> Forall (fun w => 0 <= w < 65536) ws ->
  exists d', read_chunks ch (length ws) d = (Ret (to_bytes ws), d') /\ busy d' = O
    /\ view d' = set_phase Idle (failed (view d)) (view d).
Proof.
  revert d. induction ws as [|w ws IH]; intros d Hb Hp Hne Hr; [done|].
  apply Forall_cons in Hr as [Hw Hr]. cbn [length read_chunks]. unfold bind at 1, inw_m.
  unfold DATA. rewrite Z.add_0_r, Hbase.
  destruct (ata_in d w ws Hb Hp) as (Hv & Hview & Hb'). destruct (inw b d) as [v d1]. cbn [fst snd] in *.
  subst v. destruct (word_low_high w) as [Hlow Hhigh]. rewrite Hlow, Hhigh by done.
  destruct ws as [|w' ws].
  - exists d1. cbn. split_and!; [done|done|]. by rewrite Hview.
  - assert (at_phase (view d1) = DataIn (w' :: ws)) as Hp1 by (by rewrite Hview).
    destruct (IH d1 Hb' Hp1 ltac:(done) Hr) as (d2 & Hrun & Hb2 & Hv2). run_with Hrun.
    exists d2. split_and!; [done|done|]. by rewrite Hv2, Hview.
Qed.

Lemma read_words_run ws d :
  busy d = O -> at_phase (view d) = DataIn ws -> ws <> [] ->
  exists d', read_words ch (length ws) d = (Ret ws, d') /\ busy d' = O
    /\ view d' = set_phase Idle (failed (view d)) (view d).
Proof.
  revert d. induction ws as [|w ws IH]; intros d Hb Hp Hne; [done|].
  cbn [length read_words]. unfold bind at 1, inw_m. unfold DATA. rewrite Z.add_0_r, Hbase.
  destruct (ata_in d w ws Hb Hp) as (Hv & Hview & Hb'). destruct (inw b d) as [v d1]. cbn [fst snd] in *.
  subst v. destruct ws as [|w' ws].
  - exists d1. cbn. split_and!; [done|done|]. by rewrite Hview.
  - assert (at_phase (view d1) = DataIn (w' :: ws)) as Hp1 by (by rewrite Hview).
    destruct (IH d1 Hb' Hp1 ltac:(done)) as (d2 & Hrun & Hb2 & Hv2). run_with Hrun.
    exists d2. split_and!; [done|done|]. by rewrite Hv2, Hview.
Qed.

Lemma write_chunks_run n buf d lba got :
  busy d = O -> at_phase (view d) = DataOut lba got -> bytes buf -> length buf = (2 * n)%nat ->
  (0 < n)%nat -> (length got + n)%nat = 256%nat ->
  exists d', write_chunks ch buf d = (Ret tt, d')
    /\ view d' = store_sector lba (to_bytes (got ++ to_words buf)) (view d).
Proof.
  revert buf d got. induction n as [|n IH]; intros buf d got Hb Hp Hby Hl Hn Hsum; [lia|].
  destruct buf as [|x [|y buf]]; [done|cbn in Hl; lia|].
  apply Forall_cons in Hby as [Hx [Hy Hby]%Forall_cons]. cbn [write_chunks].
  unfold bind at 1, outw_m. unfold DATA. rewrite Z.add_0_r, Hbase.
  assert (Z.lor x (Z.shiftl y 8) = x + 256 * y) as ->.
  { unfold is_byte in *. rewrite Z.lor_comm, Z.shiftl_mul_pow2 by lia.
    rewrite (lor_add _ _ 8); [lia|lia|lia|]. apply Z.mod_mul. lia. }
  destruct (ata_out d (x + 256 * y) lba got Hb Hp) as [Hv Hbz]. set (d1 := outw b (x + 256 * y) d) in *.
  cbn [to_words]. unfold data_out in Hv. destruct (decide (n = O)) as [->|Hne].
  - assert (buf = []) as -> by (apply nil_length_inv; cbn in Hl; lia).
    exists d1. split; [done|]. rewrite Hv. by replace (S (length got) =? 256)%nat with true
      by (symmetry; apply Nat.eqb_eq; lia).
  - destruct (Nat.eqb_spec (S (length got)) 256); [lia|].
    destruct (IH buf d1 (got ++ [x + 256 * y])) as (d2 & Hrun & Hv2).
    + apply Hbz. lia.
    + by rewrite Hv.
    + done.
    + cbn in Hl. lia.
    + lia.
    + rewrite length_app. cbn. lia.
    + exists d2. split; [done|]. rewrite Hv2, Hv, <- app_assoc. done.
Qed.

(** ** Whole requests *)

Definition idle d : Prop := at_phase (view d) = Idle.

Definition same_medium d d' : Prop :=
  capacity (view d') = capacity (view d) /\ medium (view d') = medium (view d).

Lemma issue_run d lba c :
  idle d -> busy d = O -> 0 <= lba < 2 ^ 32 -> drive_select ch = 160 \/ drive_select ch = 176 ->
  c = CMD_READ \/ c = CMD_WRITE ->
  exists d', (do! lba_write ch lba 1 in outb_m (E := Empty_set) (base ch + CMD_STATUS) c) d = (Ret tt, d')
    /\ same_medium d d' /\
    let l := lba mod 2 ^ 28 in
    if l <? capacity (view d)
    then failed (view d') = false /\
      at_phase (view d') = if c =? CMD_READ then DataIn (to_words (medium (view d) l)) else DataOut l []
    else failed (view d') = true /\ at_phase (view d') = Idle.
Proof.
  intros Hp Hb Hl Hds Hc.
  destruct (lba_write_run d lba Hb Hp Hl Hds) as (d1 & R1 & B1 & P1 & C1 & M1 & _ & L1 & N1 & T1).
  run_with R1. unfold outb_m, CMD_STATUS. rewrite Hbase. eexists. split; [reflexivity|].
  unfold same_medium. rewrite (ata_command d1 c B1 P1). unfold command. rewrite L1, N1, T1, C1, M1.
  cbv zeta. set (l := lba mod 2 ^ 28).
  destruct Hc as [-> | ->]; cbn [Z.eqb CMD_IDENTIFY CMD_READ CMD_WRITE Pos.eqb];
    destruct (l <? capacity (view d)); cbn [set_phase andb capacity medium failed at_phase];
    by split_and!.
Qed.

(** A device returning several outcomes of a sector read. *)
Lemma read_run d lba :
  idle d -> 0 <= lba < 2 ^ 32 -> drive_select ch = 160 \/ drive_select ch = 176 ->
  (forall l, 0 <= l < capacity (view d) -> sector (medium (view d) l)) ->
  exists d', ata_read_sector fuel ch lba d
      = (Ret (if lba mod 2 ^ 28 <? capacity (view d) then Some (medium (view d) (lba mod 2 ^ 28)) else None), d')
    /\ idle d' /\ same_medium d d'.
Proof.
  intros Hp Hl Hds Hsec. unfold ata_read_sector, idle, same_medium in *.
  destruct (wait_bsy_run d) as (st & d0 & R0 & V0 & B0 & S0). run_with R0.
  run_with (no_reset st _ d0 S0). rewrite <- V0 in Hp.
  destruct (issue_run d0 lba CMD_READ Hp B0 Hl Hds ltac:(by left)) as (d1 & R1 & [C1 M1] & Hcase).
  rewrite <- (bind_assoc (lba_write ch lba 1)). run_with R1. rewrite V0 in C1, M1, Hcase. cbv zeta in Hcase.
  set (l := lba mod 2 ^ 28) in *.
  assert (0 <= l) as Hl0 by (apply Z.mod_pos_bound; lia).
  assert (at_phase (view d1) <> Idle \/ failed (view d1) = true) as Hdone.
  { destruct (l <? capacity (view d)); [left|right; by destruct Hcase].
    destruct Hcase as [_ ->]. done. }
  destruct (wait_for_drq_run d1 Hdone) as (st2 & d2 & R2 & V2 & B2 & S2). run_with R2.
  destruct S2 as (_ & _ & _ & Herr). rewrite Herr.
  destruct (Z.ltb_spec l (capacity (view d))) as [Hin|Hout]; destruct Hcase as [Hf Hph]; rewrite Hf.
  - destruct (Hsec l ltac:(lia)) as [Hlen Hby]. unfold SECTOR_SIZE in Hlen.
    destruct (to_words_bytes (medium (view d) l) 256 Hby ltac:(lia)) as [Hwl Hwb].
    cbn [Z.eqb CMD_READ Pos.eqb] in Hph. rewrite <- V2 in Hph.
    destruct (read_chunks_run (to_words (medium (view d) l)) d2 B2 Hph) as (d3 & R3 & B3 & V3).
    { intros Hnil. by rewrite Hnil in Hwl. }
    { by apply to_words_range. }
    rewrite Hwl, Hwb in R3. run_with R3. unfold bind, inb_m, CMD_STATUS. rewrite Hbase.
    destruct (ata_status d3) as [V4 _]. destruct (inb (b + 7) d3) as [v d4]. cbn [fst snd] in *.
    exists d4. split; [done|]. rewrite V4, V3, V2. by split_and!.
  - unfold bind, inb_m. rewrite Hbase. destruct (ata_error d2) as [V4 _]. destruct (inb (b + 1) d2) as [v d4].
    cbn [fst snd] in *. exists d4. split; [done|]. rewrite V4, V2. by split_and!.
Qed.

Lemma write_run d lba buf :
  idle d -> 0 <= lba < 2 ^ 32 -> drive_select ch = 160 \/ drive_select ch = 176 -> sector buf ->
  let l := lba mod 2 ^ 28 in
  exists d', ata_write_sector fuel ch lba buf d = (Ret (l <? capacity (view d)), d') /\ idle d'
    /\ capacity (view d') = capacity (view d)
    /\ medium (view d') = if l <? capacity (view d) then (fun x => if x =? l then buf else medium (view d) x)
                          else medium (view d).
Proof.
  intros Hp Hl Hds [Hlen Hby] l. unfold ata_write_sector, idle, SECTOR_SIZE in *.
  destruct (wait_bsy_run d) as (st & d0 & R0 & V0 & B0 & S0). run_with R0.
  run_with (no_reset st _ d0 S0). rewrite <- V0 in Hp.
  destruct (issue_run d0 lba CMD_WRITE Hp B0 Hl Hds ltac:(by right)) as (d1 & R1 & [C1 M1] & Hcase).
  rewrite <- (bind_assoc (lba_write ch lba 1)). run_with R1. rewrite V0 in C1, M1, Hcase. cbv zeta in Hcase.
  fold l in Hcase. destruct (delay_run d1) as (d2 & R2 & V2 & B2). run_with R2.
  destruct (wait_bsy_run d2) as (st3 & d3 & R3 & V3 & B3 & S3). run_with R3.
  destruct S3 as (_ & _ & _ & Herr). rewrite Herr, V2.
  destruct (l <? capacity (view d)); destruct Hcase as [Hf Hph]; rewrite Hf.
  - cbn [Z.eqb CMD_WRITE CMD_READ Pos.eqb] in Hph. rewrite <- V2, <- V3 in Hph, Hf.
    destruct (wait_drq_run d3 B3) as (st4 & d4 & R4 & V4 & B4 & S4); [by rewrite Hph|]. run_with R4.
    destruct S4 as (_ & _ & _ & Herr4). rewrite Herr4, Hf. rewrite <- V4 in Hph.
    destruct (write_chunks_run 256 buf d4 l [] B4 Hph Hby ltac:(lia) ltac:(lia) ltac:(done)) as (d5 & R5 & V5).
    run_with R5. destruct (wait_bsy_run d5) as (st6 & d6 & R6 & V6 & B6 & S6). run_with R6.
    destruct S6 as (_ & _ & _ & Herr6). rewrite Herr6, V5. cbn [store_sector failed].
    unfold bind at 1, ret at 1. exists d6. split; [done|]. rewrite V6, V5.
    cbn [app store_sector at_phase capacity medium]. rewrite (proj2 (to_words_bytes buf 256 Hby ltac:(lia))).
    rewrite V4, V3, V2. split_and!; [done|done|]. by rewrite M1.
  - exists d3. rewrite V3, V2. by split_and!.
Qed.

Lemma serve_run rs d r :
  drive_select ch = 160 \/ drive_select ch = 176 -> holds_disk (view d) r -> Forall request_u32 rs ->
  exists d', ata_serve fuel ch rs d = (Ret (fst (ram_serve r (sent_as <$> rs))), d')
    /\ holds_disk (view d') (snd (ram_serve r (sent_as <$> rs))).
Proof.
  intros Hds Hd Hrs. revert d r Hd. induction Hrs as [|q rs Hq _ IH]; intros d r (Hp & Hc & Hm).
  { by exists d. }
  assert (forall l, 0 <= l < capacity (view d) -> sector (medium (view d) l)) as Hsec.
  { intros l Hl. by apply (read_valid r l), Hm. }
  destruct q as [lba|lba buf]; cbn [ata_serve ram_serve fmap list_fmap sent_as].
  - cbn in Hq. destruct (read_run d lba Hp ltac:(lia) Hds Hsec) as (d1 & R1 & P1 & C1 & M1).
    pose proof (Z.mod_pos_bound lba (2 ^ 28) ltac:(lia)) as Hlba. set (l0 := lba mod 2 ^ 28) in *. run_with R1.
    destruct (IH d1 r) as (d2 & R2 & Hd2).
    { split_and!; [done|congruence|]. by rewrite C1, M1. }
    run_with R2. unfold fmap in *. destruct (ram_serve r (list_fmap _ _ sent_as rs)) as [l r']. exists d2. split; [|done]. unfold ret. cbn [fst].
    do 4 f_equal. destruct (Z.ltb_spec l0 (capacity (view d))); [symmetry; apply Hm; lia|].
    cbn. unfold rd_in_range. destruct (Z.ltb_spec l0 (rd_count r)); [lia|]. by rewrite andb_false_r.
  - destruct Hq as [Hl Hb]. destruct (write_run d lba buf Hp ltac:(lia) Hds Hb) as (d1 & R1 & P1 & C1 & M1).
    pose proof (Z.mod_pos_bound lba (2 ^ 28) ltac:(lia)) as Hlba. cbv zeta in R1, M1. set (l0 := lba mod 2 ^ 28) in *. run_with R1.
    assert (write_sector r l0 buf
      = if l0 <? capacity (view d) then (true, mkRamDisk (rd_count r) (<[l0 := buf]> (rd_data r))) else (false, r))
      as Hw.
    { cbn. unfold rd_in_range. rewrite Hc. by destruct (Z.leb_spec 0 l0); [|lia]. }
    destruct (Z.ltb_spec l0 (capacity (view d))) as [Hin|Hout]; rewrite Hw.
    + set (r1 := mkRamDisk _ _) in *. destruct (IH d1 r1) as (d2 & R2 & Hd2).
      { split_and!; [done|by rewrite C1, Hc|]. rewrite C1, M1. intros l Hlr.
        replace r1 with (snd (write_sector r l0 buf)) by (by rewrite Hw).
        destruct (Z.eqb_spec l l0) as [->|Hne]; [apply read_written; [by cbn; lia|done]|].
        rewrite read_other by done. by apply Hm. }
      run_with R2. unfold fmap in *. destruct (ram_serve r1 (list_fmap _ _ sent_as rs)). by exists d2.
    + destruct (IH d1 r) as (d2 & R2 & Hd2).
      { split_and!; [done|by rewrite C1, Hc|]. by rewrite C1, M1. }
      run_with R2. unfold fmap in *. destruct (ram_serve r (list_fmap _ _ sent_as rs)). by exists d2.
Qed.

Lemma status_run d :
  exists st d', inb_m (E := Empty_set) (base ch + CMD_STATUS) d = (Ret st, d') /\ view d' = view d
    /\ (busy d = O -> busy d' = O /\ status_of (view d) st).
Proof.
  unfold inb_m, CMD_STATUS. rewrite Hbase. destruct (ata_status d) as [V Hst].
  destruct (inb (b + 7) d) as [st d']. exists st, d'. split_and!; [done|done|]. intros Hb.
  destruct Hst as [(? & _)|(_ & ? & ?)]; [lia|done].
Qed.

Lemma command_run d c :
  busy d = O -> at_phase (view d) = Idle ->
  exists d', outb_m (E := Empty_set) (base ch + CMD_STATUS) c d = (Ret tt, d') /\ view d' = command c (view d).
Proof.
  intros Hb Hp. unfold outb_m, CMD_STATUS. rewrite Hbase. eexists. split; [reflexivity|]. by apply ata_command.
Qed.

Lemma probe_run d :
  idle d -> busy d = O -> length (ident (view d)) = 256%nat ->
  (forall i w, ident (view d) !! i = Some w -> 0 <= w < 65536) ->
  exists d', probe fuel ch d
      = (Ret (true, mkAta (base ch) (drive_select ch)
                      (byte_at (ident (view d)) 60 + 65536 * byte_at (ident (view d)) 61)), d')
    /\ idle d' /\ same_medium d d'.
Proof.
  intros Hp Hb Hlen Hw. unfold probe, idle, same_medium in *.
  destruct (reg_run d 6 (Z.lor (drive_select ch) LBA_BIT) Hb Hp ltac:(lia)) as (d1 & R1 & V1 & B1). run_with R1.
  destruct (delay_run d1) as (d2 & R2 & V2 & B2). run_with R2.
  destruct (status_run d2) as (st & d3 & R3 & V3 & Hst). run_with R3. destruct Hst as [B3 Hs]; [lia|].
  assert ((st =? 255) = false) as -> by (destruct Hs as [Hbsy _]; destruct (Z.eqb_spec st 255) as [->|]; done).
  assert (at_phase (view d3) = Idle) as P3 by (by rewrite V3, V2, V1).
  destruct (reg_run d3 2 0 B3 P3 ltac:(lia)) as (d4 & R4 & V4 & B4). run_with R4.
  assert (at_phase (view d4) = Idle) as P4 by (by rewrite V4).
  destruct (reg_run d4 3 0 B4 P4 ltac:(lia)) as (d5 & R5 & V5 & B5). run_with R5.
  assert (at_phase (view d5) = Idle) as P5 by (by rewrite V5).
  destruct (reg_run d5 4 0 B5 P5 ltac:(lia)) as (d6 & R6 & V6 & B6). run_with R6.
  assert (at_phase (view d6) = Idle) as P6 by (by rewrite V6).
  destruct (reg_run d6 5 0 B6 P6 ltac:(lia)) as (d7 & R7 & V7 & B7). run_with R7.
  assert (at_phase (view d7) = Idle) as P7 by (by rewrite V7).
  destruct (command_run d7 CMD_IDENTIFY B7 P7) as (d8 & R8 & V8). run_with R8. unfold command in V8. cbn [Z.eqb CMD_IDENTIFY Pos.eqb] in V8.
  assert (ident (view d7) = ident (view d)) as HI by (by rewrite V7, V6, V5, V4, V3, V2, V1).
  assert (capacity (view d7) = capacity (view d) /\ medium (view d7) = medium (view d)) as HCM
    by (by rewrite V7, V6, V5, V4, V3, V2, V1).
  destruct (delay_run d8) as (d9 & R9 & V9 & _). run_with R9.
  destruct (wait_bsy_run d9) as (st2 & d10 & R10 & V10 & B10 & S10). run_with R10.
  destruct S10 as (_ & _ & Hdrq & Herr). rewrite Herr, Hdrq. rewrite V9, V8. cbn [failed set_phase at_phase negb].
  assert (at_phase (view d10) = DataIn (ident (view d7))) as P10 by (by rewrite V10, V9, V8).
  destruct (read_words_run (ident (view d7)) d10 B10 P10) as (d11 & R11 & B11 & V11).
  { rewrite HI. by intros Hnil; rewrite Hnil in Hlen. }
  rewrite HI, Hlen in R11. run_with R11.
  destruct (status_run d11) as (st3 & d12 & R12 & V12 & _). run_with R12.
  exists d12. rewrite V12, V11, V10, V9, V8. cbn [set_phase at_phase capacity medium].
  split_and!; [|done|by destruct HCM..]. unfold ret. do 4 f_equal.
  assert (forall i, 0 <= byte_at (ident (view d)) i < 65536) as Hbyte.
  { intros i. unfold byte_at. destruct (ident (view d) !! i) as [w|] eqn:Hi; [by apply (Hw i)|cbn; lia]. }
  pose proof (Hbyte 60%nat). pose proof (Hbyte 61%nat).
  rewrite Z.shiftl_mul_pow2 by lia. change (2 ^ 16) with 65536. rewrite u64_small by lia.
  rewrite Z.lor_comm, (lor_add _ _ 16); [lia|lia|lia|]. apply Z.mod_mul. lia.
Qed.
End Driver.

(** ** Properties *)

(** C13: On every drive that follows the protocol, however long it stays busy, the
    driver serves any sequence of sector reads and writes and returns, with the
    replies that a RAM disk with the same contents gives, refusals of sectors
    behind the end included; afterwards the drive holds what the RAM disk holds.
    The sector is that of the low 28 bits of the 32-bit address: an address of
    2^28 or more is served as the one below, not refused. *)
Theorem ata_refines_ramdisk {D : Type} `{AtaDrive D b} fuel ch d r rs :
  (patience < fuel)%nat -> base ch = b -> drive_select ch = 160 \/ drive_select ch = 176 ->
  holds_disk (view d) r -> Forall request_u32 rs ->
  exists d', ata_serve fuel ch rs d = (Ret (fst (ram_serve r (sent_as <$> rs))), d')
    /\ holds_disk (view d') (snd (ram_serve r (sent_as <$> rs))).
Proof. intros Hf Hb. by apply serve_run. Qed.

Lemma sector_dec buf : bool_decide (length buf = SECTOR_SIZE) && forallb (fun b => (0 <=? b) && (b <? 256)) buf = true ->
  sector buf.
Proof.
  intros Hb. apply andb_true_iff in Hb as [Hl%bool_decide_eq_true Hb]. split; [done|].
  apply Forall_forall. intros x Hx. apply list_elem_of_In in Hx. rewrite forallb_forall in Hb.
  specialize (Hb x Hx). unfold is_byte. lia.
Qed.

Lemma sim_holds : holds_disk (view sim_drive) sim_ram.
Proof.
  split_and!; [done|done|]. intros l Hl. cbn in Hl.
  assert (l ∈ [0; 1; 2; 3]) as Hin by (rewrite !elem_of_cons; lia).
  clear Hl. revert l Hin. apply Forall_forall. repeat constructor; vm_compute; reflexivity.
Qed.

Lemma ata_refines_ramdisk_witness : exists d',
  ata_serve 3 (AtaChannel_new 368 true)
    [WriteReq 2 (replicate 512 77); ReadReq 2; ReadReq 268435459; ReadReq 9] sim_drive
  = (Ret [Done true; Sector (Some (replicate 512 77)); Sector (Some (sim_sector 3)); Sector None], d').
Proof.
  destruct (ata_refines_ramdisk (b := SIM_BASE) 3 (AtaChannel_new 368 true) sim_drive sim_ram
              [WriteReq 2 (replicate 512 77); ReadReq 2; ReadReq 268435459; ReadReq 9]) as (d' & Hrun & _).
  - cbn. lia.
  - reflexivity.
  - by left.
  - apply sim_holds.
  - constructor; [split; [lia|by apply sector_dec]|]. repeat constructor; cbn; lia.
  - exists d'. rewrite Hrun. vm_compute. reflexivity.
Defined.

(** Only 28 bits of an address are sent: sector [lba] and sector [lba + 2^28]
    are the same. *)
Theorem ata_address_wraps {D : Type} `{AtaDrive D b} fuel ch d lba :
  (patience < fuel)%nat -> base ch = b -> drive_select ch = 160 \/ drive_select ch = 176 ->
  at_phase (view d) = Idle -> (forall l, 0 <= l < capacity (view d) -> sector (medium (view d) l)) ->
  0 <= lba < capacity (view d) -> capacity (view d) <= 2 ^ 28 ->
  exists d', ata_read_sector fuel ch (lba + 2 ^ 28) d = (Ret (Some (medium (view d) lba)), d').
Proof.
  intros Hf Hb Hds Hp Hsec Hl Hc.
  destruct (read_run fuel Hf ch Hb d (lba + 2 ^ 28) Hp ltac:(lia) Hds Hsec) as (d' & Hrun & _).
  exists d'. rewrite Hrun.
  assert ((lba + 2 ^ 28) mod 2 ^ 28 = lba) as -> by (symmetry; apply (Z.mod_unique_pos _ _ 1); lia).
  by destruct (Z.ltb_spec lba (capacity (view d))); [|lia].
Qed.

Lemma ata_address_wraps_witness : exists d',
  ata_read_sector 3 (AtaChannel_new 368 true) 268435457 sim_drive = (Ret (Some (sim_sector 1)), d').
Proof.
  destruct (ata_address_wraps (b := SIM_BASE) 3 (AtaChannel_new 368 true) sim_drive 1) as (d' & Hrun).
  - cbn. lia.
  - reflexivity.
  - by left.
  - reflexivity.
  - intros l Hl. apply (read_valid sim_ram l). by apply sim_holds.
  - cbn. lia.
  - cbn. lia.
  - exists d'. exact Hrun.
Defined.

(** Probing an idle drive of the protocol finds it, with the number of sectors
    that words 60 and 61 of its identification give. *)
Theorem ata_probe_correct {D : Type} `{AtaDrive D b} fuel ch d :
  (patience < fuel)%nat -> base ch = b -> at_phase (view d) = Idle -> busy d = O ->
  length (ident (view d)) = 256%nat -> (forall i w, ident (view d) !! i = Some w -> 0 <= w < 65536) ->
  exists d', probe fuel ch d
      = (Ret (true, mkAta (base ch) (drive_select ch)
                      (byte_at (ident (view d)) 60 + 65536 * byte_at (ident (view d)) 61)), d')
    /\ at_phase (view d') = Idle /\ capacity (view d') = capacity (view d)
    /\ medium (view d') = medium (view d).
Proof. intros Hf Hb Hp Hbz Hl Hw. by apply probe_run. Qed.

Lemma ata_probe_correct_witness : exists d',
  probe 3 (AtaChannel_new 368 true) (mkSimAta (sim sim_drive) 0) = (Ret (true, mkAta 368 160 4), d').
Proof.
  destruct (ata_probe_correct (b := SIM_BASE) 3 (AtaChannel_new 368 true) (mkSimAta (sim sim_drive) 0))
    as (d' & Hrun & _).
  - cbn. lia.
  - reflexivity.
  - reflexivity.
  - reflexivity.
  - reflexivity.
  - assert (Forall (fun w => 0 <= w < 65536) (ident (sim sim_drive))) as Hw.
    { apply Forall_insert; [apply Forall_replicate; lia|lia]. }
    intros i w Hi. exact (Forall_lookup_1 _ _ _ _ Hw Hi).
  - exists d'. exact Hrun.
Defined.
