(* ===== verification/AtaDisk.v ===== *)
(** The file system over the ATA driver: a drive behind its ports is a reliable
    device, so what is proved of files holds of the sectors of the drive. *)

From Stdlib Require Import ZArith Lia.
From stdpp Require Import base numbers list gmap.
From S2P Require Import Prelude Machine Block Fat32 Fat32Dir Fat32File FatSpec FatChain FatCluster FatFileSpec FatWrite FatDemo FatFileTheorems Ata AtaSpec.

#[local] Open Scope Z_scope.

(** ** The driver as a block device *)

(** Between two requests: idle, of at most 2^28 sectors of 512 bytes. *)
Definition drive_ready (x : drive) : Prop :=
  at_phase x = Idle /\ capacity x <= 2 ^ 28 /\ forall l, 0 <= l < capacity x -> sector (medium x l).

(** A channel that is polled long enough, and the machine after its last
    write. A read starts from that state too: what it changes are registers,
    which no reply depends on ([serve_threaded]). *)
Record AtaDisk (D : Type) {M : Machine D} (b : Z) {A : AtaDrive D b} : Type := mkAtaDisk {
  ad_channel : AtaChannel;
  ad_fuel : nat;
  ad_state : D;
  ad_polls : (patience < ad_fuel)%nat;
  ad_base : base ad_channel = b;
  ad_select : drive_select ad_channel = 160 \/ drive_select ad_channel = 176;
  ad_ready : drive_ready (view ad_state);
}.

Arguments mkAtaDisk {D M b A}.
Arguments ad_channel {D M b A}.
Arguments ad_fuel {D M b A}.
Arguments ad_state {D M b A}.

(** A list of 512 bytes: the type of the source's buffers. *)
Definition sectorb (buf : list Z) : bool :=
  bool_decide (length buf = SECTOR_SIZE) && forallb (fun x => (0 <=? x) && (x <? 256)) buf.

Lemma sectorb_spec buf : sectorb buf = true <-> sector buf.
Proof.
  split; [apply sector_dec|]. intros [Hl Hb]. unfold sectorb. rewrite bool_decide_eq_true_2 by done.
  apply forallb_forall. intros x Hx%list_elem_of_In. pose proof (proj1 (Forall_forall _ _) Hb x Hx) as Hxb.
  unfold is_byte in Hxb. lia.
Qed.

Section Device.
Context {D : Type} `{AtaDrive D b}.
Implicit Types (a : AtaDisk D b).

Definition drive_of a : drive := view (ad_state a).

(** Sectors that the drive has. *)
Definition in_drive a (lba : Z) : bool := (0 <=? lba) && (lba <? capacity (drive_of a)).

Lemma in_drive_spec a lba : in_drive a lba = true <-> 0 <= lba < capacity (drive_of a).
Proof. unfold in_drive. lia. Qed.

Definition run_read a (lba : Z) : outcome Empty_set (option (list Z)) * D :=
  ata_read_sector (ad_fuel a) (ad_channel a) lba (ad_state a).
Definition run_write a (lba : Z) (buf : list Z) : outcome Empty_set bool * D :=
  ata_write_sector (ad_fuel a) (ad_channel a) lba buf (ad_state a).

Lemma run_read_run a lba :
  in_drive a lba = true -> exists d', run_read a lba = (Ret (Some (medium (drive_of a) lba)), d')
    /\ drive_ready (view d') /\ same_medium (ad_state a) d'.
Proof.
  intros Hin%in_drive_spec. destruct a as [ch fuel d Hp Hb Hs (Hi & Hc & Hm)]. unfold run_read, drive_of in *.
  cbn [ad_fuel ad_channel ad_state] in *.
  destruct (read_run fuel Hp ch Hb d lba Hi ltac:(lia) Hs Hm) as (d' & R & Hi' & Hsm). exists d'.
  rewrite Z.mod_small in R by lia. destruct (Z.ltb_spec lba (capacity (view d))); [|lia]. split_and!; [done| |done].
  destruct Hsm as [Hc' Hm']. unfold drive_ready. by rewrite Hc', Hm'.
Qed.

Lemma run_write_run a lba buf :
  in_drive a lba && sectorb buf = true -> exists d', run_write a lba buf = (Ret true, d') /\ drive_ready (view d')
    /\ capacity (view d') = capacity (drive_of a)
    /\ medium (view d') = fun x => if x =? lba then buf else medium (drive_of a) x.
Proof.
  intros [Hin%in_drive_spec Hbuf%sectorb_spec]%andb_true_iff. destruct a as [ch fuel d Hp Hb Hs (Hi & Hc & Hm)].
  unfold run_write, drive_of in *. cbn [ad_fuel ad_channel ad_state] in *.
  destruct (write_run fuel Hp ch Hb d lba buf Hi ltac:(lia) Hs Hbuf) as (d' & R & Hi' & Hc' & Hm'). exists d'.
  rewrite Z.mod_small in R, Hm' by lia. destruct (Z.ltb_spec lba (capacity (view d))); [|lia]. split_and!; try done.
  unfold drive_ready. rewrite Hc', Hm'. split_and!; try done. intros l Hl. destruct (l =? lba); [done|by apply Hm].
Qed.

Lemma written_ready a lba buf : in_drive a lba && sectorb buf = true -> drive_ready (view (run_write a lba buf).2).
Proof. intros Hin. destruct (run_write_run a lba buf Hin) as (d' & -> & Hr & _). exact Hr. Qed.

(** The drive after a write; addresses behind its end are refused. (The driver
    itself sends 28 bits of any address, [ata_address_wraps].) *)
Definition disk_write a (lba : Z) (buf : list Z) : bool * AtaDisk D b :=
  match bool_dec (in_drive a lba && sectorb buf) true with
  | left Hin =>
      (match (run_write a lba buf).1 with Ret ok => ok | _ => false end,
       mkAtaDisk (ad_channel a) (ad_fuel a) (run_write a lba buf).2 (ad_polls _ _ a) (ad_base _ _ a) (ad_select _ _ a)
         (written_ready a lba buf Hin))
  | right _ => (false, a)
  end.

Definition disk_read a (lba : Z) : option (list Z) :=
  if in_drive a lba then match (run_read a lba).1 with Ret r => r | _ => None end else None.

#[export] Instance AtaDisk_device : BlockDevice (AtaDisk D b) := {
  read_sector := disk_read;
  write_sector := disk_write;
  sector_count a := capacity (drive_of a);
}.

(** Reads and writes are those of the drive's medium. *)
Lemma read_medium a lba : in_drive a lba = true -> read_sector a lba = Some (medium (drive_of a) lba).
Proof.
  intros Hin. cbn. unfold disk_read. rewrite Hin. by destruct (run_read_run a lba Hin) as (d' & -> & _).
Qed.

Lemma read_outside a lba : in_drive a lba = false -> read_sector a lba = None.
Proof. intros Hin. cbn. unfold disk_read. by rewrite Hin. Qed.

Lemma write_medium a lba buf :
  in_drive a lba && sectorb buf = true ->
  (write_sector a lba buf).1 = true /\ capacity (drive_of (write_sector a lba buf).2) = capacity (drive_of a)
  /\ medium (drive_of (write_sector a lba buf).2) = fun x => if x =? lba then buf else medium (drive_of a) x.
Proof.
  intros Hin. cbn. unfold disk_write. destruct (bool_dec _ _) as [Hin'|]; [|done].
  destruct (run_write_run a lba buf Hin) as (d' & R & _ & Hc & Hm). cbn [fst snd].
  assert ((run_write a lba buf).1 = Ret true) as -> by (by rewrite R).
  unfold drive_of at 1 3. cbn [ad_state]. assert ((run_write a lba buf).2 = d') as -> by (by rewrite R). done.
Qed.

Lemma write_outside a lba buf : in_drive a lba && sectorb buf = false -> write_sector a lba buf = (false, a).
Proof. intros Hin. cbn. unfold disk_write. destruct (bool_dec _ _); [congruence|done]. Qed.

#[export] Instance AtaDisk_reliable : ReliableDevice (AtaDisk D b).
Proof.
  split.
  - intros a lba buf Hr. destruct (in_drive a lba) eqn:Hin; [|by rewrite read_outside in Hr].
    rewrite read_medium in Hr by done. injection Hr as <-. destruct (ad_ready _ _ a) as (_ & _ & Hm).
    by apply Hm, in_drive_spec.
  - intros a lba Hin%in_drive_spec. rewrite read_medium by done. by eexists.
  - intros a lba buf Hin%in_drive_spec Hb%sectorb_spec. by apply write_medium; rewrite Hin, Hb.
  - intros a lba buf. destruct (in_drive a lba && sectorb buf) eqn:Hin; [|by rewrite write_outside].
    by apply write_medium.
  - intros a lba buf Hin%in_drive_spec Hb%sectorb_spec.
    destruct (write_medium a lba buf) as (_ & Hc & Hm); [by rewrite Hin, Hb|].
    rewrite read_medium, Hm; [by rewrite Z.eqb_refl|]. apply in_drive_spec. rewrite Hc. by apply in_drive_spec.
  - intros a lba lba' buf Hne. destruct (in_drive a lba && sectorb buf) eqn:Hin; [|by rewrite write_outside].
    destruct (write_medium a lba buf Hin) as (_ & Hc & Hm).
    assert (in_drive (write_sector a lba buf).2 lba' = in_drive a lba') as Heq by (unfold in_drive; by rewrite Hc).
    destruct (in_drive a lba') eqn:Hin'.
    + rewrite !read_medium, Hm by done. destruct (Z.eqb_spec lba' lba); [lia|done].
    + by rewrite !read_outside.
Qed.

(** ** Reads leave no trace *)

(** The replies to a sequence of requests. *)
Fixpoint disk_serve a (rs : list request) : list reply * AtaDisk D b :=
  match rs with
  | [] => ([], a)
  | ReadReq lba :: rs => let '(l, a') := disk_serve a rs in (Sector (read_sector a lba) :: l, a')
  | WriteReq lba buf :: rs =>
      let '(ok, a1) := write_sector a lba buf in
      let '(l, a') := disk_serve a1 rs in (Done ok :: l, a')
  end.

(** The driver, run request after request on one machine, gives the replies of
    the device, in which every read starts from the state of the last write. *)
Lemma serve_threaded a rs d :
  Forall request_ok rs -> drive_ready (view d) -> same_medium (ad_state a) d ->
  exists d', ata_serve (ad_fuel a) (ad_channel a) rs d = (Ret (disk_serve a rs).1, d')
    /\ same_medium (ad_state (disk_serve a rs).2) d'.
Proof.
  intros Hrs. revert a d. induction Hrs as [|q rs Hq _ IH]; intros a d Hr Hsm; [by exists d|].
  pose proof Hr as (Hi & Hc & Hs). pose proof Hsm as [Hsc Hmm].
  destruct q as [lba|lba buf]; cbn [ata_serve disk_serve]; cbn in Hq.
  - destruct (read_run (ad_fuel a) (ad_polls _ _ a) (ad_channel a) (ad_base _ _ a) d lba Hi ltac:(lia) (ad_select _ _ a) Hs)
      as (d1 & R1 & Hi1 & Hc1 & Hm1). rewrite Z.mod_small in R1 by lia. run_with R1.
    destruct (IH a d1) as (d2 & R2 & Hsm2).
    { unfold drive_ready. by rewrite Hc1, Hm1. }
    { unfold same_medium. by rewrite Hc1, Hm1. }
    run_with R2. exists d2. assert (read_sector a lba = if lba <? capacity (view d) then Some (medium (view d) lba) else None) as ->.
    { destruct (in_drive a lba) eqn:Hin.
      - rewrite read_medium by done. apply in_drive_spec in Hin. unfold drive_of in *.
        rewrite Hsc, Hmm. by destruct (Z.ltb_spec lba (capacity (view (ad_state a)))); [|lia].
      - rewrite read_outside by done. unfold in_drive, drive_of in Hin. rewrite Hsc.
        by destruct (Z.ltb_spec lba (capacity (view (ad_state a)))); [lia|]. }
    by destruct (disk_serve a rs).
  - destruct Hq as [Hl Hb].
    destruct (write_run (ad_fuel a) (ad_polls _ _ a) (ad_channel a) (ad_base _ _ a) d lba buf Hi ltac:(lia) (ad_select _ _ a) Hb)
      as (d1 & R1 & Hi1 & Hc1 & Hm1). rewrite Z.mod_small in R1, Hm1 by lia. run_with R1.
    destruct (in_drive a lba && sectorb buf) eqn:Hin.
    + destruct (write_medium a lba buf Hin) as (Hok & Hcw & Hmw). apply andb_true_iff in Hin as [Hin%in_drive_spec _].
      destruct (write_sector a lba buf) as [ok a1] eqn:Hw. cbn [fst snd] in *. subst ok. unfold drive_of in *.
      destruct (Z.ltb_spec lba (capacity (view d))); [|lia].
      assert (ad_fuel a1 = ad_fuel a /\ ad_channel a1 = ad_channel a) as [Hf Hch].
      { cbn in Hw. unfold disk_write in Hw. destruct (bool_dec _ _); by injection Hw as _ <-. }
      destruct (IH a1 d1) as (d2 & R2 & Hsm2).
      { unfold drive_ready. rewrite Hc1, Hm1. split_and!; [done|done|]. intros l Hlr. destruct (l =? lba); [done|by apply Hs]. }
      { unfold same_medium. rewrite Hc1, Hm1, Hcw, Hmw, Hmm. done. }
      rewrite Hf, Hch in R2. run_with R2. exists d2. by destruct (disk_serve a1 rs).
    + rewrite write_outside by done. apply sectorb_spec in Hb. rewrite Hb, andb_true_r in Hin.
      unfold in_drive, drive_of in Hin. destruct (Z.ltb_spec lba (capacity (view d))); [lia|].
      destruct (IH a d1) as (d2 & R2 & Hsm2).
      { unfold drive_ready. by rewrite Hc1, Hm1. }
      { unfold same_medium. by rewrite Hc1, Hm1. }
      run_with R2. exists d2. by destruct (disk_serve a rs).
Qed.

(** ** Files on the drive's sectors *)

Definition cluster_on v (x : drive) (c : Z) : list Z :=
  concat ((fun i => medium x (cluster_lba v c + Z.of_nat i)) <$> seq 0 (Z.to_nat (sectors_per_cluster v))).

Definition file_on v (x : drive) (cs : list Z) f : list Z :=
  take (Z.to_nat (f_size f)) (concat (cluster_on v x <$> cs)).

Lemma sectors_medium n a lba :
  0 <= lba -> lba + Z.of_nat n <= capacity (drive_of a) ->
  sectors n a lba = concat ((fun i => medium (drive_of a) (lba + Z.of_nat i)) <$> seq 0 n).
Proof.
  revert lba. induction n as [|n IH]; intros lba Hl Hn; [done|]. cbn [sectors seq fmap list_fmap concat].
  rewrite read_medium by (apply in_drive_spec; lia). rewrite Z.add_0_r, IH by lia. cbn [default]. unfold id. f_equal.
  rewrite <- seq_shift, <- list_fmap_compose. f_equal. apply list_fmap_ext. intros i x _. cbn. f_equal. lia.
Qed.

Lemma cluster_medium v a c :
  geometry v (capacity (drive_of a)) -> on_disk v (capacity (drive_of a)) c ->
  cluster_data v a c = cluster_on v (drive_of a) c.
Proof.
  intros Hg Hd. destruct (cluster_lba_range _ _ _ Hg Hd). pose proof Hg as []. apply sectors_medium; lia.
Qed.

Lemma bytes_medium v a cs :
  geometry v (capacity (drive_of a)) -> Forall (on_disk v (capacity (drive_of a))) cs ->
  file_bytes v a cs = concat (cluster_on v (drive_of a) <$> cs).
Proof.
  intros Hg Hd. unfold file_bytes. f_equal. apply list_fmap_ext. intros i c Hc. apply cluster_medium; [done|].
  by eapply Forall_lookup_1.
Qed.

Lemma contents_medium v a cs f :
  geometry v (capacity (drive_of a)) -> file_ok v a cs f -> contents v a cs f = file_on v (drive_of a) cs f.
Proof. intros Hg Hok. unfold contents, file_on. rewrite bytes_medium; [done..|apply (fo_disk _ _ _ _ Hok)]. Qed.
End Device.

(** ** Properties *)

(** C14: Writing a file through the ATA driver to a drive that follows the
    protocol puts the bytes into the drive's sectors. The file is open for
    writing, its cursor is inside the allocated chain or it has no cluster yet
    ([writable_at]), the position reached is below 2^32 and there are enough
    free clusters. Then the sectors of the file's clusters hold the old
    contents with the buffer in its place, those of every other cluster are as
    they were, and reading the file afterwards, at any place and through the
    driver, gives the bytes that the sectors hold. *)
Theorem file_on_ata {D : Type} `{AtaDrive D b} v (w : World (AtaDisk D b)) f cs buf :
  geometry v (capacity (drive_of (w_dev w))) -> w_vol w = Some v -> file_ok v (w_dev w) cs f ->
  lacks f FA_WRITE = false -> writable_at v cs (f_position f) -> bytes buf ->
  f_position f + Z.of_nat (length buf) < 2 ^ 32 -> free_on_disk v (w_dev w) ->
  clusters_needed v (length cs) (f_position f) (Z.of_nat (length buf)) <=
    Z.of_nat (free_count v (fat_entry v (w_dev w))) ->
  let p := Z.to_nat (f_position f) in
  let old := file_on v (drive_of (w_dev w)) cs f in
  exists a cs' f', f_write buf (w, f) = (Ret (Z.of_nat (length buf)), (set_dev a w, f'))
    /\ file_ok v a cs' f'
    /\ file_on v (drive_of a) cs' f' = take p old ++ buf ++ drop (p + length buf) old
    /\ (forall c, on_disk v (capacity (drive_of a)) c -> ~ (c ∈ cs') ->
         cluster_on v (drive_of a) c = cluster_on v (drive_of (w_dev w)) c)
    /\ forall g n, file_ok v a cs' g -> f_size g = f_size f' -> lacks g FA_READ = false -> 0 <= n ->
         exists g', f_read n (set_dev a w, g) =
           (Ret (take (Z.to_nat n) (drop (Z.to_nat (f_position g)) (file_on v (drive_of a) cs' f'))), (set_dev a w, g')).
Proof.
  intros Hg Hv Hok Hfl Hwr Hby Hlt Hfd Hsp p old.
  destruct (f_write_run v w f cs buf) as (a & cs' & f' & R & Hok' & Hgr & Hpos & Hs & _ & _ & Hb); try done.
  pose proof (gr_count _ _ _ _ _ Hgr) as Hcnt. change (capacity (drive_of a) = capacity (drive_of (w_dev w))) in Hcnt.
  assert (geometry v (capacity (drive_of a))) as Hga by by rewrite Hcnt.
  exists a, cs', f'. split_and!; [done|done| | |].
  - rewrite <- (contents_medium v a), (contents_written v (w_dev w) a cs cs' f f' buf) by done.
    by rewrite (contents_medium v (w_dev w)).
  - intros c Hc Hnin. rewrite <- !cluster_medium; try done; try (by rewrite <- Hcnt).
    apply (gr_data _ _ _ _ _ Hgr); [|done]. change (on_disk v (capacity (drive_of (w_dev w))) c). by rewrite <- Hcnt.
  - intros g n Hokg Hsz Hflg Hn.
    destruct (f_read_run v (set_dev a w) g cs' n) as (c & s & bi & Rr & _); try done.
    eexists. rewrite Rr. rewrite <- (contents_medium v a) by done. unfold contents. rewrite <- Hsz.
    pose proof (fo_pos _ _ _ _ Hokg). pose proof (fo_size _ _ _ _ Hokg).
    f_equal. f_equal. rewrite skipn_firstn_comm, take_take. f_equal. lia.
Qed.

(** A simulated drive with the sectors of the demonstration volume, and the
    volume mounted on it. *)
Definition image_drive : SimAta :=
  mkSimAta (mkDrive 129 (fun l => to_sector (default [] (rd_data demo_disk !! l))) [] (fun _ => 0) Idle false) 1.

Lemma image_ready : drive_ready (view image_drive).
Proof. split; [done|]. split; [by vm_compute|]. intros l _. apply sector_to_sector. Qed.

Lemma image_polls : (patience (D := SimAta) < 3)%nat.
Proof. cbn. lia. Qed.

Definition ata_disk : AtaDisk SimAta SIM_BASE :=
  mkAtaDisk (AtaChannel_new 368 true) 3 image_drive image_polls eq_refl (or_introl eq_refl) image_ready.

Definition ata_world : World (AtaDisk SimAta SIM_BASE) :=
  mkWorld ata_disk (Some demo_vol) 2 (47 :: replicate 255 0) (replicate 512 0) true.

Lemma ata_file_ok : file_ok demo_vol (w_dev ata_world) [3; 5; 4] append_file.
Proof.
  destruct append_file_ok as [_ _ H3 H4 H5 H6 H7]. split; [| |exact H3|exact H4|exact H5|exact H6|exact H7].
  - vm_compute. repeat split.
  - intros x Hx. injection Hx as <-. vm_compute. discriminate.
Qed.

(** Three hundred bytes appended through the ports of the drive. *)
Lemma file_on_ata_witness : exists a cs' f',
  f_write (replicate 300 65) (ata_world, append_file) = (Ret 300, (set_dev a ata_world, f'))
  /\ file_on demo_vol (drive_of a) cs' f' = take 1300 (demo_sector 0 ++ demo_sector 1 ++ demo_sector 2) ++ replicate 300 65.
Proof.
  destruct (file_on_ata demo_vol ata_world append_file [3; 5; 4] (replicate 300 65) demo_geometry eq_refl ata_file_ok eq_refl)
    as (a & cs' & f' & R & _ & Hf & _).
  - right. vm_compute. reflexivity.
  - apply demo_buffer.
  - vm_compute. reflexivity.
  - intros c Hc _. apply demo_on_disk. exact Hc.
  - vm_compute. discriminate.
  - exists a, cs', f'. split; [exact R|]. rewrite Hf. vm_compute. reflexivity.
Defined.

(** The whole stack at once: the file opened by name and read through the
    ports. *)
Example open_read_on_ata :
  match f_open 4 (SLASH :: demo_name) FA_READ ata_world with
  | (Ret f, w) => (f_read 600 (w, f)).1 = Ret (demo_sector 0 ++ take 88 (demo_sector 1))
  | _ => False
  end.
Proof. vm_compute. reflexivity. Qed.
