(* ===== verification/BootDisk.v ===== *)
(** The disk at boot ([_start] of [src/src/main.rs], [f_mount] of
    [src/src/hal/fat32.rs] over [src/src/hal/ata.rs]): the drive is probed, its
    volume mounted, and what the clients of the file system then do is what they
    do on the map of the files that the drive's sectors hold. *)

From Stdlib Require Import ZArith Lia.
From stdpp Require Import base numbers list gmap.
From S2P Require Import Prelude Machine Block Fat32 Fat32Dir Fat32File FatSpec FatChain FatCluster FatDirSpec FatFileSpec FatWrite FatDemo FatMount.
From S2P Require Import FatFiles FatState FatRename FatConsistent FatModel Ata AtaSpec AtaDisk.

#[local] Open Scope Z_scope.

(** ** Devices with the same sectors *)

Definition same_image {D1 D2} `{BlockDevice D1} `{BlockDevice D2} (d1 : D1) (d2 : D2) : Prop :=
  Block.sector_count d1 = Block.sector_count d2 /\ forall lba, read_sector d1 lba = read_sector d2 lba.

Lemma same_image_sym {D1 D2} `{BlockDevice D1} `{BlockDevice D2} (d1 : D1) (d2 : D2) :
  same_image d1 d2 -> same_image d2 d1.
Proof. intros [Hc Hr]. by split. Qed.

Section Image.
Context {D1 D2 : Type} `{ReliableDevice D1} `{ReliableDevice D2}.

Lemma fat_entry_image v (d1 : D1) (d2 : D2) x : same_image d1 d2 -> fat_entry v d1 x = fat_entry v d2 x.
Proof. intros [_ Hr]. unfold fat_entry. by rewrite Hr. Qed.

Lemma cluster_data_image v (d1 : D1) (d2 : D2) c : same_image d1 d2 -> cluster_data v d1 c = cluster_data v d2 c.
Proof.
  intros [_ Hr]. unfold cluster_data. generalize (cluster_lba v c) as lba.
  induction (Z.to_nat (sectors_per_cluster v)) as [|n IH]; intros lba; [done|]. cbn [sectors]. by rewrite Hr, IH.
Qed.

Lemma file_bytes_image v (d1 : D1) (d2 : D2) cs : same_image d1 d2 -> file_bytes v d1 cs = file_bytes v d2 cs.
Proof. intros Hs. unfold file_bytes. f_equal. apply list_fmap_ext. intros _ c _. by apply cluster_data_image. Qed.

Lemma in_use_image v (d1 : D1) (d2 : D2) rc c k : same_image d1 d2 -> in_use v d1 rc c k <-> in_use v d2 rc c k.
Proof. intros Hs. unfold in_use, entry_of. by rewrite (cluster_data_image v d1 d2 c Hs). Qed.

Lemma owns_image v (d1 : D1) (d2 : D2) rc c k cs : same_image d1 d2 -> owns v d1 rc c k cs <-> owns v d2 rc c k cs.
Proof.
  intros Hs. pose proof (fun x => fat_entry_image v d1 d2 x Hs) as Hf. destruct Hs as [Hc Hr].
  assert (entry_of v d1 c k = entry_of v d2 c k) as He by (unfold entry_of; by rewrite (cluster_data_image v d1 d2 c (conj Hc Hr))).
  split; intros [O1 O2 O3 O4 O5]; (split; [| | |done|done]).
  - rewrite <- He. apply (chain_ext (fat_entry v d1)); [by intros x _|done].
  - intros x Hx. rewrite <- Hf. by apply O2.
  - by rewrite <- Hc.
  - rewrite He. apply (chain_ext (fat_entry v d2)); [by intros x _|done].
  - intros x Hx. rewrite Hf. by apply O2.
  - by rewrite Hc.
Qed.

(** A volume without open files is as consistent on one device as on the other,
    and holds the same files. *)
Lemma consistent_image v rc (w1 : World D1) (w2 : World D2) :
  same_image (w_dev w1) (w_dev w2) -> w_vol w2 = w_vol w1 -> consistent v rc (w1, []) -> consistent v rc (w2, []).
Proof.
  intros Hs Hv [[Hg Hm Hch Ht Hd Hne Hfree] Hown Hapart _ _]. cbn [fst snd] in *.
  pose proof (fun x => fat_entry_image v _ _ x Hs) as Hf. pose proof (proj1 Hs) as Hc.
  split; cbn [fst snd]; [split| | |constructor|constructor].
  - by rewrite <- Hc.
  - congruence.
  - apply (chain_ext (fat_entry v (w_dev w1))); [by intros x _|done].
  - intros x Hx. rewrite <- Hf. by apply Ht.
  - by rewrite <- Hc.
  - done.
  - intros x Hx Hz. rewrite <- Hc. apply Hfree; [done|]. by rewrite Hf.
  - intros c k Hu%(in_use_image v _ _ _ _ _ Hs). destruct (Hown c k Hu) as (cs & Ho & Hsz).
    exists cs. split; [by apply (owns_image v _ _ _ _ _ _ Hs)|]. unfold entry_of in *. by rewrite <- (cluster_data_image v _ _ c Hs).
  - intros c k c' k' cs cs' x Hu Hu' Hdiff Ho Ho'. apply (Hapart c k c' k'); try done;
      first [by apply (in_use_image v _ _ _ _ _ Hs)|by apply (owns_image v _ _ _ _ _ _ Hs)].
Qed.

Lemma file_at_image v rc (w1 : World D1) (w2 : World D2) c k x :
  same_image (w_dev w1) (w_dev w2) -> file_at v rc (w1, []) c k x -> file_at v rc (w2, []) c k x.
Proof.
  intros Hs [Hu Hn (cs & n & Ho & Hsz & Hd)]. cbn [fst snd] in *.
  pose proof (cluster_data_image v _ _ c Hs) as Hc. split; cbn [fst snd].
  - by apply (in_use_image v _ _ _ _ _ Hs).
  - unfold entry_of in *. by rewrite <- Hc.
  - exists cs, n. split_and!; [by apply (owns_image v _ _ _ _ _ _ Hs)| |by rewrite <- (file_bytes_image v _ _ cs Hs)].
    destruct Hsz as [(g & Hg & _)|[Hno He]]; [by apply elem_of_nil in Hg|]. right. split; [done|].
    cbn [fst snd] in *. unfold entry_of in *. by rewrite <- Hc.
Qed.
End Image.

Lemma models_image {D1 D2} `{ReliableDevice D1} `{ReliableDevice D2} v rc (w1 : World D1) (w2 : World D2) m :
  same_image (w_dev w1) (w_dev w2) -> models v rc (w1, []) (mkFiles m []) -> models v rc (w2, []) (mkFiles m []).
Proof.
  intros Hs [Hm _]. split; [|constructor]. intros c k x. cbn [stored_files] in *. rewrite Hm.
  split; apply file_at_image; [done|by apply same_image_sym].
Qed.


(** ** The drive at boot *)

(** What IDENTIFY tells of the drive: 256 words, the capacity in two of them. *)
Definition identified (x : drive) : Prop :=
  length (ident x) = 256%nat /\ (forall i w, ident x !! i = Some w -> 0 <= w < 65536)
  /\ byte_at (ident x) 60 + 65536 * byte_at (ident x) 61 = capacity x.

(** The sectors of the drive are those of a device. *)
Definition holds_image {I} `{BlockDevice I} (x : drive) (img : I) : Prop :=
  Block.sector_count img = capacity x
  /\ forall lba, read_sector img lba = if (0 <=? lba) && (lba <? capacity x) then Some (medium x lba) else None.

Section Boot.
Context {D : Type} `{AtaDrive D b} {I : Type} `{ReliableDevice I}.

Lemma disk_image (a : AtaDisk D b) (img : I) : holds_image (drive_of a) img -> same_image img a.
Proof.
  intros [Hc Hr]. split; [exact Hc|]. intros lba. rewrite Hr. fold (in_drive a lba).
  destruct (in_drive a lba) eqn:Hin; [by rewrite read_medium|by rewrite read_outside].
Qed.

(** The probed channel as a device. *)
Lemma probed_disk fuel (d : D) :
  (patience < fuel)%nat -> drive_ready (view d) -> busy d = O -> identified (view d) ->
  exists d' (a : AtaDisk D b), probe fuel (AtaChannel_new b true) d = (Ret (true, ad_channel a), d')
    /\ ad_state a = d' /\ ad_fuel a = fuel /\ Ata.sector_count (ad_channel a) = capacity (view d)
    /\ capacity (drive_of a) = capacity (view d) /\ medium (drive_of a) = medium (view d).
Proof.
  intros Hp (Hi & Hc & Hm) Hb (Hl & Hw & Hcap).
  destruct (probe_run fuel Hp (AtaChannel_new b true) eq_refl d Hi Hb Hl Hw) as (d' & R & Hi' & Hc' & Hm').
  assert (drive_ready (view d')) as Hr by (split_and!; [exact Hi'|by rewrite Hc'|by rewrite Hc', Hm']).
  exists d', (mkAtaDisk (mkAta b 160 (capacity (view d))) fuel d' Hp eq_refl (or_introl eq_refl) Hr).
  cbn [ad_channel ad_state ad_fuel]. rewrite <- Hcap. split_and!; try done. unfold drive_of. cbn [ad_state]. by rewrite Hc'.
Qed.

(** ** Properties *)

(** C5: From the probe to the clients. The drive follows the protocol, is idle
    and not busy, has at most 2^28 sectors and reports their number in its
    identification; its sectors are those of a consistent volume whose tables
    fit on it, and no file is open yet. Then the probe finds the drive with
    its capacity, [f_mount] through the driver mounts the volume that the boot
    sector describes, and every sequence of the operations that [fs_step]
    allows (with the conditions stated for [volume_refines_map]) that runs
    through the ports afterwards is one of the abstract map of the files that
    the sectors hold, and leaves the volume consistent. *)
Theorem disk_at_boot fuel vfuel (d : D) (img : World I) rc m :
  let v := boot_volume (medium (view d) 0) in
  (patience < fuel)%nat -> drive_ready (view d) -> busy d = O -> identified (view d) -> 0 < capacity (view d) ->
  holds_image (view d) (w_dev img) -> fat32_boot (medium (view d) 0) -> boot_fits (medium (view d) 0) (capacity (view d)) ->
  consistent v rc (img, []) -> models v rc (img, []) (mkFiles m []) -> entries v <= Z.of_nat vfuel ->
  exists d' (a : AtaDisk D b),
    probe fuel (AtaChannel_new b true) d = (Ret (true, ad_channel a), d') /\ ad_state a = d' /\ ad_fuel a = fuel
    /\ Ata.sector_count (ad_channel a) = capacity (view d)
    /\ forall w, w_dev w = a -> f_mount w = (Ret tt, mounted v w) /\
         forall es s, trace (fs_step vfuel v) es (mounted v w, []) s ->
           exists a', trace spec_step es (mkFiles m []) a' /\ consistent v rc s /\ models v rc s a'.
Proof.
  intros v Hp Hr Hb Hid Hpos Himg Hboot Hfit Hc Hm Hf.
  destruct (probed_disk fuel d Hp Hr Hb Hid) as (d' & a & R & Hs & Hfu & Hn & Hcap & Hmed).
  exists d', a. split_and!; [done..|]. intros w Hw.
  assert (sector (medium (view d) 0)) as [_ Hby] by (apply Hr; lia).

  assert (read_sector a 0 = Some (medium (view d) 0)) as Rd by (rewrite read_medium, Hmed; [done|]; apply in_drive_spec; lia).
  split.
  - rewrite <- Hw in Rd. pose proof (f_mount_run w _ Rd) as Hmount. pose proof (parse_bpb_spec _ Hby) as Hparse.
    destruct (parse_bpb _) as [v0|e]; [|by destruct Hparse]. destruct Hparse as [_ ->].
    rewrite (proj1 (boot_geometry _ _ Hby Hboot Hfit)) in Hmount. apply Hmount. rewrite Hw. cbn. by rewrite Hcap.
  - intros es s Hes. assert (same_image (w_dev img) (w_dev (mounted v w))) as Hsame.
    { change (w_dev (mounted v w)) with (w_dev w). rewrite Hw. apply disk_image. unfold holds_image. by rewrite Hcap, Hmed. }
    assert (consistent v rc (mounted v w, [])) as Hc'.
    { apply (consistent_image v rc img); [done| |done]. pose proof (rt_mounted _ _ _ (cn_rooted _ _ _ Hc)) as Hv. cbn [fst] in Hv. by rewrite Hv. }
    destruct (trace_models vfuel v rc es (mounted v w, []) s (mkFiles m [])) as (a' & Ha & Hm'); [done|done|by apply (models_image v rc img)|done|].
    exists a'. split_and!; [done| |done]. by apply (trace_consistent vfuel v rc es (mounted v w, [])).
Qed.
End Boot.

(** A drive with the sectors of the demonstration volume, as it is at power-on. *)
Definition boot_drive : SimAta :=
  mkSimAta (mkDrive 129 (fun l => to_sector (default [] (rd_data demo_disk !! l))) (<[60%nat := 129]> (replicate 256 0))
    (fun _ => 0) Idle false) 0.

Lemma boot_drive_ready : drive_ready (view boot_drive).
Proof. split; [done|]. split; [by vm_compute|]. intros l _. apply sector_to_sector. Qed.

Lemma boot_drive_identified : identified (view boot_drive).
Proof.
  split; [by vm_compute|]. split; [|by vm_compute].
  assert (Forall (fun w => 0 <= w < 65536) (ident (view boot_drive))) as Hw
    by (apply Forall_insert; [apply Forall_replicate; lia|lia]).
  intros i w Hi. exact (Forall_lookup_1 _ _ _ _ Hw Hi).
Qed.

Lemma boot_drive_sector : medium (view boot_drive) 0 = demo_boot.
Proof. vm_compute. reflexivity. Qed.

Lemma boot_drive_volume : boot_volume demo_boot = demo_vol.
Proof. vm_compute. reflexivity. Qed.

Lemma disk_at_boot_witness : exists d' (a : AtaDisk SimAta SIM_BASE),
  probe 3 (AtaChannel_new SIM_BASE true) boot_drive = (Ret (true, ad_channel a), d')
  /\ Ata.sector_count (ad_channel a) = 129
  /\ forall w, w_dev w = a -> f_mount w = (Ret tt, mounted demo_vol w).
Proof.
  pose proof (disk_at_boot 3 200 boot_drive demo_world [2] {[(2, O) := (demo_name, demo_data)]}) as Hb. cbv zeta in Hb.
  rewrite boot_drive_sector, boot_drive_volume in Hb.
  destruct Hb as (d' & a & R & _ & _ & Hn & Hm).
  - cbn. lia.
  - exact boot_drive_ready.
  - reflexivity.
  - exact boot_drive_identified.
  - reflexivity.
  - split; [reflexivity|]. intros lba. reflexivity.
  - exact demo_fat32_boot.
  - exact demo_boot_fits.
  - exact demo_consistent.
  - exact demo_models.
  - vm_compute. discriminate.
  - exists d', a. split_and!; [exact R|exact Hn|]. intros w Hw. exact (proj1 (Hm w Hw)).
Defined.
