(* ===== verification/Serial.v ===== *)
(** The serial port and the boot log ([src/src/hal/serial.rs]): the UART, the
    formatting of log lines in fixed buffers, and the phase timer. The lock
    around the port is the one of [Memory]; here a line is sent without
    contention. *)

From Stdlib Require Import ZArith Lia Ascii String.
From stdpp Require Import base numbers list gmap.
From S2P Require Import Prelude Text Machine.

#[local] Open Scope Z_scope.

Definition COM1 : Z := 1016.

(** The logger's statics. *)
Record Log : Type := mkLog {
  TSC_PER_MS : Z;
  LAST_TSC : Z;
  LOG_BUF : list Z;
  FMT_BUF : list Z;
}.

Definition Log_new : Log := mkLog 1000000 0 (replicate 224 0) (replicate 224 0).

(** ** Formatting into a buffer of 224 bytes

    A buffer and the index [i] of the next byte. *)

Definition put (b : Z) (o : list Z * nat) : list Z * nat :=
  let '(buf, i) := o in
  if (i <? length buf)%nat then (<[i := b]> buf, S i) else o.

Definition put_str (s : list Z) (o : list Z * nat) : list Z * nat := fold_left (fun o b => put b o) s o.

Definition put_pad (s : list Z) (width : nat) (o : list Z * nat) : list Z * nat :=
  let o := put_str (take width s) o in
  put_str (replicate (width - Nat.min (length s) width) 32) o.

(** [None] is the panic of an index outside [tmp], which 64 bits never reach. *)
Definition put_dec (v : Z) (o : list Z * nat) : option (list Z * nat) :=
  if v =? 0 then Some (put 48 o)
  else option_map (fun tmp => put_str (reverse tmp) o) (dec_tmp 20 v).

Definition HEX : list Z := str "0123456789abcdef".

Definition put_hex (v : Z) (o : list Z * nat) : list Z * nat :=
  (fold_left (fun '(started, o) shift =>
      let nib := Z.land (Z.shiftr v (shift * 4)) 15 in
      if negb (nib =? 0) || started || (shift =? 0)
      then (true, put (byte_at HEX (Z.to_nat nib)) o)
      else (started, o))
    (reverse (seqZ 0 16)) (false, o)).2.

(** [buf[i] = 0]; [None] is the out-of-bounds panic. *)
Definition put_end (o : list Z * nat) : option (list Z * nat) :=
  let '(buf, i) := o in
  if (i <? length buf)%nat then Some (<[i := 0]> buf, i) else None.

(** The loop that counts the digits of the processor's index. *)
Fixpoint count_digits (fuel : nat) (n : Z) (ndigits : nat) : nat :=
  match fuel with
  | O => ndigits
  | S fuel => if 10 <=? n then count_digits fuel (n / 10) (S ndigits) else ndigits
  end.

(** The message as [log_ms] takes it: its first 112 bytes, or a mark when they
    end inside a character. *)
Definition msg_cut (msg : list Z) : list Z := utf8_or_mark (take 112 msg).

(** The line that [log_ms] builds in [buf]: the buffer and its length. *)
Definition format_line (cpu : Z) (part sub msg : list Z) (ms10 : Z) (buf : list Z) :
    option (list Z * nat) :=
  o ← put_dec cpu (put_str (str "[CPU") (buf, O));
  let ndigits := count_digits 20 cpu 1 in
  let o := put_str (replicate (6 - (3 + ndigits)) 32) o in
  let o := put 91 (put_str (str "] ") o) in
  let o := put 91 (put 32 (put 93 (put_pad part 6 o))) in
  let o := put 32 (put 93 (put_pad sub 6 o)) in
  let o := put 40 (put 32 (put_str (msg_cut msg) o)) in
  o ← put_dec (ms10 / 10) o;
  o ← put_dec (ms10 mod 10) (put 46 o);
  let eol := [13; 10] in
  put_end (put_str (str " ms)" ++ eol) o).

(** The message of [log_hex]. *)
Definition format_hex (prefix : list Z) (val : Z) (suffix buf : list Z) : option (list Z * nat) :=
  let o := put 120 (put 48 (put_str prefix (buf, O))) in
  put_end (put_str suffix (put_hex val o)).

(** ** The port and the logger *)

Section Serial.
Context {D : Type} `{Machine D}.
(** [apic::current_cpu_index()], and the bound on a wait for the port. *)
Context (cpu : Z) (fuel : nat).

Definition serial_init : M D Empty_set unit :=
  do! outb_m (COM1 + 1) 0 in
  do! outb_m (COM1 + 3) 128 in
  do! outb_m (COM1 + 0) 1 in
  do! outb_m (COM1 + 1) 0 in
  do! outb_m (COM1 + 3) 3 in
  do! outb_m (COM1 + 2) 199 in
  outb_m (COM1 + 4) 11.

Definition serial_write_byte (byte : Z) : M D Empty_set unit :=
  do! wait_bits fuel (COM1 + 5) 32 in
  outb_m COM1 byte.

Fixpoint serial_write_str (s : list Z) : M D Empty_set unit :=
  match s with
  | [] => ret tt
  | b :: s => do! serial_write_byte b in serial_write_str s
  end.

(** Like [serial_write_str], up to the first zero byte. *)
Fixpoint serial_debug (msg : list Z) : M D Empty_set unit :=
  match msg with
  | [] => ret tt
  | c :: msg => if c =? 0 then ret tt else do! serial_write_byte c in serial_debug msg
  end.

(** Sixteen digits, the most significant first. *)
Definition serial_debug_hex (val : Z) : M D Empty_set unit :=
  serial_write_str
    ((fun i => byte_at (str "0123456789ABCDEF") (Z.to_nat (Z.land (Z.shiftr val (i * 4)) 15)))
      <$> reverse (seqZ 0 16)).

(** The rest runs on the device and the logger's statics. *)
Definition bootlog_init (tsc_per_ms : Z) : M (D * Log) Empty_set unit :=
  let! t := zoom rdtsc_m in
  modify (fun '(d, l) => (d, mkLog (if tsc_per_ms =? 0 then 1 else tsc_per_ms) t (LOG_BUF l) (FMT_BUF l))).

Definition ms10_since (start : Z) : M (D * Log) Empty_set Z :=
  let! now := zoom rdtsc_m in
  let! l := gets snd in
  if TSC_PER_MS l =? 0 then panic else ret (u64 (u64 (now - start) * 10 / TSC_PER_MS l)).

Definition log_ms (part sub msg : list Z) (ms10 : Z) : M (D * Log) Empty_set unit :=
  let! l := gets snd in
  let! '(buf, i) := or_panic (format_line cpu part sub msg ms10 (LOG_BUF l)) in
  do! modify (fun '(d, l) => (d, mkLog (TSC_PER_MS l) (LAST_TSC l) buf (FMT_BUF l))) in
  zoom (serial_debug (take i buf)).

Definition log (part sub msg : list Z) : M (D * Log) Empty_set unit :=
  let! start := gets (fun st => LAST_TSC (snd st)) in
  let! ms10 := ms10_since start in
  let! t := zoom rdtsc_m in
  do! modify (fun '(d, l) => (d, mkLog (TSC_PER_MS l) t (LOG_BUF l) (FMT_BUF l))) in
  log_ms part sub msg ms10.

Definition log_hex (part sub prefix : list Z) (val : Z) (suffix : list Z) : M (D * Log) Empty_set unit :=
  let! l := gets snd in
  let! '(buf, i) := or_panic (format_hex prefix val suffix (FMT_BUF l)) in
  do! modify (fun '(d, l) => (d, mkLog (TSC_PER_MS l) (LAST_TSC l) (LOG_BUF l) buf)) in
  log part sub (utf8_or_mark (take i buf)).
End Serial.
