(* ===== verification/SerialSpec.v ===== *)
(** What the serial log promises: the line that a log call sends, in terms of
    numerals and padded fields, and that it is sent whenever the port's
    transmitter keeps becoming ready. *)

From Stdlib Require Import ZArith Lia Ascii String.
From stdpp Require Import base numbers list gmap.
From S2P Require Import Prelude Text Machine Serial.

#[local] Open Scope Z_scope.

(** ** The promised line *)

Definition pad (width : nat) (s : list Z) : list Z := take width s ++ replicate (width - length s) 32.

Definition log_line (c part sub msg t : list Z) (tenth : Z) : list Z :=
  str "[CPU" ++ c ++ replicate (3 - length c) 32 ++ str "] [" ++ pad 6 part ++ str "] [" ++ pad 6 sub
  ++ str "] " ++ msg ++ str " (" ++ t ++ [46; 48 + tenth] ++ str " ms)" ++ [13; 10].

(** The bytes before the first zero. *)
Fixpoint until_nul (l : list Z) : list Z :=
  match l with
  | [] => []
  | c :: l => if c =? 0 then [] else c :: until_nul l
  end.

(** [l] is the hexadecimal numeral of [n], in lower case. *)
Definition hexadecimal (n : Z) (l : list Z) : Prop :=
  hex_value l = n /\ Forall (fun c => c ∈ HEX) l /\ (l = [48] \/ exists c r, l = c :: r /\ c <> 48).

(** ** The UART

    What a 16550 promises: reading the line status sends nothing, its
    transmitter-empty bit comes up after finitely many reads, and a byte
    written while the transmitter is empty goes out on the wire. *)
Class Uart (D : Type) `{Machine D} := {
  wire : D -> list Z;
  uart_wait : D -> nat;
  thr_empty : D -> Prop;
  patience : nat;
  uart_patience : forall d, (uart_wait d <= patience)%nat;
  uart_poll : forall d, wire (inb (COM1 + 5) d).2 = wire d /\
    ((Z.land (inb (COM1 + 5) d).1 32 =? 0) = true /\ (uart_wait (inb (COM1 + 5) d).2 < uart_wait d)%nat
     \/ (Z.land (inb (COM1 + 5) d).1 32 =? 0) = false /\ thr_empty (inb (COM1 + 5) d).2);
  uart_send : forall b d, thr_empty d -> wire (outb COM1 b d) = wire d ++ [b];
  uart_rdtsc : forall d, wire (rdtsc d).2 = wire d;
}.

(** ** Lemmas on the buffer *)

Definition room (o : list Z * nat) : Prop := length o.1 = 224%nat /\ (o.2 <= 224)%nat.
Definition text (o : list Z * nat) : list Z := take o.2 o.1.

Lemma text_put b o : room o -> room (put b o) /\ text (put b o) = take 224 (text o ++ [b]).
Proof.
  destruct o as [buf i]. unfold room, text, put. cbn [fst snd]. intros [Hl Hi].
  destruct (Nat.ltb_spec i (length buf)); cbn [fst snd].
  - split; [autorewrite with len; lia|].
    rewrite (take_S_r _ _ b) by (by apply list_lookup_insert_eq).
    rewrite take_insert_ge by lia. rewrite (take_ge (_ ++ _)); [done|].
    rewrite length_app, length_take. cbn. lia.
  - split; [done|]. rewrite take_app_le by (rewrite length_take; lia).
    rewrite take_take. f_equal. lia.
Qed.

Lemma text_put_str s o : room o -> room (put_str s o) /\ text (put_str s o) = take 224 (text o ++ s).
Proof.
  revert o. induction s as [|b s IH]; intros o Ho.
  - split; [done|]. rewrite app_nil_r, take_ge; [done|]. unfold text. rewrite length_take.
    destruct Ho. lia.
  - cbn [put_str fold_left]. destruct (text_put b o Ho) as [Ho' Ht]. destruct (IH _ Ho') as [Hr IHt].
    split; [done|]. unfold put_str in IHt. rewrite IHt, Ht.
    rewrite (cons_middle b (text o) s), (app_assoc (text o)).
    destruct (Nat.le_gt_cases (length (text o ++ [b])) 224) as [Hle|Hgt].
    + by rewrite (take_ge (text o ++ [b])).
    + rewrite (take_app_le (text o ++ [b])) by lia. rewrite take_app_le, take_take.
      * done.
      * rewrite length_take. lia.
Qed.

(** A text that fits is appended. *)
Lemma put_str_fits s o :
  room o -> (o.2 + length s <= 224)%nat ->
  room (put_str s o) /\ text (put_str s o) = text o ++ s /\ (put_str s o).2 = (o.2 + length s)%nat.
Proof.
  intros Ho Hfit. destruct (text_put_str s o Ho) as [Hr Ht].
  assert (length (text o) = o.2) as Hlo by (unfold text; rewrite length_take; destruct Ho; lia).
  rewrite take_ge in Ht by (rewrite length_app; lia). split_and!; [done|done|].
  assert (length (text (put_str s o)) = (put_str s o).2) as Hls
    by (unfold text at 1; rewrite length_take; destruct Hr; lia).
  rewrite <- Hls, Ht, length_app. lia.
Qed.

Lemma put_put_str b o : put b o = put_str [b] o.
Proof. done. Qed.

Lemma put_str_app s t o : put_str t (put_str s o) = put_str (s ++ t) o.
Proof. unfold put_str. by rewrite fold_left_app. Qed.

Lemma put_pad_pad s w o : put_pad s w o = put_str (pad w s) o.
Proof.
  unfold put_pad. rewrite put_str_app. unfold pad. do 3 f_equal.
  destruct (Nat.min_spec (length s) w); lia.
Qed.

Lemma put_dec_decimal v o :
  0 <= v < 2 ^ 64 ->
  exists l, put_dec v o = Some (put_str l o) /\ decimal v l /\ (1 <= length l <= 20)%nat.
Proof.
  intros Hv. destruct (dec_text_decimal v Hv) as (l & Hl & Hd & Hlen). exists l. split; [|done].
  unfold put_dec. unfold dec_text in Hl. destruct (v =? 0); [by simplify_eq|].
  destruct (dec_tmp 20 v); simplify_eq/=. done.
Qed.

(** A single digit. *)
Lemma put_dec_digit v o : 0 <= v < 10 -> put_dec v o = Some (put_str [48 + v] o).
Proof.
  intros Hv. unfold put_dec. destruct (Z.eqb_spec v 0) as [->|]; [done|].
  change 20%nat with (S 19). cbn [dec_tmp]. destruct (Z.leb_spec v 0); [lia|].
  rewrite Z.mod_small, Z.div_small by lia. done.
Qed.

(** The buffer's text ends where [put_end] leaves it. *)
Lemma put_end_fits o :
  room o -> (o.2 < 224)%nat ->
  exists buf, put_end o = Some (buf, o.2) /\ length buf = 224%nat /\ take o.2 buf = text o.
Proof.
  destruct o as [buf i]. intros [Hl Hi] Hlt. unfold put_end, text. cbn [fst snd] in *.
  destruct (Nat.ltb_spec i (length buf)); [|lia]. eexists. split_and!; [done|by autorewrite with len|].
  by rewrite take_insert_ge.
Qed.

(** ** The digit count of the processor tag *)

Lemma count_digits_numeral fuel n l k :
  decimal n l -> (length l <= fuel)%nat -> count_digits fuel n (S k) = (length l + k)%nat.
Proof.
  revert n l k. induction fuel as [|fuel IH]; intros n l k Hd Hf.
  { destruct l; [|cbn in Hf; lia]. destruct Hd as (_ & _ & [?|(? & ? & ? & _)]); done. }
  cbn [count_digits]. destruct (decide (length l = 1%nat)) as [H1|Hn1].
  - destruct l as [|c [|? ?]]; [done| |done]. destruct Hd as (Hv & [Hc _]%Forall_cons & _).
    unfold is_digit in Hc. change (10 * 0 + (c - 48) = n) in Hv.
    destruct (Z.leb_spec 10 n); [lia|]. done.
  - destruct Hd as (Hv & Hdig & Hlead).
    destruct Hlead as [->|(c & r & -> & Hc)]; [done|].
    destruct r as [|d r _] using rev_ind; [done|].
    pose proof (dec_value_bound _ c (r ++ [d]) Hdig eq_refl Hc) as [Hlo _].
    rewrite app_comm_cons in Hv, Hdig. rewrite dec_value_snoc in Hv.
    apply Forall_app in Hdig as [Hdig [Hd _]%Forall_cons]. unfold is_digit in Hd.
    assert (1 <= dec_value (c :: r)) as Hpos.
    { pose proof (dec_value_bound _ c r Hdig eq_refl Hc) as [Hlo' _].
      pose proof (Z.pow_pos_nonneg 10 (Z.of_nat (length r))). lia. }
    destruct (Z.leb_spec 10 n); [|lia].
    replace (n / 10) with (dec_value (c :: r)) by (apply (Z.div_unique_pos _ _ _ (d - 48)); lia).
    rewrite (IH _ (c :: r) (S k)).
    + cbn [length]. rewrite length_app. cbn [length]. lia.
    + split_and!; [done|done|]. right. by exists c, r.
    + cbn [length] in *. rewrite length_app in Hf. cbn [length] in Hf. lia.
Qed.

(** ** Hexadecimal digits *)

Lemma HEX_digit n : 0 <= n < 16 ->
  hex_digit_value (byte_at HEX (Z.to_nat n)) = n /\ byte_at HEX (Z.to_nat n) ∈ HEX
  /\ (n <> 0 -> byte_at HEX (Z.to_nat n) <> 48).
Proof.
  intros Hn. assert (n ∈ seqZ 0 16) as Hin by (apply elem_of_seqZ; lia).
  clear Hn. revert n Hin. apply (proj1 (Forall_forall _ _)). vm_compute seqZ.
  repeat constructor; intros; vm_compute; set_solver.
Qed.

Lemma nibble_shift v n : 0 <= v -> 0 <= n ->
  Z.shiftr v (n * 4) = 16 * Z.shiftr v ((n + 1) * 4) + Z.land (Z.shiftr v (n * 4)) 15.
Proof.
  intros. rewrite (Z.land_ones _ 4) by lia. replace ((n + 1) * 4) with (n * 4 + 4) by lia.
  rewrite <- Z.shiftr_shiftr by lia. rewrite (Z.shiftr_div_pow2 _ 4) by lia.
  change (2 ^ 4) with 16. apply Z.div_mod. lia.
Qed.

Definition hex_step (v : Z) : bool * (list Z * nat) -> Z -> bool * (list Z * nat) :=
  fun '(started, o) shift =>
    let nib := Z.land (Z.shiftr v (shift * 4)) 15 in
    if negb (nib =? 0) || started || (shift =? 0)
    then (true, put (byte_at HEX (Z.to_nat nib)) o)
    else (started, o).

(** The digits below nibble [n], after a prefix [p] worth the nibbles above. *)
Lemma put_hex_loop v n p o :
  0 <= v -> hex_value p = Z.shiftr v (Z.of_nat n * 4) ->
  exists h,
    (fold_left (hex_step v) (reverse (seqZ 0 (Z.of_nat n))) (negb (hex_value p =? 0), o)).2 = put_str h o
    /\ hex_value (p ++ h) = v /\ Forall (fun c => c ∈ HEX) h /\ (length h <= n)%nat
    /\ (hex_value p = 0 -> (0 < n)%nat -> h = [48] \/ exists c r, h = c :: r /\ c <> 48).
Proof.
  intros Hv. revert p o. induction n as [|n IH]; intros p o Hp.
  { exists []. rewrite app_nil_r, Hp, Z.shiftr_0_r. split_and!; try done. lia. }
  replace (Z.of_nat (S n)) with (Z.of_nat n + 1) in * by lia.
  pose proof (nibble_shift v (Z.of_nat n) Hv ltac:(lia)) as Hnib. rewrite <- Hp in Hnib.
  assert (0 <= hex_value p) by (rewrite Hp; by apply Z.shiftr_nonneg).
  rewrite seqZ_app, reverse_app by lia. rewrite fold_left_app. cbn [seqZ].
  change (reverse (seqZ (0 + Z.of_nat n) 1)) with [0 + Z.of_nat n]. cbn [fold_left hex_step].
  rewrite Z.add_0_l. set (nib := Z.land _ 15) in *.
  assert (0 <= nib < 16) as Hrng.
  { unfold nib. rewrite (Z.land_ones _ 4) by lia. by apply Z.mod_pos_bound. }
  destruct (HEX_digit nib Hrng) as (Hval & Hin & Hne).
  destruct (negb (nib =? 0) || negb (hex_value p =? 0) || (Z.of_nat n =? 0)) eqn:Hput.
  - set (c := byte_at HEX (Z.to_nat nib)) in *.
    assert (hex_value (p ++ [c]) = Z.shiftr v (Z.of_nat n * 4)) as Hp'.
    { rewrite hex_value_snoc, Hval. lia. }
    destruct (IH (p ++ [c]) (put c o) Hp') as (h & Hh & Hv' & Hf & Hlen & _).
    exists (c :: h). rewrite <- app_assoc in Hv'. cbn [app length] in *. split_and!.
    + change (put_str (c :: h) o) with (put_str h (put c o)). rewrite <- Hh. destruct n as [|n]; [done|]. do 3 f_equal. rewrite Hp', Hnib.
      destruct (Z.eqb_spec (16 * hex_value p + nib) 0); [|done].
      assert (nib = 0 /\ hex_value p = 0) as [Hn0 Hp0] by lia. by rewrite Hn0, Hp0 in Hput.
    + done.
    + by constructor.
    + lia.
    + intros Hp0 _. destruct (decide (nib = 0)) as [Hn0|]; [|right; exists c, h; auto].
      left. rewrite Hn0, Hp0 in Hput. destruct n; [|done].
      destruct h; [|cbn in Hlen; lia]. unfold c. by rewrite Hn0.
  - apply orb_false_elim in Hput as [[Hn0 Hp0]%orb_false_elim Hnz].
    apply negb_false_iff, Z.eqb_eq in Hn0, Hp0. apply Z.eqb_neq in Hnz.
    destruct (IH p o ltac:(lia)) as (h & Hh & Hv' & Hf & Hlen & Hlead).
    exists h. split_and!; [done..|lia|]. intros Hp0' _. apply Hlead; [done|lia].
Qed.

(** At most sixteen digits, for 64 bits. *)
Lemma put_hex_hexadecimal v o :
  0 <= v < 2 ^ 64 ->
  exists h, put_hex v o = put_str h o /\ hexadecimal v h /\ (1 <= length h <= 16)%nat.
Proof.
  intros Hv. destruct (put_hex_loop v 16 [] o) as (h & Hh & Hval & Hf & Hlen & Hlead).
  - lia.
  - rewrite Z.shiftr_div_pow2 by lia. symmetry. apply Z.div_small. lia.
  - exists h. assert (h = [48] \/ exists c r, h = c :: r /\ c <> 48) as Hl by (apply Hlead; [done|lia]).
    split_and!; [exact Hh| | |done].
    + by split_and!.
    + destruct Hl as [->|(c & r & -> & _)]; cbn; lia.
Qed.

(** ** The line in the buffer *)

Lemma length_field w s : length (pad w s) = w.
Proof. unfold pad. rewrite length_app, length_take, length_replicate. lia. Qed.

Lemma length_msg_cut msg : (length (msg_cut msg) <= 112)%nat.
Proof.
  unfold msg_cut, utf8_or_mark, from_utf8. destruct (valid_utf8 _); cbn; [|lia].
  rewrite length_firstn. lia.
Qed.

Lemma length_log_line c part sub msg t tenth :
  (length c <= 20)%nat -> (length t <= 20)%nat -> (length msg <= 112)%nat ->
  (length (log_line c part sub msg t tenth) <= 186)%nat.
Proof.
  intros. unfold log_line. rewrite !length_app, !length_field, length_replicate.
  change (length (str "[CPU")) with 4%nat. change (length (str "] [")) with 3%nat.
  change (length (str "] ")) with 2%nat. change (length (str " (")) with 2%nat.
  change (length (str " ms)")) with 4%nat. cbn [length]. lia.
Qed.

(** Everything [format_line] appends is the promised line, and it fits. *)
Lemma format_line_run cpu part sub msg ms10 buf :
  0 <= cpu < 2 ^ 64 -> 0 <= ms10 < 2 ^ 64 -> length buf = 224%nat ->
  exists c t buf', decimal cpu c /\ decimal (ms10 / 10) t /\ length buf' = 224%nat /\
    let line := log_line c part sub (msg_cut msg) t (ms10 mod 10) in
    format_line cpu part sub msg ms10 buf = Some (buf', length line) /\ take (length line) buf' = line.
Proof.
  intros Hcpu Hms Hbuf.
  assert (0 <= ms10 / 10 < 2 ^ 64) as Hdiv.
  { split; [apply Z.div_pos; lia|apply Z.div_lt_upper_bound; lia]. }
  unfold format_line.
  destruct (put_dec_decimal cpu (put_str (str "[CPU") (buf, O)) Hcpu) as (c & -> & Hc & Hlc).
  cbn [mbind option_bind]. rewrite !put_put_str, !put_pad_pad, !put_str_app.
  match goal with |- context [put_dec (ms10 / 10) ?o] =>
    destruct (put_dec_decimal (ms10 / 10) o Hdiv) as (t & -> & Ht & Hlt) end.
  cbn [mbind option_bind]. rewrite put_dec_digit by (apply Z.mod_pos_bound; lia).
  cbn [mbind option_bind]. rewrite !put_put_str, !put_str_app.
  rewrite (count_digits_numeral 20 cpu c 0 Hc) by lia.
  exists c, t. set (line := log_line _ _ _ _ _ _).
  assert (length line <= 186)%nat as Hline by (apply length_log_line; [lia|lia|apply length_msg_cut]).
  assert (room (buf, O)) as Hroom by (split; cbn; [done|lia]).
  destruct (put_str_fits line (buf, O) Hroom) as (Hr & Htxt & Hidx); [cbn [snd]; lia|].
  destruct (put_end_fits _ Hr) as (buf' & Hend & Hl' & Htake); [rewrite Hidx; cbn [snd]; lia|].
  cbn [snd Nat.add] in Hidx. rewrite Hidx in Hend, Htake.
  exists buf'. split_and!; [done..| |by rewrite Htake, Htxt].
  rewrite <- Hend. do 2 f_equal. unfold line, log_line.
  rewrite <- !app_assoc. replace (6 - (3 + (length c + 0)))%nat with (3 - length c)%nat by lia. done.
Qed.

(** The message [log_hex] builds: it needs a byte of the buffer to spare. *)
Lemma format_hex_run prefix val suffix buf :
  0 <= val < 2 ^ 64 -> length buf = 224%nat ->
  exists h, hexadecimal val h /\
    let msg := prefix ++ str "0x" ++ h ++ suffix in
    if decide (length msg < 224)%nat
    then exists buf', format_hex prefix val suffix buf = Some (buf', length msg)
           /\ length buf' = 224%nat /\ take (length msg) buf' = msg
    else format_hex prefix val suffix buf = None.
Proof.
  intros Hval Hbuf. unfold format_hex.
  destruct (put_hex_hexadecimal val (put 120 (put 48 (put_str prefix (buf, O)))) Hval) as (h & -> & Hh & _).
  exists h. split; [done|]. rewrite !put_put_str, !put_str_app. cbv zeta.
  change ([48] ++ [120] ++ h ++ suffix) with (str "0x" ++ h ++ suffix).
  set (msg := prefix ++ _).
  assert (room (buf, O)) as Hroom by (split; cbn; [done|lia]).
  case_decide as Hlt.
  - destruct (put_str_fits msg (buf, O) Hroom) as (Hr & Htxt & Hidx); [cbn [snd]; lia|].
    destruct (put_end_fits _ Hr) as (buf' & Hend & Hl' & Htake); [rewrite Hidx; cbn [snd]; lia|].
    cbn [snd Nat.add] in Hidx. rewrite Hidx in Hend, Htake. exists buf'. by rewrite Htake, Htxt.
  - destruct (text_put_str msg (buf, O) Hroom) as ([Hl Hi] & Htxt). unfold put_end.
    destruct (put_str msg (buf, O)) as [buf' i]. cbn [fst snd] in *.
    apply (f_equal length) in Htxt. unfold text in Htxt. cbn [fst snd] in Htxt.
    rewrite !length_take, length_app, length_take in Htxt.
    destruct (Nat.ltb_spec i (length buf')); [lia|done].
Qed.

(** ** Sending *)

Section Sending.
Context {D : Type} `{Uart D} (fuel : nat) (Hfuel : (patience < fuel)%nat).
Implicit Types (d : D).

(** A byte goes out as soon as the transmitter is empty. *)
Lemma serial_write_byte_sends b d :
  exists d', serial_write_byte fuel b d = (Ret tt, d') /\ wire d' = wire d ++ [b].
Proof.
  destruct (wait_bits_ends (E := Empty_set) (fun d' => wire d' = wire d) thr_empty uart_wait
              (COM1 + 5) 32) with (fuel := fuel) (d := d) as (d1 & Hd1 & Hw & Ht).
  - intros d1 Hd1. destruct (uart_poll d1) as [Hw Hcase]. by rewrite Hw.
  - done.
  - pose proof (uart_patience d). lia.
  - unfold serial_write_byte. run_with Hd1. eexists. split; [done|]. cbn. by rewrite uart_send, Hw.
Qed.

Lemma serial_debug_sends msg d :
  exists d', serial_debug fuel msg d = (Ret tt, d') /\ wire d' = wire d ++ until_nul msg.
Proof.
  revert d. induction msg as [|c msg IH]; intros d; cbn [serial_debug until_nul].
  - exists d. by rewrite app_nil_r.
  - destruct (c =? 0); [exists d; by rewrite app_nil_r|].
    destruct (serial_write_byte_sends c d) as (d1 & H1 & Hw1). destruct (IH d1) as (d2 & H2 & Hw2).
    exists d2. run_with H1. split; [done|]. by rewrite Hw2, Hw1, <- app_assoc.
Qed.

Lemma log_ms_run cpu part sub msg ms10 d l :
  0 <= cpu < 2 ^ 64 -> 0 <= ms10 < 2 ^ 64 -> length (LOG_BUF l) = 224%nat ->
  exists c t d' buf, decimal cpu c /\ decimal (ms10 / 10) t
    /\ log_ms cpu fuel part sub msg ms10 (d, l)
       = (Ret tt, (d', mkLog (TSC_PER_MS l) (LAST_TSC l) buf (FMT_BUF l)))
    /\ length buf = 224%nat
    /\ wire d' = wire d ++ until_nul (log_line c part sub (msg_cut msg) t (ms10 mod 10)).
Proof.
  intros Hcpu Hms Hl.
  destruct (format_line_run cpu part sub msg ms10 (LOG_BUF l) Hcpu Hms Hl)
    as (c & t & buf & Hc & Ht & Hbuf & Hrun & Htake).
  unfold log_ms, bind, gets, modify, zoom. cbn [snd]. rewrite Hrun. unfold or_panic, ret.
  cbn [fst snd]. rewrite Htake.
  match goal with |- context [serial_debug fuel ?m d] =>
    destruct (serial_debug_sends m d) as (d' & -> & Hw) end.
  by exists c, t, d', buf.
Qed.
End Sending.

(** ** A simulated UART, busy for three reads after each byte *)

Record SimUart : Type := mkSimUart { sent : list Z; busy : nat; clock : Z }.

Definition tick (d : SimUart) : SimUart := mkSimUart (sent d) (busy d) (u64 (clock d + 25000)).

#[export] Instance SimUart_Machine : Machine SimUart := {
  inb port d :=
    if port =? COM1 + 5 then
      match Nat.min (busy d) 3 with
      | O => (96, d)
      | S k => (0, mkSimUart (sent d) k (clock d))
      end
    else (255, d);
  outb port b d :=
    if (port =? COM1) && (busy d =? 0)%nat then mkSimUart (sent d ++ [b]) 3 (clock d) else d;
  inw port d := (65535, d);
  outw port v d := d;
  rdtsc d := (clock d, tick d);
}.

#[export, refine] Instance SimUart_Uart : Uart SimUart := {
  wire := sent;
  uart_wait d := Nat.min (busy d) 3;
  thr_empty d := busy d = 0%nat;
  patience := 3;
}.
Proof.
  - intros d. lia.
  - intros [s b c]. cbn [inb SimUart_Machine busy]. rewrite Z.eqb_refl.
    destruct (Nat.min b 3) as [|k] eqn:Hk; split; [done| |done|].
    + right. split; [done|]. cbn [snd busy]. lia.
    + left. split; [done|]. cbn [snd busy]. lia.
  - intros b [s k c] Hk. cbn in *. by subst.
  - done.
Defined.

(** ** Properties *)

(** C39: A log call sends its line: whenever the transmitter keeps becoming ready,
    [log_ms] returns, and the wire got the tag of the processor padded to three
    digits, both fields cut or padded to six bytes, the message cut to 112
    bytes, and the time in milliseconds with one decimal, up to the first zero
    byte of the message. No message makes the line overrun its buffer. *)
Theorem log_ms_sent {D : Type} `{Uart D} fuel cpu part sub msg ms10 d l :
  (patience < fuel)%nat -> 0 <= cpu < 2 ^ 64 -> 0 <= ms10 < 2 ^ 64 -> length (LOG_BUF l) = 224%nat ->
  exists c t d' buf, decimal cpu c /\ decimal (ms10 / 10) t
    /\ log_ms cpu fuel part sub msg ms10 (d, l)
       = (Ret tt, (d', mkLog (TSC_PER_MS l) (LAST_TSC l) buf (FMT_BUF l)))
    /\ length buf = 224%nat
    /\ wire d' = wire d ++ until_nul (log_line c part sub (msg_cut msg) t (ms10 mod 10)).
Proof. intros Hf. by apply log_ms_run. Qed.

Lemma log_ms_sent_witness : exists c t d' buf,
  decimal 12 c /\ decimal 70 t
  /\ log_ms 12 4 (str "KERNEL") (str "OK") (str "heap ready") 705 (mkSimUart [] 1 0, Log_new)
     = (Ret tt, (d', mkLog 1000000 0 buf (replicate 224 0)))
  /\ length buf = 224%nat
  /\ wire d' = until_nul (log_line c (str "KERNEL") (str "OK") (msg_cut (str "heap ready")) t 5).
Proof.
  destruct (log_ms_sent (D := SimUart) 4 12 (str "KERNEL") (str "OK") (str "heap ready") 705
              (mkSimUart [] 1 0) Log_new) as (c & t & d' & buf & Hrun); [cbn; lia|lia|lia|reflexivity|].
  exists c, t, d', buf. exact Hrun.
Defined.

Example log_ms_line :
  (let '(_, (d, _)) := log_ms 12 4 (str "KERNEL") (str "OK") (str "heap ready") 705
                         (mkSimUart [] 1 0, Log_new) in wire d)
  = str "[CPU12 ] [KERNEL] [OK    ] heap ready (70.5 ms)" ++ [13; 10].
Proof. reflexivity. Qed.

(** [log_hex] logs its prefix, the value as a hexadecimal numeral and its
    suffix, when these take at most 223 bytes; otherwise it panics on the byte
    behind its buffer before anything is sent. *)
Theorem log_hex_correct {D : Type} `{Uart D} fuel cpu part sub prefix val suffix d l :
  0 <= val < 2 ^ 64 -> length (FMT_BUF l) = 224%nat ->
  exists h, hexadecimal val h /\
    let msg := prefix ++ str "0x" ++ h ++ suffix in
    if decide (length msg < 224)%nat
    then exists buf, length buf = 224%nat /\
      log_hex cpu fuel part sub prefix val suffix (d, l)
      = log cpu fuel part sub (utf8_or_mark msg) (d, mkLog (TSC_PER_MS l) (LAST_TSC l) (LOG_BUF l) buf)
    else log_hex cpu fuel part sub prefix val suffix (d, l) = (Panic, (d, l)).
Proof.
  intros Hval Hl. destruct (format_hex_run prefix val suffix (FMT_BUF l) Hval Hl) as (h & Hh & Hrun).
  exists h. split; [done|]. cbv zeta in *. set (msg := prefix ++ _) in *.
  unfold log_hex, bind at 1, gets. cbn [snd]. destruct (decide (length msg < 224)%nat).
  - destruct Hrun as (buf & -> & Hlen & Htake). exists buf. split; [done|].
    unfold or_panic, bind, ret, modify. cbn [fst snd]. by rewrite Htake.
  - unfold log_hex, bind, gets. cbn [snd]. by rewrite Hrun.
Qed.

Lemma log_hex_correct_witness : exists h, hexadecimal 64206 h /\
  let msg := str "base " ++ str "0x" ++ h ++ str "." in
  if decide (length msg < 224)%nat
  then exists buf, length buf = 224%nat /\
    log_hex 0 4 (str "HEAP") (str "") (str "base ") 64206 (str ".") (mkSimUart [] 0 0, Log_new)
    = log 0 4 (str "HEAP") (str "") (utf8_or_mark msg)
        (mkSimUart [] 0 0, mkLog 1000000 0 (replicate 224 0) buf)
  else log_hex 0 4 (str "HEAP") (str "") (str "base ") 64206 (str ".") (mkSimUart [] 0 0, Log_new)
       = (Panic, (mkSimUart [] 0 0, Log_new)).
Proof.
  apply (log_hex_correct (D := SimUart) 4 0 (str "HEAP") (str "") (str "base ") 64206 (str ".")
           (mkSimUart [] 0 0) Log_new); [lia|reflexivity].
Defined.
