(* ===== verification/Acpi.v ===== *)
(** ACPI ([src/src/hal/acpi.rs]): the search for the root pointer, the walk
    over the system tables, the MADT, the shutdown values of the DSDT and the
    shutdown itself, over the physical memory as the firmware left it. *)

From Stdlib Require Import ZArith Lia Ascii String.
From stdpp Require Import base numbers list gmap.
From S2P Require Import Prelude Text Machine.

#[local] Open Scope Z_scope.

Definition MAPPED_LIMIT : Z := 1073741824.

Definition is_mapped (addr : Z) : bool := addr <? MAPPED_LIMIT.

(** ** State *)

Definition MAX_CPUS : nat := 8.

Record MadtInfo : Type := mkMadt {
  lapic_base : Z;
  io_apic_addr : Z;
  io_apic_id : Z;
  cpu_count : nat;
  cpu_apic_ids : list Z;
  pcat_compat : bool;
}.

Definition MADT_new : MadtInfo := mkMadt 4276092928 0 0 0 (replicate MAX_CPUS 0) false.

(** Log calls, in the order they are made. *)
Inductive msg : Type :=
| Log (part sub text : list Z)
| LogHex (prefix : list Z) (val : Z).

(** The statics of the file. *)
Record Acpi : Type := mkAcpi {
  MADT : MadtInfo;
  PM1A_CNT_BLK : Z;
  S5_SLP_TYPa : Z;
  S5_SLP_TYPb : Z;
  ACPI_READY : bool;
  msgs : list msg;
}.

Definition Acpi_new : Acpi := mkAcpi MADT_new 0 0 0 false [].

Definition set_MADT (m : MadtInfo) (s : Acpi) : Acpi :=
  mkAcpi m (PM1A_CNT_BLK s) (S5_SLP_TYPa s) (S5_SLP_TYPb s) (ACPI_READY s) (msgs s).
Definition set_PM1A (v : Z) (s : Acpi) : Acpi :=
  mkAcpi (MADT s) v (S5_SLP_TYPa s) (S5_SLP_TYPb s) (ACPI_READY s) (msgs s).
Definition set_TYPa (v : Z) (s : Acpi) : Acpi :=
  mkAcpi (MADT s) (PM1A_CNT_BLK s) v (S5_SLP_TYPb s) (ACPI_READY s) (msgs s).
Definition set_TYPb (v : Z) (s : Acpi) : Acpi :=
  mkAcpi (MADT s) (PM1A_CNT_BLK s) (S5_SLP_TYPa s) v (ACPI_READY s) (msgs s).
Definition set_READY (b : bool) (s : Acpi) : Acpi :=
  mkAcpi (MADT s) (PM1A_CNT_BLK s) (S5_SLP_TYPa s) (S5_SLP_TYPb s) b (msgs s).
Definition add_msg (m : msg) (s : Acpi) : Acpi :=
  mkAcpi (MADT s) (PM1A_CNT_BLK s) (S5_SLP_TYPa s) (S5_SLP_TYPb s) (ACPI_READY s) (msgs s ++ [m]).

Definition set_lapic_base (v : Z) (m : MadtInfo) : MadtInfo :=
  mkMadt v (io_apic_addr m) (io_apic_id m) (cpu_count m) (cpu_apic_ids m) (pcat_compat m).
Definition set_io_apic (id addr : Z) (m : MadtInfo) : MadtInfo :=
  mkMadt (lapic_base m) addr id (cpu_count m) (cpu_apic_ids m) (pcat_compat m).
Definition set_pcat (b : bool) (m : MadtInfo) : MadtInfo :=
  mkMadt (lapic_base m) (io_apic_addr m) (io_apic_id m) (cpu_count m) (cpu_apic_ids m) b.
Definition add_cpu (id : Z) (m : MadtInfo) : MadtInfo :=
  mkMadt (lapic_base m) (io_apic_addr m) (io_apic_id m) (S (cpu_count m))
    (<[cpu_count m := id]> (cpu_apic_ids m)) (pcat_compat m).

(** ** The tables' structures *)

(** A packed structure: its fields in order, with their sizes in bytes. *)
Definition layout : Type := list (string * Z).

Definition size_of (l : layout) : Z := foldr (fun f n => f.2 + n) 0 l.

(** The bytes before a field. *)
Fixpoint offset_of (l : layout) (field : string) : Z :=
  match l with
  | [] => 0
  | (f, n) :: l => if String.eqb f field then 0 else n + offset_of l field
  end.

Definition Rsdp : layout :=
  [("signature", 8); ("checksum", 1); ("oem_id", 6); ("revision", 1); ("rsdt_addr", 4); ("length", 4);
   ("xsdt_addr", 8); ("extended_checksum", 1); ("_reserved", 3)]%string.

Definition SdtHeader : layout :=
  [("signature", 4); ("length", 4); ("revision", 1); ("checksum", 1); ("oem_id", 6); ("oem_table_id", 8);
   ("oem_revision", 4); ("creator_id", 4); ("creator_revision", 4)]%string.

Definition Fadt : layout :=
  [("header", size_of SdtHeader); ("firmware_ctrl", 4); ("dsdt_addr", 4); ("_reserved1", 1);
   ("preferred_pm_profile", 1); ("sci_int", 2); ("smi_cmd", 4); ("acpi_enable", 1); ("acpi_disable", 1);
   ("s4bios_req", 1); ("pstate_cnt", 1); ("pm1a_evt_blk", 4); ("pm1b_evt_blk", 4); ("pm1a_cnt_blk", 4);
   ("pm1b_cnt_blk", 4); ("pm2_cnt_blk", 4); ("pm_tmr_blk", 4); ("gpe0_blk", 4); ("gpe1_blk", 4);
   ("pm1_evt_len", 1); ("pm1_cnt_len", 1); ("pm2_cnt_len", 1); ("pm_tmr_len", 1); ("gpe0_blk_len", 1);
   ("gpe1_blk_len", 1); ("gpe1_base", 1); ("_cst_cnt", 1); ("plvl2_lat", 2); ("plvl3_lat", 2);
   ("flush_size", 2); ("flush_stride", 2); ("duty_offset", 1); ("duty_width", 1); ("day_alrm", 1);
   ("month_alrm", 1); ("century", 1); ("iapc_boot_arch", 2); ("_reserved2", 1); ("flags", 4);
   ("reset_reg", 12); ("reset_value", 1); ("_reserved3", 3); ("x_firmware_ctrl", 8); ("x_dsdt_addr", 8);
   ("x_pm1a_cnt_blk", 12); ("x_pm1b_cnt_blk", 12); ("x_pm2_cnt_blk", 12); ("x_pm_tmr_blk", 12);
   ("x_gpe0_blk", 12); ("x_gpe1_blk", 12)]%string.

(** A field's offset, and a structure's size, as numerals. *)
Notation "'field' l f" := ltac:(let n := eval vm_compute in (offset_of l f%string) in exact n)
  (at level 10, l at level 9, f at level 9, only parsing).
Notation "'bytes_of' l" := ltac:(let n := eval vm_compute in (size_of l) in exact n)
  (at level 10, l at level 9, only parsing).

(** ** Memory accesses *)

(** An access outside the mapped memory. *)
Inductive fault : Type := PageFault.

Section Acpi.
(** The bytes of the mapped memory. *)
Context (mem : Z -> option Z).

Abbreviation AM := (M Acpi fault).

Definition read_byte (addr : Z) : AM Z := ok_or (mem addr) PageFault.

(** [ptr::read_unaligned] of [n] bytes, least significant first. *)
Fixpoint read_le (n : nat) (addr : Z) : AM Z :=
  match n with
  | O => ret 0
  | S n =>
      let! b := read_byte addr in
      let! r := read_le n (usize (addr + 1)) in
      ret (b + 256 * r)
  end.

(** [data[i]] of the slice of [len] bytes at [base]. *)
Definition index (base len i : Z) : AM Z :=
  if (0 <=? i) && (i <? len) then read_byte (base + i) else panic.

(** [uN::from_le_bytes] of the [n] bytes at [data[i..]]. *)
Fixpoint index_le (n : nat) (base len i : Z) : AM Z :=
  match n with
  | O => ret 0
  | S n =>
      let! b := index base len i in
      let! r := index_le n base len (i + 1) in
      ret (b + 256 * r)
  end.

Definition log_acpi (s : string) : AM unit := modify (add_msg (Log (str "KERN") (str "ACPI") (str s))).
Definition log_hex (prefix : string) (val : Z) : AM unit := modify (add_msg (LogHex (str prefix) val)).

(** Enough turns for a loop that goes up to [n] and reads a byte of mapped
    memory further on in every turn. *)
Definition turns (n : Z) : nat := S (Z.to_nat (Z.min n MAPPED_LIMIT)).

(** [SdtHeader::length]. *)
Definition sdt_length (addr : Z) : AM Z := read_le 4 (addr + field SdtHeader "length").

(** ** The MADT *)

Definition format_cpus (n : Z) : option (list Z) :=
  option_map (app (str "cores detected: ")) (dec_text n).

(** One entry of the table, of [elen] bytes at [off]. *)
Definition madt_entry (addr len off etype elen : Z) : AM unit :=
  if etype =? 0 then
    if 8 <=? elen then
      let! apic_id := index addr len (off + 3) in
      let! ena := index_le 4 addr len (off + 4) in
      modify (fun s =>
        if negb (Z.land ena 1 =? 0) && (cpu_count (MADT s) <? MAX_CPUS)%nat
        then set_MADT (add_cpu apic_id (MADT s)) s else s)
    else ret tt
  else if etype =? 1 then
    if 12 <=? elen then
      let! id := index addr len (off + 2) in
      let! a := index_le 4 addr len (off + 4) in
      modify (fun s => set_MADT (set_io_apic id a (MADT s)) s)
    else ret tt
  else if etype =? 5 then
    if 12 <=? elen then
      let! a := index_le 8 addr len (off + 4) in
      modify (fun s => if negb (a =? 0) then set_MADT (set_lapic_base a (MADT s)) s else s)
    else ret tt
  else ret tt.

Fixpoint madt_loop (fuel : nat) (addr len off : Z) : AM unit :=
  match fuel with
  | O => hang
  | S fuel =>
      if off + 2 <=? len then
        let! etype := index addr len off in
        let! elen := index addr len (off + 1) in
        if (elen <? 2) || (len <? off + elen) then ret tt
        else
          do! madt_entry addr len off etype elen in
          madt_loop fuel addr len (off + elen)
      else ret tt
  end.

Definition parse_madt (addr : Z) : AM unit :=
  do! log_acpi "MADT found, parsing APIC entries" in
  let! len := sdt_length addr in
  if len <? 48 then log_acpi "MADT too short"
  else
    let! lapic_addr := index_le 4 addr len 36 in
    let! flags := index_le 4 addr len 40 in
    do! modify (fun s => set_MADT (set_lapic_base lapic_addr (MADT s)) s) in
    do! modify (fun s => set_MADT (set_pcat (negb (Z.land flags 1 =? 0)) (MADT s)) s) in
    do! madt_loop (turns len) addr len 44 in
    let! m := gets MADT in
    do! log_hex "MADT: LAPIC base = " (lapic_base m) in
    do! log_hex "MADT: IO-APIC @ " (io_apic_addr m) in
    let! t := or_panic (format_cpus (Z.of_nat (cpu_count m))) in
    modify (add_msg (Log (str "ACPI") (str "MADT") t)).

(** ** The DSDT *)

(** [data[i + 1] == b1 && data[i + 2] == b2 && ..]. *)
Fixpoint bytes_match (addr len i : Z) (pat : list Z) : AM bool :=
  match pat with
  | [] => ret true
  | p :: pat =>
      let! b := index addr len i in
      if b =? p then bytes_match addr len (i + 1) pat else ret false
  end.

(** A byte constant of the package: its value, stored by [store], and the
    offset behind it. *)
Definition byte_const (addr len offset : Z) (store : Z -> Acpi -> Acpi) : AM Z :=
  let! b := if offset <? len then index addr len offset else ret 0 in
  if (offset <? len) && (b =? 10) then
    if offset + 1 <? len then
      let! v := index addr len (offset + 1) in
      do! modify (store v) in ret (offset + 2)
    else ret (offset + 1)
  else ret offset.

(** The package that follows the name at [i]. *)
Definition s5_package (addr len i : Z) : AM unit :=
  let! op := if i + 5 <? len then index addr len (i + 5) else ret 0 in
  if (i + 5 <? len) && (op =? 18) then
    let pkg_start := i + 6 in
    if pkg_start + 2 <? len then
      let! pkg_len_byte := index addr len pkg_start in
      if pkg_start + 1 + pkg_len_byte <=? len then
        let! offset := byte_const addr len (pkg_start + 1) set_TYPa in
        do! byte_const addr len offset set_TYPb in
        let! s := get in
        do! log_hex "S5 SLP_TYPa = " (S5_SLP_TYPa s) in
        log_hex "S5 SLP_TYPb = " (S5_SLP_TYPb s)
      else ret tt
    else ret tt
  else ret tt.

(** The search for the name, which returns on the first one found. *)
Fixpoint s5_loop (fuel : nat) (addr len i last : Z) : AM unit :=
  match fuel with
  | O => hang
  | S fuel =>
      if i <? last then
        let! b := index addr len i in
        let! found :=
          (if b =? 8
           then if i + 5 <? len then bytes_match addr len (i + 1) [95; 83; 53; 0] else ret false
           else ret false) in
        if found then
          do! log_hex "\_S5 found at DSDT offset " i in
          s5_package addr len i
        else s5_loop fuel addr len (i + 1) last
      else log_acpi "\_S5 not found in DSDT, shutdown via ACPI unavailable"
  end.

Definition parse_s5 (dsdt_addr : Z) : AM unit :=
  let! dsdt_len := sdt_length dsdt_addr in
  s5_loop (turns dsdt_len) dsdt_addr dsdt_len 0 (usize (dsdt_len - 20)).

(** ** The tables *)

(** The loop over the BIOS area for the signature of the root pointer. *)
Fixpoint find_rsdp (n : nat) (addr : Z) : AM (option Z) :=
  match n with
  | O => ret None
  | S n =>
      let! sig := read_le 8 addr in
      if sig =? le_val (str "RSD PTR ")
      then do! log_hex "RSDP found at " addr in ret (Some addr)
      else find_rsdp n (addr + 16)
  end.

(** The sum of [len] bytes from [addr + i] on. *)
Fixpoint checksum (fuel : nat) (addr i len sum : Z) : AM Z :=
  match fuel with
  | O => hang
  | S fuel =>
      if i <? len then
        let! b := read_byte (addr + i) in
        checksum fuel addr (i + 1) len (u8 (sum + b))
      else ret sum
  end.

(** The FADT at [addr]. *)
Definition parse_fadt (addr : Z) : AM unit :=
  let! pm1a := read_le 4 (addr + field Fadt "pm1a_cnt_blk") in
  do! modify (set_PM1A pm1a) in
  do! log_hex "FADT found, PM1a_CNT_BLK = " pm1a in
  let! x_dsdt := read_le 8 (addr + field Fadt "x_dsdt_addr") in
  let! dsdt_addr := if negb (x_dsdt =? 0) then ret x_dsdt else read_le 4 (addr + field Fadt "dsdt_addr") in
  if negb (dsdt_addr =? 0) && is_mapped dsdt_addr then
    do! log_hex "DSDT at " dsdt_addr in
    parse_s5 dsdt_addr
  else if negb (dsdt_addr =? 0) then log_acpi "DSDT outside mapped range"
  else ret tt.

(** The walk over the entries: whether a FADT was seen. *)
Fixpoint walk_tables (fuel : nat) (is_xsdt : bool) (entries_addr i num : Z) (fadt_found : bool) :
    AM bool :=
  match fuel with
  | O => hang
  | S fuel =>
      if i <? num then
        let! entry_addr :=
          (if is_xsdt then read_le 8 (usize (entries_addr + i * 8))
           else read_le 4 (usize (entries_addr + i * 4))) in
        if (entry_addr =? 0) || negb (is_mapped entry_addr)
        then walk_tables fuel is_xsdt entries_addr (i + 1) num fadt_found
        else
          let! sig := read_le 4 entry_addr in
          if sig =? le_val (str "APIC") then
            do! parse_madt entry_addr in
            walk_tables fuel is_xsdt entries_addr (i + 1) num fadt_found
          else if sig =? le_val (str "FACP") then
            do! parse_fadt entry_addr in
            walk_tables fuel is_xsdt entries_addr (i + 1) num true
          else walk_tables fuel is_xsdt entries_addr (i + 1) num fadt_found
      else ret fadt_found
  end.

(** The walk from the table of tables at [sdt_addr]. *)
Definition walk_sdt (is_xsdt : bool) (sdt_addr : Z) : AM unit :=
  if negb (is_mapped sdt_addr) then log_acpi "SDT outside mapped range"
  else
    let! length := sdt_length sdt_addr in
    let num_entries := usize (length - bytes_of SdtHeader) / (if is_xsdt then 8 else 4) in
    do! log_acpi "walking SDT entries" in
    let! fadt_found := walk_tables (turns num_entries) is_xsdt (sdt_addr + bytes_of SdtHeader) 0 num_entries false in
    if negb fadt_found then log_acpi "FADT not found"
    else
      do! modify (set_READY true) in
      log_acpi "ACPI initialised - S5 shutdown available".

(** The root pointer at [rsdp]: its checksum and the table it names. *)
Definition parse_rsdp (rsdp : Z) : AM unit :=
  let! revision := read_byte (rsdp + field Rsdp "revision") in
  let! len := if 2 <=? revision then read_le 4 (rsdp + field Rsdp "length") else ret 20 in
  let! sum := checksum (turns len) rsdp 0 len 0 in
  if negb (sum =? 0) then log_acpi "RSDP checksum FAILED"
  else
    do! log_acpi "RSDP checksum OK" in
    let! xsdt_addr := if 2 <=? revision then read_le 8 (rsdp + field Rsdp "xsdt_addr") else ret 0 in
    let is_xsdt := (2 <=? revision) && negb (xsdt_addr =? 0) in
    if is_xsdt then
      do! log_acpi "using XSDT (ACPI 2.0+)" in
      walk_sdt true xsdt_addr
    else
      do! log_acpi "using RSDT (ACPI 1.0)" in
      let! rsdt_addr := read_le 4 (rsdp + field Rsdp "rsdt_addr") in
      walk_sdt false rsdt_addr.

Definition init : AM unit :=
  do! log_acpi "scanning BIOS ROM 0xE0000..0xFFFFF for RSDP" in
  let! rsdp := find_rsdp (Z.to_nat 8192) 917504 in
  match rsdp with
  | None => log_acpi "RSDP not found - ACPI unavailable"
  | Some rsdp => parse_rsdp rsdp
  end.

Definition is_ready (s : Acpi) : bool := ACPI_READY s.
End Acpi.

(** ** Shutdown *)

(** The value for the control register: the sleep type and the enable bit. *)
Definition pm1_value (slp_typa : Z) : Z := Z.lor (u16 (Z.shiftl slp_typa 2)) (Z.shiftl 1 13).

(** The writes; then the processor halts for good, unless one of them ended
    the machine. *)
Definition shutdown {D} `{Machine D} (s : Acpi) : M D Empty_set unit :=
  do! (if negb (PM1A_CNT_BLK s =? 0) && ACPI_READY s then
         let val := pm1_value (S5_SLP_TYPa s) in
         let port := u16 (PM1A_CNT_BLK s) in
         do! outb_m port (Z.land val 255) in
         outb_m (u16 (port + 1)) (Z.land (Z.shiftr val 8) 255)
       else ret tt) in
  do! outb_m 1281 49 in
  hang.
