(* ===== verification/AcpiSpec.v ===== *)
(** What ACPI promises: whatever the firmware's tables hold, the statics keep
    their types and every loop ends; a well-formed MADT is read for what it
    says; and where the shutdown values differ from the standard. *)

From Stdlib Require Import ZArith Lia Ascii String.
From stdpp Require Import base numbers list gmap.
From S2P Require Import Prelude Hoare Text Machine Acpi.

#[local] Open Scope Z_scope.

(** ** Physical memory

    The loader maps the first gigabyte; other accesses fault. *)
Class PhysicalMemory (mem : Z -> option Z) : Prop :=
  mem_mapped : forall a b, mem a = Some b -> 0 <= a < MAPPED_LIMIT /\ is_byte b.

(** ** Types of the statics *)

Definition madt_ok (m : MadtInfo) : Prop :=
  0 <= lapic_base m < 2 ^ 64 /\ 0 <= io_apic_addr m < 2 ^ 32 /\ is_byte (io_apic_id m)
  /\ (cpu_count m <= MAX_CPUS)%nat /\ length (cpu_apic_ids m) = MAX_CPUS /\ bytes (cpu_apic_ids m).

Definition acpi_ok (s : Acpi) : Prop :=
  madt_ok (MADT s) /\ 0 <= PM1A_CNT_BLK s < 2 ^ 32
  /\ is_byte (S5_SLP_TYPa s) /\ is_byte (S5_SLP_TYPb s).

(** ** A MADT and what it says *)

(** The interrupt controller structures; [Other] is any further type. *)
Inductive ics : Type :=
| LocalApic (proc id flags : Z)
| IoApic (id addr gsi : Z)
| LapicOverride (addr : Z)
| Other (etype : Z) (body : list Z).

Definition ics_wf (e : ics) : Prop :=
  match e with
  | LocalApic proc id flags => is_byte proc /\ is_byte id /\ 0 <= flags < 2 ^ 32
  | IoApic id addr gsi => is_byte id /\ 0 <= addr < 2 ^ 32 /\ 0 <= gsi < 2 ^ 32
  | LapicOverride addr => 0 <= addr < 2 ^ 64
  | Other etype body =>
      is_byte etype /\ etype <> 0 /\ etype <> 1 /\ etype <> 5 /\ (length body <= 253)%nat /\ bytes body
  end.

Definition encode_ics (e : ics) : list Z :=
  match e with
  | LocalApic proc id flags => [0; 8; proc; id] ++ le_bytes 4 flags
  | IoApic id addr gsi => [1; 12; id; 0] ++ le_bytes 4 addr ++ le_bytes 4 gsi
  | LapicOverride addr => [5; 12; 0; 0] ++ le_bytes 8 addr
  | Other etype body => [etype; 2 + Z.of_nat (length body)] ++ body
  end.

(** A table: the header with the table's length at its place, the address of
    the local APIC, the flags and the structures. *)
Definition encode_madt (sig tail : list Z) (lapic flags : Z) (es : list ics) : list Z :=
  let body := concat (encode_ics <$> es) in
  sig ++ le_bytes 4 (44 + Z.of_nat (length body)) ++ tail ++ le_bytes 4 lapic ++ le_bytes 4 flags ++ body.

(** The effect of one structure: processors beyond the eighth are ignored. *)
Definition apply_ics (m : MadtInfo) (e : ics) : MadtInfo :=
  match e with
  | LocalApic _ id flags =>
      if Z.testbit flags 0 && (cpu_count m <? MAX_CPUS)%nat then add_cpu id m else m
  | IoApic id addr _ => set_io_apic id addr m
  | LapicOverride addr => if addr =? 0 then m else set_lapic_base addr m
  | Other _ _ => m
  end.

(** Memory holds the bytes [l] at [addr]. *)
Definition stored (mem : Z -> option Z) (addr : Z) (l : list Z) : Prop :=
  forall i b, l !! i = Some b -> mem (addr + Z.of_nat i) = Some b.

(** The processors that a table enables, and the other values it gives. *)
Definition enabled_cpu (e : ics) : option Z :=
  match e with LocalApic _ id flags => if Z.testbit flags 0 then Some id else None | _ => None end.

Definition last_lapic (base : Z) (es : list ics) : Z :=
  fold_left (fun a e => match e with LapicOverride b => if b =? 0 then a else b | _ => a end) es base.

Definition last_io_apic (io : Z * Z) (es : list ics) : Z * Z :=
  fold_left (fun p e => match e with IoApic id a _ => (id, a) | _ => p end) es io.

(** What the whole table does to the statics. *)
Definition madt_result (lapic flags : Z) (es : list ics) (m : MadtInfo) : MadtInfo :=
  fold_left apply_ics es (set_pcat (Z.testbit flags 0) (set_lapic_base lapic m)).

(** The name as the code looks for it, behind its name operator. *)
Definition s5_at (data : list Z) (i : nat) : Prop := take 5 (drop i data) = [8; 95; 83; 53; 0].
#[export] Instance s5_at_dec data i : Decision (s5_at data i) := list_eq_dec _ _.

(** ** A firmware image: root pointer, RSDT, FADT, MADT and DSDT *)

Module Firmware.
Definition put_at (a : Z) (l : list Z) (mem : Z -> option Z) : Z -> option Z := fun x =>
  if (a <=? x) && (x <? a + Z.of_nat (length l)) then l !! Z.to_nat (x - a) else mem x.

Definition header (sig : list Z) (n : Z) : list Z := sig ++ le_bytes 4 n ++ replicate 28 0.

Definition madt_entries : list ics :=
  [LocalApic 0 0 1; LocalApic 1 2 1; LocalApic 2 4 0; IoApic 1 4273995776 0; LapicOverride 0;
   Other 2 [0; 9; 9; 0; 0; 0; 13; 0]].

Definition madt : list Z := encode_madt (str "APIC") (replicate 28 0) 4276092928 1 madt_entries.
(** The package [_S5_], with 5 for both sleep types. *)
Definition dsdt : list Z :=
  header (str "DSDT") 70 ++ [8; 95; 83; 53; 95; 18; 8; 4; 10; 5; 10; 5; 0; 0] ++ replicate 20 0.
Definition fadt : list Z :=
  header (str "FACP") 116 ++ le_bytes 4 0 ++ le_bytes 4 4096 ++ replicate 20 0 ++ le_bytes 4 1540
  ++ replicate 48 0.
Definition rsdt : list Z := header (str "RSDT") 44 ++ le_bytes 4 8192 ++ le_bytes 4 12288.
Definition rsdp : list Z := str "RSD PTR " ++ [161] ++ replicate 7 0 ++ le_bytes 4 16384.

Definition mem : Z -> option Z :=
  put_at 983040 rsdp (put_at 16384 rsdt (put_at 8192 fadt (put_at 12288 madt (put_at 4096 dsdt
    (fun x => if (0 <=? x) && (x <? 1048576) then Some 0 else None))))).
End Firmware.

Definition booted : Acpi := (init Firmware.mem Acpi_new).2.

(** ** Invariants of the parsers *)

Section Types.
Context (mem : Z -> option Z) `{PhysicalMemory mem} (panic_ok : Prop).

Abbreviation keep := (keeps acpi_ok (fun _ : fault => True) panic_ok False).

Lemma read_byte_keeps a : keep (read_byte mem a) (fun b => is_byte b /\ 0 <= a < MAPPED_LIMIT).
Proof.
  apply keeps_ok_or; [done|]. intros b Hb. destruct (mem_mapped a b Hb). by split.
Qed.

Lemma read_le_keeps n a :
  keep (read_le mem n a) (fun v => 0 <= v < 256 ^ Z.of_nat n /\ (n <> O -> 0 <= a < MAPPED_LIMIT)).
Proof.
  revert a. induction n as [|n IH]; intros a; cbn [read_le]; [by apply keeps_ret|].
  eapply keeps_bind; [apply read_byte_keeps|]. intros b [Hb Ha].
  eapply keeps_bind; [apply IH|]. intros r [Hr _]. apply keeps_ret. unfold is_byte in Hb.
  rewrite Nat2Z.inj_succ, Z.pow_succ_r by lia. split; [lia|done].
Qed.

Lemma index_keeps base len i :
  0 <= base -> 0 <= i < len \/ panic_ok ->
  keep (index mem base len i) (fun b => is_byte b /\ 0 <= i < len /\ i < MAPPED_LIMIT).
Proof.
  intros Hb Hi. unfold index. destruct (Z.leb_spec 0 i), (Z.ltb_spec i len); cbn [andb].
  1: { eapply keeps_weaken; [apply read_byte_keeps|]. intros b [? ?]. split_and!; try done; lia. }
  all: apply keeps_panic; destruct Hi; [lia|done].
Qed.

Lemma index_le_keeps n base len i :
  0 <= base -> 0 <= i /\ i + Z.of_nat n <= len \/ panic_ok ->
  keep (index_le mem n base len i) (fun v => 0 <= v < 256 ^ Z.of_nat n).
Proof.
  intros Hb. revert i. induction n as [|n IH]; intros i Hi; cbn [index_le]; [by apply keeps_ret|].
  eapply keeps_bind; [apply index_keeps; [done|destruct Hi; [left; lia|by right]]|].
  intros b (Hbb & _). eapply keeps_bind; [apply IH; destruct Hi; [left; lia|by right]|].
  intros r Hr. apply keeps_ret. unfold is_byte in Hbb.
  rewrite Nat2Z.inj_succ, Z.pow_succ_r by lia. cbv beta in Hr. lia.
Qed.

(** Setters keep the types. *)
Lemma add_msg_ok m s : acpi_ok s -> acpi_ok (add_msg m s).
Proof. done. Qed.

Lemma log_keeps t : keep (log_acpi t) (fun _ => True).
Proof. by apply keeps_modify. Qed.

Lemma log_hex_keeps t v : keep (log_hex t v) (fun _ => True).
Proof. by apply keeps_modify. Qed.

Lemma add_cpu_ok id m : madt_ok m -> is_byte id -> (cpu_count m < MAX_CPUS)%nat -> madt_ok (add_cpu id m).
Proof.
  intros (? & ? & ? & Hc & Hl & Hb) Hid Hlt. unfold madt_ok. cbn [add_cpu lapic_base io_apic_addr
    io_apic_id cpu_count cpu_apic_ids]. rewrite length_insert. split_and!; try done; try lia.
  by apply Forall_insert.
Qed.

Lemma set_MADT_ok m s : acpi_ok s -> madt_ok m -> acpi_ok (set_MADT m s).
Proof. unfold acpi_ok. cbn. tauto. Qed.

Lemma madt_entry_keeps addr len off etype elen :
  0 <= addr -> 0 <= off -> off + elen <= len ->
  keep (madt_entry mem addr len off etype elen) (fun _ => True).
Proof.
  intros Ha Ho Hl. unfold madt_entry. repeat case_match; try by apply keeps_ret.
  all: try (eapply keeps_bind; [apply index_keeps; [done|left; lia]|]; intros id (Hid & _)).
  all: eapply keeps_bind; [apply index_le_keeps; [done|left; lia]|]; intros a Hav.
  all: apply keeps_modify; [|done]; intros s Hs; pose proof Hs as (Hm & _).
  - case_match eqn:Hen; [|done]. apply andb_true_iff in Hen as [_ Hlt%Nat.ltb_lt].
    by apply set_MADT_ok, add_cpu_ok.
  - apply set_MADT_ok; [done|]. unfold madt_ok in *. cbn. intuition lia.
  - case_match; [|done]. apply set_MADT_ok; [done|]. unfold madt_ok in *. cbn. intuition lia.
Qed.

(** The fuel is never used up: the structures advance, and reads stop at the
    end of mapped memory. *)
Lemma madt_loop_keeps fuel addr len off :
  0 <= addr -> 0 <= off -> (0 < fuel)%nat -> Z.min len MAPPED_LIMIT < Z.of_nat fuel + off ->
  keep (madt_loop mem fuel addr len off) (fun _ => True).
Proof.
  intros Ha. revert off. induction fuel as [|fuel IH]; intros off Ho Hf Hm; [lia|]. cbn [madt_loop].
  destruct (Z.leb_spec (off + 2) len); [|by apply keeps_ret].
  eapply keeps_bind; [apply index_keeps; [done|left; lia]|]. intros etype (_ & _ & Hlim).
  eapply keeps_bind; [apply index_keeps; [done|left; lia]|]. intros elen (Helen & _). unfold is_byte in *.
  destruct ((elen <? 2) || (len <? off + elen)) eqn:Hstop; [by apply keeps_ret|].
  apply orb_false_elim in Hstop as [H2%Z.ltb_ge Hl%Z.ltb_ge].
  eapply keeps_bind; [apply madt_entry_keeps; lia|]. intros _ _. apply IH; lia.
Qed.

Lemma turns_enough n off : 0 <= off -> 0 <= n -> Z.min n MAPPED_LIMIT < Z.of_nat (turns n) + off.
Proof. unfold turns, MAPPED_LIMIT. lia. Qed.

Lemma parse_madt_keeps addr : 0 <= addr -> keep (parse_madt mem addr) (fun _ => True).
Proof.
  intros Ha. unfold parse_madt. eapply keeps_bind; [apply log_keeps|]. intros _ _.
  eapply keeps_bind; [apply read_le_keeps|]. intros len [Hlen _].
  destruct (Z.ltb_spec len 48); [apply log_keeps|].
  eapply keeps_bind; [apply index_le_keeps; [done|left; lia]|]. intros lapic Hlapic.
  eapply keeps_bind; [apply index_le_keeps; [done|left; lia]|]. intros flags _.
  eapply keeps_bind; [apply (keeps_modify _ _ _ _ _ (fun _ => True)); [|done]|intros _ _].
  { intros s Hs. pose proof Hs as (Hm & _). apply set_MADT_ok; [done|].
    unfold madt_ok in *. cbn in *. intuition lia. }
  eapply keeps_bind; [apply (keeps_modify _ _ _ _ _ (fun _ => True)); [|done]|intros _ _].
  { intros s Hs. pose proof Hs as (Hm & _). by apply set_MADT_ok. }
  eapply keeps_bind; [apply madt_loop_keeps; [done|lia|unfold turns; lia|apply turns_enough; lia]|].
  intros _ _.
  eapply keeps_bind; [apply (keeps_gets _ _ _ _ _ madt_ok); by intros s (Hm & _)|]. intros m Hm.
  eapply keeps_bind; [apply log_hex_keeps|]. intros _ _.
  eapply keeps_bind; [apply log_hex_keeps|]. intros _ _.
  destruct Hm as (_ & _ & _ & Hc & _). unfold MAX_CPUS in Hc.
  destruct (dec_text_decimal (Z.of_nat (cpu_count m))) as (l & Hl & _); [lia|].
  eapply keeps_bind.
  - eapply (keeps_or_panic _ _ _ _ _ (fun _ => True)); [unfold format_cpus; by rewrite Hl|done].
  - intros t _. by apply keeps_modify.
Qed.

Lemma bytes_match_keeps addr len i pat :
  0 <= addr -> panic_ok -> keep (bytes_match mem addr len i pat) (fun _ => True).
Proof.
  intros Ha Hp. revert i. induction pat as [|p pat IH]; intros i; cbn [bytes_match]; [by apply keeps_ret|].
  eapply keeps_bind; [apply index_keeps; auto|]. intros b _.
  destruct (b =? p); [apply IH|by apply keeps_ret].
Qed.

Lemma byte_const_keeps addr len offset store :
  0 <= addr -> panic_ok -> (forall v s, is_byte v -> acpi_ok s -> acpi_ok (store v s)) ->
  keep (byte_const mem addr len offset store) (fun _ => True).
Proof.
  intros Ha Hp Hst. unfold byte_const. eapply (keeps_bind _ _ _ _ _ _ (fun _ => True)).
  { case_match; [|by apply keeps_ret]. eapply keeps_weaken; [apply index_keeps; auto|done]. }
  intros b _. repeat case_match; try by apply keeps_ret.
  eapply keeps_bind; [apply index_keeps; auto|]. intros v (Hv & _).
  eapply keeps_bind; [apply (keeps_modify _ _ _ _ _ (fun _ => True)); [by auto|done]|].
  intros _ _. by apply keeps_ret.
Qed.

Lemma s5_package_keeps addr len i : 0 <= addr -> panic_ok -> keep (s5_package mem addr len i) (fun _ => True).
Proof.
  intros Ha Hp. unfold s5_package. eapply (keeps_bind _ _ _ _ _ _ (fun _ => True)).
  { case_match; [|by apply keeps_ret]. eapply keeps_weaken; [apply index_keeps; auto|done]. }
  intros op _. repeat case_match; try by apply keeps_ret.
  eapply keeps_bind; [apply index_keeps; auto|]. intros plen _. case_match; [|by apply keeps_ret].
  eapply keeps_bind; [apply byte_const_keeps; [done..|]; unfold acpi_ok; cbn; tauto|]. intros o _.
  eapply keeps_bind; [apply byte_const_keeps; [done..|]; unfold acpi_ok; cbn; tauto|]. intros o' _.
  eapply keeps_bind; [by apply (keeps_get _ _ _ _ (fun _ => True))|]. intros s _.
  eapply keeps_bind; [apply log_hex_keeps|]. intros _ _. apply log_hex_keeps.
Qed.

Lemma s5_loop_keeps fuel addr len i last :
  0 <= addr -> panic_ok -> 0 <= i -> (0 < fuel)%nat -> Z.min len MAPPED_LIMIT < Z.of_nat fuel + i ->
  keep (s5_loop mem fuel addr len i last) (fun _ => True).
Proof.
  intros Ha Hp. revert i. induction fuel as [|fuel IH]; intros i Hi Hf Hm; [lia|]. cbn [s5_loop].
  destruct (i <? last); [|apply log_keeps].
  eapply keeps_bind; [apply index_keeps; auto|]. intros b (_ & Hlen & Hlim).
  eapply (keeps_bind _ _ _ _ _ _ (fun _ => True)).
  { repeat case_match; try by apply keeps_ret. by apply bytes_match_keeps. }
  intros found _. destruct found.
  - eapply keeps_bind; [apply log_hex_keeps|]. intros _ _. by apply s5_package_keeps.
  - apply IH; lia.
Qed.

Lemma parse_s5_keeps addr : 0 <= addr -> panic_ok -> keep (parse_s5 mem addr) (fun _ => True).
Proof.
  intros Ha Hp. unfold parse_s5. eapply keeps_bind; [apply read_le_keeps|]. intros len [Hlen _].
  apply s5_loop_keeps; [done..|lia|unfold turns; lia|apply turns_enough; lia].
Qed.

Lemma parse_fadt_keeps addr : panic_ok -> keep (parse_fadt mem addr) (fun _ => True).
Proof.
  intros Hp. unfold parse_fadt. eapply keeps_bind; [apply read_le_keeps|]. intros pm1a [Hpm _].
  eapply keeps_bind; [apply (keeps_modify _ _ _ _ _ (fun _ => True)); [|done]|intros _ _].
  { unfold acpi_ok. cbn in *. intuition lia. }
  eapply keeps_bind; [apply log_hex_keeps|]. intros _ _.
  eapply keeps_bind; [apply read_le_keeps|]. intros x [Hx _].
  eapply (keeps_bind _ _ _ _ _ _ (fun a => 0 <= a)).
  { case_match; [apply keeps_ret; lia|]. eapply keeps_weaken; [apply read_le_keeps|]. cbn. lia. }
  intros dsdt Hd. cbv beta in Hd. repeat case_match; try by apply keeps_ret.
  - eapply keeps_bind; [apply log_hex_keeps|]. intros _ _. by apply parse_s5_keeps.
  - apply log_keeps.
Qed.

Lemma walk_tables_keeps fuel is_xsdt entries i num found :
  panic_ok -> 0 <= entries < 2 ^ 31 -> 0 <= i <= MAPPED_LIMIT -> (0 < fuel)%nat ->
  Z.min num MAPPED_LIMIT < Z.of_nat fuel + i ->
  keep (walk_tables mem fuel is_xsdt entries i num found) (fun _ => True).
Proof.
  intros Hp He. revert i found. induction fuel as [|fuel IH]; intros i found Hi Hf Hm; [lia|].
  cbn [walk_tables]. destruct (Z.ltb_spec i num); [|by apply keeps_ret].
  unfold MAPPED_LIMIT in *.
  eapply (keeps_bind _ _ _ _ _ _ (fun a => 0 <= a /\ i < MAPPED_LIMIT)).
  { destruct is_xsdt; (eapply keeps_weaken; [apply read_le_keeps|]); cbv beta; unfold MAPPED_LIMIT;
      rewrite usize_small by lia; lia. }
  intros a [Ha Hlim]. unfold MAPPED_LIMIT in Hlim.
  assert (forall found, keep (walk_tables mem fuel is_xsdt entries (i + 1) num found) (fun _ => True))
    as Hnext by (intros; apply IH; lia).
  case_match; [done|]. eapply keeps_bind; [apply read_le_keeps|]. intros sig _. repeat case_match.
  - eapply keeps_bind; [by apply parse_madt_keeps|done].
  - eapply keeps_bind; [by apply parse_fadt_keeps|done].
  - done.
Qed.

Lemma walk_sdt_keeps is_xsdt addr : panic_ok -> 0 <= addr -> keep (walk_sdt mem is_xsdt addr) (fun _ => True).
Proof.
  intros Hp Ha. unfold walk_sdt, is_mapped. destruct (Z.ltb_spec addr MAPPED_LIMIT); cbn [negb]; [|apply log_keeps].
  unfold MAPPED_LIMIT in *.
  eapply keeps_bind; [apply read_le_keeps|]. intros len _. cbv zeta. set (num := usize _ / _).
  assert (0 <= num). { pose proof (Z.mod_pos_bound (len - 36) 18446744073709551616). unfold num, usize, u64.
    destruct is_xsdt; apply Z.div_pos; lia. }
  eapply keeps_bind; [apply log_keeps|]. intros _ _. eapply keeps_bind.
  { apply walk_tables_keeps; [done|lia|unfold MAPPED_LIMIT; lia|unfold turns; lia|apply turns_enough; lia]. }
  intros found _. case_match; [apply log_keeps|].
  eapply keeps_bind; [by apply (keeps_modify _ _ _ _ _ (fun _ => True))|]. intros _ _. apply log_keeps.
Qed.

Lemma checksum_keeps fuel addr i len sum :
  0 <= addr -> 0 <= i -> (0 < fuel)%nat -> Z.min len MAPPED_LIMIT < Z.of_nat fuel + i ->
  keep (checksum mem fuel addr i len sum) (fun _ => True).
Proof.
  intros Ha. revert i sum. induction fuel as [|fuel IH]; intros i sum Hi Hf Hm; [lia|]. cbn [checksum].
  destruct (Z.ltb_spec i len); [|by apply keeps_ret].
  eapply keeps_bind; [apply read_byte_keeps|]. intros b [_ Hlim]. apply IH; lia.
Qed.

Lemma find_rsdp_keeps n addr : 0 <= addr ->
  keep (find_rsdp mem n addr) (fun o => forall a, o = Some a -> 0 <= a).
Proof.
  revert addr. induction n as [|n IH]; intros addr Ha; cbn [find_rsdp]; [by apply keeps_ret|].
  eapply keeps_bind; [apply read_le_keeps|]. intros sig _. case_match; [|apply IH; lia].
  eapply keeps_bind; [apply log_hex_keeps|]. intros _ _. apply keeps_ret. by intros a [= <-].
Qed.

Lemma parse_rsdp_keeps addr : panic_ok -> 0 <= addr -> keep (parse_rsdp mem addr) (fun _ => True).
Proof.
  intros Hp Ha. unfold parse_rsdp. eapply keeps_bind; [apply read_byte_keeps|]. intros rev _.
  eapply (keeps_bind _ _ _ _ _ _ (fun v => 0 <= v)).
  { case_match; [|by apply keeps_ret]. eapply keeps_weaken; [apply read_le_keeps|]. cbv beta. lia. }
  intros len Hlen. cbv beta in Hlen.
  eapply keeps_bind; [apply checksum_keeps; [done|lia|unfold turns; lia|by apply turns_enough]|].
  intros sum _. case_match; [apply log_keeps|]. eapply keeps_bind; [apply log_keeps|]. intros _ _.
  eapply (keeps_bind _ _ _ _ _ _ (fun v => 0 <= v)).
  { case_match; [|by apply keeps_ret]. eapply keeps_weaken; [apply read_le_keeps|]. cbv beta. lia. }
  intros x Hx. cbv zeta. case_match; (eapply keeps_bind; [apply log_keeps|]; intros _ _).
  - by apply walk_sdt_keeps.
  - eapply keeps_bind; [apply read_le_keeps|]. intros r [Hr _]. apply walk_sdt_keeps; [done|lia].
Qed.

Lemma init_keeps : panic_ok -> keep (init mem) (fun _ => True).
Proof.
  intros Hp. unfold init. eapply keeps_bind; [apply log_keeps|]. intros _ _.
  eapply keeps_bind; [apply find_rsdp_keeps; lia|]. intros [a|] Ha; [|apply log_keeps].
  apply parse_rsdp_keeps; auto.
Qed.
End Types.

(** ** Reading what is stored *)

Section Stored.
Context (mem : Z -> option Z) (addr : Z) (l : list Z) (Hl : stored mem addr l).
Abbreviation len := (Z.of_nat (length l)).

Lemma index_stored i b s : l !! i = Some b -> index mem addr len (Z.of_nat i) s = (Ret b, s).
Proof.
  intros Hi. pose proof (lookup_lt_Some _ _ _ Hi). unfold index.
  destruct (Z.leb_spec 0 (Z.of_nat i)), (Z.ltb_spec (Z.of_nat i) len); try lia. cbn [andb].
  unfold read_byte. by rewrite (Hl i b).
Qed.

Lemma drop_cons_lookup {A} i (x : A) w k : drop i k = x :: w -> k !! i = Some x /\ drop (S i) k = w.
Proof.
  intros Hd. split.
  - by rewrite <- (Nat.add_0_r i), <- lookup_drop, Hd.
  - by rewrite <- Nat.add_1_r, <- drop_drop, Hd.
Qed.

(** The offset as the code writes it. *)
Lemma index_at z i b w s : z = Z.of_nat i -> drop i l = b :: w -> index mem addr len z s = (Ret b, s).
Proof. intros -> Hd. by apply index_stored, (drop_cons_lookup _ _ _ _ Hd). Qed.

Lemma index_le_at n z i w rest s :
  z = Z.of_nat i -> drop i l = w ++ rest -> length w = n ->
  index_le mem n addr len z s = (Ret (le_val w), s).
Proof.
  revert z i w. induction n as [|n IH]; intros z i w -> Hd Hw; cbn [index_le].
  { by destruct w. }
  destruct w as [|b w]; [done|]. cbn [app] in Hd. pose proof (drop_cons_lookup _ _ _ _ Hd) as [_ Hd'].
  run_with (index_at _ i b (w ++ rest) s eq_refl Hd).
  rewrite (bind_ret _ _ _ _ _ (IH (Z.of_nat i + 1) (S i) w ltac:(lia) Hd' ltac:(by injection Hw))).
  done.
Qed.

Lemma read_le_at n z i w rest s :
  0 <= addr -> addr + len < 2 ^ 64 -> z = addr + Z.of_nat i -> drop i l = w ++ rest -> length w = n ->
  read_le mem n z s = (Ret (le_val w), s).
Proof.
  intros Ha Hb. revert z i w. induction n as [|n IH]; intros z i w -> Hd Hw; cbn [read_le].
  { by destruct w. }
  destruct w as [|b w]; [done|]. cbn [app] in Hd. pose proof (drop_cons_lookup _ _ _ _ Hd) as [Hi Hd'].
  pose proof (lookup_lt_Some _ _ _ Hi).
  unfold read_byte at 1. rewrite (Hl i b Hi). unfold bind at 1. cbn [ok_or ret].
  rewrite usize_small by lia.
  rewrite (bind_ret _ _ _ _ _ (IH (addr + Z.of_nat i + 1) (S i) w ltac:(lia) Hd' ltac:(by injection Hw))).
  done.
Qed.

(** ** One structure, and all of them *)

Lemma land_bit0 f : negb (Z.land f 1 =? 0) = Z.testbit f 0.
Proof.
  replace (Z.land f 1) with (f mod 2) by (symmetry; apply (Z.land_ones f 1); lia). rewrite Zmod_odd, Z.bit0_odd.
  by destruct (Z.odd f).
Qed.

Lemma set_MADT_same s : set_MADT (MADT s) s = s.
Proof. by destruct s. Qed.

Lemma drop_at {A} (k : list A) i j w : drop i k = w -> drop (i + j) k = drop j w.
Proof. intros <-. by rewrite drop_drop. Qed.

Lemma madt_entry_stored e i rest s t n body :
  ics_wf e -> encode_ics e = t :: n :: body -> drop i l = encode_ics e ++ rest ->
  madt_entry mem addr len (Z.of_nat i) t n s = (Ret tt, set_MADT (apply_ics (MADT s) e) s).
Proof.
  intros Hwf He Hd.
  assert (forall j b w, drop j (encode_ics e ++ rest) = b :: w ->
    index mem addr len (Z.of_nat i + Z.of_nat j) s = (Ret b, s)) as Hbyte.
  { intros j b w Hj. apply (index_at _ (i + j) b w); [lia|]. by rewrite (drop_at _ _ _ _ Hd). }
  assert (forall k j v w, 0 <= v < 256 ^ Z.of_nat k -> drop j (encode_ics e ++ rest) = le_bytes k v ++ w ->
    index_le mem k addr len (Z.of_nat i + Z.of_nat j) s = (Ret v, s)) as Hword.
  { intros k j v w Hv Hj. rewrite (index_le_at k _ (i + j) (le_bytes k v) w).
    - by rewrite le_val_bytes.
    - lia.
    - by rewrite (drop_at _ _ _ _ Hd).
    - apply length_le_bytes. }
  unfold madt_entry. destruct e as [proc id flags|id a gsi|a|et eb]; cbn in He; injection He as <- <- _;
    cbn [Z.eqb Z.leb Z.compare Pos.eqb Pos.compare Pos.compare_cont].
  - destruct Hwf as (_ & _ & Hfl).
    run_with (Hbyte 3%nat id _ eq_refl). run_with (Hword 4%nat 4%nat flags _ ltac:(lia) eq_refl).
    unfold modify. rewrite land_bit0. cbn [apply_ics]. case_match; [done|by rewrite set_MADT_same].
  - destruct Hwf as (_ & Ha & _).
    run_with (Hbyte 2%nat id _ eq_refl). run_with (Hword 4%nat 4%nat a _ ltac:(lia) eq_refl). done.
  - run_with (Hword 8%nat 4%nat a _ ltac:(cbn in Hwf; lia) eq_refl). unfold modify. cbn [apply_ics].
    destruct (a =? 0); cbn [negb]; [by rewrite set_MADT_same|done].
  - destruct Hwf as (_ & H0 & H1 & H5 & _).
    apply Z.eqb_neq in H0, H1, H5. rewrite H0, H1, H5. cbn [apply_ics]. by rewrite set_MADT_same.
Qed.

Lemma encode_ics_head e : ics_wf e ->
  exists t n body, encode_ics e = t :: n :: body /\ n = Z.of_nat (length (encode_ics e)) /\ 2 <= n.
Proof.
  intros Hwf. destruct e; cbn [encode_ics app]; do 3 eexists; (split; [done|]).
  1-3: split; [reflexivity|lia].
  cbn [length]. lia.
Qed.

Lemma madt_loop_stored es fuel i s :
  Forall ics_wf es -> drop i l = concat (encode_ics <$> es) -> (length l < fuel + i)%nat -> (0 < fuel)%nat ->
  (i <= length l)%nat ->
  madt_loop mem fuel addr len (Z.of_nat i) s = (Ret tt, set_MADT (fold_left apply_ics es (MADT s)) s).
Proof.
  intros Hwf. revert i s fuel. induction Hwf as [|e es He Hwf IH]; intros i s fuel Hd Hf Hpos Hi;
    (destruct fuel as [|fuel]; [lia|]); cbn [madt_loop]; pose proof (f_equal length Hd) as Hlen;
    rewrite length_drop in Hlen.
  - cbn in Hlen. destruct (Z.leb_spec (Z.of_nat i + 2) len); [lia|]. cbn [fold_left].
    by rewrite set_MADT_same.
  - destruct (encode_ics_head e He) as (t & n & body & Henc & Hn & H2).
    cbn [fmap list_fmap concat] in Hd, Hlen. rewrite length_app in Hlen.
    destruct (Z.leb_spec (Z.of_nat i + 2) len); [|lia].
    assert (drop i l = t :: n :: body ++ concat (encode_ics <$> es)) as Hd2 by (by rewrite Hd, Henc).
    run_with (index_at (Z.of_nat i) i t _ s eq_refl Hd2).
    destruct (drop_cons_lookup _ _ _ _ Hd2) as [_ Hd3].
    run_with (index_at (Z.of_nat i + 1) (S i) n _ s ltac:(lia) Hd3).
    destruct (Z.ltb_spec n 2), (Z.ltb_spec len (Z.of_nat i + n)); try lia. cbn [orb].
    run_with (madt_entry_stored e i _ s t n body He Henc Hd).
    replace (Z.of_nat i + n) with (Z.of_nat (i + length (encode_ics e))) by lia.
    rewrite IH; [done| | |lia|lia].
    + rewrite (drop_at _ _ _ _ Hd). by rewrite drop_app_length.
    + lia.
Qed.
End Stored.

(** ** The table *)

Lemma madt_offsets sig tail lapic flags es :
  length sig = 4%nat -> length tail = 28%nat ->
  let l := encode_madt sig tail lapic flags es in
  let body := concat (encode_ics <$> es) in
  length l = (44 + length body)%nat
  /\ drop 4 l = le_bytes 4 (44 + Z.of_nat (length body)) ++ tail ++ le_bytes 4 lapic ++ le_bytes 4 flags ++ body
  /\ drop 36 l = le_bytes 4 lapic ++ le_bytes 4 flags ++ body
  /\ drop 40 l = le_bytes 4 flags ++ body /\ drop 44 l = body.
Proof.
  intros Hs Ht. cbv zeta. unfold encode_madt. set (body := concat _).
  set (n := le_bytes 4 (44 + _)).
  assert (forall k (p w : list Z), length p = k -> drop k (p ++ w) = w) as Hdrop by (intros; by apply drop_app_length').
  split_and!.
  - unfold n. rewrite !length_app, !length_le_bytes, Hs, Ht. lia.
  - by apply Hdrop.
  - rewrite <- (Hdrop 36%nat (sig ++ n ++ tail) (le_bytes 4 lapic ++ le_bytes 4 flags ++ body)) at 2
      by (unfold n; rewrite !length_app, length_le_bytes; lia).
    by rewrite <- !app_assoc.
  - rewrite <- (Hdrop 40%nat (sig ++ n ++ tail ++ le_bytes 4 lapic) (le_bytes 4 flags ++ body)) at 2
      by (unfold n; rewrite !length_app, !length_le_bytes; lia).
    by rewrite <- !app_assoc.
  - rewrite <- (Hdrop 44%nat (sig ++ n ++ tail ++ le_bytes 4 lapic ++ le_bytes 4 flags) body) at 2
      by (unfold n; rewrite !length_app, !length_le_bytes; lia).
    by rewrite <- !app_assoc.
Qed.

Lemma fold_cpu_count es m : (cpu_count m <= MAX_CPUS)%nat -> (cpu_count (fold_left apply_ics es m) <= MAX_CPUS)%nat.
Proof.
  revert m. induction es as [|e es IH]; intros m Hm; [done|]. cbn [fold_left]. apply IH.
  destruct e; cbn [apply_ics]; try case_match eqn:Hen; try done.
  apply andb_true_iff in Hen as [_ Hlt%Nat.ltb_lt]. cbn. lia.
Qed.

Lemma parse_madt_run mem addr sig tail lapic flags es s :
  length sig = 4%nat -> length tail = 28%nat -> 0 <= lapic < 2 ^ 32 -> 0 <= flags < 2 ^ 32 ->
  Forall ics_wf es ->
  let l := encode_madt sig tail lapic flags es in
  stored mem addr l -> 0 <= addr < 2 ^ 32 -> 48 <= Z.of_nat (length l) <= MAPPED_LIMIT ->
  (cpu_count (MADT s) <= MAX_CPUS)%nat ->
  exists s', parse_madt mem addr s = (Ret tt, s') /\ MADT s' = madt_result lapic flags es (MADT s)
    /\ PM1A_CNT_BLK s' = PM1A_CNT_BLK s /\ S5_SLP_TYPa s' = S5_SLP_TYPa s
    /\ S5_SLP_TYPb s' = S5_SLP_TYPb s /\ ACPI_READY s' = ACPI_READY s.
Proof.
  intros Hsig Htail Hlapic Hflags Hes l Hst Haddr Hlen Hcpu.
  destruct (madt_offsets sig tail lapic flags es Hsig Htail) as (Hl & H4 & H36 & H40 & H44).
  fold l in Hl, H4, H36, H40, H44. unfold MAPPED_LIMIT in Hlen.
  unfold parse_madt, log_acpi. unfold bind at 1, modify at 1. cbv beta iota.
  unfold sdt_length.
  assert (forall st, read_le mem 4 (addr + 4) st = (Ret (Z.of_nat (length l)), st)) as Hlength.
  { intros st. rewrite (read_le_at mem addr l Hst 4 (addr + 4) 4 _ _ _ ltac:(lia) ltac:(lia) ltac:(lia) H4)
      by apply length_le_bytes. rewrite le_val_bytes by lia. by rewrite Hl, Nat2Z.inj_add. }
  run_with (Hlength _). destruct (Z.ltb_spec (Z.of_nat (length l)) 48); [lia|].
  rewrite (bind_ret _ _ _ _ _ (index_le_at mem addr l Hst 4 36 36 _ _ _ ltac:(lia) H36 ltac:(apply length_le_bytes))).
  rewrite (bind_ret _ _ _ _ _ (index_le_at mem addr l Hst 4 40 40 _ _ _ ltac:(lia) H40 ltac:(apply length_le_bytes))).
  rewrite !le_val_bytes by lia. unfold bind at 1, modify at 1. cbv beta iota.
  unfold bind at 1, modify at 1. cbv beta iota.
  rewrite (bind_ret _ _ _ _ _ (madt_loop_stored mem addr l Hst es (turns (Z.of_nat (length l))) 44 _ Hes H44
             ltac:(unfold turns, MAPPED_LIMIT; lia) ltac:(unfold turns; lia) ltac:(lia))).
  rewrite land_bit0. unfold log_hex, bind, gets, modify. cbv beta iota. cbn [MADT set_MADT add_msg].
  assert (cpu_count (madt_result lapic flags es (MADT s)) <= MAX_CPUS)%nat as Hc by (by apply fold_cpu_count).
  fold (madt_result lapic flags es (MADT s)). unfold MAX_CPUS in Hc.
  destruct (dec_text_decimal (Z.of_nat (cpu_count (madt_result lapic flags es (MADT s)))))
    as (t & Ht & _); [lia|].
  unfold format_cpus. rewrite Ht. cbn [option_map or_panic ret]. eexists. split; [reflexivity|].
  by split_and!.
Qed.

Lemma fold_ics es m :
  (cpu_count m <= MAX_CPUS)%nat -> length (cpu_apic_ids m) = MAX_CPUS ->
  let m' := fold_left apply_ics es m in
  take (cpu_count m') (cpu_apic_ids m')
    = take MAX_CPUS (take (cpu_count m) (cpu_apic_ids m) ++ omap enabled_cpu es)
  /\ lapic_base m' = last_lapic (lapic_base m) es
  /\ (io_apic_id m', io_apic_addr m') = last_io_apic (io_apic_id m, io_apic_addr m) es
  /\ pcat_compat m' = pcat_compat m.
Proof.
  revert m. induction es as [|e es IH]; intros m Hc Hl.
  { cbn [fold_left omap list_omap]. rewrite app_nil_r, (take_ge (take _ _)); [done|].
    rewrite length_take. lia. }
  cbn [fold_left].
  destruct e as [proc id flags|id a gsi|a|et eb]; cbn [apply_ics omap list_omap enabled_cpu].
  - destruct (Z.testbit flags 0); cbn [andb]; [|by apply IH].
    destruct (Nat.ltb_spec (cpu_count m) MAX_CPUS) as [Hlt|Hge].
    + destruct (IH (add_cpu id m)) as (Ht & Hrest); [cbn; lia|by cbn; rewrite length_insert|].
      split; [|exact Hrest]. rewrite Ht. cbn [add_cpu cpu_count cpu_apic_ids].
      rewrite (take_S_r _ _ id) by (apply list_lookup_insert_eq; lia).
      by rewrite take_insert_ge, <- app_assoc by lia.
    + destruct (IH m Hc Hl) as (Ht & Hrest). split; [|exact Hrest]. rewrite Ht.
      assert (length (take (cpu_count m) (cpu_apic_ids m)) = MAX_CPUS) as Hfull
        by (rewrite length_take; unfold MAX_CPUS in *; lia).
      by rewrite !take_app_le by lia.
  - by apply (IH (set_io_apic id a m)).
  - unfold last_lapic. cbn [fold_left]. destruct (a =? 0); [by apply IH|by apply (IH (set_lapic_base a m))].
  - by apply IH.
Qed.

(** ** The shutdown values *)

Section S5.
Context (mem : Z -> option Z) (addr : Z) (data : list Z) (Hdata : stored mem addr data).

(** The slice of [n] bytes of a longer stored list. *)
Lemma index_slice n i b s :
  (i < n)%nat -> data !! i = Some b -> index mem addr (Z.of_nat n) (Z.of_nat i) s = (Ret b, s).
Proof.
  intros Hn Hi. unfold index.
  destruct (Z.leb_spec 0 (Z.of_nat i)), (Z.ltb_spec (Z.of_nat i) (Z.of_nat n)); try lia. cbn [andb].
  unfold read_byte. by rewrite (Hdata i b Hi).
Qed.

Lemma bytes_match_slice n i pat s :
  (i + length pat <= n)%nat -> (n <= length data)%nat ->
  bytes_match mem addr (Z.of_nat n) (Z.of_nat i) pat s
  = (Ret (bool_decide (take (length pat) (drop i data) = pat)), s).
Proof.
  revert i. induction pat as [|p pat IH]; intros i Hi Hn; cbn [bytes_match length] in *.
  { by rewrite bool_decide_true by done. }
  destruct (lookup_lt_is_Some_2 data i) as [b Hb]; [lia|].
  run_with (index_slice n i b s ltac:(lia) Hb). rewrite (drop_S _ _ _ Hb). cbn [take].
  destruct (Z.eqb_spec b p) as [->|Hne].
  - replace (Z.of_nat i + 1) with (Z.of_nat (S i)) by lia. rewrite IH by lia.
    do 2 f_equal. apply bool_decide_ext. split; [by intros ->|by intros [=]].
  - rewrite bool_decide_false; [done|]. by intros [=].
Qed.

(** Without the name the loop stores nothing: it reports that the name is
    missing, or runs past the end of a table shorter than twenty bytes. *)
Lemma s5_loop_missing n fuel i s :
  (n <= length data)%nat -> (forall j, ~ s5_at data j) -> (i <= n)%nat -> (n < fuel + i)%nat -> (0 < fuel)%nat ->
  Z.of_nat n < 2 ^ 32 -> Z.of_nat i <= usize (Z.of_nat n - 20) ->
  s5_loop mem fuel addr (Z.of_nat n) (Z.of_nat i) (usize (Z.of_nat n - 20)) s
  = if (n <? 20)%nat then (Panic, s)
    else (Ret tt, add_msg (Log (str "KERN") (str "ACPI")
                    (str "\_S5 not found in DSDT, shutdown via ACPI unavailable")) s).
Proof.
  intros Hn Hno. revert i. induction fuel as [|fuel IH]; intros i Hi Hf Hpos H32 Hlast; [lia|].
  assert (usize (Z.of_nat n - 20)
          = if (n <? 20)%nat then Z.of_nat n - 20 + 18446744073709551616 else Z.of_nat n - 20) as Hw.
  { destruct (Nat.ltb_spec n 20); [|apply usize_small; lia]. unfold usize, u64.
    symmetry. apply (Z.mod_unique_pos _ _ (-1)); lia. }
  cbn [s5_loop]. destruct (Z.ltb_spec (Z.of_nat i) (usize (Z.of_nat n - 20))) as [Hlt|Hge].
  - destruct (decide (i = n)) as [->|Hne].
    { unfold bind, index. rewrite Z.ltb_irrefl, andb_false_r.
      destruct (Nat.ltb_spec n 20); [done|].
      exfalso. lia. }
    destruct (lookup_lt_is_Some_2 data i) as [b Hb]; [lia|].
    run_with (index_slice n i b s ltac:(lia) Hb).
    match goal with |- context [bind ?m _ s] => assert (m s = (Ret false, s)) as Hfound end.
    { destruct (Z.eqb_spec b 8) as [->|]; [|done]. destruct (Z.ltb_spec (Z.of_nat i + 5) (Z.of_nat n)); [|done].
      replace (Z.of_nat i + 1) with (Z.of_nat (S i)) by lia. rewrite bytes_match_slice by (cbn; lia).
      rewrite bool_decide_false; [done|]. intros Hm. apply (Hno i). unfold s5_at.
      rewrite (drop_S _ _ _ Hb). exact (f_equal (cons 8) Hm). }
    run_with Hfound. replace (Z.of_nat i + 1) with (Z.of_nat (S i)) by lia. apply IH; lia.
  - destruct (Nat.ltb_spec n 20); [|done]. lia.
Qed.
End S5.

(** ** The control value *)

Lemma pm1_value_spec typ :
  is_byte typ -> pm1_value typ = 4 * typ + 8192 /\ (pm1_value typ / 1024) mod 8 = 0.
Proof.
  unfold is_byte, pm1_value. intros Ht. change (Z.shiftl 1 13) with 8192.
  rewrite Z.shiftl_mul_pow2 by lia. change (2 ^ 2) with 4. rewrite u16_small by lia.
  assert (Z.lor (typ * 4) 8192 = 4 * typ + 8192) as ->.
  { rewrite Z.lor_comm, (lor_add 8192 (typ * 4) 10); [lia|lia|lia|done]. }
  split; [done|].
  replace (4 * typ + 8192) with (8 * 1024 + 4 * typ) by lia.
  rewrite Z.div_add_l by lia. rewrite (Z.div_small (4 * typ)) by lia. done.
Qed.


(** ** The image is memory of the loader's kind *)

Lemma put_at_mapped a l mem :
  PhysicalMemory mem -> bytes l -> 0 <= a -> a + Z.of_nat (length l) <= MAPPED_LIMIT ->
  PhysicalMemory (Firmware.put_at a l mem).
Proof.
  intros Hm Hl Ha Hlim x b. unfold Firmware.put_at. case_match eqn:Hin; [|apply Hm].
  intros Hx. split; [|by apply (Forall_lookup_1 _ _ _ _ Hl Hx)]. apply andb_true_iff in Hin. lia.
Qed.

Lemma stored_put_at a l mem : stored (Firmware.put_at a l mem) a l.
Proof.
  intros i b Hi. pose proof (lookup_lt_Some _ _ _ Hi). unfold Firmware.put_at.
  destruct (Z.leb_spec a (a + Z.of_nat i)), (Z.ltb_spec (a + Z.of_nat i) (a + Z.of_nat (length l))); try lia.
  cbn [andb]. by replace (Z.to_nat (a + Z.of_nat i - a)) with i by lia.
Qed.

(** Bytes, decided. *)
Lemma bytes_dec l : forallb (fun b => (0 <=? b) && (b <? 256)) l = true -> bytes l.
Proof.
  intros Hl. apply Forall_forall. intros b Hb. apply list_elem_of_In in Hb.
  rewrite forallb_forall in Hl. specialize (Hl b Hb). unfold is_byte. lia.
Qed.

#[export] Instance Firmware_mapped : PhysicalMemory Firmware.mem.
Proof.
  unfold Firmware.mem.
  repeat (apply put_at_mapped; [|by apply bytes_dec|lia|vm_compute; discriminate]).
  intros a b. unfold MAPPED_LIMIT, is_byte. case_match eqn:Hin; [|done].
  apply andb_true_iff in Hin. intros [= <-]. lia.
Qed.

(** ** Properties *)

(** C37: Whatever the firmware's tables hold, initialisation ends, at worst with a
    page fault or a panic, and leaves the statics within their types: at most
    eight processors, whose identifiers are bytes, addresses of the registers'
    widths. *)
Theorem acpi_init_types mem `{PhysicalMemory mem} s :
  acpi_ok s -> acpi_ok (init mem s).2 /\ (init mem s).1 <> Hang.
Proof.
  intros Hs. destruct (init_keeps mem True I s Hs) as [Hok He]. split; [done|].
  by intros Hh; rewrite Hh in He.
Qed.

Lemma acpi_init_types_witness :
  acpi_ok (init Firmware.mem Acpi_new).2 /\ (init Firmware.mem Acpi_new).1 <> Hang.
Proof.
  apply (acpi_init_types Firmware.mem).
  unfold acpi_ok, madt_ok, is_byte. cbn. split_and!; try lia; try reflexivity. by apply bytes_dec.
Defined.

(** C26: A MADT in memory is read for what it says: the processors are the enabled
    ones in table order after those already known, eight at most; the local
    APIC is the last override, or else the table's; the IO-APIC is the last
    listed; structures of other types are skipped. Nothing else changes, and no
    table makes the parser panic. *)
Theorem parse_madt_correct mem addr sig tail lapic flags es s :
  length sig = 4%nat -> length tail = 28%nat -> 0 <= lapic < 2 ^ 32 -> 0 <= flags < 2 ^ 32 ->
  Forall ics_wf es ->
  let l := encode_madt sig tail lapic flags es in
  stored mem addr l -> 0 <= addr < 2 ^ 32 -> 48 <= Z.of_nat (length l) <= MAPPED_LIMIT -> acpi_ok s ->
  exists s', parse_madt mem addr s = (Ret tt, s') /\
    let m := MADT s in
    let m' := MADT s' in
    take (cpu_count m') (cpu_apic_ids m')
      = take MAX_CPUS (take (cpu_count m) (cpu_apic_ids m) ++ omap enabled_cpu es)
    /\ lapic_base m' = last_lapic lapic es
    /\ (io_apic_id m', io_apic_addr m') = last_io_apic (io_apic_id m, io_apic_addr m) es
    /\ pcat_compat m' = Z.testbit flags 0
    /\ PM1A_CNT_BLK s' = PM1A_CNT_BLK s /\ S5_SLP_TYPa s' = S5_SLP_TYPa s
    /\ S5_SLP_TYPb s' = S5_SLP_TYPb s /\ ACPI_READY s' = ACPI_READY s.
Proof.
  intros Hsig Htail Hlapic Hflags Hes l Hst Haddr Hlen ((_ & _ & _ & Hc & Hids & _) & _).
  destruct (parse_madt_run mem addr sig tail lapic flags es s Hsig Htail Hlapic Hflags Hes Hst Haddr Hlen Hc)
    as (s' & Hrun & HM & Hrest).
  exists s'. split; [done|]. cbv zeta. rewrite HM. unfold madt_result.
  destruct (fold_ics es (set_pcat (Z.testbit flags 0) (set_lapic_base lapic (MADT s))) Hc Hids)
    as (Ht & Hb & Hio & Hp).
  exact (conj Ht (conj Hb (conj Hio (conj Hp Hrest)))).
Qed.

Lemma parse_madt_correct_witness : exists s',
  parse_madt (Firmware.put_at 12288 Firmware.madt (fun _ => None)) 12288 Acpi_new = (Ret tt, s')
  /\ take (cpu_count (MADT s')) (cpu_apic_ids (MADT s')) = [0; 2]
  /\ io_apic_addr (MADT s') = 4273995776.
Proof.
  destruct (parse_madt_correct (Firmware.put_at 12288 Firmware.madt (fun _ => None)) 12288
              (str "APIC") (replicate 28 0) 4276092928 1 Firmware.madt_entries Acpi_new)
    as (s' & Hrun & Hcpus & _ & Hio & _).
  - reflexivity.
  - reflexivity.
  - lia.
  - lia.
  - repeat constructor; cbn; unfold is_byte; try lia; by apply bytes_dec.
  - apply stored_put_at.
  - lia.
  - vm_compute. split; discriminate.
  - unfold acpi_ok, madt_ok, is_byte. cbn. split_and!; try lia; try reflexivity. by apply bytes_dec.
  - exists s'. split; [exact Hrun|]. split; [exact Hcpus|]. exact (f_equal snd Hio).
Defined.

(** The sleep values are searched for under the name [_S5] and a zero byte. In
    a DSDT without these bytes (AML pads names with underscores: [_S5_]) they
    stay as they are, and with a length below twenty the search panics behind
    the end of the table. *)
Theorem parse_s5_misses_padded_name mem addr data n s :
  stored mem addr data -> 0 <= addr < 2 ^ 32 -> 8 <= Z.of_nat (length data) < 2 ^ 30 ->
  take 4 (drop 4 data) = le_bytes 4 (Z.of_nat n) -> (n <= length data)%nat ->
  (forall i, ~ s5_at data i) ->
  parse_s5 mem addr s
  = if (n <? 20)%nat then (Panic, s)
    else (Ret tt, add_msg (Log (str "KERN") (str "ACPI")
                    (str "\_S5 not found in DSDT, shutdown via ACPI unavailable")) s).
Proof.
  intros Hst Ha Hlen Hhdr Hn Hno. unfold parse_s5, sdt_length.
  assert (drop 4 data = le_bytes 4 (Z.of_nat n) ++ drop 8 data) as Hd.
  { rewrite <- Hhdr. change 8%nat with (4 + 4)%nat. rewrite <- (drop_drop data 4 4).
    by rewrite take_drop. }
  rewrite (bind_ret _ _ _ _ _ (read_le_at mem addr data Hst 4 (addr + 4) 4 _ _ _
             ltac:(lia) ltac:(lia) ltac:(lia) Hd ltac:(apply length_le_bytes))).
  rewrite le_val_bytes by lia. change 0 with (Z.of_nat 0).
  apply (s5_loop_missing mem addr data Hst n); [done|done|lia|unfold turns, MAPPED_LIMIT; lia|unfold turns; lia|lia|].
  unfold usize, u64. pose proof (Z.mod_pos_bound (Z.of_nat n - 20) 18446744073709551616). lia.
Qed.

Lemma no_s5_dec data : existsb (fun i => bool_decide (s5_at data i)) (seq 0 (length data)) = false ->
  forall i, ~ s5_at data i.
Proof.
  intros Hno i Hi. assert (i < length data)%nat as Hlt.
  { destruct (decide (i < length data)%nat) as [|Hge]; [done|]. unfold s5_at in Hi.
    by rewrite drop_ge in Hi by lia. }
  assert (existsb (fun i => bool_decide (s5_at data i)) (seq 0 (length data)) = true); [|congruence].
  apply existsb_exists. exists i. split; [apply in_seq; lia|by apply bool_decide_true].
Qed.

Lemma parse_s5_misses_padded_name_witness :
  S5_SLP_TYPa (parse_s5 (Firmware.put_at 4096 Firmware.dsdt (fun _ => None)) 4096 Acpi_new).2 = 0
  /\ take 5 (drop 36 Firmware.dsdt) = [8; 95; 83; 53; 95].
Proof.
  split; [|reflexivity].
  rewrite (parse_s5_misses_padded_name _ 4096 Firmware.dsdt 70 Acpi_new); [reflexivity|..].
  - apply stored_put_at.
  - lia.
  - vm_compute. split; [discriminate|reflexivity].
  - reflexivity.
  - vm_compute. lia.
  - by apply no_s5_dec.
Defined.

(** Shutdown of an initialised machine writes the low and the high byte of
    [4 * typ + 2^13] to the control register, then the fallback port. The
    enable bit is set, and the field of the sleep type, bits 10 to 12, is zero
    whatever type was read. *)
Theorem shutdown_writes {D} `{Machine D} s d :
  PM1A_CNT_BLK s <> 0 -> ACPI_READY s = true -> is_byte (S5_SLP_TYPa s) ->
  exists lo hi,
    shutdown s d = (Hang, outb 1281 49 (outb (u16 (u16 (PM1A_CNT_BLK s) + 1)) hi
                                          (outb (u16 (PM1A_CNT_BLK s)) lo d)))
    /\ is_byte lo /\ is_byte hi /\ lo + 256 * hi = 4 * S5_SLP_TYPa s + 8192
    /\ ((lo + 256 * hi) / 1024) mod 8 = 0.
Proof.
  intros Hpm Hr Hb. destruct (pm1_value_spec _ Hb) as [Hv Hf].
  set (v := pm1_value (S5_SLP_TYPa s)) in *. exists (v mod 256), (v / 256 mod 256).
  unfold is_byte in *. pose proof (Z.mod_pos_bound v 256). pose proof (Z.mod_pos_bound (v / 256) 256).
  assert (v mod 256 + 256 * (v / 256 mod 256) = v) as Hsum.
  { rewrite (Z.mod_small (v / 256)); [pose proof (Z.div_mod v 256); lia|].
    split; [apply Z.div_pos; lia|apply Z.div_lt_upper_bound; lia]. }
  split; [|rewrite Hsum; split_and!; first [done|lia]].
  unfold shutdown. apply Z.eqb_neq in Hpm. rewrite Hpm, Hr. cbn [negb andb]. fold v.
  rewrite (Z.land_ones _ 8), (Z.land_ones _ 8), (Z.shiftr_div_pow2 _ 8) by lia. done.
Qed.

Lemma shutdown_writes_witness : exists lo hi,
  shutdown (mkAcpi MADT_new 1540 5 5 true []) [] = (Hang, [(1540, lo); (1541, hi); (1281, 49)])
  /\ is_byte lo /\ is_byte hi /\ lo + 256 * hi = 8212 /\ ((lo + 256 * hi) / 1024) mod 8 = 0.
Proof.
  destruct (shutdown_writes (D := list (Z * Z)) (mkAcpi MADT_new 1540 5 5 true []) [])
    as (lo & hi & Hrun); [done|done|unfold is_byte; cbn; lia|].
  exists lo, hi. exact Hrun.
Defined.

(** The image boots: its tables are found and read, the sleep type is not. *)
Example booted_state :
  (init Firmware.mem Acpi_new).1 = Ret tt /\ ACPI_READY booted = true /\ PM1A_CNT_BLK booted = 1540
  /\ cpu_apic_ids (MADT booted) = [0; 2; 0; 0; 0; 0; 0; 0] /\ S5_SLP_TYPa booted = 0.
Proof. vm_compute. by split_and!. Qed.
