(* ===== verification/Display.v ===== *)
(** The display interface ([src/src/hal/mod.rs]) and the VGA text console
    ([src/src/hal/display.rs]): 80 by 25 cells of video memory, the position of
    the next character, and the hardware cursor behind ports. *)

From Stdlib Require Import ZArith Lia Ascii String.
From stdpp Require Import base numbers list gmap.
From S2P Require Import Prelude Text Machine.

#[local] Open Scope Z_scope.

(** ** The trait

    [cols] and [rows] may panic: the framebuffer divides by its glyph size. *)
Class Display (S : Type) := {
  clear : M S Empty_set unit;
  write : list Z -> M S Empty_set unit;
  writeln : list Z -> M S Empty_set unit;
  putchar : Z -> M S Empty_set unit;
  set_cursor : Z -> Z -> M S Empty_set unit;
  scroll : M S Empty_set unit;
  reset_cursor : M S Empty_set unit;
  cols : M S Empty_set Z;
  rows : M S Empty_set Z;
  show_cursor : M S Empty_set unit;
}.

(** [for &b in s.as_bytes() { self.putchar(b) }]. *)
Fixpoint each_byte {S} (f : Z -> M S Empty_set unit) (s : list Z) : M S Empty_set unit :=
  match s with
  | [] => ret tt
  | b :: s => do! f b in each_byte f s
  end.

(** ** The backends of the enum *)

Definition DisplayBackend (V F : Type) : Type := V + F.

Section Backend.
Context {V F : Type} `{Display V, Display F}.

Definition on_vga {A} (m : M V Empty_set A) (v : V) : outcome Empty_set A * DisplayBackend V F :=
  let '(r, v') := m v in (r, inl v').
Definition on_fb {A} (m : M F Empty_set A) (f : F) : outcome Empty_set A * DisplayBackend V F :=
  let '(r, f') := m f in (r, inr f').

Definition dispatch {A} (mv : M V Empty_set A) (mf : M F Empty_set A) :
    M (DisplayBackend V F) Empty_set A := fun d =>
  match d with inl v => on_vga mv v | inr f => on_fb mf f end.

#[export] Instance DisplayBackend_Display : Display (DisplayBackend V F) := {
  clear := dispatch clear clear;
  write s := dispatch (write s) (write s);
  writeln s := dispatch (writeln s) (writeln s);
  putchar c := dispatch (putchar c) (putchar c);
  set_cursor r c := dispatch (set_cursor r c) (set_cursor r c);
  scroll := dispatch scroll scroll;
  reset_cursor := dispatch reset_cursor reset_cursor;
  cols := dispatch cols cols;
  rows := dispatch rows rows;
  show_cursor := dispatch show_cursor show_cursor;
}.
End Backend.

(** ** The VGA text console *)

Definition WIDTH : nat := 80.
Definition HEIGHT : nat := 25.
Definition COLOR : Z := 95.

Definition entry (c color : Z) : Z := Z.lor (Z.shiftl color 8) c.
Definition blank : Z := entry 32 COLOR.

(** The cells at [BUF] and the statics; the device holds the cursor. The code
    writes a cell through a raw pointer: a cell outside the screen is not part
    of the model, and the invariant of [DisplaySpec] shows that none is
    written. *)
Record Vga : Type := mkVga { BUF : list Z; COL : nat; ROW : nat }.

Section Vga.
Context {D : Type} `{Machine D}.

Abbreviation VM := (M (D * Vga) Empty_set).

Definition move (col row : nat) : VM unit := modify (fun '(d, v) => (d, mkVga (BUF v) col row)).
Definition write_cell (i : nat) (c : Z) : VM unit :=
  modify (fun '(d, v) => (d, mkVga (<[i := c]> (BUF v)) (COL v) (ROW v))).

(** [set_cursor_impl], which does not touch [COL] and [ROW]. *)
Definition set_cursor_impl (row col : Z) : VM unit :=
  let pos := usize (row * Z.of_nat WIDTH + col) in
  do! zoom (outb_m 980 14) in
  do! zoom (outb_m 981 (u8 (Z.shiftr pos 8))) in
  do! zoom (outb_m 980 15) in
  zoom (outb_m 981 (Z.land pos 255)).

(** [self.set_cursor_impl(ROW, COL)]. *)
Definition sync_cursor : VM unit :=
  let! v := gets snd in set_cursor_impl (Z.of_nat (ROW v)) (Z.of_nat (COL v)).

Definition reset_cursor_impl : VM unit := do! move 0 0 in set_cursor_impl 0 0.

Fixpoint clear_loop (n i : nat) : VM unit :=
  match n with
  | O => ret tt
  | S n => do! write_cell i blank in clear_loop n (S i)
  end.

Definition clear_impl : VM unit := do! clear_loop (WIDTH * HEIGHT) 0 in reset_cursor_impl.

(** The copies of [scroll_impl] one cell at a time: row by row, the source is
    always one row further on, so the order is that of the indices. *)
Fixpoint copy_loop (n dst : nat) : VM unit :=
  match n with
  | O => ret tt
  | S n =>
      let! c := gets (fun st => byte_at (BUF (snd st)) (dst + WIDTH)) in
      do! write_cell dst c in copy_loop n (S dst)
  end.

Definition scroll_impl : VM unit :=
  do! copy_loop ((HEIGHT - 1) * WIDTH) 0 in
  clear_loop WIDTH ((HEIGHT - 1) * WIDTH).

(** To the start of the next row, scrolling at the bottom. *)
Definition next_row : VM unit :=
  let! v := gets snd in
  do! move 0 (S (ROW v)) in
  if (HEIGHT <=? S (ROW v))%nat
  then do! scroll_impl in move 0 (HEIGHT - 1)
  else ret tt.

Definition putchar_impl (c : Z) : VM unit :=
  let! v := gets snd in
  if c =? 8 then
    if (0 <? COL v)%nat then do! move (COL v - 1) (ROW v) in sync_cursor else ret tt
  else if c =? 13 then do! move 0 (ROW v) in sync_cursor
  else if c =? 10 then do! next_row in sync_cursor
  else
    do! (if (WIDTH <=? COL v)%nat then next_row else ret tt) in
    let! v := gets snd in
    do! write_cell (ROW v * WIDTH + COL v) (entry c COLOR) in
    do! move (S (COL v)) (ROW v) in
    sync_cursor.

Definition write_impl (s : list Z) : VM unit := each_byte putchar_impl s.
Definition writeln_impl (s : list Z) : VM unit := do! write_impl s in putchar_impl 10.

Definition set_palette : VM unit :=
  do! zoom (outb_m 968 5) in
  do! zoom (outb_m 969 4) in
  do! zoom (outb_m 969 0) in
  zoom (outb_m 969 4).

(** [VgaDisplay::init]. *)
Definition vga_init : VM unit :=
  do! set_palette in do! clear_impl in set_cursor_impl 0 0.

#[export] Instance VgaDisplay : Display (D * Vga) := {
  clear := clear_impl;
  write := write_impl;
  writeln := writeln_impl;
  putchar := putchar_impl;
  set_cursor := set_cursor_impl;
  scroll := scroll_impl;
  reset_cursor := reset_cursor_impl;
  cols := ret (Z.of_nat WIDTH);
  rows := ret (Z.of_nat HEIGHT);
  show_cursor := ret tt;
}.
End Vga.
