(* ===== verification/DisplaySpec.v ===== *)
(** What the text console promises: it is a window of 25 rows on a document
    that grows at its end, and the hardware cursor stands where the next
    character goes or where [set_cursor] has put it. *)

From Stdlib Require Import ZArith Lia Ascii String.
From stdpp Require Import base numbers list gmap.
From S2P Require Import Prelude Text Machine Display.

#[local] Open Scope Z_scope.

(** ** The document *)

Record doc : Type := mkDoc { lines : list (list Z); row : nat; col : nat }.

Definition blank_line : list Z := replicate WIDTH 32.
Definition doc_new : doc := mkDoc (replicate HEIGHT blank_line) 0 0.

(** To the next row, which is added when there is none. *)
Definition doc_next (t : doc) : doc :=
  mkDoc (if (S (row t) <? length (lines t))%nat then lines t else lines t ++ [blank_line]) (S (row t)) 0.

Definition doc_put (c : Z) (t : doc) : doc :=
  if c =? 8 then mkDoc (lines t) (row t) (col t - 1)
  else if c =? 13 then mkDoc (lines t) (row t) 0
  else if c =? 10 then doc_next t
  else
    let t := if (WIDTH <=? col t)%nat then doc_next t else t in
    mkDoc (alter (fun l => <[col t := c]> l) (row t) (lines t)) (row t) (S (col t)).

(** The calls of the trait that change something. Clearing starts over;
    scrolling alone keeps the place on the screen; moving or showing the
    hardware cursor leaves the document alone. *)
Inductive cmd : Type :=
| PutChar (c : Z)
| Write (s : list Z)
| WriteLn (s : list Z)
| Clear
| Scroll
| Reset
| SetCursor (r c : nat)
| ShowCursor.

Definition doc_cmd (t : doc) (c : cmd) : doc :=
  match c with
  | PutChar c => doc_put c t
  | Write s => fold_left (fun t c => doc_put c t) s t
  | WriteLn s => doc_put 10 (fold_left (fun t c => doc_put c t) s t)
  | Clear => doc_new
  | Scroll => mkDoc (lines t ++ [blank_line]) (S (row t)) (col t)
  | Reset => mkDoc (lines t) (length (lines t) - HEIGHT) 0
  | SetCursor _ _ | ShowCursor => t
  end.

(** The cell of the screen, counted from its top left corner, where the next
    character goes; 80 columns after the start of a row when the row is full. *)
Definition place (t : doc) : Z := Z.of_nat ((row t - (length (lines t) - HEIGHT)) * WIDTH + col t).

(** The document with the hardware cursor: every character puts it at the place
    of the next, except a backspace with nothing to go back over; scrolling
    leaves it; [set_cursor] puts it anywhere, in its sixteen bits. *)
Record term : Type := mkTerm { t_doc : doc; t_cursor : Z }.

Definition term_new : term := mkTerm doc_new 0.

Definition term_put (c : Z) (t : term) : term :=
  mkTerm (doc_put c (t_doc t))
    (if (c =? 8) && (col (t_doc t) =? 0)%nat then t_cursor t else place (doc_put c (t_doc t))).

Definition term_cmd (t : term) (c : cmd) : term :=
  match c with
  | PutChar c => term_put c t
  | Write s => fold_left (fun (t : term) c => term_put c t) s t
  | WriteLn s => term_put 10 (fold_left (fun (t : term) c => term_put c t) s t)
  | Clear => term_new
  | Scroll | ShowCursor => mkTerm (doc_cmd (t_doc t) c) (t_cursor t)
  | Reset => mkTerm (doc_cmd (t_doc t) Reset) 0
  | SetCursor r c => mkTerm (t_doc t) (u16 (Z.of_nat r * 80 + Z.of_nat c))
  end.

Definition is_set_cursor (c : cmd) : bool := match c with SetCursor _ _ => true | _ => false end.

(** The rows on the screen. *)
Definition window (t : doc) : list (list Z) := drop (length (lines t) - HEIGHT) (lines t).

Definition run_cmd {S} `{Display S} (c : cmd) : M S Empty_set unit :=
  match c with
  | PutChar c => putchar c
  | Write s => write s
  | WriteLn s => writeln s
  | Clear => clear
  | Scroll => scroll
  | Reset => reset_cursor
  | SetCursor r c => set_cursor (Z.of_nat r) (Z.of_nat c)
  | ShowCursor => show_cursor
  end.

Fixpoint run_cmds {S} `{Display S} (cs : list cmd) : M S Empty_set unit :=
  match cs with
  | [] => ret tt
  | c :: cs => do! run_cmd c in run_cmds cs
  end.

(** ** The cursor registers

    The CRT controller: a port that selects a register and a port that stores
    into the register selected. *)
Class Crtc (D : Type) `{Machine D} := {
  crtc_index : D -> Z;
  crtc_reg : Z -> D -> Z;
  crtc_select : forall v d, crtc_index (outb 980 v d) = v /\ forall r, crtc_reg r (outb 980 v d) = crtc_reg r d;
  crtc_store : forall v d, crtc_index (outb 981 v d) = crtc_index d
    /\ forall r, crtc_reg r (outb 981 v d) = if r =? crtc_index d then v else crtc_reg r d;
}.

Definition cursor_at {D} `{Crtc D} (d : D) : Z := 256 * crtc_reg 14 d + crtc_reg 15 d.

(** The console shows the document. *)
Definition pictures (v : Vga) (t : doc) : Prop :=
  (HEIGHT <= length (lines t))%nat /\ Forall (fun l => length l = WIDTH) (lines t)
  /\ BUF v = (fun c => entry c COLOR) <$> concat (window t)
  /\ row t = (ROW v + (length (lines t) - HEIGHT))%nat /\ (ROW v < HEIGHT)%nat
  /\ col t = COL v /\ (COL v <= WIDTH)%nat.

(** It does, and its cursor is in step. *)
Definition shows {D} `{Crtc D} (st : D * Vga) (t : doc) : Prop :=
  pictures st.2 t /\ cursor_at st.1 = Z.of_nat (ROW st.2 * WIDTH + COL st.2).

(** A simulated CRT controller. *)
Record SimCrtc : Type := mkSimCrtc { sel : Z; regs : Z -> Z }.

#[export] Instance SimCrtc_Machine : Machine SimCrtc := {
  inb _ d := (255, d);
  outb port v d :=
    if port =? 980 then mkSimCrtc v (regs d)
    else if port =? 981 then mkSimCrtc (sel d) (fun r => if r =? sel d then v else regs d r)
    else d;
  inw _ d := (65535, d);
  outw port v d := d;
  rdtsc d := (0, d);
}.

#[export, refine] Instance SimCrtc_Crtc : Crtc SimCrtc := { crtc_index := sel; crtc_reg r d := regs d r }.
Proof.
  - by intros v d.
  - by intros v d.
Defined.

(** A console after power-on: anything on the screen. *)
Definition power_on : SimCrtc * Vga := (mkSimCrtc 0 (fun _ => 0), mkVga (replicate 2000 1824) 7 11).

(** ** Rows laid out one after the other *)

Lemma length_concat_rows {A} w (rs : list (list A)) :
  Forall (fun l => length l = w) rs -> length (concat rs) = (length rs * w)%nat.
Proof. induction 1 as [|r rs Hr _ IH]; [done|]. cbn. rewrite length_app, IH, Hr. lia. Qed.

Lemma concat_insert {A} w (rs : list (list A)) r c x line :
  Forall (fun l => length l = w) rs -> rs !! r = Some line -> (c < w)%nat ->
  <[(r * w + c)%nat := x]> (concat rs) = concat (<[r := <[c := x]> line]> rs).
Proof.
  intros Hrs. revert r. induction Hrs as [|l rs Hl _ IH]; intros r Hr Hc; [done|].
  destruct r as [|r].
  - injection Hr as ->. cbn [Nat.mul Nat.add concat]. by rewrite insert_app_l by lia.
  - change (<[(S r * w + c)%nat := x]> (l ++ concat rs) = l ++ concat (<[r := <[c := x]> line]> rs)).
    change (rs !! r = Some line) in Hr. rewrite insert_app_r_alt by lia. rewrite <- (IH r Hr Hc). do 2 f_equal. lia.
Qed.

Lemma alter_insert {A} (f : A -> A) (l : list A) i x : l !! i = Some x -> alter f i l = <[i := f x]> l.
Proof.
  revert i. induction l as [|y l IH]; intros [|i] Hi; try done; [by injection Hi as ->|].
  exact (f_equal (cons y) (IH i Hi)).
Qed.

(** ** Loops over the cells *)

Section Loops.
Context {D : Type} `{Machine D}.
Implicit Types (d : D) (v : Vga).

Lemma clear_loop_run n i d v :
  (i + n <= length (BUF v))%nat ->
  clear_loop n i (d, v) = (Ret tt, (d, mkVga (splice i (replicate n blank) (BUF v)) (COL v) (ROW v))).
Proof.
  revert i v. induction n as [|n IH]; intros i v Hi; cbn [clear_loop].
  - unfold ret, splice. cbn. rewrite Nat.add_0_r, take_drop. by destruct v.
  - unfold bind, write_cell, modify. rewrite IH by (cbn; rewrite length_insert; lia). cbn [BUF COL ROW].
    do 3 f_equal. unfold splice. rewrite !length_replicate, take_S_r with (x := blank)
      by (apply list_lookup_insert_eq; lia).
    rewrite take_insert_ge by lia. rewrite drop_insert_lt by lia. cbn [replicate]. rewrite <- app_assoc.
    replace (S i + n)%nat with (i + S n)%nat by lia. done.
Qed.

Lemma copy_loop_run n dst b0 d v :
  BUF v = take dst (drop WIDTH b0) ++ drop dst b0 -> (dst + n + WIDTH <= length b0)%nat ->
  copy_loop n dst (d, v)
  = (Ret tt, (d, mkVga (take (dst + n) (drop WIDTH b0) ++ drop (dst + n) b0) (COL v) (ROW v))).
Proof.
  revert dst v. induction n as [|n IH]; intros dst v Hb Hlen; cbn [copy_loop].
  - rewrite Nat.add_0_r, <- Hb. by destruct v.
  - unfold bind, gets, write_cell, modify. cbn [snd].
    assert (length (take dst (drop WIDTH b0)) = dst) as Htl by (rewrite length_take, length_drop; lia).
    destruct (lookup_lt_is_Some_2 b0 (dst + WIDTH)) as [c Hc]; [lia|].
    destruct (lookup_lt_is_Some_2 b0 dst) as [x Hx]; [lia|].
    assert (byte_at (BUF v) (dst + WIDTH) = c) as ->.
    { apply byte_at_lookup. rewrite Hb, lookup_app_r by lia. rewrite lookup_drop, Htl.
      by replace (dst + (dst + WIDTH - dst))%nat with (dst + WIDTH)%nat by lia. }
    rewrite IH; cbn [BUF COL ROW].
    + by replace (S dst + n)%nat with (dst + S n)%nat by lia.
    + rewrite Hb, insert_app_r_alt by lia. rewrite Htl, Nat.sub_diag.
      rewrite (drop_S b0 x dst Hx). cbn [insert list_insert].
      rewrite (take_S_r _ _ c) by (rewrite lookup_drop; by rewrite Nat.add_comm).
      by rewrite <- app_assoc.
    + lia.
Qed.

Lemma scroll_run d v :
  length (BUF v) = 2000%nat ->
  scroll_impl (d, v) = (Ret tt, (d, mkVga (drop WIDTH (BUF v) ++ replicate WIDTH blank) (COL v) (ROW v))).
Proof.
  intros Hl. unfold scroll_impl.
  change ((HEIGHT - 1) * WIDTH)%nat with 1920%nat. unfold WIDTH.
  rewrite (bind_ret _ _ _ _ _ (copy_loop_run 1920 0 (BUF v) d v eq_refl ltac:(unfold WIDTH; lia))).
  cbn [Nat.add]. assert (length (take 1920 (drop WIDTH (BUF v))) = 1920%nat) as Ht
    by (rewrite length_take, length_drop; unfold WIDTH; lia).
  rewrite clear_loop_run by (cbn [BUF]; rewrite length_app, Ht, length_drop; lia). cbn [BUF COL ROW].
  do 3 f_equal. unfold splice. rewrite length_replicate.
  rewrite take_app_length' by done. f_equal.
  - apply take_ge. rewrite length_drop. unfold WIDTH. lia.
  - rewrite drop_ge; [by rewrite app_nil_r|]. rewrite length_app, Ht, length_drop. lia.
Qed.
End Loops.

(** ** The operations on the document *)

Lemma window_rows v t : pictures v t ->
  length (window t) = HEIGHT /\ Forall (fun l => length l = WIDTH) (window t) /\ length (BUF v) = 2000%nat.
Proof.
  intros (Hh & Hw & Hb & _). unfold window.
  assert (length (drop (length (lines t) - HEIGHT) (lines t)) = HEIGHT) as Hl by (rewrite length_drop; lia).
  assert (Forall (fun l => length l = WIDTH) (window t)) as Hwin by (by apply Forall_drop).
  split_and!; [done|done|]. rewrite Hb, length_fmap, (length_concat_rows WIDTH) by done.
  unfold window. by rewrite Hl.
Qed.

(** Adding a line below shifts the window. *)
Lemma window_next v t r c : pictures v t ->
  drop WIDTH (BUF v) ++ replicate WIDTH blank
  = (fun c => entry c COLOR) <$> concat (window (mkDoc (lines t ++ [blank_line]) r c)).
Proof.
  intros Hp. pose proof Hp as (Hh & Hw & Hb & _). rewrite Hb. unfold window. cbn [lines].
  rewrite length_app. cbn [length].
  replace (length (lines t) + 1 - HEIGHT)%nat with (S (length (lines t) - HEIGHT)) by lia.
  destruct (lookup_lt_is_Some_2 (lines t) (length (lines t) - HEIGHT)) as [l Hl].
  { unfold HEIGHT in *. lia. }
  rewrite (drop_S _ _ _ Hl). rewrite drop_app_le by (unfold HEIGHT in *; lia).
  cbn [concat]. rewrite concat_app, !fmap_app. cbn [concat]. rewrite app_nil_r.
  rewrite drop_app_length' by (rewrite length_fmap; by rewrite (Forall_lookup_1 _ _ _ _ Hw Hl)).
  done.
Qed.

Lemma pictures_new v : BUF v = replicate 2000 blank -> ROW v = O -> COL v = O -> pictures v doc_new.
Proof.
  intros Hb Hr Hc. unfold pictures, doc_new. rewrite Hr, Hc, Hb. cbn [lines row col].
  rewrite length_replicate. split_and!; try done; unfold HEIGHT, WIDTH; try lia.
  by apply Forall_replicate.
Qed.

Section Refinement.
Context {D : Type} `{Crtc D}.
Implicit Types (d : D) (v : Vga) (t : doc).

Lemma set_cursor_any d v r c :
  exists d', set_cursor_impl r c (d, v) = (Ret tt, (d', v)) /\ cursor_at d' = u16 (r * 80 + c).
Proof.
  unfold set_cursor_impl. change (Z.of_nat WIDTH) with 80.
  assert (u16 (r * 80 + c) = usize (r * 80 + c) mod 65536) as ->.
  { unfold u16, usize, u64. symmetry. apply (Z.mod_mod_divide _ _ 65536). by exists 281474976710656. }
  set (pos := usize (r * 80 + c)).
  unfold bind, zoom, outb_m. cbn [fst snd]. eexists. split; [reflexivity|].
  unfold cursor_at.
  repeat (rewrite ?(proj2 (crtc_store _ _)), ?(proj1 (crtc_store _ _)),
            ?(proj2 (crtc_select _ _)), ?(proj1 (crtc_select _ _))).
  cbn [Z.eqb Pos.eqb]. rewrite Z.shiftr_div_pow2, (Z.land_ones _ 8) by lia. change (2 ^ 8) with 256.
  unfold u8. Z.div_mod_to_equations. lia.
Qed.

Lemma set_cursor_run d v r c :
  0 <= r * 80 + c < 65536 ->
  exists d', set_cursor_impl r c (d, v) = (Ret tt, (d', v)) /\ cursor_at d' = r * 80 + c.
Proof.
  intros Hpos. destruct (set_cursor_any d v r c) as (d' & Hrun & Hc). exists d'. split; [done|].
  by rewrite Hc, u16_small by lia.
Qed.

Lemma place_screen v t : pictures v t -> place t = Z.of_nat (ROW v * WIDTH + COL v).
Proof. intros (_ & _ & _ & Hr & _ & Hc & _). unfold place. rewrite Hr, Hc. do 3 f_equal. lia. Qed.

(** [self.set_cursor_impl(ROW, COL)] brings the cursor in step. *)
Lemma sync_cursor_run d v t :
  pictures v t -> exists d', sync_cursor (d, v) = (Ret tt, (d', v)) /\ cursor_at d' = place t.
Proof.
  intros Hp. rewrite (place_screen v t Hp). pose proof Hp as (_ & _ & _ & _ & Hr & _ & Hc). unfold HEIGHT, WIDTH in Hr, Hc.
  destruct (set_cursor_run d v (Z.of_nat (ROW v)) (Z.of_nat (COL v))) as (d' & Hrun & Hcur); [lia|].
  exists d'. split; [exact Hrun|]. rewrite Hcur. unfold WIDTH. lia.
Qed.

Lemma next_row_run d v t :
  pictures v t -> exists v', next_row (d, v) = (Ret tt, (d, v')) /\ pictures v' (doc_next t).
Proof.
  intros Hp. pose proof Hp as (Hh & Hw & Hb & Hr & Hlt & Hcol & Hc).
  destruct (window_rows v t Hp) as (_ & _ & Hlen).
  unfold next_row, bind, gets, move, modify. cbn [snd fst].
  destruct (Nat.leb_spec HEIGHT (S (ROW v))) as [Hbot|Hin].
  - rewrite scroll_run by done. cbn [BUF]. eexists. split; [reflexivity|].
    unfold doc_next. destruct (Nat.ltb_spec (S (row t)) (length (lines t))); [unfold HEIGHT in *; lia|].
    unfold pictures. cbn [lines row col BUF ROW COL]. rewrite length_app. cbn [length].
    split_and!; try done; unfold HEIGHT in *; try lia.
    + apply Forall_app. split; [done|]. by apply Forall_singleton.
    + by apply window_next.
  - eexists. split; [reflexivity|]. unfold doc_next.
    destruct (Nat.ltb_spec (S (row t)) (length (lines t))); [|unfold HEIGHT in *; lia].
    unfold pictures. cbn [lines row col BUF ROW COL]. split_and!; try done; try lia.
Qed.

(** A character in its cell. *)
Lemma cell_run v t c :
  pictures v t -> (COL v < WIDTH)%nat ->
  pictures (mkVga (<[(ROW v * WIDTH + COL v)%nat := entry c COLOR]> (BUF v)) (S (COL v)) (ROW v))
    (mkDoc (alter (fun l => <[col t := c]> l) (row t) (lines t)) (row t) (S (col t))).
Proof.
  intros Hp Hc. pose proof Hp as (Hh & Hw & Hb & Hr & Hlt & Hcol & _).
  destruct (window_rows v t Hp) as (Hwl & Hww & _).
  destruct (lookup_lt_is_Some_2 (window t) (ROW v)) as [l Hl]; [lia|].
  assert (lines t !! row t = Some l) as Hline.
  { unfold window in Hl. rewrite lookup_drop in Hl. rewrite Hr. by rewrite Nat.add_comm. }
  rewrite (alter_insert _ _ _ _ Hline).
  unfold pictures. cbn [lines row col BUF ROW COL]. rewrite length_insert. split_and!; try done; try lia.
  - apply Forall_insert; [done|]. rewrite length_insert. by apply (Forall_lookup_1 _ _ _ _ Hw Hline).
  - unfold window at 1. cbn [lines]. rewrite length_insert, drop_insert_ge by lia.
    replace (row t - (length (lines t) - HEIGHT))%nat with (ROW v) by lia.
    fold (window t). rewrite <- (concat_insert WIDTH (window t) (ROW v) (col t) c l) by (done || lia).
    by rewrite list_fmap_insert, Hb, Hcol.
Qed.

Lemma pictures_move v t c : pictures v t -> (c <= WIDTH)%nat ->
  pictures (mkVga (BUF v) c (ROW v)) (mkDoc (lines t) (row t) c).
Proof. intros (? & ? & ? & ? & ? & _) Hc. by split_and!. Qed.

(** The console holds the terminal's document and cursor. *)
Definition holds (st : D * Vga) (t : term) : Prop :=
  pictures st.2 (t_doc t) /\ cursor_at st.1 = t_cursor t.

Lemma putchar_holds d v (t : term) c :
  holds (d, v) t -> exists st', putchar_impl c (d, v) = (Ret tt, st') /\ holds st' (term_put c t).
Proof.
  destruct t as [t k]. intros [Hp Hcur]. cbn [fst snd t_doc t_cursor] in *. pose proof Hp as (_ & _ & _ & _ & _ & Hcol & Hc).
  unfold term_put, putchar_impl. cbn [t_doc t_cursor]. unfold bind at 1, gets at 1. cbn [snd].
  assert (forall v' t', pictures v' t' ->
    exists st', sync_cursor (d, v') = (Ret tt, st') /\ holds st' (mkTerm t' (place t'))) as Hsync.
  { intros v' t' Hp'. destruct (sync_cursor_run d v' t' Hp') as (d' & ? & ?). by exists (d', v'). }
  unfold doc_put. destruct (c =? 8); cbn [andb]; [|destruct (c =? 13); [|destruct (c =? 10)]].
  - rewrite Hcol. destruct (Nat.ltb_spec 0 (COL v)).
    + rewrite (proj2 (Nat.eqb_neq (COL v) 0)) by lia.
      unfold bind at 1, move, modify. apply Hsync, pictures_move; [done|lia].
    + rewrite (proj2 (Nat.eqb_eq (COL v) 0)) by lia.
      exists (d, v). split; [done|]. split; [|done]. cbn [snd t_doc].
      replace (COL v - 1)%nat with (COL v) by lia. pose proof (pictures_move v t (COL v) Hp Hc). by destruct v.
  - unfold bind at 1, move, modify. apply Hsync, pictures_move; [done|lia].
  - destruct (next_row_run d v t Hp) as (v' & Hrun & Hp'). run_with Hrun. by apply Hsync.
  - assert (exists v', (if (WIDTH <=? COL v)%nat then next_row else ret tt) (d, v) = (Ret tt, (d, v'))
      /\ pictures v' (if (WIDTH <=? col t)%nat then doc_next t else t) /\ (COL v' < WIDTH)%nat)
      as (v' & Hrun & Hp' & Hlt).
    { rewrite Hcol. destruct (Nat.leb_spec WIDTH (COL v)).
      - destruct (next_row_run d v t Hp) as (v' & Hrun & Hp'). exists v'. split_and!; [done|done|].
        destruct Hp' as (_ & _ & _ & _ & _ & Hc' & _). cbn in Hc'. rewrite <- Hc'. unfold WIDTH. lia.
      - by exists v. }
    run_with Hrun. unfold bind at 1, gets at 1. cbn [snd].
    unfold bind, write_cell, move, modify. cbn [BUF COL ROW]. apply Hsync. by apply cell_run.
Qed.

(** A cursor in step stays in step. *)
Lemma holds_shows st t : shows st t <-> holds st (mkTerm t (place t)).
Proof.
  unfold shows, holds. cbn [t_doc t_cursor]. split; intros [Hp Hc]; (split; [done|]);
    rewrite (place_screen _ _ Hp) in *; done.
Qed.

Lemma term_put_step c t : term_put c (mkTerm t (place t)) = mkTerm (doc_put c t) (place (doc_put c t)).
Proof.
  unfold term_put. cbn [t_doc t_cursor]. f_equal. destruct (Z.eqb_spec c 8) as [->|]; [|done]. cbn [andb].
  destruct (Nat.eqb_spec (col t) 0) as [H0c|]; [|done]. unfold doc_put, place. cbn [Z.eqb Pos.eqb lines row col].
  by rewrite H0c.
Qed.

Lemma term_puts_step s t :
  fold_left (fun (t : term) c => term_put c t) s (mkTerm t (place t))
  = mkTerm (fold_left (fun t c => doc_put c t) s t) (place (fold_left (fun t c => doc_put c t) s t)).
Proof. revert t. induction s as [|c s IH]; intros t; [done|]. cbn [fold_left]. by rewrite term_put_step. Qed.

Lemma putchar_run d v t c :
  shows (d, v) t -> exists st', putchar_impl c (d, v) = (Ret tt, st') /\ shows st' (doc_put c t).
Proof.
  intros [st' [Hrun Hs]]%holds_shows%(putchar_holds _ _ _ c). exists st'. split; [done|].
  apply holds_shows. by rewrite <- term_put_step.
Qed.

Lemma each_byte_holds s d v (t : term) :
  holds (d, v) t ->
  exists st', each_byte putchar_impl s (d, v) = (Ret tt, st') /\ holds st' (fold_left (fun (t : term) c => term_put c t) s t).
Proof.
  revert d v t. induction s as [|c s IH]; intros d v t Hs; cbn [each_byte fold_left]; [by exists (d, v)|].
  destruct (putchar_holds d v t c Hs) as ([d1 v1] & Hrun & Hs1). run_with Hrun. by apply IH.
Qed.

Lemma each_byte_run s d v t :
  shows (d, v) t ->
  exists st', each_byte putchar_impl s (d, v) = (Ret tt, st') /\ shows st' (fold_left (fun t c => doc_put c t) s t).
Proof.
  intros [st' [Hrun Hs]]%holds_shows%(each_byte_holds s). exists st'. split; [done|].
  apply holds_shows. by rewrite <- term_puts_step.
Qed.

Lemma clear_run d v : length (BUF v) = 2000%nat ->
  exists st', clear_impl (d, v) = (Ret tt, st') /\ shows st' doc_new.
Proof.
  intros Hl. unfold clear_impl. change (WIDTH * HEIGHT)%nat with 2000%nat.
  run_with (clear_loop_run 2000 0 d v ltac:(lia)). unfold reset_cursor_impl, bind, move, modify. cbn [BUF].
  destruct (set_cursor_run d (mkVga (splice 0 (replicate 2000 blank) (BUF v)) 0 0) 0 0)
    as (d' & Hrun & Hcur); [lia|].
  eexists. split; [exact Hrun|]. split; [|by cbn [fst snd ROW COL]; rewrite Hcur].
  apply pictures_new; [|done..]. cbn [snd BUF]. unfold splice. rewrite length_replicate, drop_ge by lia.
  by rewrite app_nil_r.
Qed.

Lemma run_cmd_holds c d v (t : term) :
  holds (d, v) t -> exists st', run_cmd c (d, v) = (Ret tt, st') /\ holds st' (term_cmd t c).
Proof.
  intros Hs. pose proof Hs as [Hp Hcur]. cbn [fst snd] in Hp, Hcur.
  destruct c as [c|s|s| | | |r c|]; cbn [run_cmd term_cmd doc_cmd].
  - by apply putchar_holds.
  - by apply each_byte_holds.
  - destruct (each_byte_holds s d v t Hs) as ([d1 v1] & Hrun & Hs1). cbn [writeln VgaDisplay]. unfold writeln_impl, write_impl.
    run_with Hrun. by apply putchar_holds.
  - destruct (clear_run d v) as (st' & Hrun & Hs'%holds_shows); [by apply (window_rows v (t_doc t))|]. by exists st'.
  - destruct (window_rows v _ Hp) as (_ & _ & Hl).
    cbn [scroll VgaDisplay]. rewrite scroll_run by done. eexists. split; [reflexivity|]. split; [|done]. cbn [snd].
    pose proof Hp as (Hh & Hw & Hb & Hr & Hlt & Hcol & Hc). unfold pictures. cbn [t_doc lines row col BUF ROW COL].
    rewrite length_app. cbn [length]. split_and!; try done; try lia.
    + apply Forall_app. split; [done|]. by apply Forall_singleton.
    + by apply window_next.
  - cbn [reset_cursor VgaDisplay]. unfold reset_cursor_impl, bind, move, modify.
    destruct (set_cursor_run d (mkVga (BUF v) 0 0) 0 0) as (d' & Hrun & Hcur'); [lia|].
    eexists. split; [exact Hrun|]. split; [|by cbn [fst]; rewrite Hcur'].
    pose proof Hp as (Hh & Hw & Hb & Hr & Hlt & Hcol & Hc). unfold pictures. cbn [t_doc lines row col BUF ROW COL snd].
    split_and!; try done; unfold HEIGHT, WIDTH; lia.
  - destruct (set_cursor_any d v (Z.of_nat r) (Z.of_nat c)) as (d' & Hrun & Hcur').
    exists (d', v). split; [exact Hrun|]. by split.
  - by exists (d, v).
Qed.

Lemma run_cmds_holds cs d v (t : term) :
  holds (d, v) t -> exists st', run_cmds cs (d, v) = (Ret tt, st') /\ holds st' (fold_left term_cmd cs t).
Proof.
  revert d v t. induction cs as [|c cs IH]; intros d v t Hs; cbn [run_cmds fold_left]; [by exists (d, v)|].
  destruct (run_cmd_holds c d v t Hs) as ([d1 v1] & Hrun & Hs1). run_with Hrun. by apply IH.
Qed.

(** Initialisation, from anything on the screen. *)
Lemma vga_init_run d v : length (BUF v) = (WIDTH * HEIGHT)%nat ->
  exists st, vga_init (d, v) = (Ret tt, st) /\ holds st term_new.
Proof.
  intros Hl. unfold vga_init, set_palette, bind at 1.
  unfold bind at 1 2 3, zoom, outb_m. cbn [fst snd].
  match goal with |- context [bind clear_impl _ (?d1, v)] =>
    destruct (clear_run d1 v Hl) as ([d2 v2] & Hrun & Hs) end.
  run_with Hrun. destruct Hs as [Hp Hcur]. cbn [fst snd] in *.
  destruct (set_cursor_run d2 v2 0 0) as (d3 & Hrun3 & Hcur3); [lia|].
  exists (d3, v2). by split.
Qed.
End Refinement.

(** The document of the terminal, and its cursor while [set_cursor] is not
    called. *)
Lemma term_cmd_doc t c : t_doc (term_cmd t c) = doc_cmd (t_doc t) c.
Proof.
  assert (forall s t, t_doc (fold_left (fun (t : term) c => term_put c t) s t) = fold_left (fun t c => doc_put c t) s (t_doc t))
    as Hs by (induction s as [|b s IH]; intros t'; [done|]; cbn [fold_left]; by rewrite IH).
  destruct c; cbn [term_cmd doc_cmd]; try done; cbn [term_put t_doc]; by rewrite Hs.
Qed.

Lemma term_cmds_doc cs t : t_doc (fold_left term_cmd cs t) = fold_left doc_cmd cs (t_doc t).
Proof. revert t. induction cs as [|c cs IH]; intros t; [done|]. cbn [fold_left]. by rewrite IH, term_cmd_doc. Qed.

(** The rows are never fewer than the screen's. *)
Lemma doc_put_rows c t : (HEIGHT <= length (lines t))%nat -> (HEIGHT <= length (lines (doc_put c t)))%nat.
Proof.
  intros Hh. unfold doc_put, doc_next. repeat case_match; cbn [row lines] in *; rewrite ?length_alter, ?length_app; lia.
Qed.

Lemma doc_cmd_rows c t : (HEIGHT <= length (lines t))%nat -> (HEIGHT <= length (lines (doc_cmd t c)))%nat.
Proof.
  assert (forall s t, (HEIGHT <= length (lines t))%nat ->
    (HEIGHT <= length (lines (fold_left (fun t c => doc_put c t) s t)))%nat) as Hs.
  { induction s as [|b s IH]; intros t' Ht; [done|]. cbn [fold_left]. by apply IH, doc_put_rows. }
  intros Hh. destruct c; cbn [doc_cmd lines]; rewrite ?length_app; try lia; auto using doc_put_rows.
Qed.

Lemma term_cmd_place c t :
  is_set_cursor c = false -> (HEIGHT <= length (lines t))%nat ->
  term_cmd (mkTerm t (place t)) c = mkTerm (doc_cmd t c) (place (doc_cmd t c)).
Proof.
  intros Hc Hh. destruct c; cbn [term_cmd doc_cmd t_doc t_cursor]; try done.
  - apply term_put_step.
  - apply term_puts_step.
  - by rewrite term_puts_step, term_put_step.
  - f_equal. unfold place. cbn [lines row col]. rewrite length_app. cbn [length]. do 3 f_equal. lia.
  - f_equal. unfold place. cbn [lines row col]. lia.
Qed.

Lemma term_cmds_place cs t :
  Forall (fun c => is_set_cursor c = false) cs -> (HEIGHT <= length (lines t))%nat ->
  t_cursor (fold_left term_cmd cs (mkTerm t (place t))) = place (fold_left doc_cmd cs t).
Proof.
  intros Hcs. revert t. induction Hcs as [|c cs Hc _ IH]; intros t Hh; [done|]. cbn [fold_left].
  rewrite term_cmd_place by done. by apply IH, doc_cmd_rows.
Qed.

(** ** Properties *)

(** C24: From any contents of the screen, initialisation and any sequence of
    calls of the display's interface leave on the screen the last 25 rows of the
    document that the calls compose, of 80 columns with wrapping, backspace,
    return and line feed; the hardware cursor is where the terminal's is: at the
    place of the next character after each one written, and, after
    [set_cursor], wherever that has put it, which does not move the place of
    the next character. As long as [set_cursor] is not called, the cursor is at
    the place of the next character. *)
Theorem vga_shows_document {D} `{Crtc D} d v cs :
  length (BUF v) = (WIDTH * HEIGHT)%nat ->
  exists st', (do! vga_init in run_cmds cs) (d, v) = (Ret tt, st')
    /\ pictures st'.2 (fold_left doc_cmd cs doc_new)
    /\ cursor_at st'.1 = t_cursor (fold_left term_cmd cs term_new)
    /\ (Forall (fun c => is_set_cursor c = false) cs ->
         cursor_at st'.1 = place (fold_left doc_cmd cs doc_new)).
Proof.
  intros Hl. destruct (vga_init_run d v Hl) as ([d0 v0] & Hinit & Hs0). run_with Hinit.
  destruct (run_cmds_holds cs d0 v0 _ Hs0) as (st' & Hrun & Hp & Hc). exists st'.
  rewrite term_cmds_doc in Hp. split_and!; [exact Hrun|exact Hp|exact Hc|].
  intros Hcs. rewrite Hc. by apply (term_cmds_place cs doc_new).
Qed.

Lemma vga_shows_document_witness : exists st',
  (do! vga_init in run_cmds [WriteLn (str "planckOS"); Write (str "$ x"); PutChar 8; SetCursor 3 4]) power_on = (Ret tt, st')
  /\ pictures st'.2 (fold_left doc_cmd [WriteLn (str "planckOS"); Write (str "$ x"); PutChar 8] doc_new)
  /\ cursor_at st'.1 = 244.
Proof.
  destruct (vga_shows_document (mkSimCrtc 0 (fun _ => 0)) power_on.2
    [WriteLn (str "planckOS"); Write (str "$ x"); PutChar 8; SetCursor 3 4]) as (st' & Hrun & Hp & Hc & _); [reflexivity|].
  exists st'. split; [exact Hrun|]. split; [exact Hp|]. rewrite Hc. vm_compute. reflexivity.
Defined.

(** Where the calls of the witness end. *)
Example vga_screen :
  let '(d, v) := ((do! vga_init in run_cmds [WriteLn (str "planckOS"); Write (str "$ x"); PutChar 8]) power_on).2 in
  (fun c => Z.land c 255) <$> take 9 (BUF v) = str "planckOS " /\ ROW v = 1%nat /\ COL v = 2%nat
  /\ cursor_at d = 82.
Proof. vm_compute. by split_and!. Qed.
