(* ===== verification/Framebuffer.v ===== *)
(** The framebuffer console ([src/src/hal/framebuffer.rs]): glyphs of a bitmap
    font drawn into a linear buffer of pixels. The font is a data file of the
    repository and a parameter here. *)

From Stdlib Require Import ZArith Lia Ascii String.
From stdpp Require Import base numbers list gmap.
From S2P Require Import Prelude Text Machine Display.

#[local] Open Scope Z_scope.

(** ** State

    [unicode] is the table behind the glyphs as the code reads it, 16 bits at a
    time, when the font announces one. *)
Record FramebufferDisplay : Type := mkFb {
  fb : list Z;
  width : Z;
  height : Z;
  pitch : Z;
  bpp : Z;
  cursor_x : Z;
  cursor_y : Z;
  prev_cursor_x : Z;
  prev_cursor_y : Z;
  cursor_visible : bool;
  fg : Z;
  bg : Z;
  scale : Z;
  downscale : Z;
  glyph_w : Z;
  glyph_h : Z;
  glyph_data : list Z;
  glyph_count : Z;
  unicode : option (list Z);
}.

Definition set_fb (l : list Z) (s : FramebufferDisplay) : FramebufferDisplay :=
  mkFb l (width s) (height s) (pitch s) (bpp s) (cursor_x s) (cursor_y s) (prev_cursor_x s)
    (prev_cursor_y s) (cursor_visible s) (fg s) (bg s) (scale s) (downscale s) (glyph_w s) (glyph_h s)
    (glyph_data s) (glyph_count s) (unicode s).
Definition set_xy (x y : Z) (s : FramebufferDisplay) : FramebufferDisplay :=
  mkFb (fb s) (width s) (height s) (pitch s) (bpp s) x y (prev_cursor_x s)
    (prev_cursor_y s) (cursor_visible s) (fg s) (bg s) (scale s) (downscale s) (glyph_w s) (glyph_h s)
    (glyph_data s) (glyph_count s) (unicode s).
Definition set_prev (x y : Z) (visible : bool) (s : FramebufferDisplay) : FramebufferDisplay :=
  mkFb (fb s) (width s) (height s) (pitch s) (bpp s) (cursor_x s) (cursor_y s) x y visible
    (fg s) (bg s) (scale s) (downscale s) (glyph_w s) (glyph_h s)
    (glyph_data s) (glyph_count s) (unicode s).

Abbreviation FM := (M FramebufferDisplay Empty_set).

(** [for i in a..b { f(i) }]. *)
Fixpoint for_each {S} (l : list Z) (f : Z -> M S Empty_set unit) : M S Empty_set unit :=
  match l with
  | [] => ret tt
  | i :: l => do! f i in for_each l f
  end.
Definition for_range {S} (a b : Z) (f : Z -> M S Empty_set unit) : M S Empty_set unit :=
  for_each (seqZ a (b - a)) f.

(** [self.fb[i] = color]. *)
Definition set_pixel (i color : Z) : FM unit := fun s =>
  if (0 <=? i) && (i <? Z.of_nat (length (fb s)))
  then (Ret tt, set_fb (<[Z.to_nat i := color]> (fb s)) s) else (Panic, s).

Definition fb_width (s : FramebufferDisplay) : Z := pitch s / 4.
Definition char_w (s : FramebufferDisplay) : Z := glyph_w s / downscale s * scale s.
Definition char_h (s : FramebufferDisplay) : Z := glyph_h s / downscale s * scale s.

(** [if x < self.width && y < self.height { self.fb[y * fb_width + x] = color }]. *)
Definition plot (x y color : Z) : FM unit :=
  let! s := get in
  if (x <? width s) && (y <? height s) then set_pixel (y * fb_width s + x) color else ret tt.

(** The two rows of the cursor's bar below the character at [x, y]; the sums
    and the difference wrap as [usize] does. *)
Definition cursor_bar (x y color : Z) : FM unit :=
  let! s := get in
  for_range (usize (usize (y + char_h s) - 2)) (usize (y + char_h s)) (fun py =>
    for_range x (usize (x + char_w s)) (fun px => plot px py color)).

(** ** Glyphs *)

(** The search of the table. Both indexings are in range while [i] is below
    the length less one, a subtraction that wraps for an empty table. *)
Fixpoint table_loop (fuel : nat) (table : list Z) (i cp : Z) : M FramebufferDisplay Empty_set (option Z) :=
  match fuel with
  | O => hang
  | S fuel =>
      if i <? usize (Z.of_nat (length table) - 1) then
        let! t := or_panic (table !! Z.to_nat i) in
        if t =? cp then
          let! g := or_panic (table !! Z.to_nat (i + 1)) in ret (Some g)
        else table_loop fuel table (if t =? 65535 then i + 2 else i + 1) cp
      else ret None
  end.

Definition glyph_index (c : Z) : FM Z :=
  let! s := get in
  let! found :=
    match unicode s with
    | Some table => table_loop (S (length table)) table 0 c
    | None => ret None
    end in
  match found with
  | Some g => ret g
  | None =>
      if c <? glyph_count s then ret c
      else if glyph_count s =? 0 then panic
      else ret (c mod glyph_count s)
  end.

(** One dot of a glyph, as a square of [scale] pixels. *)
Definition draw_dot (x y row col : Z) (on : bool) : FM unit :=
  let! s := get in
  let color := if on then fg s else bg s in
  for_range 0 (scale s) (fun sy => for_range 0 (scale s) (fun sx =>
    plot (usize (x + col * scale s + sx)) (usize (y + row * scale s + sy)) color)).

(** The dot of the glyph at [base] for a rendered position. *)
Definition glyph_dot (s : FramebufferDisplay) (glyph : list Z) (row col : Z) : bool :=
  let g_size := glyph_w s * glyph_h s / 8 in
  let src_row := row * downscale s in
  let src_col := col * downscale s in
  let byte_idx := src_row * (glyph_w s / 8) + src_col / 8 in
  let bit_idx := 7 - src_col mod 8 in
  (byte_idx <? g_size) && Z.testbit (byte_at glyph (Z.to_nat byte_idx)) bit_idx.

Definition draw_glyph (glyph_idx x y : Z) : FM unit :=
  let! s := get in
  let g_size := glyph_w s * glyph_h s / 8 in
  let base := glyph_idx * g_size in
  if Z.of_nat (length (glyph_data s)) <? base + g_size then ret tt
  else
    let glyph := take (Z.to_nat g_size) (drop (Z.to_nat base) (glyph_data s)) in
    for_range 0 (glyph_h s / downscale s) (fun row =>
      for_range 0 (glyph_w s / downscale s) (fun col =>
        draw_dot x y row col (glyph_dot s glyph row col))).

Definition draw_cursor : FM unit :=
  let! s := get in
  do! (if cursor_visible s then cursor_bar (prev_cursor_x s) (prev_cursor_y s) (bg s) else ret tt) in
  do! cursor_bar (cursor_x s) (cursor_y s) (fg s) in
  modify (fun s => set_prev (cursor_x s) (cursor_y s) true s).

(** ** The trait *)

(** The copy of [scroll] is raw: a copy outside the buffer is shown as a
    panic. *)
Definition copy_up (n count : Z) : FM unit := fun s =>
  if (0 <=? count) && (n + count <=? Z.of_nat (length (fb s)))
  then (Ret tt, set_fb (take (Z.to_nat count) (drop (Z.to_nat n) (fb s)) ++ drop (Z.to_nat count) (fb s)) s)
  else (Panic, s).

Definition fb_scroll : FM unit :=
  let! s := get in
  if char_h s =? 0 then panic
  else
    let row_bytes := char_h s * (pitch s / 4) in
    let total_rows := height s / char_h s in
    do! copy_up row_bytes ((total_rows - 1) * row_bytes) in
    do! for_range ((total_rows - 1) * char_h s) (height s) (fun y =>
      for_range 0 (width s) (fun x => set_pixel (y * fb_width s + x) (bg s))) in
    modify (fun s =>
      if 0 <? cursor_y s then set_xy (cursor_x s) (saturating_sub (cursor_y s) (char_h s)) s else s).

(** To the next text row, scrolling when it does not fit. *)
Definition fb_newline : FM unit :=
  do! modify (fun s => set_xy 0 (usize (cursor_y s + char_h s)) s) in
  let! s := get in
  if height s <? usize (cursor_y s + char_h s) then fb_scroll else ret tt.

Definition fb_putchar (c : Z) : FM unit :=
  let! s := get in
  do! (if cursor_visible s then
         do! cursor_bar (cursor_x s) (cursor_y s) (bg s) in
         modify (fun s => set_prev (prev_cursor_x s) (prev_cursor_y s) false s)
       else ret tt) in
  if c =? 13 then modify (fun s => set_xy 0 (cursor_y s) s)
  else if c =? 10 then fb_newline
  else if c =? 8 then
    do! modify (fun s =>
      if char_w s <=? cursor_x s then set_xy (cursor_x s - char_w s) (cursor_y s) s else s) in
    let! idx := glyph_index 32 in
    let! s := get in
    draw_glyph idx (cursor_x s) (cursor_y s)
  else
    let! idx := glyph_index c in
    let! s := get in
    do! draw_glyph idx (cursor_x s) (cursor_y s) in
    do! modify (fun s => set_xy (usize (cursor_x s + char_w s)) (cursor_y s) s) in
    let! s := get in
    if width s <? usize (cursor_x s + char_w s) then fb_newline else ret tt.

Definition fb_clear : FM unit :=
  modify (fun s => set_xy 0 0 (set_fb (replicate (length (fb s)) (bg s)) s)).

Definition fb_set_cursor (row col : Z) : FM unit :=
  modify (fun s => set_xy (usize (col * char_w s)) (usize (row * char_h s)) s).

Definition fb_cols : FM Z :=
  let! s := get in if char_w s =? 0 then panic else ret (width s / char_w s).
Definition fb_rows : FM Z :=
  let! s := get in if char_h s =? 0 then panic else ret (height s / char_h s).

#[export] Instance Framebuffer_Display : Display FramebufferDisplay := {
  clear := fb_clear;
  write := each_byte fb_putchar;
  writeln s := do! each_byte fb_putchar s in fb_putchar 10;
  putchar := fb_putchar;
  set_cursor := fb_set_cursor;
  scroll := fb_scroll;
  reset_cursor := modify (set_xy 0 0);
  cols := fb_cols;
  rows := fb_rows;
  show_cursor := draw_cursor;
}.

(** ** Construction *)

Section New.
Context (FONT_DATA : list Z).

(** A field of the font's header. *)
Definition psf (off : nat) : Z := le_val (take 4 (drop off FONT_DATA)).

(** The table as 16-bit words. *)
Fixpoint words (l : list Z) : list Z :=
  match l with
  | a :: b :: l => a + 256 * b :: words l
  | _ => []
  end.

(** [FramebufferDisplay::new] on the memory [mem] at the buffer's address;
    [None] is the panic when the font is shorter than its header says. *)
Definition FramebufferDisplay_new (mem : list Z) (w h p depth : Z) : option FramebufferDisplay :=
  let g_w := if negb (psf 28 =? 0) then psf 28 else 8 in
  let g_h := if negb (psf 24 =? 0) then psf 24 else 16 in
  let g_size := psf 20 in
  let n_glyphs := psf 16 in
  let hdr_size := psf 8 in
  data ← slice (Z.to_nat hdr_size) (Z.to_nat (g_size * n_glyphs)) FONT_DATA;
  let table_off := hdr_size + g_size * n_glyphs in
  let table := if negb (Z.land (psf 12) 1 =? 0) then Some (words (drop (Z.to_nat table_off) FONT_DATA)) else None in
  Some (mkFb (replicate (length mem) 1507374) w h p depth 0 0 0 0 false 16777215 1507374 1 2 g_w g_h data
          n_glyphs table).
End New.
