(* ===== verification/FramebufferSpec.v ===== *)
(** What the framebuffer console promises: on a buffer as large as its geometry
    says no call leaves the buffer, and a glyph is drawn in its cell, pixel for
    pixel, and nowhere else. *)

From Stdlib Require Import ZArith Lia Ascii String.
From stdpp Require Import base numbers list gmap.
From S2P Require Import Prelude Hoare Text Machine Display DisplaySpec Framebuffer.

#[local] Open Scope Z_scope.

(** ** Geometry *)

(** What no call changes. *)
Definition geom (s : FramebufferDisplay) :=
  (length (fb s), width s, height s, pitch s, (scale s, downscale s, glyph_w s, glyph_h s),
   (glyph_data s, glyph_count s, unicode s)).

(** The buffer holds all rows of the screen, a character fits, and the font has
    glyphs; the screen's sizes are those of a boot information block. *)
Definition geom_ok (s : FramebufferDisplay) : Prop :=
  0 < width s <= fb_width s /\ 0 < char_h s <= height s /\ 0 < char_w s /\ 0 < scale s /\ 0 < downscale s
  /\ height s * fb_width s <= Z.of_nat (length (fb s))
  /\ 0 < glyph_count s
  /\ match unicode s with Some t => (0 < length t)%nat /\ Z.of_nat (length t) < 2 ^ 32 | None => True end.

(** The pixel at [x, y]. *)
Definition pixel (s : FramebufferDisplay) (x y : Z) : option Z := fb s !! Z.to_nat (y * fb_width s + x).

(** The colour that a glyph at [gx, gy] gives the pixel [x, y], if it covers
    it: the glyph is sampled at every [downscale]-th dot. *)
Definition glyph_pixel (s : FramebufferDisplay) (idx gx gy x y : Z) : option Z :=
  let g_size := glyph_w s * glyph_h s / 8 in
  let glyph := take (Z.to_nat g_size) (drop (Z.to_nat (idx * g_size)) (glyph_data s)) in
  if bool_decide (gx <= x < gx + char_w s) && bool_decide (gy <= y < gy + char_h s)
     && (idx * g_size + g_size <=? Z.of_nat (length (glyph_data s)))
  then Some (if glyph_dot s glyph ((y - gy) / scale s) ((x - gx) / scale s) then fg s else bg s)
  else None.

(** A console of 24 by 6 pixels with two glyphs of 8 by 4 dots. *)
Definition small_console : FramebufferDisplay :=
  mkFb (replicate 144 7) 24 6 96 32 0 0 0 0 false 1 0 1 2 8 4 [0; 0; 0; 0; 170; 0; 136; 0] 2 None.

(** ** Safety *)

Section Safe.
Context (s0 : FramebufferDisplay) (Hok : geom_ok s0).

Definition inv (s : FramebufferDisplay) : Prop :=
  geom s = geom s0 /\ 0 <= cursor_x s /\ 0 <= cursor_y s /\ 0 <= prev_cursor_x s.

Abbreviation safe m := (keeps (E := Empty_set) inv (fun _ => False) False False m (fun _ : unit => True)).

(** Equal geometries have equal fields. *)
Lemma inv_fields s : inv s ->
  length (fb s) = length (fb s0) /\ width s = width s0 /\ height s = height s0 /\ fb_width s = fb_width s0
  /\ char_w s = char_w s0 /\ char_h s = char_h s0 /\ glyph_count s = glyph_count s0 /\ unicode s = unicode s0
  /\ pitch s = pitch s0.
Proof.
  intros [Hg _]. injection Hg as Hl Hw Hh Hp Hs Hd Hgw Hgh Hgd Hgc Hu.
  unfold fb_width, char_w, char_h. rewrite Hp, Hgw, Hgh, Hd, Hs. by split_and!.
Qed.

Lemma keeps_get_inv {A} (k : FramebufferDisplay -> M FramebufferDisplay Empty_set A) Q :
  (forall s, inv s -> keeps inv (fun _ => False) False False (k s) Q) ->
  keeps inv (fun _ => False) False False (bind get k) Q.
Proof. intros Hk. eapply keeps_bind; [by apply (keeps_get _ _ _ _ inv)|exact Hk]. Qed.

Lemma safe_modify f : (forall s, inv s -> inv (f s)) -> safe (modify f).
Proof. intros Hf. by apply keeps_modify. Qed.

Lemma safe_bind (m : FM unit) k : safe m -> safe k -> safe (bind m (fun _ => k)).
Proof. intros Hm Hk. eapply keeps_bind; [exact Hm|done]. Qed.

Lemma safe_for_each l f : (forall i, i ∈ l -> safe (f i)) -> safe (for_each l f).
Proof.
  intros Hf. induction l as [|i l IH]; cbn [for_each]; [by apply keeps_ret|].
  apply safe_bind; [apply Hf; by left|]. apply IH. intros j Hj. apply Hf. by right.
Qed.

Lemma safe_for_range a b f : (forall i, a <= i < b -> safe (f i)) -> safe (for_range a b f).
Proof. intros Hf. apply safe_for_each. intros i [? ?]%elem_of_seqZ. apply Hf. lia. Qed.

(** A pixel on the screen is in the buffer. *)
Lemma on_screen x y : 0 <= x < width s0 -> 0 <= y < height s0 ->
  0 <= y * fb_width s0 + x < Z.of_nat (length (fb s0)).
Proof. destruct Hok as ((_ & Hw) & _ & _ & _ & _ & Hlen & _). intros. nia. Qed.

Lemma set_pixel_safe i c : 0 <= i < Z.of_nat (length (fb s0)) -> safe (set_pixel i c).
Proof.
  intros Hi s Hs. pose proof (inv_fields s Hs) as (Hl & _). unfold set_pixel. rewrite Hl.
  destruct (Z.leb_spec 0 i), (Z.ltb_spec i (Z.of_nat (length (fb s0)))); try lia. cbn [andb]. split; [|done].
  cbn [snd]. destruct Hs as (Hg & Hx & Hy & Hpx). split_and!; [|done..]. rewrite <- Hg. unfold geom, set_fb.
  cbn [fb width height pitch scale downscale glyph_w glyph_h glyph_data glyph_count unicode].
  by rewrite length_insert.
Qed.

Lemma plot_safe x y c : 0 <= x -> 0 <= y -> safe (plot x y c).
Proof.
  intros Hx Hy. apply keeps_get_inv. intros s Hs. pose proof (inv_fields s Hs) as (_ & Hw & Hh & Hf & _).
  rewrite Hw, Hh, Hf. destruct (Z.ltb_spec x (width s0)), (Z.ltb_spec y (height s0)); try by apply keeps_ret.
  by apply set_pixel_safe, on_screen.
Qed.

Lemma usize_nonneg z : 0 <= usize z.
Proof. unfold usize, u64. by apply Z.mod_pos_bound. Qed.

Lemma cursor_bar_safe x y c : 0 <= x -> safe (cursor_bar x y c).
Proof.
  intros Hx. apply keeps_get_inv. intros s Hs. apply safe_for_range. intros py Hpy.
  pose proof (usize_nonneg (usize (y + char_h s) - 2)).
  apply safe_for_range. intros px Hpx. apply plot_safe; lia.
Qed.

Lemma draw_dot_safe x y row col on : safe (draw_dot x y row col on).
Proof.
  apply keeps_get_inv. intros s Hs.
  apply safe_for_range. intros sy Hsy. apply safe_for_range. intros sx Hsx.
  apply plot_safe; apply usize_nonneg.
Qed.

Lemma draw_glyph_safe idx x y : safe (draw_glyph idx x y).
Proof.
  apply keeps_get_inv. intros s Hs. cbv zeta. case_match; [by apply keeps_ret|].
  apply safe_for_range. intros row Hr. apply safe_for_range. intros c Hc. apply draw_dot_safe.
Qed.

Lemma table_loop_safe fuel table i cp :
  (0 < length table)%nat -> Z.of_nat (length table) < 2 ^ 32 -> 0 <= i -> Z.of_nat (length table) - i < Z.of_nat fuel ->
  (0 < fuel)%nat -> keeps inv (fun _ => False) False False (table_loop fuel table i cp) (fun _ => True).
Proof.
  intros Hn Hm. revert i. induction fuel as [|fuel IH]; intros i Hi Hf Hpos; [lia|]. cbn [table_loop].
  rewrite usize_small by lia. destruct (Z.ltb_spec i (Z.of_nat (length table) - 1)); [|by apply keeps_ret].
  destruct (lookup_lt_is_Some_2 table (Z.to_nat i)) as [t Ht]; [lia|].
  destruct (lookup_lt_is_Some_2 table (Z.to_nat (i + 1))) as [g Hg]; [lia|].
  eapply keeps_bind; [by apply (keeps_or_panic _ _ _ _ _ (fun _ => True) t)|]. intros b _.
  case_match.
  - eapply keeps_bind; [by apply (keeps_or_panic _ _ _ _ _ (fun _ => True) g)|]. intros g' _. by apply keeps_ret.
  - case_match; apply IH; lia.
Qed.

Lemma glyph_index_safe c : keeps inv (fun _ => False) False False (glyph_index c) (fun _ => True).
Proof.
  apply keeps_get_inv. intros s Hs. pose proof (inv_fields s Hs) as (_ & _ & _ & _ & _ & _ & Hc & Hu & _).
  destruct Hok as (_ & _ & _ & _ & _ & _ & Hgc & Htab). rewrite Hu, Hc.
  eapply (keeps_bind _ _ _ _ _ _ (fun _ => True)).
  - destruct (unicode s0) as [t|]; [|by apply keeps_ret]. apply table_loop_safe; lia.
  - intros [g|] _; [by apply keeps_ret|]. destruct (c <? glyph_count s0); [by apply keeps_ret|].
    destruct (Z.eqb_spec (glyph_count s0) 0); [lia|]. by apply keeps_ret.
Qed.

Lemma inv_set_xy x y s : inv s -> 0 <= x -> 0 <= y -> inv (set_xy x y s).
Proof. intros (Hg & _ & _ & Hp) Hx Hy. by split_and!. Qed.

Lemma inv_set_prev x y b s : inv s -> 0 <= x -> inv (set_prev x y b s).
Proof. intros (Hg & Hcx & Hcy & _) Hx. by split_and!. Qed.

Lemma copy_up_safe n c : 0 <= n -> 0 <= c -> n + c <= Z.of_nat (length (fb s0)) -> safe (copy_up n c).
Proof.
  intros Hn Hc Hl s Hs. pose proof (inv_fields s Hs) as (Hlen & _). unfold copy_up. rewrite Hlen.
  destruct (Z.leb_spec 0 c), (Z.leb_spec (n + c) (Z.of_nat (length (fb s0)))); try lia. cbn [andb]. split; [|done].
  cbn [snd]. destruct Hs as (Hg & Hx & Hy & Hpx). split_and!; [|done..]. rewrite <- Hg. unfold geom, set_fb.
  cbn [fb width height pitch scale downscale glyph_w glyph_h glyph_data glyph_count unicode].
  rewrite length_app, length_take, !length_drop, Hlen.
  by replace (_ + _)%nat with (length (fb s0)) by lia.
Qed.

Lemma fb_scroll_safe : safe fb_scroll.
Proof.
  apply keeps_get_inv. intros s Hs. pose proof (inv_fields s Hs) as (_ & Hw & Hh & Hf & _ & Hch & _ & _ & Hp).
  pose proof Hok as ((Hw0 & Hwf) & Hchh & _ & _ & _ & Hlen & _).
  rewrite Hch, Hh, Hw, Hf, Hp. fold (fb_width s0). destruct (Z.eqb_spec (char_h s0) 0); [lia|].
  assert (1 <= height s0 / char_h s0) as H1 by (apply Z.div_le_lower_bound; lia).
  assert (height s0 / char_h s0 * char_h s0 <= height s0) as H2
    by (rewrite Z.mul_comm; apply Z.mul_div_le; lia).
  set (tr := height s0 / char_h s0) in *. set (fw := fb_width s0) in *.
  assert (0 < char_h s0 * fw) by nia. assert (tr * char_h s0 * fw <= height s0 * fw) by nia.
  apply safe_bind; [apply copy_up_safe; nia|]. apply safe_bind.
  - apply safe_for_range. intros y Hy. apply safe_for_range. intros x Hx. apply set_pixel_safe, on_screen; nia.
  - apply safe_modify. intros s' Hs'. case_match; [|done]. destruct Hs' as (Hg & Hx & Hy & Hpx).
    apply inv_set_xy; [done|done|]. unfold saturating_sub. lia.
Qed.

Lemma fb_newline_safe : safe fb_newline.
Proof.
  apply safe_bind.
  - apply safe_modify. intros s Hs. apply inv_set_xy; [done|done|apply usize_nonneg].
  - apply keeps_get_inv. intros s Hs. case_match; [apply fb_scroll_safe|by apply keeps_ret].
Qed.

Lemma fb_putchar_safe c : safe (fb_putchar c).
Proof.
  pose proof Hok as (_ & Hchh & Hcw & _). apply keeps_get_inv. intros s Hs. apply safe_bind.
  { case_match; [|by apply keeps_ret]. apply safe_bind; [apply cursor_bar_safe; apply Hs|].
    apply safe_modify. intros s' Hs'. apply inv_set_prev; [done|apply Hs']. }
  case_match; [|case_match; [|case_match]].
  - apply safe_modify. intros s' Hs'. apply inv_set_xy; [done|done|apply Hs'].
  - apply fb_newline_safe.
  - apply safe_bind.
    + apply safe_modify. intros s' Hs'. case_match eqn:Hle; [|done]. apply Z.leb_le in Hle.
      apply inv_set_xy; [done|lia|apply Hs'].
    + eapply keeps_bind; [apply glyph_index_safe|]. intros idx _. apply keeps_get_inv. intros s' _.
      apply draw_glyph_safe.
  - eapply keeps_bind; [apply glyph_index_safe|]. intros idx _. apply keeps_get_inv. intros s' Hs'.
    apply safe_bind; [apply draw_glyph_safe|]. apply safe_bind.
    + apply safe_modify. intros s2 Hs2. apply inv_set_xy; [done|apply usize_nonneg|apply Hs2].
    + apply keeps_get_inv. intros s2 Hs2. case_match; [apply fb_newline_safe|by apply keeps_ret].
Qed.

Lemma each_byte_safe s : safe (each_byte fb_putchar s).
Proof.
  induction s as [|b s IH]; cbn [each_byte]; [by apply keeps_ret|]. apply safe_bind; [apply fb_putchar_safe|done].
Qed.

Lemma draw_cursor_safe : safe draw_cursor.
Proof.
  apply keeps_get_inv. intros s Hs. apply safe_bind.
  - case_match; [|by apply keeps_ret]. apply cursor_bar_safe, Hs.
  - apply safe_bind; [apply cursor_bar_safe, Hs|]. apply safe_modify. intros s' Hs'.
    apply inv_set_prev; [done|apply Hs'].
Qed.

Lemma run_cmd_safe c : safe (run_cmd c).
Proof.
  destruct c as [b|t|t| | | |r c|];
    cbn [run_cmd putchar write writeln clear scroll reset_cursor set_cursor show_cursor Framebuffer_Display].
  - apply fb_putchar_safe.
  - apply each_byte_safe.
  - apply safe_bind; [apply each_byte_safe|apply fb_putchar_safe].
  - apply safe_modify. intros s (Hg & _ & _ & Hp). split_and!; [|done..]. rewrite <- Hg. unfold geom. cbn.
    by rewrite length_replicate.
  - apply fb_scroll_safe.
  - apply safe_modify. intros s Hs. by apply inv_set_xy.
  - apply safe_modify. intros s Hs. apply inv_set_xy; [done|apply usize_nonneg..].
  - apply draw_cursor_safe.
Qed.

Lemma run_cmds_safe cs : safe (run_cmds cs).
Proof.
  induction cs as [|c cs IH]; cbn [run_cmds]; [by apply keeps_ret|]. apply safe_bind; [apply run_cmd_safe|exact IH].
Qed.
End Safe.

(** ** Painting

    [paints m P]: [m] gives every pixel of the screen the colour that [P] names
    for it, if any, and changes nothing else. *)

Section Painting.
Context (s0 : FramebufferDisplay) (Hok : geom_ok s0).

Definition like (s : FramebufferDisplay) : Prop :=
  s = set_fb (fb s) s0 /\ length (fb s) = length (fb s0).

Definition on_visible (P : Z -> Z -> option Z) (x y : Z) : option Z :=
  if x <? width s0 then P x y else None.

Definition paints (m : FM unit) (P : Z -> Z -> option Z) : Prop :=
  forall s, like s -> exists s', m s = (Ret tt, s') /\ like s' /\
    forall x y, 0 <= x < fb_width s0 -> 0 <= y < height s0 ->
      pixel s' x y = match on_visible P x y with Some c => Some c | None => pixel s x y end.

Lemma paints_ret P : (forall x y, P x y = None) -> paints (ret tt) P.
Proof.
  intros HP s Hs. exists s. split_and!; [done..|]. intros x y _ _. unfold on_visible. rewrite HP.
  by destruct (x <? width s0).
Qed.

Lemma paints_ext m P Q : (forall x y, P x y = Q x y) -> paints m P -> paints m Q.
Proof.
  intros HPQ Hm s Hs. destruct (Hm s Hs) as (s' & Hrun & Hs' & Hpix). exists s'. split_and!; [done..|].
  intros x y Hx Hy. rewrite Hpix by done. unfold on_visible. by rewrite HPQ.
Qed.

Lemma paints_get (k : FramebufferDisplay -> FM unit) P :
  (forall s, like s -> paints (k s) P) -> paints (bind get k) P.
Proof. intros Hk s Hs. unfold bind, get. by apply Hk. Qed.

(** A loop whose turns paint different parts: [idx] tells the turn. *)
Lemma paints_for_each (l : list Z) f (idx : Z -> Z -> Z) (Q : Z -> Z -> option Z) :
  (forall i, i ∈ l -> paints (f i) (fun x y => if idx x y =? i then Q x y else None)) ->
  paints (for_each l f) (fun x y => if bool_decide (idx x y ∈ l) then Q x y else None).
Proof.
  induction l as [|i l IH]; intros Hf.
  { apply paints_ret. intros x y. by rewrite bool_decide_false by apply not_elem_of_nil. }
  intros s Hs. cbn [for_each]. destruct (Hf i ltac:(by left) s Hs) as (s1 & Hrun1 & Hs1 & Hp1).
  run_with Hrun1.
  destruct (IH (fun j Hj => Hf j (list_elem_of_further _ _ _ Hj)) s1 Hs1) as (s2 & Hrun2 & Hs2 & Hp2).
  exists s2. split_and!; [done..|]. intros x y Hx Hy. rewrite Hp2, Hp1 by done. unfold on_visible.
  destruct (x <? width s0); [|done]. destruct (Z.eqb_spec (idx x y) i) as [Hi|Hi].
  - rewrite (bool_decide_true (idx x y ∈ i :: l)) by (rewrite Hi; by left).
    case_bool_decide; [|done]. by destruct (Q x y).
  - rewrite (bool_decide_ext (idx x y ∈ i :: l) (idx x y ∈ l)); [done|].
    rewrite elem_of_cons. naive_solver.
Qed.

Lemma paints_for_range a b f idx Q :
  (forall i, a <= i < b -> paints (f i) (fun x y => if idx x y =? i then Q x y else None)) ->
  paints (for_range a b f)
    (fun x y => if bool_decide (a <= idx x y < b) then Q x y else None).
Proof.
  intros Hf. eapply paints_ext; [|apply (paints_for_each _ _ idx Q)].
  - intros x y. cbv beta. erewrite bool_decide_ext; [done|]. rewrite elem_of_seqZ. lia.
  - intros i [? ?]%elem_of_seqZ. apply Hf. lia.
Qed.

Lemma pixel_index x y x' y' : 0 <= x < fb_width s0 -> 0 <= x' < fb_width s0 -> 0 <= y -> 0 <= y' ->
  Z.to_nat (y * fb_width s0 + x) = Z.to_nat (y' * fb_width s0 + x') -> x = x' /\ y = y'.
Proof.
  intros Hx Hx' Hy Hy' Heq. set (w := fb_width s0) in *.
  assert (0 <= y * w) by nia. assert (0 <= y' * w) by nia.
  assert (y * w + x = y' * w + x') as He by lia.
  assert (y = y') as ->; [|lia].
  rewrite (Z.div_unique_pos (y * w + x) w y x) by lia.
  by rewrite He, <- (Z.div_unique_pos (y' * w + x') w y' x') by lia.
Qed.

Lemma paints_plot px py c : 0 <= px -> 0 <= py ->
  paints (plot px py c) (fun x y => if (x =? px) && (y =? py) then Some c else None).
Proof.
  intros Hpx Hpy. apply paints_get. intros s1 [-> Hl1]. cbn [set_fb width height fb_width pitch].
  intros s [Hs Hl]. pose proof Hok as ((Hw0 & Hwf) & _).
  destruct (Z.ltb_spec px (width s0)), (Z.ltb_spec py (height s0)); cbn [andb].
  1: { pose proof (on_screen s0 Hok px py ltac:(lia) ltac:(lia)) as Hin.
    unfold set_pixel. change (fb_width (set_fb (fb s1) s0)) with (fb_width s0). rewrite Hl.
    destruct (Z.leb_spec 0 (py * fb_width s0 + px)),
      (Z.ltb_spec (py * fb_width s0 + px) (Z.of_nat (length (fb s0)))); try lia. cbn [andb].
    eexists. split; [reflexivity|]. split.
    { split; [by rewrite Hs|]. cbn [set_fb fb]. by rewrite length_insert. }
    intros x y Hx Hy. unfold pixel, on_visible. cbn [set_fb fb].
    assert (fb_width s = fb_width s0) as Hfw by (by rewrite Hs).
    change (fb_width (set_fb _ s)) with (fb_width s). rewrite Hfw.
    destruct (Z.eqb_spec x px) as [->|Hne], (Z.eqb_spec y py) as [->|Hne']; cbn [andb].
    1: { destruct (Z.ltb_spec px (width s0)); [|lia]. apply list_lookup_insert_eq. lia. }
    all: destruct (_ <? width s0); rewrite list_lookup_insert_ne; try done;
      intros Heq; apply pixel_index in Heq; lia. }
  all: exists s; split_and!; [done..|]; intros x y Hx Hy; unfold on_visible;
    destruct (Z.ltb_spec x (width s0)), (Z.eqb_spec x px), (Z.eqb_spec y py); try done; lia.
Qed.

(** A dot is the square of pixels whose offsets divide to its place. *)
Lemma paints_dot x0 y0 r c on : 0 <= x0 -> 0 <= y0 -> 0 <= r -> 0 <= c ->
  x0 + (c + 1) * scale s0 <= 2 ^ 64 -> y0 + (r + 1) * scale s0 <= 2 ^ 64 ->
  paints (draw_dot x0 y0 r c on)
    (fun x y => if (y - y0) / scale s0 =? r then
       if (x - x0) / scale s0 =? c then Some (if on then fg s0 else bg s0) else None else None).
Proof.
  intros Hx Hy Hr Hc Hbx Hby. pose proof Hok as (_ & _ & _ & Hsc & _). unfold draw_dot. apply paints_get.
  intros s [-> _]. change (scale (set_fb _ s0)) with (scale s0). change (fg (set_fb _ s0)) with (fg s0).
  change (bg (set_fb _ s0)) with (bg s0). set (sc := scale s0) in *. set (colour := if on then _ else _).
  eapply paints_ext; [|apply (paints_for_range 0 sc _ (fun x y => y - (y0 + r * sc))
    (fun x y => if bool_decide (0 <= x - (x0 + c * sc) < sc) then Some colour else None))].
  - intros x y. cbv beta.
    assert (forall a b k, bool_decide (0 <= a - (b + k * sc) < sc) = ((a - b) / sc =? k)) as Hdiv.
    { intros a b k. apply eq_true_iff_eq. rewrite bool_decide_eq_true, Z.eqb_eq. split.
      - intros Hin. symmetry. apply (Z.div_unique_pos _ _ _ (a - (b + k * sc))); lia.
      - intros <-. pose proof (Z.div_mod (a - b) sc). pose proof (Z.mod_pos_bound (a - b) sc). lia. }
    by rewrite !Hdiv.
  - intros sy Hsy. eapply paints_ext; [|apply (paints_for_range 0 sc _ (fun x y => x - (x0 + c * sc))
      (fun x y => if y - (y0 + r * sc) =? sy then Some colour else None))].
    + intros x y. cbv beta. by destruct (bool_decide _), (_ =? sy).
    + intros sx Hsx. rewrite !usize_small by nia. eapply paints_ext; [|apply paints_plot; nia].
      intros x y. cbv beta. destruct (Z.eqb_spec x (x0 + c * sc + sx)), (Z.eqb_spec y (y0 + r * sc + sy)),
        (Z.eqb_spec (x - (x0 + c * sc)) sx), (Z.eqb_spec (y - (y0 + r * sc)) sy); try done; lia.
Qed.

Lemma paints_glyph idx x0 y0 : 0 <= x0 -> 0 <= y0 ->
  x0 + char_w s0 <= 2 ^ 64 -> y0 + char_h s0 <= 2 ^ 64 ->
  paints (draw_glyph idx x0 y0) (glyph_pixel s0 idx x0 y0).
Proof.
  intros Hx Hy Hbx Hby. pose proof Hok as (_ & _ & _ & Hsc & _). unfold draw_glyph. unfold char_w, char_h in Hbx, Hby. apply paints_get.
  intros s [-> _]. set (g_size := glyph_w s0 * glyph_h s0 / 8).
  change (glyph_w (set_fb _ s0) * glyph_h (set_fb _ s0) / 8) with g_size. cbv zeta.
  change (glyph_data (set_fb _ s0)) with (glyph_data s0).
  change (glyph_h (set_fb _ s0) / downscale (set_fb _ s0)) with (glyph_h s0 / downscale s0).
  change (glyph_w (set_fb _ s0) / downscale (set_fb _ s0)) with (glyph_w s0 / downscale s0).
  destruct (Z.ltb_spec (Z.of_nat (length (glyph_data s0))) (idx * g_size + g_size)) as [Hout|Hin].
  { apply paints_ret. intros x y. unfold glyph_pixel. fold g_size.
    destruct (Z.leb_spec (idx * g_size + g_size) (Z.of_nat (length (glyph_data s0)))); [lia|].
    by rewrite andb_false_r. }
  set (glyph := take _ _). set (sc := scale s0) in *.
  eapply paints_ext; [|apply (paints_for_range 0 (glyph_h s0 / downscale s0) _ (fun x y => (y - y0) / sc)
    (fun x y => if bool_decide (0 <= (x - x0) / sc < glyph_w s0 / downscale s0)
       then Some (if glyph_dot s0 glyph ((y - y0) / sc) ((x - x0) / sc) then fg s0 else bg s0) else None))].
  - intros x y. cbv beta. unfold glyph_pixel. fold g_size glyph sc.
    destruct (Z.leb_spec (idx * g_size + g_size) (Z.of_nat (length (glyph_data s0)))); [|lia].
    rewrite andb_true_r. unfold char_w, char_h. fold sc.
    assert (forall a b n, bool_decide (0 <= (a - b) / sc < n) = bool_decide (b <= a < b + n * sc)) as Hdiv.
    { intros a b n. apply bool_decide_ext. pose proof (Z.div_mod (a - b) sc ltac:(lia)).
      pose proof (Z.mod_pos_bound (a - b) sc ltac:(lia)). split; nia. }
    rewrite !Hdiv. by destruct (bool_decide _), (bool_decide _).
  - intros r Hr. eapply paints_ext; [|apply (paints_for_range 0 (glyph_w s0 / downscale s0) _
      (fun x y => (x - x0) / sc)
      (fun x y => if (y - y0) / sc =? r
         then Some (if glyph_dot s0 glyph r ((x - x0) / sc) then fg s0 else bg s0) else None))].
    + intros x y. cbv beta. destruct (Z.eqb_spec ((y - y0) / sc) r) as [->|]; by case_bool_decide.
    + intros c Hc. fold sc in Hbx, Hby. eapply paints_ext; [|apply paints_dot; fold sc; nia].
      intros x y. cbv beta. fold sc. destruct (Z.eqb_spec ((x - x0) / sc) c) as [->|]; by case_match.
Qed.
End Painting.

(** ** Properties *)

(** C36: Every call on a console whose buffer is as large as its geometry says
    returns: no pixel outside the buffer is written, no index is out of bounds,
    no division fails, whatever bytes are written and however often it
    scrolls. *)
Theorem framebuffer_in_bounds s cs :
  geom_ok s -> 0 <= cursor_x s -> 0 <= cursor_y s -> 0 <= prev_cursor_x s ->
  exists s', run_cmds cs s = (Ret tt, s') /\ length (fb s') = length (fb s).
Proof.
  intros Hok Hx Hy Hp. assert (inv s s) as Hinv by (by split_and!).
  destruct (run_cmds_safe s Hok cs s Hinv) as [Hs' He].
  destruct (run_cmds cs s) as [[[]|[]| |] s']; cbn in Hs', He; try done.
  exists s'. split; [done|]. by apply (inv_fields s s').
Qed.

Lemma framebuffer_in_bounds_witness : exists s',
  run_cmds [Write (str "hello"); PutChar 10; ShowCursor; SetCursor 9 9; PutChar 8]
    small_console = (Ret tt, s')
  /\ length (fb s') = 144%nat.
Proof.
  apply (framebuffer_in_bounds small_console
    [Write (str "hello"); PutChar 10; ShowCursor; SetCursor 9 9; PutChar 8]); [|done..].
  unfold geom_ok. vm_compute. repeat split; discriminate.
Defined.

(** A glyph at a cell gives each pixel of the cell on the screen the colour of
    its dot, the glyph being sampled at every [downscale]-th row and column,
    and changes no other pixel; an index behind the font draws nothing. *)
Theorem draw_glyph_exact s idx gx gy :
  geom_ok s -> 0 <= gx -> 0 <= gy -> gx + char_w s <= 2 ^ 64 -> gy + char_h s <= 2 ^ 64 ->
  exists s', draw_glyph idx gx gy s = (Ret tt, s') /\ s' = set_fb (fb s') s
    /\ forall x y, 0 <= x < fb_width s -> 0 <= y < height s ->
         pixel s' x y
         = match (if x <? width s then glyph_pixel s idx gx gy x y else None) with
           | Some c => Some c
           | None => pixel s x y
           end.
Proof.
  intros Hok Hx Hy Hbx Hby. destruct (paints_glyph s Hok idx gx gy Hx Hy Hbx Hby s) as (s' & Hrun & [Hs' _] & Hpix).
  { split; [by destruct s|done]. }
  by exists s'.
Qed.

Lemma draw_glyph_exact_witness : exists s',
  draw_glyph 1 4 2 small_console = (Ret tt, s') /\ s' = set_fb (fb s') small_console
  /\ pixel s' 4 2 = Some 1 /\ pixel s' 5 3 = Some 0 /\ pixel s' 3 2 = Some 7.
Proof.
  destruct (draw_glyph_exact small_console 1 4 2) as (s' & Hrun & Hs' & Hpix).
  - unfold geom_ok. vm_compute. repeat split; discriminate.
  - done.
  - done.
  - done.
  - done.
  - exists s'. split; [exact Hrun|]. split; [exact Hs'|].
    split_and!; rewrite Hpix by (vm_compute; split; [discriminate|reflexivity]); vm_compute; reflexivity.
Defined.
