(* ===== verification/Rtc.v ===== *)
(** The real-time clock ([src/src/hal/rtc.rs]): reading the CMOS registers, the
    conversion of their values, and the retry that avoids a reading across a
    tick. *)

From Stdlib Require Import ZArith Lia.
From stdpp Require Import base numbers list.
From S2P Require Import Prelude Machine.

#[local] Open Scope Z_scope.

Definition CMOS_IDX : Z := 112.
Definition CMOS_DATA : Z := 113.

Definition RTC_SECONDS : Z := 0.
Definition RTC_MINUTES : Z := 2.
Definition RTC_HOURS : Z := 4.
Definition RTC_DAY : Z := 7.
Definition RTC_MONTH : Z := 8.
Definition RTC_YEAR : Z := 9.
Definition RTC_STAT_B : Z := 11.
Definition RTC_BCD : Z := 4.

Record RtcDate : Type := mkDate {
  year : Z;
  month : Z;
  day : Z;
  hours : Z;
  minutes : Z;
  seconds : Z;
}.

Definition bcd_to_bin (bcd : Z) : Z := u8 (Z.land bcd 15 + u8 (Z.shiftr bcd 4 * 10)).

Definition century (year : Z) : Z := if year <? 80 then year + 2000 else year + 1900.

(** The date of the register values read. *)
Definition date_of (is_bcd : bool) (year month day hours minutes sec : Z) : RtcDate :=
  if is_bcd
  then mkDate (century (bcd_to_bin year)) (bcd_to_bin month) (bcd_to_bin day) (bcd_to_bin hours)
         (bcd_to_bin minutes) (bcd_to_bin sec)
  else mkDate (century year) month day hours minutes sec.

Section Rtc.
Context {D : Type} `{Machine D}.

Definition cmos_read (reg : Z) : M D Empty_set Z :=
  do! outb_m CMOS_IDX reg in
  inb_m CMOS_DATA.

(** The loop of at most [n] attempts, and the last reading behind it. *)
Fixpoint read_attempts (n : nat) (is_bcd : bool) : M D Empty_set RtcDate :=
  let! sec1 := cmos_read RTC_SECONDS in
  let! minutes := cmos_read RTC_MINUTES in
  let! hours := cmos_read RTC_HOURS in
  let! day := cmos_read RTC_DAY in
  let! month := cmos_read RTC_MONTH in
  let! year := cmos_read RTC_YEAR in
  match n with
  | O => ret (date_of is_bcd year month day hours minutes sec1)
  | S n =>
      let! sec2 := cmos_read RTC_SECONDS in
      if sec1 =? sec2 then ret (date_of is_bcd year month day hours minutes sec1)
      else read_attempts n is_bcd
  end.

Definition read_datetime : M D Empty_set RtcDate :=
  let! b := cmos_read RTC_STAT_B in
  read_attempts 100 (Z.land b RTC_BCD =? 0).
End Rtc.

(** ** A clock that ticks

    [shown] are the registers, [left] the number of reads before the next tick.
    A read returns the register selected; when none is left the clock ticks
    right behind it, and the seconds it then shows are different. Between two
    ticks there are at least [14] reads: a second is far longer. *)
Class Clock (D : Type) `{Machine D} := {
  shown : D -> Z -> Z;
  left : D -> nat;
  selected : D -> Z;
  clock_select : forall r d, selected (outb CMOS_IDX r d) = r
    /\ shown (outb CMOS_IDX r d) = shown d /\ left (outb CMOS_IDX r d) = left d;
  clock_value : forall d, (inb CMOS_DATA d).1 = shown d (selected d);
  clock_quiet : forall d k, left d = S k ->
    shown (inb CMOS_DATA d).2 = shown d /\ left (inb CMOS_DATA d).2 = k;
  clock_tick : forall d, left d = O ->
    shown (inb CMOS_DATA d).2 RTC_SECONDS <> shown d RTC_SECONDS
    /\ shown (inb CMOS_DATA d).2 RTC_STAT_B = shown d RTC_STAT_B
    /\ (14 <= left (inb CMOS_DATA d).2)%nat;
}.

(** The states that port accesses lead to. *)
Inductive reached {D} `{Machine D} (d : D) : D -> Prop :=
| reached_here : reached d d
| reached_out d' port v : reached d d' -> reached d (outb port v d')
| reached_in d' port : reached d d' -> reached d (inb port d').2.

(** The date that the registers show. *)
Definition date_shown (regs : Z -> Z) : RtcDate :=
  date_of (Z.land (regs RTC_STAT_B) RTC_BCD =? 0)
    (regs RTC_YEAR) (regs RTC_MONTH) (regs RTC_DAY) (regs RTC_HOURS) (regs RTC_MINUTES) (regs RTC_SECONDS).

(** Two binary-coded decimal digits. *)
Definition to_bcd (n : Z) : Z := 16 * (n / 10) + n mod 10.

(** The registers of a clock set to a date, in either mode. *)
Definition registers (bcd : bool) (t : RtcDate) (r : Z) : Z :=
  let enc n := if bcd then to_bcd n else n in
  if r =? RTC_YEAR then enc (year t mod 100)
  else if r =? RTC_MONTH then enc (month t)
  else if r =? RTC_DAY then enc (day t)
  else if r =? RTC_HOURS then enc (hours t)
  else if r =? RTC_MINUTES then enc (minutes t)
  else if r =? RTC_SECONDS then enc (seconds t)
  else if r =? RTC_STAT_B then (if bcd then 2 else 6)
  else 0.

Definition date_ok (t : RtcDate) : Prop :=
  1980 <= year t < 2080 /\ 1 <= month t <= 12 /\ 1 <= day t <= 31 /\ 0 <= hours t < 24
  /\ 0 <= minutes t < 60 /\ 0 <= seconds t < 60.

(** ** A simulated clock: the seconds alternate, every fifteen reads *)

Record SimClock : Type := mkSimClock { regs_of : Z -> Z; until : nat; index : Z }.

Definition sim_tick (regs : Z -> Z) (r : Z) : Z :=
  if r =? RTC_SECONDS then (if regs r =? 0 then 1 else 0) else regs r.

#[export] Instance SimClock_Machine : Machine SimClock := {
  inb port d :=
    if port =? CMOS_DATA then
      (regs_of d (index d),
       match until d with
       | O => mkSimClock (sim_tick (regs_of d)) 14 (index d)
       | S k => mkSimClock (regs_of d) k (index d)
       end)
    else (255, d);
  outb port v d := if port =? CMOS_IDX then mkSimClock (regs_of d) (until d) v else d;
  inw _ d := (65535, d);
  outw port v d := d;
  rdtsc d := (0, d);
}.

#[export, refine] Instance SimClock_Clock : Clock SimClock := {
  shown := regs_of; left := until; selected := index;
}.
Proof.
  - done.
  - done.
  - intros [f [|u] i] k Hk; [done|]. injection Hk as ->. done.
  - intros [f u i] Hu. cbn in Hu. subst u. cbn. split_and!; [|done|lia].
    unfold sim_tick, RTC_SECONDS. cbn. destruct (Z.eqb_spec (f 0) 0); lia.
Defined.

(** ** Lemmas *)

Lemma bcd_roundtrip n : 0 <= n < 100 -> bcd_to_bin (to_bcd n) = n.
Proof.
  intros Hn. unfold bcd_to_bin. set (b := to_bcd n).
  assert (b mod 16 = n mod 10 /\ b / 16 = n / 10) as [Hm Hd].
  { unfold b, to_bcd. Z.div_mod_to_equations. lia. }
  rewrite (Z.land_ones _ 4), Z.shiftr_div_pow2 by lia. change (2 ^ 4) with 16. rewrite Hm, Hd.
  unfold u8. Z.div_mod_to_equations. lia.
Qed.

Lemma century_roundtrip y : 1980 <= y < 2080 -> century (y mod 100) = y.
Proof.
  intros Hy. unfold century. destruct (Z.ltb_spec (y mod 100) 80); Z.div_mod_to_equations; lia.
Qed.

(** A clock set to a date shows it. *)
Lemma date_shown_registers bcd t : date_ok t -> date_shown (registers bcd t) = t.
Proof.
  intros (Hy & Hmo & Hd & Hh & Hmi & Hs). unfold date_shown.
  pose proof (Z.mod_pos_bound (year t) 100).
  destruct bcd; cbn [registers date_of Z.eqb Pos.eqb RTC_STAT_B RTC_YEAR RTC_MONTH RTC_DAY RTC_HOURS
    RTC_MINUTES RTC_SECONDS RTC_BCD Z.land Pos.land]; unfold date_of.
  - rewrite !bcd_roundtrip, century_roundtrip by lia. by destruct t.
  - rewrite century_roundtrip by lia. by destruct t.
Qed.

Section Reading.
Context {D : Type} `{Clock D}.
Implicit Types (d : D).

Lemma reached_trans d d1 d2 : reached d d1 -> reached d1 d2 -> reached d d2.
Proof. intros H1 H2. induction H2; [done|by apply reached_out|by apply reached_in]. Qed.

Lemma reached_read d r : reached d (inb CMOS_DATA (outb CMOS_IDX r d)).2.
Proof. apply reached_in, reached_out, reached_here. Qed.

(** Reading while no tick comes. *)
Lemma cmos_quiet d r k : left d = S k ->
  exists d', cmos_read r d = (Ret (shown d r), d') /\ shown d' = shown d /\ left d' = k /\ reached d d'.
Proof.
  intros Hl. unfold cmos_read, bind, outb_m, inb_m. destruct (clock_select r d) as (Hs & Hsh & Hle).
  destruct (clock_quiet (outb CMOS_IDX r d) k) as [Hq1 Hq2]; [by rewrite Hle|].
  pose proof (clock_value (outb CMOS_IDX r d)) as Hv. pose proof (reached_read d r) as Hre. destruct (inb CMOS_DATA (outb CMOS_IDX r d)) as [v d'].
  cbn [fst snd] in *. exists d'. rewrite Hv, Hs, Hsh. by rewrite Hq1, Hsh.
Qed.

(** The read before a tick. *)
Lemma cmos_tick d r : left d = O ->
  exists d', cmos_read r d = (Ret (shown d r), d') /\ shown d' RTC_SECONDS <> shown d RTC_SECONDS
    /\ shown d' RTC_STAT_B = shown d RTC_STAT_B /\ (14 <= left d')%nat /\ reached d d'.
Proof.
  intros Hl. unfold cmos_read, bind, outb_m, inb_m. destruct (clock_select r d) as (Hs & Hsh & Hle).
  destruct (clock_tick (outb CMOS_IDX r d)) as (Ht1 & Ht2 & Ht3); [by rewrite Hle|].
  pose proof (clock_value (outb CMOS_IDX r d)) as Hv. pose proof (reached_read d r) as Hre. destruct (inb CMOS_DATA (outb CMOS_IDX r d)) as [v d'].
  cbn [fst snd] in *. exists d'. rewrite Hsh in *. by rewrite Hv, Hs.
Qed.

(** The reads of [rs], one after the other, and an attempt in terms of them. *)
Fixpoint read_all (rs : list Z) : M D Empty_set (list Z) :=
  match rs with
  | [] => ret []
  | r :: rs => let! v := cmos_read r in let! vs := read_all rs in ret (v :: vs)
  end.

Definition attempt : list Z :=
  [RTC_SECONDS; RTC_MINUTES; RTC_HOURS; RTC_DAY; RTC_MONTH; RTC_YEAR; RTC_SECONDS].

Lemma read_attempts_all n bcd d :
  read_attempts (S n) bcd d
  = (let! vs := read_all attempt in
     match vs with
     | [s1; mi; h; da; mo; y; s2] =>
         if s1 =? s2 then ret (date_of bcd y mo da h mi s1) else read_attempts n bcd
     | _ => panic
     end) d.
Proof.
  cbn [read_attempts read_all attempt].
  unfold bind at 1, cmos_read at 1, bind at 1, outb_m at 1, inb_m at 1.
  symmetry. rewrite bind_assoc. unfold bind at 1. unfold cmos_read at 1, bind at 1, outb_m at 1, inb_m at 1.
  destruct (inb CMOS_DATA _) as [v1 d1].
  do 6 (rewrite !bind_assoc; unfold bind at 1; symmetry; unfold bind at 1; symmetry;
    destruct (cmos_read _ _) as [[?|[]| |] ?]; [|done..]).
  done.
Qed.

Lemma read_all_quiet rs d : (length rs <= left d)%nat ->
  exists d', read_all rs d = (Ret (shown d <$> rs), d') /\ shown d' = shown d
    /\ left d' = (left d - length rs)%nat /\ reached d d'.
Proof.
  revert d. induction rs as [|r rs IH]; intros d Hl; cbn [read_all length fmap list_fmap] in *.
  - exists d. split_and!; [done|done|lia|constructor].
  - destruct (left d) as [|k] eqn:Hk; [lia|]. destruct (cmos_quiet d r k Hk) as (d1 & R1 & S1 & L1 & Q1). run_with R1.
    destruct (IH d1) as (d2 & R2 & S2 & L2 & Q2); [lia|]. run_with R2. exists d2.
    rewrite S2, S1, L2, L1. split_and!; [done|done|lia|by apply (reached_trans d d1)].
Qed.

(** Reads among which a tick falls: those up to it are of the old time, those
    after it of the new, and the next tick is far. *)
Lemma read_all_tick rs d : (left d < length rs)%nat -> (length rs <= 7)%nat ->
  exists d', read_all rs d
      = (Ret ((shown d <$> take (S (left d)) rs) ++ (shown d' <$> drop (S (left d)) rs)), d')
    /\ shown d' RTC_SECONDS <> shown d RTC_SECONDS /\ shown d' RTC_STAT_B = shown d RTC_STAT_B
    /\ (7 <= left d')%nat /\ reached d d'.
Proof.
  revert d. induction rs as [|r rs IH]; intros d Hl Hlen; cbn [read_all length] in *; [lia|].
  destruct (left d) as [|k] eqn:Hk.
  - destruct (cmos_tick d r Hk) as (d1 & R1 & N1 & B1 & L1 & Q1). run_with R1.
    destruct (read_all_quiet rs d1) as (d2 & R2 & S2 & L2 & Q2); [lia|]. run_with R2. exists d2.
    rewrite S2, L2. split_and!; [|done|done|lia|by apply (reached_trans d d1)]. cbn [take drop fmap list_fmap app]. by rewrite drop_0.
  - destruct (cmos_quiet d r k Hk) as (d1 & R1 & S1 & L1 & Q1). run_with R1.
    destruct (IH d1) as (d2 & R2 & N2 & B2 & L2 & Q2); [lia|lia|]. run_with R2. exists d2.
    rewrite L1, S1 in *. split_and!; [done..|by apply (reached_trans d d1)].
Qed.

(** An attempt returns the date shown, or the next one starts with time left. *)
Lemma attempt_run n bcd d :
  (exists d', read_attempts (S n) bcd d = (Ret (date_of bcd (shown d RTC_YEAR) (shown d RTC_MONTH)
    (shown d RTC_DAY) (shown d RTC_HOURS) (shown d RTC_MINUTES) (shown d RTC_SECONDS)), d'))
  \/ (left d < 6)%nat /\ exists d', read_attempts (S n) bcd d = read_attempts n bcd d' /\ (7 <= left d')%nat
    /\ shown d' RTC_STAT_B = shown d RTC_STAT_B /\ shown d' RTC_SECONDS <> shown d RTC_SECONDS /\ reached d d'.
Proof.
  rewrite read_attempts_all. destruct (Nat.lt_ge_cases (left d) 7) as [Hlt|Hge].
  - destruct (read_all_tick attempt d) as (d' & R & N & B & L & Q); [cbn; lia|cbn; lia|].
    run_with R. destruct (left d) as [|[|[|[|[|[|[|k]]]]]]]; [..|lia];
      cbn [take drop attempt fmap list_fmap app].
    1-6: right; split; [lia|]; exists d'; split; [|done];
      destruct (Z.eqb_spec (shown d RTC_SECONDS) (shown d' RTC_SECONDS)); congruence.
    left. exists d'. by rewrite Z.eqb_refl.
  - destruct (read_all_quiet attempt d) as (d' & R & _); [cbn; lia|]. run_with R.
    cbn [attempt fmap list_fmap]. left. exists d'. by rewrite Z.eqb_refl.
Qed.
End Reading.

Lemma read_datetime_run {D : Type} `{Clock D} d :
  exists d0 d', read_datetime d = (Ret (date_shown (shown d0)), d') /\ reached d d0
    /\ (shown d0 = shown d \/ shown d0 RTC_SECONDS <> shown d RTC_SECONDS).
Proof.
  unfold read_datetime.
  assert (exists d1, cmos_read RTC_STAT_B d = (Ret (shown d RTC_STAT_B), d1)
    /\ shown d1 RTC_STAT_B = shown d RTC_STAT_B /\ reached d d1
    /\ (shown d1 = shown d \/ shown d1 RTC_SECONDS <> shown d RTC_SECONDS /\ (14 <= left d1)%nat))
    as (d1 & R1 & B1 & Q1 & Hcase).
  { destruct (left d) as [|k] eqn:Hk.
    - destruct (cmos_tick d RTC_STAT_B Hk) as (d1 & R & N & B & L & Q). exists d1. auto 10.
    - destruct (cmos_quiet d RTC_STAT_B k Hk) as (d1 & R & S1 & L & Q). exists d1. rewrite S1. auto 10. }
  run_with R1. change 100%nat with (S (S 98)).
  destruct (attempt_run 99 (Z.land (shown d RTC_STAT_B) RTC_BCD =? 0) d1)
    as [(d2 & R2)|(Hl & d2 & R2 & L2 & B2 & N2 & Q2)].
  - exists d1, d2. rewrite R2. unfold date_shown. rewrite B1. split_and!; [done|done|].
    by destruct Hcase as [|[]]; [left|right].
  - rewrite R2. destruct (attempt_run 98 (Z.land (shown d RTC_STAT_B) RTC_BCD =? 0) d2) as [(d3 & R3)|(Hl2 & _)];
      [|lia].
    exists d2, d3. rewrite R3. unfold date_shown. rewrite B2, B1. split_and!; [done|by apply (reached_trans d d1)|].
    right. destruct Hcase as [<-|[_ ?]]; [done|lia].
Qed.

(** ** Properties *)

(** C30: The clock may tick at any moment while it is read: the date returned is one
    that the clock showed at one moment, never a mix of two, when the date was
    asked for or right after the tick. *)
Theorem read_datetime_consistent {D : Type} `{Clock D} d :
  exists d0 d', read_datetime d = (Ret (date_shown (shown d0)), d') /\ reached d d0
    /\ (shown d0 = shown d \/ shown d0 RTC_SECONDS <> shown d RTC_SECONDS).
Proof. apply read_datetime_run. Qed.

Lemma read_datetime_consistent_witness :
  let d := mkSimClock (registers true (mkDate 2026 7 4 12 30 1)) 3 0 in
  exists d0 d', read_datetime d = (Ret (date_shown (shown d0)), d') /\ reached d d0
    /\ (shown d0 = shown d \/ shown d0 RTC_SECONDS <> shown d RTC_SECONDS).
Proof. intros d. exact (read_datetime_consistent d). Defined.

(** A clock set to a date of the years 1980 to 2079, in binary-coded decimal or
    binary, 24-hour mode, is read back as that date. *)
Theorem date_roundtrip bcd t : date_ok t -> date_shown (registers bcd t) = t.
Proof. apply date_shown_registers. Qed.

Lemma date_roundtrip_witness :
  date_shown (registers true (mkDate 2026 12 31 23 59 58)) = mkDate 2026 12 31 23 59 58.
Proof. apply (date_roundtrip true). unfold date_ok. cbn. lia. Defined.

(** A reading that a tick interrupts. *)
Example read_across_tick :
  (read_datetime (mkSimClock (registers true (mkDate 2026 7 4 12 30 1)) 3 0)).1
  = Ret (mkDate 2026 7 4 12 30 0).
Proof. vm_compute. reflexivity. Qed.
