(* ===== verification/Cpuid.v ===== *)
(** Processor identification ([src/src/hal/cpuid.rs]) and the memory map
    ([src/src/hal/e820.rs]). The [cpuid] instruction is a parameter. *)

From Stdlib Require Import ZArith Lia Ascii String.
From stdpp Require Import base numbers list.
From S2P Require Import Prelude Text Heap Memory.

#[local] Open Scope Z_scope.

(** ** Identification *)

Record CpuInfo : Type := mkCpu {
  vendor : list Z;
  brand : list Z;
  max_leaf : Z;
  stepping : Z;
  model : Z;
  family : Z;
  ext_model : Z;
  ext_family : Z;
  features_edx : Z;
  features_ecx : Z;
  ext_features_ebx : Z;
}.

Section Query.
(** [eax], [ebx], [ecx] and [edx] of a leaf. *)
Context (cpuid : Z -> Z * Z * Z * Z).

(** A field of [n] bits at bit [k]. *)
Definition field (v k n : Z) : Z := Z.land (Z.shiftr v k) (Z.ones n).

Definition brand_leaf (i : Z) : list Z :=
  let '(eax, ebx, ecx, edx) := cpuid (2147483650 + i) in
  le_bytes 4 eax ++ le_bytes 4 ebx ++ le_bytes 4 ecx ++ le_bytes 4 edx.

Definition query : CpuInfo :=
  let '(leaves, ebx, ecx, edx) := cpuid 0 in
  let '(eax1, _, ecx1, edx1) := cpuid 1 in
  let known := 1 <=? leaves in
  let '(eax_ext, _, _, _) := cpuid 2147483648 in
  let '(_, ebx_ext, _, _) := cpuid 2147483649 in
  mkCpu (le_bytes 4 ebx ++ le_bytes 4 edx ++ le_bytes 4 ecx)
    (if 2147483652 <=? eax_ext then brand_leaf 0 ++ brand_leaf 1 ++ brand_leaf 2 else replicate 48 0)
    leaves
    (if known then field eax1 0 4 else 0)
    (if known then field eax1 4 4 else 0)
    (if known then field eax1 8 4 else 0)
    (if known then field eax1 16 4 else 0)
    (if known then field eax1 20 8 else 0)
    (if known then edx1 else 0)
    (if known then ecx1 else 0)
    (if 2147483649 <=? eax_ext then ebx_ext else 0).
End Query.

Definition has_feature_edx (info : CpuInfo) (bit : Z) : bool :=
  negb (Z.land (Z.shiftr (features_edx info) bit) 1 =? 0).
Definition has_feature_ecx (info : CpuInfo) (bit : Z) : bool :=
  negb (Z.land (Z.shiftr (features_ecx info) bit) 1 =? 0).

Definition unknown : list Z := str "unknown".

Definition vendor_str (info : CpuInfo) : list Z :=
  let len := default 12%nat (position (Z.eqb 0) (vendor info)) in
  default unknown (from_utf8 (take len (vendor info))).

(** [iter().rposition(p)]. *)
Definition rposition (p : Z -> bool) (l : list Z) : option nat :=
  option_map (fun k => length l - 1 - k)%nat (position p (reverse l)).

(** [None] is the panic of the slice when its end is behind the text. *)
Definition brand_str (info : CpuInfo) : option (list Z) :=
  let len := default 48%nat (position (Z.eqb 0) (brand info)) in
  if (len =? 0)%nat then Some unknown
  else
    let trimmed := take len (brand info) in
    let solid c := negb (c =? 32) in
    let start := default O (position solid trimmed) in
    let stop := S (default len (rposition solid trimmed)) in
    option_map (fun s => default unknown (from_utf8 s))
      (if (start <=? stop)%nat && (stop <=? length trimmed)%nat
       then Some (take (stop - start) (drop start trimmed)) else None).

(** ** The memory map *)

Record MemRegion : Type := mkRegion { start : Z; len : Z; typ : Z }.

Definition REGIONS : list MemRegion := [
  mkRegion 0 4096 2;
  mkRegion 4096 651264 2;
  mkRegion 655360 393216 2;
  mkRegion 1048576 1048576 2;
  mkRegion 2097152 4194304 2;
  mkRegion 6291456 127926272 1].

Definition total_usable : Z :=
  fold_left (fun a r => u64 (a + len r)) (filter (fun r => typ r = 1) REGIONS) 0.

(** ** What they promise *)

(** The text without the spaces around it. *)
Fixpoint skip_spaces (l : list Z) : list Z :=
  match l with
  | [] => []
  | c :: l' => if c =? 32 then skip_spaces l' else l
  end.
Definition strip (l : list Z) : list Z := reverse (skip_spaces (reverse (skip_spaces l))).

(** The brand text, up to its first zero byte. *)
Definition brand_text (info : CpuInfo) : list Z :=
  take (default 48%nat (position (Z.eqb 0) (brand info))) (brand info).

(** Regions that follow one another from [a] to [b]. *)
Fixpoint tiles (a b : Z) (rs : list MemRegion) : Prop :=
  match rs with
  | [] => a = b
  | r :: rs => start r = a /\ 0 < len r /\ tiles (a + len r) b rs
  end.

(** A processor whose brand is padded on both sides. *)
Definition demo_cpuid (leaf : Z) : Z * Z * Z * Z :=
  if leaf =? 0 then (13, le_val (str "Genu"), le_val (str "ntel"), le_val (str "ineI"))
  else if leaf =? 2147483648 then (2147483652, 0, 0, 0)
  else if leaf =? 2147483650 then
    (le_val (str "    "), le_val (str "QEMU"), le_val (str " Vir"), le_val (str "tual"))
  else (0, 0, 0, 0).

Lemma position_solid l k :
  position (fun c => negb (c =? 32)) l = Some k -> skip_spaces l = drop k l /\ (k < length l)%nat.
Proof.
  revert k. induction l as [|c l IH]; intros k; cbn [position skip_spaces]; [done|].
  destruct (c =? 32); cbn [negb].
  - destruct (position _ l) as [j|]; intros [= <-]. destruct (IH j eq_refl) as [-> ?]. cbn. split; [done|lia].
  - intros [= <-]. cbn. split; [done|lia].
Qed.

Lemma position_solid_app l c r :
  c <> 32 -> exists k, position (fun c => negb (c =? 32)) (l ++ c :: r) = Some k /\ (k <= length l)%nat.
Proof.
  intros Hc. induction l as [|x l (k & Hk & Hle)]; cbn [app position].
  - apply Z.eqb_neq in Hc. rewrite Hc. by exists O.
  - destruct (x =? 32); cbn [negb]; [|exists O; split; [done|lia]].
    rewrite Hk. exists (S k). cbn. split; [done|lia].
Qed.

(** The slice of the code is the text without its outer spaces. *)
Lemma strip_slice l k j :
  position (fun c => negb (c =? 32)) l = Some k -> rposition (fun c => negb (c =? 32)) l = Some j ->
  (k <= j)%nat /\ (j < length l)%nat /\ take (S j - k) (drop k l) = strip l.
Proof.
  intros Hk Hj. unfold rposition in Hj.
  destruct (position _ (reverse l)) as [m|] eqn:Hm; [|done]. injection Hj as <-.
  destruct (position_solid _ _ Hk) as [Hsk Hkl]. destruct (position_solid _ _ Hm) as [_ Hml].
  rewrite length_reverse in Hml.
  assert (k + m < length l)%nat as Hsum.
  { apply position_Some in Hk as (c & Hc & Hp & _). apply negb_true_iff, Z.eqb_neq in Hp.
    rewrite <- (take_drop_middle l k c Hc), reverse_app, reverse_cons, <- app_assoc in Hm. cbn [app] in Hm.
    destruct (position_solid_app (reverse (drop (S k) l)) c (reverse (take k l)) Hp) as (m' & Hm' & Hle).
    rewrite Hm' in Hm. injection Hm as <-. rewrite length_reverse, length_drop in Hle. lia. }
  split; [lia|]. split; [lia|]. unfold strip. rewrite Hsk.
  assert (position (fun c => negb (c =? 32)) (reverse (drop k l)) = Some m) as Hm2.
  { rewrite <- (take_drop k l), reverse_app in Hm.
    destruct (position (fun c => negb (c =? 32)) (reverse (drop k l))) as [m'|] eqn:Hp.
    - assert (position (fun c => negb (c =? 32)) (reverse (drop k l) ++ reverse (take k l)) = Some m') as Hp'.
      { clear -Hp. revert m' Hp. induction (reverse (drop k l)) as [|x r IH]; intros m'; cbn [app position]; [done|].
        destruct (negb _); [done|]. destruct (position _ r) as [q|]; [|done]. intros [= <-].
        by rewrite (IH q). }
      congruence.
    - exfalso. assert (m < length (reverse (drop k l)))%nat as Hlt by (rewrite length_reverse, length_drop; lia).
      apply position_Some in Hm as (c & Hc & Hs & _). rewrite lookup_app_l in Hc by done.
      apply (proj1 (position_None _ _)) in Hp. rewrite Forall_forall in Hp.
      specialize (Hp c (list_elem_of_lookup_2 _ _ _ Hc)). cbv beta in *. congruence. }
  destruct (position_solid _ _ Hm2) as [-> Hlt]. rewrite length_reverse, length_drop in Hlt.
  rewrite drop_reverse, reverse_involutive, length_drop. f_equal. lia.
Qed.

Lemma position_le (p : Z -> bool) (l : list Z) k : position p l = Some k -> (k < length l)%nat.
Proof. intros Hk. apply position_Some in Hk as (x & Hx & _). by apply lookup_lt_Some in Hx. Qed.

Lemma brand_len info : length (brand info) = 48%nat ->
  length (brand_text info) = default 48%nat (position (Z.eqb 0) (brand info)).
Proof.
  intros Hl. unfold brand_text. rewrite length_take.
  destruct (position (Z.eqb 0) (brand info)) as [k|] eqn:Hk; cbn [from_option id]; [|lia].
  apply position_le in Hk. lia.
Qed.

Lemma brand_str_run info : length (brand info) = 48%nat -> brand_text info <> [] ->
  brand_str info
  = if forallb (Z.eqb 32) (brand_text info) then None
    else Some (default unknown (from_utf8 (strip (brand_text info)))).
Proof.
  intros Hl Hne. pose proof (brand_len info Hl) as Hlen. unfold brand_str. fold (brand_text info).
  set (n := default 48%nat _) in *. set (text := brand_text info) in *.
  destruct (Nat.eqb_spec n 0) as [H0|_]; [by rewrite H0 in Hlen; apply nil_length_inv in Hlen|].
  destruct (position (fun c => negb (c =? 32)) text) as [k|] eqn:Hk.
  - assert (exists j, rposition (fun c => negb (c =? 32)) text = Some j) as [j Hj].
    { unfold rposition. destruct (position _ (reverse text)) as [m|] eqn:Hm; [by eexists|].
      exfalso. apply (proj1 (position_None _ _)) in Hm. rewrite Forall_forall in Hm.
      apply position_Some in Hk as (c & Hc & Hs & _).
      specialize (Hm c ltac:(apply elem_of_reverse; by eapply list_elem_of_lookup_2)). cbv beta in *. congruence. }
    destruct (strip_slice text k j Hk Hj) as (Hkj & Hjl & Hstrip). rewrite Hj. cbn [from_option id].
    destruct (Nat.leb_spec k (S j)), (Nat.leb_spec (S j) (length text)); try lia. cbn [andb option_map].
    rewrite Hstrip. assert (forallb (Z.eqb 32) text = false) as ->; [|done].
    apply position_Some in Hk as (c & Hc & Hs & _). apply not_true_iff_false. intros Hall.
    rewrite forallb_forall in Hall. specialize (Hall c).
    apply list_elem_of_lookup_2, list_elem_of_In in Hc. specialize (Hall Hc). cbv beta in Hs. lia.
  - assert (forallb (Z.eqb 32) text = true) as ->.
    { apply (proj1 (position_None _ _)) in Hk. apply forallb_forall. intros c Hc. apply list_elem_of_In in Hc.
      rewrite Forall_forall in Hk. specialize (Hk c Hc). cbv beta in Hk. lia. }
    assert (rposition (fun c => negb (c =? 32)) text = None) as ->.
    { unfold rposition. assert (position (fun c => negb (c =? 32)) (reverse text) = None) as ->; [|done].
      apply position_None, Forall_reverse. by apply position_None. }
    cbn [from_option id]. destruct (Nat.leb_spec (S n) (length text)); [lia|]. by rewrite andb_false_r.
Qed.

(** ** Properties *)

(** The processor's name is its brand text up to the first zero byte without
    the spaces around it; a brand of nothing but spaces panics, because the
    slice then ends one byte behind the text. *)
Theorem brand_str_correct info : length (brand info) = 48%nat -> brand_text info <> [] ->
  brand_str info
  = if forallb (Z.eqb 32) (brand_text info) then None
    else Some (default unknown (from_utf8 (strip (brand_text info)))).
Proof. apply brand_str_run. Qed.

Lemma brand_str_correct_witness : brand_str (query demo_cpuid) = Some (str "QEMU Virtual").
Proof. rewrite (brand_str_correct (query demo_cpuid)); [vm_compute; reflexivity|reflexivity|discriminate]. Defined.

(** The memory map covers the machine's 128 MiB without gap or overlap, the
    kernel's heap is one of its reserved regions, and the usable rest is
    122 MiB. *)
Theorem memory_map_tiles :
  tiles 0 (128 * 2 ^ 20) REGIONS /\ total_usable = 122 * 2 ^ 20
  /\ exists r, r ∈ REGIONS /\ typ r = 2 /\ start r = HEAP_BASE /\ start r + len r = HEAP_END.
Proof.
  split; [cbn; lia|]. split; [reflexivity|]. exists (mkRegion 2097152 4194304 2).
  split; [do 4 right; left|done].
Qed.
