(* ===== verification/Idt.v ===== *)
(** Interrupt entry ([src/src/hal/idt.rs]): the descriptor table, the assembly
    stubs as instructions of a small stack machine, and the dispatcher. *)

From Stdlib Require Import ZArith Lia Ascii String.
From stdpp Require Import base numbers list gmap.
From S2P Require Import Prelude Text.

#[local] Open Scope Z_scope.

(** ** The descriptor table *)

Record IdtEntry : Type := mkEntry {
  offset_low : Z;
  selector : Z;
  ist : Z;
  flags : Z;
  offset_mid : Z;
  offset_high : Z;
  reserved : Z;
}.

Definition IdtEntry_zero : IdtEntry := mkEntry 0 0 0 0 0 0 0.

Definition GDT_CODE64 : Z := 24.
Definition IDT_INTR_GATE : Z := 142.
Definition TIMER_VECTOR : Z := 32.
Definition KBD_VECTOR : Z := 33.
Definition IPI_VECTOR : Z := 64.

Definition gate (handler : Z) : IdtEntry :=
  mkEntry (u16 handler) GDT_CODE64 0 IDT_INTR_GATE (u16 (Z.shiftr handler 16)) (u32 (Z.shiftr handler 32)) 0.

Definition set_entry (idt : list IdtEntry) (num handler : Z) : list IdtEntry :=
  <[Z.to_nat num := gate handler]> idt.

(** The vectors with a stub, in the order they are set; [isr n] is the address
    of the stub of vector [n]. *)
Definition vectors : list Z := seqZ 0 21 ++ [TIMER_VECTOR; KBD_VECTOR; IPI_VECTOR].

Definition build_idt_into (isr : Z -> Z) (idt : list IdtEntry) : list IdtEntry :=
  fold_left (fun idt n => set_entry idt n (isr n)) vectors idt.

(** The layout in memory: [repr(C, packed(2))], sixteen bytes. *)
Definition entry_bytes (e : IdtEntry) : list Z :=
  le_bytes 2 (offset_low e) ++ le_bytes 2 (selector e) ++ [ist e; flags e] ++ le_bytes 2 (offset_mid e)
  ++ le_bytes 4 (offset_high e) ++ le_bytes 4 (reserved e).

(** The operand of [lidt]: the limit and the base. *)
Definition idtr_limit : Z := u16 (16 * 256 - 1).

(** ** The stubs *)

Inductive reg : Type :=
| RAX | RCX | RDX | RBX | RBP | RSI | RDI
| R8 | R9 | R10 | R11 | R12 | R13 | R14 | R15.

#[export] Instance reg_eq_dec : EqDecision reg.
Proof. solve_decision. Defined.

Inductive instr : Type :=
| PushImm (n : Z)
| PushReg (r : reg)
| PopReg (r : reg)
| Load (r : reg) (off : Z)
| CallHandler
| AddRsp (n : Z).

(** The exceptions for which the processor pushes an error code. *)
Definition has_error_code (n : Z) : bool :=
  (n =? 8) || ((10 <=? n) && (n <=? 14)) || (n =? 17).

Definition isr_stub (n : Z) : list instr :=
  if has_error_code n then [PushImm n] else [PushImm 0; PushImm n].

Definition saved : list reg :=
  [RAX; RCX; RDX; RBX; RBP; RSI; RDI; R8; R9; R10; R11; R12; R13; R14; R15].

(** [idt_common], up to its [iretq]. *)
Definition idt_common : list instr :=
  [PushReg RAX; PushReg RCX; PushReg RDX; PushReg RBX; PushReg RBP; PushReg RSI; PushReg RDI;
   PushReg R8; PushReg R9; PushReg R10; PushReg R11; PushReg R12; PushReg R13; PushReg R14; PushReg R15;
   Load RDI (15 * 8); Load RSI (16 * 8); CallHandler;
   PopReg R15; PopReg R14; PopReg R13; PopReg R12; PopReg R11; PopReg R10; PopReg R9; PopReg R8;
   PopReg RDI; PopReg RSI; PopReg RBP; PopReg RBX; PopReg RDX; PopReg RCX; PopReg RAX;
   AddRsp 16].

(** Registers, stack pointer and the 64-bit words of memory. *)
Record cpu_state : Type := mkCpu { regs : reg -> Z; rsp : Z; mem : Z -> Z }.

Definition set_reg (r : reg) (v : Z) (f : reg -> Z) : reg -> Z := fun r' => if decide (r' = r) then v else f r'.
Definition store (a v : Z) (m : Z -> Z) : Z -> Z := fun a' => if a' =? a then v else m a'.

Definition push (v : Z) (s : cpu_state) : cpu_state :=
  mkCpu (regs s) (rsp s - 8) (store (rsp s - 8) v (mem s)).

Section Machine.
(** What [idt_handler] does to registers and memory, called with its two
    arguments. *)
Context (handler : Z -> Z -> cpu_state -> cpu_state).

Definition exec (i : instr) (s : cpu_state) : cpu_state :=
  match i with
  | PushImm n => push n s
  | PushReg r => push (regs s r) s
  | PopReg r => mkCpu (set_reg r (mem s (rsp s)) (regs s)) (rsp s + 8) (mem s)
  | Load r off => mkCpu (set_reg r (mem s (rsp s + off)) (regs s)) (rsp s) (mem s)
  | CallHandler => handler (regs s RDI) (regs s RSI) s
  | AddRsp n => mkCpu (regs s) (rsp s + n) (mem s)
  end.

Definition run (code : list instr) (s : cpu_state) : cpu_state := fold_left (fun s i => exec i s) code s.

(** The processor's part of an interrupt: it aligns the stack and pushes the
    return frame, with the error code of the exceptions that have one. *)
Definition interrupt (n : Z) (frame : list Z) (error_code : Z) (s : cpu_state) : cpu_state :=
  let s := mkCpu (regs s) (16 * (rsp s / 16)) (mem s) in
  let s := fold_left (fun s v => push v s) frame s in
  if has_error_code n then push error_code s else s.

(** The whole entry, up to [iretq]. *)
Definition isr (n : Z) (frame : list Z) (error_code : Z) (s : cpu_state) : cpu_state :=
  run (isr_stub n ++ idt_common) (interrupt n frame error_code s).
End Machine.

(** ** The dispatcher *)

(** What a handler of a vector does, as the calls it makes. *)
Inductive action : Type :=
| Tick
| Keyboard
| Ipi
| Eoi
| LogHex (prefix : list Z) (val : Z)
| Show (text : list Z).

(** Sixteen digits, the most significant first. *)
Definition print_hex (val : Z) : list Z :=
  (fun i => byte_at (str "0123456789ABCDEF") (Z.to_nat (Z.land (Z.shiftr val (i * 4)) 15)))
    <$> reverse (seqZ 0 16).

(** [fault]: the calls before the processor halts for good. *)
Definition fault (cpu int_no error_code cr2 cr3 : Z) : list action :=
  [LogHex (str "exception #") int_no; LogHex (str "error code ") error_code]
  ++ (if int_no =? 14 then [LogHex (str "CR2 = ") cr2; LogHex (str "CR3 = ") cr3] else [])
  ++ (if cpu =? 0
      then [Show (str "EXC #" ++ print_hex int_no ++ str " ERR=" ++ print_hex error_code
                  ++ str " -- HALT" ++ [10])]
      else []).

(** The calls made, and whether the handler returns. *)
Definition idt_handler (cpu cr2 cr3 int_no error_code : Z) : list action * bool :=
  if int_no =? 32 then ([Tick; Eoi], true)
  else if int_no =? 33 then ([Keyboard; Eoi], true)
  else if int_no =? 64 then ([Ipi; Eoi], true)
  else (fault cpu int_no error_code cr2 cr3, false).
