(* ===== verification/IdtSpec.v ===== *)
(** What interrupt entry promises: the table sends each vector to its stub, and
    the stubs call the handler by the calling convention and restore the
    interrupted state. *)

From Stdlib Require Import ZArith Lia Ascii String.
From stdpp Require Import base numbers list gmap.
From S2P Require Import Prelude Text Idt.

#[local] Open Scope Z_scope.

(** ** What the processor reads in the table *)

(** The handler's address in the sixteen bytes of a gate. *)
Definition gate_address (b : list Z) : Z :=
  le_val (take 2 b) + 2 ^ 16 * le_val (take 2 (drop 6 b)) + 2 ^ 32 * le_val (take 4 (drop 8 b)).

(** Its selector, and its type byte with the present bit. *)
Definition gate_selector (b : list Z) : Z := le_val (take 2 (drop 2 b)).
Definition gate_type (b : list Z) : Z := byte_at b 5.

(** ** The stack *)

(** The words from [sp] upwards begin with [l]. *)
Definition stacked (m : Z -> Z) (sp : Z) (l : list Z) : Prop :=
  forall i v, l !! i = Some v -> m (sp + 8 * Z.of_nat i) = v.

(** The words of an interrupt's frame on the stack when the handler is called:
    the five of the processor, the error code and the vector, and the fifteen
    saved registers. *)
Definition FRAME_BYTES : Z := 8 * (5 + 2 + 15).

(** The calling convention: a function returns with the stack pointer and the
    callee-saved registers as they were, and without having written into the
    frame of its caller; the other registers are lost, and the memory outside
    the frame (the counters and buffers of the kernel) may have changed. *)
Definition callee_saved : list reg := [RBX; RBP; R12; R13; R14; R15].

Definition returns_from (s s' : cpu_state) : Prop :=
  rsp s' = rsp s /\ (forall r, r ∈ callee_saved -> regs s' r = regs s r)
  /\ forall a, rsp s <= a < rsp s + FRAME_BYTES -> mem s' a = mem s a.

(** The error code that the handler is given. *)
Definition code_for (n error_code : Z) : Z := if has_error_code n then error_code else 0.

(** ** Lemmas on gates *)

Lemma gate_fields h : 0 <= h < 2 ^ 64 ->
  gate_address (entry_bytes (gate h)) = h /\ gate_selector (entry_bytes (gate h)) = GDT_CODE64
  /\ gate_type (entry_bytes (gate h)) = IDT_INTR_GATE /\ length (entry_bytes (gate h)) = 16%nat.
Proof.
  intros Hh. unfold gate_address, gate_selector, gate_type, entry_bytes, gate.
  cbn [offset_low selector ist flags offset_mid offset_high reserved].
  split_and!; [|done..].
  change (le_val (le_bytes 2 (u16 h)) + 2 ^ 16 * le_val (le_bytes 2 (u16 (Z.shiftr h 16)))
    + 2 ^ 32 * le_val (le_bytes 4 (u32 (Z.shiftr h 32))) = h).
  pose proof (u16_range h). pose proof (u16_range (Z.shiftr h 16)). pose proof (u32_range (Z.shiftr h 32)).
  rewrite !le_val_bytes by lia. rewrite !Z.shiftr_div_pow2 by lia. unfold u16, u32.
  change (2 ^ 16) with 65536. change (2 ^ 32) with 4294967296. Z.div_mod_to_equations. lia.
Qed.

Lemma build_idt_lookup isr idt ns n :
  Forall (fun k => 0 <= k < 256) ns -> NoDup ns -> length idt = 256%nat -> (n < 256)%nat ->
  fold_left (fun idt n => set_entry idt n (isr n)) ns idt !! n
  = if decide (Z.of_nat n ∈ ns) then Some (gate (isr (Z.of_nat n))) else idt !! n.
Proof.
  intros Hns. revert idt. induction Hns as [|k ns Hk _ IH]; intros idt Hnd Hl Hn; [done|].
  apply NoDup_cons in Hnd as [Hnot Hnd]. cbn [fold_left].
  rewrite IH by (unfold set_entry; rewrite ?length_insert; done). unfold set_entry.
  destruct (decide (Z.of_nat n ∈ ns)) as [Hin|Hin].
  - rewrite decide_True by (by right). done.
  - destruct (decide (Z.of_nat n = k)) as [<-|Hne].
    + rewrite decide_True by (by left). rewrite Nat2Z.id. apply list_lookup_insert_eq. lia.
    + rewrite decide_False by (rewrite elem_of_cons; tauto). apply list_lookup_insert_ne. lia.
Qed.

(** ** Lemmas on the stubs *)

Section Stubs.
Context (handler : Z -> Z -> cpu_state -> cpu_state).

Abbreviation run := (Idt.run handler).

Lemma run_app c1 c2 s : run (c1 ++ c2) s = run c2 (run c1 s).
Proof. unfold Idt.run. by rewrite fold_left_app. Qed.

Lemma push_stacked v s l :
  stacked (mem s) (rsp s) l -> stacked (mem (push v s)) (rsp (push v s)) (v :: l).
Proof.
  intros Hl i w Hi. unfold push, store. cbn [mem rsp]. destruct i as [|i]; cbn in Hi.
  - injection Hi as <-. replace (rsp s - 8 + 8 * Z.of_nat 0) with (rsp s - 8) by lia. by rewrite Z.eqb_refl.
  - destruct (Z.eqb_spec (rsp s - 8 + 8 * Z.of_nat (S i)) (rsp s - 8)); [lia|].
    replace (rsp s - 8 + 8 * Z.of_nat (S i)) with (rsp s + 8 * Z.of_nat i) by lia. by apply Hl.
Qed.

Lemma push_above v s a : rsp s <= a -> mem (push v s) a = mem s a.
Proof. intros Ha. unfold push, store. cbn [mem]. destruct (Z.eqb_spec a (rsp s - 8)); [lia|done]. Qed.

(** Pushing a list of values. *)
Lemma pushes_run vs s l :
  stacked (mem s) (rsp s) l ->
  let s' := fold_left (fun s v => push v s) vs s in
  regs s' = regs s /\ rsp s' = rsp s - 8 * Z.of_nat (length vs)
  /\ stacked (mem s') (rsp s') (reverse vs ++ l) /\ forall a, rsp s <= a -> mem s' a = mem s a.
Proof.
  revert s l. induction vs as [|v vs IH]; intros s l Hl; cbn [fold_left length].
  - split_and!; [done|lia|done|done].
  - destruct (IH (push v s) (v :: l) (push_stacked v s l Hl)) as (Hr & Hp & Hs & Ha). split_and!.
    + by rewrite Hr.
    + rewrite Hp. cbn [push rsp]. lia.
    + rewrite reverse_cons, <- app_assoc. exact Hs.
    + intros a Hle. rewrite Ha by (cbn [push rsp]; lia). by apply push_above.
Qed.

Lemma run_push_regs rs s : run (PushReg <$> rs) s = fold_left (fun s v => push v s) (regs s <$> rs) s.
Proof.
  revert s. induction rs as [|r rs IH]; intros s; [done|].
  cbn [fmap list_fmap]. unfold Idt.run in *. cbn [fold_left exec]. rewrite IH. done.
Qed.

(** Popping the values on top of the stack. *)
Lemma run_pop_regs rs vs s l :
  length rs = length vs -> stacked (mem s) (rsp s) (vs ++ l) ->
  let s' := run (PopReg <$> rs) s in
  regs s' = fold_left (fun f '(r, v) => set_reg r v f) (zip rs vs) (regs s)
  /\ rsp s' = rsp s + 8 * Z.of_nat (length rs) /\ mem s' = mem s.
Proof.
  revert vs s. induction rs as [|r rs IH]; intros [|v vs] s Hlen Hs; try done.
  { split_and!; [done|cbn; lia|done]. }
  cbn [fmap list_fmap zip zip_with fold_left length]. unfold Idt.run in *. cbn [fold_left exec].
  assert (mem s (rsp s) = v) as ->.
  { rewrite <- (Z.add_0_r (rsp s)). apply (Hs O). done. }
  destruct (IH vs (mkCpu (set_reg r v (regs s)) (rsp s + 8) (mem s))) as (Hr & Hp & Hm).
  - by injection Hlen.
  - intros i w Hi. cbn [mem rsp]. replace (rsp s + 8 + 8 * Z.of_nat i) with (rsp s + 8 * Z.of_nat (S i)) by lia.
    by apply Hs.
  - split_and!; [exact Hr| |exact Hm]. cbn zeta in Hp. rewrite Hp. cbn [rsp]. lia.
Qed.

(** The frame and the stub's words, as the handler's caller finds them. *)
Lemma interrupt_stub n frame error_code s :
  length frame = 5%nat ->
  let top := 16 * (rsp s / 16) in
  let s' := run (isr_stub n) (interrupt n frame error_code s) in
  regs s' = regs s /\ rsp s' = top - 56
  /\ stacked (mem s') (rsp s') ([n; code_for n error_code] ++ reverse frame)
  /\ forall a, top <= a -> mem s' a = mem s a.
Proof.
  intros Hf top. unfold interrupt. fold top. set (s0 := mkCpu (regs s) top (mem s)).
  assert (run (isr_stub n) (interrupt n frame error_code s)
          = fold_left (fun s v => push v s) (frame ++ [code_for n error_code; n]) s0) as Hrun.
  { unfold interrupt. fold top s0. rewrite fold_left_app. unfold isr_stub, code_for.
    by destruct (has_error_code n). }
  unfold interrupt in Hrun. fold top s0 in Hrun. cbv zeta in *. rewrite Hrun.
  destruct (pushes_run (frame ++ [code_for n error_code; n]) s0 []) as (Hr & Hp & Hs & Ha); [by intros i v|].
  rewrite length_app, Hf in Hp. rewrite app_nil_r, reverse_app in Hs.
  split_and!; [by rewrite Hr|rewrite Hp; cbn [s0 rsp length]; lia|exact Hs|].
  intros a Hle. by rewrite Ha.
Qed.
End Stubs.

(** Popping the saved registers in reverse puts every register back. *)
Lemma saved_restored (f g : reg -> Z) r :
  fold_left (fun f '(r, v) => set_reg r v f) (zip (reverse saved) (reverse (g <$> saved))) f r = g r.
Proof.
  change (zip (reverse saved) (reverse (g <$> saved))) with ((fun r => (r, g r)) <$> reverse saved).
  cbn [saved reverse rev_append fmap list_fmap fold_left]. unfold set_reg. by destruct r.
Qed.

(** The two arguments are loaded and the handler is called. *)
Lemma call_run handler s n code :
  mem s (rsp s + 15 * 8) = n -> mem s (rsp s + 16 * 8) = code ->
  exists f, Idt.run handler [Load RDI (15 * 8); Load RSI (16 * 8); CallHandler] s
            = handler n code (mkCpu f (rsp s) (mem s)).
Proof. intros <- <-. eexists. reflexivity. Qed.

Lemma idt_common_parts :
  idt_common = (PushReg <$> saved) ++ [Load RDI (15 * 8); Load RSI (16 * 8); CallHandler]
               ++ (PopReg <$> reverse saved) ++ [AddRsp 16].
Proof. reflexivity. Qed.

(** The common part: the handler is called with both words as arguments on an
    aligned stack, and everything pushed is popped again; the memory is what
    the handler left. *)
Lemma common_run handler s n code l :
  length l = 5%nat -> rsp s mod 16 = 8 -> stacked (mem s) (rsp s) ([n; code] ++ l) ->
  (forall s1, rsp s1 = rsp s - 120 -> returns_from s1 (handler n code s1)) ->
  let s' := Idt.run handler idt_common s in
  (forall r, regs s' r = regs s r) /\ rsp s' = rsp s + 16 /\ stacked (mem s') (rsp s') l
  /\ exists s1, rsp s1 = rsp s - 120 /\ (forall a, rsp s <= a -> mem s1 a = mem s a)
     /\ mem s' = mem (handler n code s1).
Proof.
  intros Hlen Hal Hs Habi. rewrite idt_common_parts, !run_app, run_push_regs.
  destruct (pushes_run (regs s <$> saved) s _ Hs) as (Hr1 & Hp1 & Hs1 & Ha1).
  rewrite length_fmap in Hp1. change (length saved) with 15%nat in Hp1.
  generalize dependent (fold_left (fun s v => push v s) (regs s <$> saved) s). intros s1 Hr1 Hp1 Hs1 Ha1.
  destruct (call_run handler s1 n code) as (f & ->); [by apply (Hs1 15%nat)|by apply (Hs1 16%nat)|].
  set (s2 := mkCpu f (rsp s1) (mem s1)).
  destruct (Habi s2) as (Hp3 & Hcs & Ha3); [cbn; lia|].
  unfold FRAME_BYTES in Ha3. change (rsp s2) with (rsp s1) in *. change (mem s2) with (mem s1) in Ha3.
  remember (handler n code s2) as s3 eqn:Hs3.
  assert (stacked (mem s3) (rsp s3) (reverse (regs s <$> saved) ++ [n; code] ++ l)) as Hs4.
  { intros i v Hi. pose proof (lookup_lt_Some _ _ _ Hi) as Hlt.
    rewrite !length_app, length_reverse, length_fmap, Hlen in Hlt. cbn in Hlt.
    rewrite Hp3, Ha3 by lia. by apply Hs1. }
  destruct (run_pop_regs handler (reverse saved) (reverse (regs s <$> saved)) s3 ([n; code] ++ l))
    as (Hr4 & Hp4 & Hm4); [by rewrite !length_reverse, length_fmap|done|].
  change (length (reverse saved)) with 15%nat in Hp4.
  generalize dependent (Idt.run handler (PopReg <$> reverse saved) s3). intros s4 Hr4 Hp4 Hm4.
  unfold Idt.run. cbn [fold_left exec regs rsp mem]. split_and!.
  - intros r. rewrite Hr4. apply saved_restored.
  - lia.
  - intros i v Hi. rewrite Hm4.
    replace (rsp s4 + 16 + 8 * Z.of_nat i) with (rsp s3 + 8 * Z.of_nat (17 + i)) by lia.
    apply Hs4. exact Hi.
  - exists s2. split_and!; [change (rsp s2) with (rsp s1); lia|done|by rewrite Hm4, Hs3].
Qed.

(** A handler that clobbers every register it may, and counts in a word of
    memory far above the stack, as the timer's does. *)
Definition TICK_WORD : Z := 2 ^ 20.

Definition demo_handler (a b : Z) (s : cpu_state) : cpu_state :=
  mkCpu (fun r => if decide (r ∈ callee_saved) then regs s r else a + b) (rsp s)
    (store TICK_WORD (mem s TICK_WORD + 1) (mem s)).

(** ** Properties *)

(** C27: An interrupt is transparent: whatever a handler does that keeps the
    calling convention (it returns, with the stack pointer and the callee-saved
    registers as they were and the 176 bytes of the interrupt's frame
    unwritten; all other memory is its own), the stub calls it with the vector
    and the processor's error code, or zero, on a stack aligned to sixteen
    bytes, and reaches [iretq] with all registers as they were, the stack
    pointer at the return frame and the frame intact. The memory is then what
    the handler left, which was called with every word of the interrupted
    stack and above as it was. *)
Theorem isr_transparent handler n frame error_code s :
  length frame = 5%nat ->
  let top := 16 * (rsp s / 16) in
  (forall s1, rsp s1 = top - FRAME_BYTES -> returns_from s1 (handler n (code_for n error_code) s1)) ->
  let s' := isr handler n frame error_code s in
  (forall r, regs s' r = regs s r) /\ rsp s' = top - 40 /\ stacked (mem s') (rsp s') (reverse frame)
  /\ exists s1, rsp s1 = top - FRAME_BYTES /\ rsp s1 mod 16 = 0 /\ (forall a, top <= a -> mem s1 a = mem s a)
     /\ mem s' = mem (handler n (code_for n error_code) s1).
Proof.
  intros Hf top Habi. unfold isr. rewrite run_app.
  destruct (interrupt_stub handler n frame error_code s Hf) as (Hr & Hp & Hs & Ha). fold top in Hp, Ha.
  set (s1 := Idt.run handler (isr_stub n) _) in *. unfold FRAME_BYTES in *.
  destruct (common_run handler s1 n (code_for n error_code) (reverse frame))
    as (Hr2 & Hp2 & Hs2 & s2 & Hp3 & Ha3 & Hm3).
  - by rewrite length_reverse.
  - rewrite Hp. unfold top. Z.div_mod_to_equations. lia.
  - done.
  - intros s2 Hs2. apply Habi. lia.
  - cbv zeta in *. split_and!; [intros r; by rewrite Hr2, Hr|lia|done|].
    exists s2. split_and!; [lia|rewrite Hp3, Hp; unfold top; Z.div_mod_to_equations; lia| |done].
    intros a Hle. rewrite Ha3 by lia. by apply Ha.
Qed.

Lemma isr_transparent_witness :
  let s := mkCpu (fun r => if decide (r = RAX) then 7 else 9) 4108 (fun _ => 0) in
  let s' := isr demo_handler 14 [16; 4108; 2; 24; 1000] 3 s in
  regs s' RAX = 7 /\ rsp s' = 4056 /\ mem s' 4056 = 1000 /\ mem s' 4064 = 24 /\ mem s' TICK_WORD = 1.
Proof.
  intros s s'.
  destruct (isr_transparent demo_handler 14 [16; 4108; 2; 24; 1000] 3 s) as (Hr & Hp & Hs & s1 & Hp1 & _ & Ha & Hm).
  - reflexivity.
  - intros s1 Hs1. split; [reflexivity|]. split; [intros r Hr; cbn; by rewrite decide_True|].
    intros a Hlt. rewrite Hs1 in Hlt. change (4096 - 176 <= a < 4096 - 176 + 176) in Hlt.
    unfold demo_handler, store. cbn [mem].
    destruct (Z.eqb_spec a TICK_WORD) as [He|]; [change (a = 1048576) in He; lia|reflexivity].
  - fold s' in Hr, Hp, Hs, Hm. split; [apply Hr|]. split; [exact Hp|]. rewrite Hp in Hs.
    split; [exact (Hs O _ eq_refl)|]. split; [exact (Hs 1%nat _ eq_refl)|].
    rewrite Hm. unfold demo_handler, store. cbn [mem]. rewrite Z.eqb_refl, (Ha TICK_WORD) by (apply Z.leb_le; reflexivity).
    reflexivity.
Defined.

(** The table sends each of its 24 vectors through a present 64-bit interrupt
    gate to its stub, as the processor reads the entry's sixteen bytes; every
    other entry stays as it was, absent in a fresh table. *)
Theorem idt_complete isr n :
  (forall k, 0 <= isr k < 2 ^ 64) -> (n < 256)%nat ->
  let idt := build_idt_into isr (replicate 256 IdtEntry_zero) in
  if decide (Z.of_nat n ∈ vectors)
  then exists e, idt !! n = Some e /\ gate_address (entry_bytes e) = isr (Z.of_nat n)
         /\ gate_selector (entry_bytes e) = GDT_CODE64 /\ gate_type (entry_bytes e) = IDT_INTR_GATE
  else idt !! n = Some IdtEntry_zero.
Proof.
  intros Hisr Hn idt. unfold idt, build_idt_into.
  rewrite build_idt_lookup; [| | |by rewrite length_replicate|done].
  - destruct (decide (Z.of_nat n ∈ vectors)).
    + exists (gate (isr (Z.of_nat n))). destruct (gate_fields (isr (Z.of_nat n)) (Hisr _)) as (? & ? & ? & _).
      by split_and!.
    + by apply lookup_replicate_2.
  - apply Forall_forall. unfold vectors. intros k Hk. rewrite elem_of_app, elem_of_seqZ, !elem_of_cons in Hk.
    unfold TIMER_VECTOR, KBD_VECTOR, IPI_VECTOR in Hk.
    assert (~ k ∈ []) by apply not_elem_of_nil. intuition lia.
  - apply (bool_decide_unpack _). vm_compute. exact I.
Qed.

Lemma idt_complete_witness : exists e,
  build_idt_into (fun n => 1048576 + 16 * n) (replicate 256 IdtEntry_zero) !! 33%nat = Some e
  /\ gate_address (entry_bytes e) = 1049104.
Proof.
  pose proof (idt_complete (fun n => u64 (1048576 + 16 * n)) 33) as Hidt.
  destruct Hidt as (e & He & Ha & _).
  - intros k. by apply Z.mod_pos_bound.
  - lia.
  - exists e. split; [exact He|exact Ha].
Defined.
