(* ===== verification/Apic.v ===== *)
(** The interrupt controllers ([src/src/hal/apic.rs]): the local APIC and the
    IO-APIC through their memory-mapped registers, inter-processor interrupts,
    and the timer's calibration against the time-stamp counter. *)

From Stdlib Require Import ZArith Lia Ascii String.
From stdpp Require Import base numbers list.
From S2P Require Import Prelude Text Machine Acpi.

#[local] Open Scope Z_scope.

Definition IOAPIC_DEFAULT_BASE : Z := 4273995776.

Definition REG_LAPIC_ID : Z := 32.
Definition REG_SVR : Z := 240.
Definition REG_EOI : Z := 176.
Definition REG_ICR_LO : Z := 768.
Definition REG_ICR_HI : Z := 784.
Definition REG_LVT_TIMER : Z := 800.
Definition REG_INIT_COUNT : Z := 896.
Definition REG_DIVIDE : Z := 992.

Definition IOAPIC_SEL : Z := 0.
Definition IOAPIC_WIN : Z := 16.

Definition TIMER_VECTOR : Z := 32.

(** The statics of the file. *)
Record Apic : Type := mkApic {
  APIC_READY : bool;
  BSP_APIC_ID : Z;
  IOAPIC_BASE : Z;
  TICKS_PER_MS : Z;
}.

Definition Apic_new : Apic := mkApic false 0 IOAPIC_DEFAULT_BASE 0.

(** A call of the logger, with the values it is given. *)
Inductive line : Type :=
| Line (part sub text : list Z)
| HexLine (part sub prefix : list Z) (val : Z) (suffix : list Z).

(** What the file reaches of the machine: 32-bit accesses to device memory,
    the model-specific registers (low and high half), the tick counter that
    the timer's interrupt advances, and the logger. *)
Class Platform (D : Type) := {
  platform_machine :: Machine D;
  mmio_read : Z -> D -> Z * D;
  mmio_write : Z -> Z -> D -> D;
  rdmsr : Z -> D -> (Z * Z) * D;
  wrmsr : Z -> Z -> Z -> D -> D;
  tick_count : D -> Z * D;
  log_line : line -> D -> D;
}.

Definition u64_max : Z := 18446744073709551615.
Definition saturating_mul (a b : Z) : Z := Z.min u64_max (a * b).

Section Apic.
Context {D : Type} `{Platform D}.
(** [acpi::MADT], [serial::TSC_PER_MS], and the bound on busy waiting. *)
Context (madt : MadtInfo) (TSC_PER_MS : Z) (fuel : nat).

Abbreviation PM := (M D Empty_set).

(** ** Register access *)

Definition mmio_read_m (addr : Z) : PM Z := fun d => let '(v, d') := mmio_read addr d in (Ret v, d').
Definition mmio_write_m (addr v : Z) : PM unit := fun d => (Ret tt, mmio_write addr v d).
Definition tick_count_m : PM Z := fun d => let '(v, d') := tick_count d in (Ret v, d').
Definition log_m (l : line) : PM unit := fun d => (Ret tt, log_line l d).

Definition lapic_read (reg : Z) : PM Z := mmio_read_m (usize (lapic_base madt + reg)).
Definition lapic_write (reg val : Z) : PM unit := mmio_write_m (usize (lapic_base madt + reg)) val.

Definition ioapic_write (base reg val : Z) : PM unit :=
  do! mmio_write_m (usize (base + IOAPIC_SEL)) reg in
  mmio_write_m (usize (base + IOAPIC_WIN)) val.

Definition ioapic_read (base reg : Z) : PM Z :=
  do! mmio_write_m (usize (base + IOAPIC_SEL)) reg in
  mmio_read_m (usize (base + IOAPIC_WIN)).

Definition rdmsr_m (msr : Z) : PM Z :=
  fun d => let '((lo, hi), d') := rdmsr msr d in (Ret (Z.lor (Z.shiftl hi 32) lo), d').
Definition wrmsr_m (msr val : Z) : PM unit :=
  fun d => (Ret tt, wrmsr msr (u32 val) (u32 (Z.shiftr val 32)) d).

(** ** Local APIC *)

Definition lapic_id : PM Z :=
  let! v := lapic_read REG_LAPIC_ID in
  ret (Z.land (Z.shiftr v 24) 255).

Definition enable_local : PM unit :=
  let! svr := lapic_read REG_SVR in
  lapic_write REG_SVR (Z.lor svr 256).

(** The search for [id] in [cpu_apic_ids[i..]], [n] entries to go; [None] is
    the out-of-bounds panic. *)
Fixpoint id_index (ids : list Z) (id : Z) (n i : nat) : option nat :=
  match n with
  | O => Some O
  | S n =>
      match ids !! i with
      | Some x => if x =? id then Some i else id_index ids id n (S i)
      | None => None
      end
  end.

Definition current_cpu_index (a : Apic) : PM nat :=
  if APIC_READY a then
    let! id := lapic_id in
    or_panic (id_index (cpu_apic_ids madt) id (cpu_count madt) O)
  else ret O.

Definition eoi : PM unit := lapic_write REG_EOI 0.

(** ** Inter-processor interrupts *)

Fixpoint wait_icr_idle (n : nat) : PM unit :=
  match n with
  | O => hang
  | S n =>
      let! v := lapic_read REG_ICR_LO in
      if Z.land v (Z.shiftl 1 12) =? 0 then ret tt else wait_icr_idle n
  end.

Definition send_icr (apic_id low : Z) : PM unit :=
  do! wait_icr_idle fuel in
  do! lapic_write REG_ICR_HI (u32 (Z.shiftl apic_id 24)) in
  do! lapic_write REG_ICR_LO low in
  wait_icr_idle fuel.

Definition send_ipi (apic_id vector : Z) : PM unit := send_icr apic_id vector.
Definition send_init (apic_id : Z) : PM unit := send_icr apic_id 1280.
Definition send_sipi (apic_id vector : Z) : PM unit := send_icr apic_id (Z.lor 1536 vector).

(** ** IO-APIC *)

Fixpoint mask_entries (base : Z) (entries : list Z) : PM unit :=
  match entries with
  | [] => ret tt
  | i :: entries =>
      let reg := 16 + i * 2 in
      do! ioapic_write base (reg + 1) 0 in
      do! ioapic_write base reg (Z.shiftl 1 16) in
      mask_entries base entries
  end.

Definition ioapic_mask_all (base : Z) : PM unit :=
  let! ver := ioapic_read base 1 in
  let max_redir := Z.land (Z.shiftr ver 16) 255 in
  mask_entries base (seqZ 0 (max_redir + 1)).

Definition ioapic_route (base irq vector dest_apic_id : Z) : PM unit :=
  let reg := u32 (16 + irq * 2) in
  do! ioapic_write base (u32 (reg + 1)) (u32 (Z.shiftl dest_apic_id 24)) in
  ioapic_write base reg vector.

(** ** Initialisation *)

(** The IO-APIC, the old interrupt controllers and the timer. *)
Definition init_routes : M (D * Apic) Empty_set unit :=
  do! (if negb (io_apic_addr madt =? 0)
       then modify (fun '(d, a) => (d, mkApic (APIC_READY a) (BSP_APIC_ID a) (io_apic_addr madt) (TICKS_PER_MS a)))
       else ret tt) in
  let! a := gets snd in
  do! zoom (ioapic_mask_all (IOAPIC_BASE a)) in
  do! zoom (ioapic_route (IOAPIC_BASE a) 1 33 (BSP_APIC_ID a)) in
  do! zoom (outb_m 33 255) in
  do! zoom (outb_m 161 255) in
  do! zoom (lapic_write REG_LVT_TIMER (Z.lor 131072 TIMER_VECTOR)) in
  do! zoom (lapic_write REG_DIVIDE 11) in
  do! zoom (lapic_write REG_INIT_COUNT 4294967295) in
  do! zoom (log_m (HexLine (str "KERN") (str "APIC") (str "local APIC ID ") (BSP_APIC_ID a) (str " enabled"))) in
  modify (fun '(d, a) => (d, mkApic true (BSP_APIC_ID a) (IOAPIC_BASE a) (TICKS_PER_MS a))).

Definition apic_init : M (D * Apic) Empty_set unit :=
  let! msr := zoom (rdmsr_m 27) in
  do! (if Z.land msr (Z.shiftl 1 11) =? 0 then zoom (wrmsr_m 27 (Z.lor msr (Z.shiftl 1 11))) else ret tt) in
  let! id := zoom lapic_id in
  do! modify (fun '(d, a) => (d, mkApic (APIC_READY a) id (IOAPIC_BASE a) (TICKS_PER_MS a))) in
  let! svr := zoom (lapic_read REG_SVR) in
  do! zoom (lapic_write REG_SVR (Z.lor (Z.lor svr 256) 255)) in
  init_routes.

(** ** Time *)

(** [while rdtsc() < target {}] *)
Fixpoint wait_tsc (n : nat) (target : Z) : PM unit :=
  match n with
  | O => hang
  | S n => let! t := rdtsc_m in if t <? target then wait_tsc n target else ret tt
  end.

Definition delay_ms (ms : Z) : PM unit :=
  let! start := rdtsc_m in
  wait_tsc fuel (u64 (start + saturating_mul TSC_PER_MS ms)).

(** The ticks counted over 100 ms, times ten. *)
Definition rate_after (arm : PM unit) : PM Z :=
  do! arm in
  let! t0 := tick_count_m in
  let! start := rdtsc_m in
  do! wait_tsc fuel (u64 (start + saturating_mul TSC_PER_MS 100)) in
  let! t1 := tick_count_m in
  ret (u64 (u64 (t1 - t0) * 10)).

Definition next_count (init hz : Z) : Z := u32 (Z.max (u64 (init * hz) / 1000) 1).

(** The passes of the calibration; the result is the last count. *)
Fixpoint calibrate_passes (n : nat) (init : Z) : PM Z :=
  match n with
  | O => ret init
  | S n =>
      let! hz := rate_after (lapic_write REG_INIT_COUNT init) in
      do! log_m (HexLine (str "KERN") (str "APIC") (str "timer rate (Hz): ") hz []) in
      if hz =? 0 then ret init
      else
        let next := next_count init hz in
        if next =? init then ret init else calibrate_passes n next
  end.

Definition calibrate_hz : M (D * Apic) Empty_set unit :=
  let! init := zoom (calibrate_passes 6 16777216) in
  do! zoom (lapic_write REG_INIT_COUNT init) in
  do! modify (fun '(d, a) => (d, mkApic (APIC_READY a) (BSP_APIC_ID a) (IOAPIC_BASE a) init)) in
  zoom (log_m (HexLine (str "KERN") (str "APIC") (str "timer reload count: ") init [])).

Definition verify_hz (tag : list Z) : PM unit :=
  let! hz := rate_after (ret tt) in
  do! log_m (Line (str "KERN") (str "APIC") tag) in
  log_m (HexLine (str "KERN") (str "APIC") (str "verify rate (Hz): ") hz []).
End Apic.
