(* ===== verification/ApicSpec.v ===== *)
(** The interrupt controllers against what their registers promise: which
    interrupts pass after initialisation, that inter-processor interrupts are
    sent, and how close the calibrated timer comes to a thousand ticks per
    second. *)

From Stdlib Require Import ZArith Lia Ascii String.
From stdpp Require Import base numbers list.
From S2P Require Import Prelude Text Machine Acpi Apic.

#[local] Open Scope Z_scope.

(** ** The controllers as software sees them *)

(** Local registers by offset, IO-APIC registers by index with the selected
    one, and the interrupts sent: destination and command. *)
Record ctrl : Type := mkCtrl {
  lreg : Z -> Z;
  ioreg : Z -> Z;
  iosel : Z;
  sent : list (Z * Z);
}.

Definition upd (f : Z -> Z) (r v : Z) : Z -> Z := fun r' => if r' =? r then v else f r'.

Definition set_lreg (r v : Z) (c : ctrl) : ctrl := mkCtrl (upd (lreg c) r v) (ioreg c) (iosel c) (sent c).
Definition set_ioreg (r v : Z) (c : ctrl) : ctrl := mkCtrl (lreg c) (upd (ioreg c) r v) (iosel c) (sent c).
Definition set_iosel (r : Z) (c : ctrl) : ctrl := mkCtrl (lreg c) (ioreg c) r (sent c).
Definition add_sent (v : Z) (c : ctrl) : ctrl :=
  mkCtrl (lreg c) (ioreg c) (iosel c) (sent c ++ [(Z.shiftr (lreg c REG_ICR_HI) 24, v)]).

Definition plain_registers : list Z := [REG_SVR; REG_LVT_TIMER; REG_DIVIDE; REG_INIT_COUNT; REG_ICR_HI].

(** The registers at [lbase] and [iobase]; the command register reads busy for
    fewer than [patience] times after a command. *)
Class XApic (D : Type) `{Platform D} (lbase iobase : Z) (patience : nat) := {
  view : D -> ctrl;
  busy : D -> nat;
  bases : 0 <= lbase < 2 ^ 40 /\ 0 <= iobase < 2 ^ 40;
  busy_bound d : (busy d < patience)%nat;
  lapic_reads d r : r = REG_LAPIC_ID \/ r = REG_SVR ->
    (mmio_read (lbase + r) d).1 = lreg (view d) r /\ view (mmio_read (lbase + r) d).2 = view d;
  lapic_writes d r v : r ∈ plain_registers -> view (mmio_write (lbase + r) v d) = set_lreg r v (view d);
  icr_reads d : view (mmio_read (lbase + REG_ICR_LO) d).2 = view d
    /\ Z.testbit (mmio_read (lbase + REG_ICR_LO) d).1 12 = negb (busy d =? 0)%nat
    /\ busy (mmio_read (lbase + REG_ICR_LO) d).2 = pred (busy d);
  icr_writes d v : view (mmio_write (lbase + REG_ICR_LO) v d) = add_sent v (view d);
  select_writes d v : view (mmio_write iobase v d) = set_iosel v (view d);
  window_writes d v : 16 <= iosel (view d) < 256 ->
    view (mmio_write (iobase + IOAPIC_WIN) v d) = set_ioreg (iosel (view d)) v (view d);
  window_reads d : (mmio_read (iobase + IOAPIC_WIN) d).1 = ioreg (view d) (iosel (view d))
    /\ view (mmio_read (iobase + IOAPIC_WIN) d).2 = view d;
  others_quiet d : (forall r, view (rdmsr r d).2 = view d) /\ (forall r lo hi, view (wrmsr r lo hi d) = view d)
    /\ (forall p v, view (outb p v d) = view d) /\ (forall l, view (log_line l d) = view d);
}.

(** ** The timer *)

(** Time in cycles of the time-stamp counter; the reload count with the moment
    it was written and the ticks up to then. *)
Record timer : Type := mkTimer { now : Z; since : Z; before : Z; reload : Z }.

Definition advance (e : Z) (t : timer) : timer := mkTimer (now t + e) (since t) (before t) (reload t).

(** [F] counts go by in the [w] cycles of 100 ms; a tick is [reload] counts. *)
Definition ticks (w F : Z) (t : timer) : Z := before t + (now t - since t) * F / w / reload t.

Definition arm (w F v : Z) (t : timer) : timer := mkTimer (now t) (now t) (ticks w F t) v.

(** A read of the counter takes from one to [slack] cycles, a log call no more
    than [slack] either. *)
Class ApicTimer (D : Type) `{Platform D} (lbase w F slack : Z) := {
  tview : D -> timer;
  lbase_ok : 0 <= lbase < 2 ^ 40;
  rdtsc_time d : (rdtsc d).1 = now (tview d)
    /\ exists e, 1 <= e <= slack /\ tview (rdtsc d).2 = advance e (tview d);
  tick_reads d : (tick_count d).1 = ticks w F (tview d) /\ tview (tick_count d).2 = tview d;
  init_count_writes d v : 0 < v < 2 ^ 32 ->
    tview (mmio_write (lbase + REG_INIT_COUNT) v d) = arm w F v (tview d);
  log_time d l : exists e, 0 <= e <= slack /\ tview (log_line l d) = advance e (tview d);
}.

(** A reload count that is right to about one per cent: [F / 100] counts are a
    millisecond. *)
Definition about_1000hz (F r : Z) : Prop := 10000 * r <= 101 * F /\ 9899 * F < 1000000 * (r + 1).

(** ** A device *)

Record SimApic : Type := mkSimApic { ctl : ctrl; busy_for : nat; tm : timer }.

Definition SIM_LBASE : Z := 4276092928.
Definition SIM_W : Z := 100000.
Definition SIM_F : Z := 90000000.

(** Accesses to the local APIC and the IO-APIC; reading the counter takes forty
    cycles, a command keeps the register busy for three reads. *)
Definition sim_read (addr : Z) (s : SimApic) : Z * SimApic :=
  let r := addr - SIM_LBASE in
  if r =? REG_ICR_LO then
    (if (busy_for s =? 0)%nat then 0 else 4096, mkSimApic (ctl s) (pred (Nat.min 3 (busy_for s))) (tm s))
  else if addr =? IOAPIC_DEFAULT_BASE + IOAPIC_WIN then (ioreg (ctl s) (iosel (ctl s)), s)
  else (lreg (ctl s) r, s).

Definition sim_write (addr v : Z) (s : SimApic) : SimApic :=
  let r := addr - SIM_LBASE in
  if r =? REG_ICR_LO then mkSimApic (add_sent v (ctl s)) 3 (tm s)
  else if addr =? IOAPIC_DEFAULT_BASE + IOAPIC_SEL then mkSimApic (set_iosel v (ctl s)) (busy_for s) (tm s)
  else if addr =? IOAPIC_DEFAULT_BASE + IOAPIC_WIN
  then mkSimApic (set_ioreg (iosel (ctl s)) v (ctl s)) (busy_for s) (tm s)
  else mkSimApic (set_lreg r v (ctl s)) (busy_for s)
         (if r =? REG_INIT_COUNT then arm SIM_W SIM_F v (tm s) else tm s).

#[export] Instance SimApic_Machine : Machine SimApic := {
  inb _ s := (255, s);
  outb _ _ s := s;
  inw _ s := (65535, s);
  outw _ _ s := s;
  rdtsc s := (now (tm s), mkSimApic (ctl s) (busy_for s) (advance 40 (tm s)));
}.

#[export] Instance SimApic_Platform : Platform SimApic := {
  mmio_read := sim_read;
  mmio_write := sim_write;
  rdmsr _ s := ((2304, 0), s);
  wrmsr _ _ _ s := s;
  tick_count s := (ticks SIM_W SIM_F (tm s), s);
  log_line _ s := s;
}.

#[export] Program Instance SimApic_XApic : XApic SimApic SIM_LBASE IOAPIC_DEFAULT_BASE 4 := {
  view := ctl;
  busy s := Nat.min 3 (busy_for s);
}.
Next Obligation. unfold SIM_LBASE, IOAPIC_DEFAULT_BASE. lia. Qed.
Next Obligation. intros s. apply Nat.lt_succ_r, Nat.le_min_l. Qed.
Next Obligation. intros s r [-> | ->]; done. Qed.
Next Obligation.
  intros s r v Hr. unfold plain_registers in Hr. rewrite !elem_of_cons, elem_of_nil in Hr.
  destruct Hr as [->|[->|[->|[->|[->|[]]]]]]; done.
Qed.
Next Obligation.
  intros [c b t]. cbn [sim_read busy_for ctl mmio_read SimApic_Platform]. split_and!; [done|by destruct b as [|[|[|[|b]]]]..].
Qed.
Next Obligation. done. Qed.
Next Obligation. done. Qed.
Next Obligation. done. Qed.
Next Obligation. done. Qed.
Next Obligation. done. Qed.

#[export] Program Instance SimApic_Timer : ApicTimer SimApic SIM_LBASE SIM_W SIM_F 40 := { tview := tm }.
Next Obligation. unfold SIM_LBASE. lia. Qed.
Next Obligation. intros s. split; [done|]. exists 40. split; [lia|done]. Qed.
Next Obligation. done. Qed.
Next Obligation. done. Qed.
Next Obligation.
  intros s l. exists 0. split; [lia|]. cbn. unfold advance. rewrite Z.add_0_r. by destruct (tm s).
Qed.

Definition sim_apic (regs ioregs : Z -> Z) : SimApic :=
  mkSimApic (mkCtrl regs ioregs 0 []) 0 (mkTimer 1000 0 0 1).

Definition demo_madt : MadtInfo := mkMadt SIM_LBASE 0 0 2 [0; 3; 0; 0; 0; 0; 0; 0] false.

(** The boot processor has local APIC number 3; the IO-APIC has 24 entries. *)
Definition demo_apic : SimApic :=
  sim_apic (fun r => if r =? REG_LAPIC_ID then 50331648 else 0) (fun r => if r =? 1 then 1507345 else 0).

(** ** Lemmas on the controllers *)

Section Controllers.
Context {D : Type} {lbase iobase : Z} {patience : nat} `{XApic D lbase iobase patience}.
Context (madt : MadtInfo).
Hypothesis Hbase : lapic_base madt = lbase.

Lemma reg_addr r : 0 <= r < 2 ^ 20 -> usize (lapic_base madt + r) = lbase + r.
Proof. intros Hr. rewrite Hbase. pose proof bases. apply usize_small. lia. Qed.

Lemma lapic_read_run r d : r = REG_LAPIC_ID \/ r = REG_SVR ->
  exists d', lapic_read madt r d = (Ret (lreg (view d) r), d') /\ view d' = view d.
Proof.
  intros Hr. unfold lapic_read, mmio_read_m.
  rewrite reg_addr by (unfold REG_LAPIC_ID, REG_SVR in Hr; lia). destruct (lapic_reads d r Hr) as [Hv Hd].
  destruct (mmio_read (lbase + r) d) as [v d'] eqn:E. cbn [fst snd] in *. exists d'. by rewrite Hv.
Qed.

Lemma lapic_write_run r v d : r ∈ plain_registers -> exists d',
  lapic_write madt r v d = (Ret tt, d') /\ view d' = set_lreg r v (view d).
Proof.
  intros Hr. unfold lapic_write, mmio_write_m. rewrite reg_addr.
  - eexists. split; [done|]. by apply lapic_writes.
  - unfold plain_registers in Hr. rewrite !elem_of_cons, elem_of_nil in Hr.
    unfold REG_SVR, REG_LVT_TIMER, REG_DIVIDE, REG_INIT_COUNT, REG_ICR_HI in Hr. lia.
Qed.

Lemma window_addr o : 0 <= o < 2 ^ 20 -> usize (iobase + o) = iobase + o.
Proof. intros Ho. pose proof bases. apply usize_small. lia. Qed.

Lemma ioapic_write_run r v d : 16 <= r < 256 -> exists d',
  ioapic_write iobase r v d = (Ret tt, d') /\ view d' = set_ioreg r v (set_iosel r (view d)).
Proof.
  intros Hr. unfold ioapic_write, bind, mmio_write_m. rewrite !window_addr by (unfold IOAPIC_SEL, IOAPIC_WIN; lia).
  unfold IOAPIC_SEL. rewrite Z.add_0_r. eexists. split; [done|].
  rewrite window_writes; rewrite select_writes; done.
Qed.

Lemma ioapic_read_run r d : exists d',
  ioapic_read iobase r d = (Ret (ioreg (view d) r), d') /\ view d' = set_iosel r (view d).
Proof.
  unfold ioapic_read, bind, mmio_write_m, mmio_read_m. rewrite !window_addr by (unfold IOAPIC_SEL, IOAPIC_WIN; lia).
  unfold IOAPIC_SEL. rewrite Z.add_0_r. destruct (window_reads (mmio_write iobase r d)) as [Hv Hd].
  rewrite select_writes in Hv, Hd. destruct (mmio_read (iobase + IOAPIC_WIN) _) as [v d'].
  cbn [fst snd] in *. exists d'. split; [by rewrite Hv|done].
Qed.

Lemma icr_bit v b : Z.testbit v 12 = b -> (Z.land v (Z.shiftl 1 12) =? 0) = negb b.
Proof.
  intros <-. replace (Z.land v (Z.shiftl 1 12)) with (if Z.testbit v 12 then 2 ^ 12 else 0).
  - by destruct (Z.testbit v 12).
  - apply Z.bits_inj'. intros i Hi. rewrite Z.land_spec, Z.shiftl_spec by done.
    destruct (decide (i = 12)) as [->|Hne].
    + change (Z.testbit 1 (12 - 12)) with true. rewrite andb_true_r. by destruct (Z.testbit v 12).
    + assert (Z.testbit 1 (i - 12) = false) as ->.
      { destruct (decide (i < 12)); [apply Z.testbit_neg_r; lia|].
        rewrite <- (Z.pow_0_r 2), Z.pow2_bits_eqb by lia. apply Z.eqb_neq. lia. }
      rewrite andb_false_r. destruct (Z.testbit v 12); [|by rewrite Z.bits_0].
      rewrite Z.pow2_bits_eqb by lia. apply Z.eqb_neq. lia.
Qed.

Lemma wait_icr_run n d : (busy d < n)%nat -> exists d',
  wait_icr_idle madt n d = (Ret tt, d') /\ view d' = view d.
Proof.
  revert d. induction n as [|n IH]; intros d Hn; [lia|]. cbn [wait_icr_idle].
  unfold bind, lapic_read, mmio_read_m. rewrite reg_addr by (unfold REG_ICR_LO; lia).
  destruct (icr_reads d) as (Hd & Hb & Hp). destruct (mmio_read (lbase + REG_ICR_LO) d) as [v d'].
  cbn [fst snd] in *. rewrite (icr_bit _ _ Hb), negb_involutive.
  destruct (Nat.eqb_spec (busy d) 0) as [Hz|Hnz].
  - by exists d'.
  - destruct (IH d') as (d2 & R & Hv); [lia|]. exists d2. by rewrite Hv, Hd.
Qed.

Lemma send_icr_run fuel id low d : (patience <= fuel)%nat -> 0 <= id < 256 -> exists d',
  send_icr madt fuel id low d = (Ret tt, d')
  /\ sent (view d') = sent (view d) ++ [(id, low)] /\ ioreg (view d') = ioreg (view d)
  /\ forall r, r <> REG_ICR_HI -> lreg (view d') r = lreg (view d) r.
Proof.
  intros Hf Hid. unfold send_icr.
  destruct (wait_icr_run fuel d) as (d1 & R1 & V1); [pose proof (busy_bound d); lia|]. run_with R1.
  destruct (lapic_write_run REG_ICR_HI (u32 (Z.shiftl id 24)) d1) as (d2 & R2 & V2).
  { unfold plain_registers. by repeat constructor. }
  run_with R2. unfold bind at 1, lapic_write at 1, mmio_write_m. rewrite reg_addr by (unfold REG_ICR_LO; lia).
  set (d3 := mmio_write (lbase + REG_ICR_LO) low d2).
  assert (view d3 = add_sent low (view d2)) as V3 by apply icr_writes.
  destruct (wait_icr_run fuel d3) as (d4 & R4 & V4); [pose proof (busy_bound d3); lia|].
  exists d4. split; [done|]. rewrite V4, V3, V2, V1. cbn [add_sent set_lreg sent ioreg lreg upd]. split_and!.
  - do 3 f_equal. unfold upd. rewrite Z.eqb_refl, u32_small; rewrite Z.shiftl_mul_pow2, ?Z.shiftr_div_pow2 by lia;
      [by rewrite Z.div_mul|lia].
  - done.
  - intros r Hr. unfold upd. by rewrite (proj2 (Z.eqb_neq _ _) Hr).
Qed.

(** Masking a list of entries. *)
Lemma mask_entries_run l d : Forall (fun i => 0 <= i < 120) l -> exists d',
  mask_entries iobase l d = (Ret tt, d')
  /\ lreg (view d') = lreg (view d) /\ sent (view d') = sent (view d)
  /\ (forall i, i ∈ l -> ioreg (view d') (16 + 2 * i) = 65536 /\ ioreg (view d') (17 + 2 * i) = 0)
  /\ forall r, (forall i, i ∈ l -> r <> 16 + 2 * i /\ r <> 17 + 2 * i) -> ioreg (view d') r = ioreg (view d) r.
Proof.
  revert d. induction l as [|i l IH]; intros d Hl.
  { exists d. split_and!; [done..|by intros i ?%elem_of_nil|done]. }
  apply Forall_cons in Hl as [Hi Hl]. cbn [mask_entries].
  destruct (ioapic_write_run (16 + i * 2 + 1) 0 d) as (d1 & R1 & V1); [lia|]. run_with R1.
  destruct (ioapic_write_run (16 + i * 2) (Z.shiftl 1 16) d1) as (d2 & R2 & V2); [lia|]. run_with R2.
  destruct (IH d2 Hl) as (d' & R & Hlr & Hs & Hin & Hout). exists d'. split; [done|].
  rewrite V1 in V2. rewrite V2 in Hlr, Hs, Hout.
  cbn [set_ioreg set_iosel lreg sent ioreg iosel] in Hlr, Hs, Hout. unfold upd in Hout. split_and!; [done..| |].
  - intros j Hj. destruct (decide (j ∈ l)) as [Hjl|Hjl]; [by apply Hin|].
    apply elem_of_cons in Hj as [->|]; [|done]. split; rewrite Hout.
    + by rewrite (proj2 (Z.eqb_eq _ _)) by lia.
    + intros k Hk. assert (k <> i) by (by intros ->). lia.
    + by rewrite (proj2 (Z.eqb_neq _ _)), (proj2 (Z.eqb_eq _ _)) by lia.
    + intros k Hk. assert (k <> i) by (by intros ->). lia.
  - intros r Hr. rewrite Hout by (intros k Hk; apply Hr; by right).
    destruct (Hr i) as [H1 H2]; [by left|]. by rewrite !(proj2 (Z.eqb_neq _ _)) by lia.
Qed.

Lemma mask_all_run d : let m := Z.land (Z.shiftr (ioreg (view d) 1) 16) 255 in m < 120 -> exists d',
  ioapic_mask_all iobase d = (Ret tt, d')
  /\ lreg (view d') = lreg (view d) /\ sent (view d') = sent (view d)
  /\ forall i, 0 <= i <= m -> ioreg (view d') (16 + 2 * i) = 65536 /\ ioreg (view d') (17 + 2 * i) = 0.
Proof.
  intros m Hm. unfold ioapic_mask_all. destruct (ioapic_read_run 1 d) as (d1 & R1 & V1). run_with R1. fold m.
  destruct (mask_entries_run (seqZ 0 (m + 1)) d1) as (d' & R & Hlr & Hs & Hin & _).
  { apply Forall_forall. intros i Hi%elem_of_seqZ. lia. }
  exists d'. rewrite V1 in Hlr, Hs. split_and!; [done..|]. intros i Hi. apply Hin, elem_of_seqZ. lia.
Qed.

Lemma route_run irq vector dest d : 0 <= irq < 120 -> 0 <= dest < 256 -> exists d',
  ioapic_route iobase irq vector dest d = (Ret tt, d')
  /\ lreg (view d') = lreg (view d) /\ sent (view d') = sent (view d)
  /\ ioreg (view d') (16 + 2 * irq) = vector /\ ioreg (view d') (17 + 2 * irq) = 2 ^ 24 * dest
  /\ forall r, r <> 16 + 2 * irq -> r <> 17 + 2 * irq -> ioreg (view d') r = ioreg (view d) r.
Proof.
  intros Hi Hd. unfold ioapic_route. rewrite !u32_small; rewrite ?u32_small; try lia;
    [|rewrite Z.shiftl_mul_pow2 by lia; lia].
  destruct (ioapic_write_run (16 + irq * 2 + 1) (Z.shiftl dest 24) d) as (d1 & R1 & V1); [lia|]. run_with R1.
  destruct (ioapic_write_run (16 + irq * 2) vector d1) as (d2 & R2 & V2); [lia|]. exists d2. split; [done|].
  rewrite V2, V1. cbn [set_ioreg set_iosel lreg sent ioreg iosel]. unfold upd. split_and!; [done..| | |].
  - by rewrite (proj2 (Z.eqb_eq _ _)) by lia.
  - rewrite (proj2 (Z.eqb_neq _ _)), (proj2 (Z.eqb_eq _ _)) by lia. rewrite Z.shiftl_mul_pow2; lia.
  - intros r H1 H2. by rewrite !(proj2 (Z.eqb_neq _ _)) by lia.
Qed.
End Controllers.

(** ** Lemmas on the timer *)

Section Timing.
Context {D : Type} {lbase w F slack : Z} `{ApicTimer D lbase w F slack}.
Context (madt : MadtInfo) (per_ms : Z) (fuel : nat).
Hypothesis Hbase : lapic_base madt = lbase.

Lemma advance_add a b t : advance a (advance b t) = advance (b + a) t.
Proof. unfold advance. cbn. f_equal. lia. Qed.

Lemma wait_tsc_run n target d :
  now (tview d) <= target + slack -> Z.max 0 (target - now (tview d)) < Z.of_nat n ->
  exists d' e, wait_tsc n target d = (Ret tt, d') /\ tview d' = advance e (tview d)
    /\ target < now (tview d) + e <= target + 2 * slack.
Proof.
  revert d. induction n as [|n IH]; intros d Hle Hn; [lia|]. cbn [wait_tsc]. unfold bind, rdtsc_m.
  destruct (rdtsc_time d) as (Hv & e & He & Ht). destruct (rdtsc d) as [v d1]. cbn [fst snd] in *. subst v.
  destruct (Z.ltb_spec (now (tview d)) target).
  - destruct (IH d1) as (d' & e' & R & Ht' & Hb); rewrite Ht in *; cbn [advance now] in *; [lia..|].
    exists d', (e + e'). split; [done|]. rewrite Ht', advance_add. split; [done|lia].
  - exists d1, e. split_and!; [done|done|lia|lia].
Qed.

Lemma udelay_run ms d :
  0 <= now (tview d) -> 0 <= slack ->
  let span := saturating_mul per_ms ms in
  0 <= span -> now (tview d) + span < 2 ^ 64 -> span < Z.of_nat fuel ->
  exists d' e, delay_ms per_ms fuel ms d = (Ret tt, d') /\ tview d' = advance e (tview d)
    /\ span < e <= span + 2 * slack.
Proof.
  intros Hn0 Hs span Hspan Hnow Hf. unfold delay_ms, bind at 1, rdtsc_m at 1.
  destruct (rdtsc_time d) as (Hv & e & He & Ht). destruct (rdtsc d) as [v d1]. cbn [fst snd] in *. subst v.
  fold span. rewrite u64_small by lia.
  destruct (wait_tsc_run fuel (now (tview d) + span) d1) as (d' & e' & R & Ht' & Hb);
    rewrite Ht in *; cbn [advance now] in *; [lia..|].
  exists d', (e + e'). split; [done|]. rewrite Ht', advance_add. split; [done|lia].
Qed.

Lemma rate_run v d :
  0 < v < 2 ^ 32 -> 0 <= now (tview d) -> 0 <= slack -> 0 < w -> w = saturating_mul per_ms 100 ->
  now (tview d) + w < 2 ^ 64 -> w < Z.of_nat fuel ->
  exists d' e, rate_after per_ms fuel (lapic_write madt REG_INIT_COUNT v) d
               = (Ret (u64 (u64 (e * F / w / v) * 10)), d')
    /\ w < e <= w + 2 * slack /\ tview d' = advance e (arm w F v (tview d)).
Proof.
  intros Hv Hn0 Hs Hw Hper Hnow Hf. unfold rate_after, bind at 1, lapic_write, mmio_write_m.
  rewrite usize_small by (pose proof lbase_ok; unfold REG_INIT_COUNT; lia). rewrite Hbase.
  pose proof (init_count_writes d v Hv) as Ha. set (d1 := mmio_write _ _ _) in *.
  unfold bind at 1, tick_count_m at 1. destruct (tick_reads d1) as [Hc1 Ht1].
  destruct (tick_count d1) as [c1 d2]. cbn [fst snd] in *. unfold bind at 1, rdtsc_m at 1.
  destruct (rdtsc_time d2) as (Hv2 & e2 & He2 & Ht2). destruct (rdtsc d2) as [v2 d3]. cbn [fst snd] in *.
  rewrite Ht1, Ha in Hv2, Ht2. cbn [arm now] in Hv2. subst v2. rewrite <- Hper, u64_small by lia.
  destruct (wait_tsc_run fuel (now (tview d) + w) d3) as (d4 & e4 & R4 & Ht4 & Hb4);
    rewrite Ht2 in *; cbn [advance arm now] in *; [lia..|]. run_with R4.
  unfold bind, tick_count_m. destruct (tick_reads d4) as [Hc4 Ht5]. destruct (tick_count d4) as [c4 d5].
  cbn [fst snd] in *. exists d5, (e2 + e4). unfold ret.
  rewrite Hc4, Hc1, Ht4, Ha. unfold ticks. cbn [advance arm now since before reload].
  rewrite Z.sub_diag, Z.mul_0_l, (Z.div_0_l w), Z.div_0_l by lia.
  replace (now (tview d) + e2 + e4 - now (tview d)) with (e2 + e4) by lia.
  match goal with |- context [u64 (?x - ?y)] => replace (x - y) with ((e2 + e4) * F / w / v) by lia end.
  split_and!; [done|lia|lia|]. rewrite Ht5, Ht4. cbn [arm]. unfold advance. cbn. f_equal. lia.
Qed.

(** The counts of a window are [F], at most one per cent more. *)
Lemma window_counts e : 0 < w -> 0 <= F -> 200 * slack <= w -> w < e <= w + 2 * slack ->
  F <= e * F / w /\ 100 * (e * F / w) <= 101 * F.
Proof.
  intros Hw HF Hs He. split.
  - apply Z.div_le_lower_bound; [done|]. nia.
  - pose proof (Z.mul_div_le (e * F) w Hw). nia.
Qed.
End Timing.

(** One step of the calibration. *)
Lemma next_count_step F v c :
  2 ^ 24 <= F <= 2 ^ 38 -> F <= c -> 100 * c <= 101 * F -> 0 < v < 2 ^ 32 ->
  let hz := u64 (u64 (c / v) * 10) in
  hz = 10 * (c / v) /\ (v <= c -> hz <> 0 /\ 0 < next_count v hz < 2 ^ 32 /\ 10000 * next_count v hz <= 101 * F
    /\ (10000 * v <= 101 * F -> about_1000hz F (next_count v hz))).
Proof.
  intros HF Hc1 Hc2 Hv hz. pose proof (Z.div_pos c v ltac:(lia) ltac:(lia)).
  assert (v * (c / v) <= c) as Hle by (apply Z.mul_div_le; lia).
  assert (c - v < v * (c / v)) as Hgt by (pose proof (Z.mod_pos_bound c v ltac:(lia)); pose proof (Z.div_mod c v); lia).
  assert (c / v <= c) by (apply Z.div_le_upper_bound; nia).
  assert (hz = 10 * (c / v)) as Hhz by (unfold hz; rewrite (u64_small (c / v)) by lia; rewrite u64_small by lia; lia).
  split; [done|]. intros Hvc. assert (1 <= c / v) by (apply Z.div_le_lower_bound; lia).
  split; [lia|]. rewrite Hhz. unfold next_count. rewrite u64_small by nia.
  assert (v * (10 * (c / v)) / 1000 = v * (c / v) / 100) as ->.
  { replace (v * (10 * (c / v))) with (v * (c / v) * 10) by lia.
    replace 1000 with (100 * 10) by lia. apply Z.div_mul_cancel_r; lia. }
  set (p := v * (c / v)) in *. pose proof (Z.mul_div_le p 100). pose proof (Z.mul_succ_div_gt p 100 ltac:(lia)).
  rewrite u32_small by lia. unfold about_1000hz. lia.
Qed.

Section Calibration.
Context {D : Type} {lbase w F slack : Z} `{ApicTimer D lbase w F slack}.
Context (madt : MadtInfo) (per_ms : Z) (fuel : nat).
Hypothesis Hbase : lapic_base madt = lbase.
Hypothesis Hslack : 0 <= slack /\ 200 * slack <= w.
Hypothesis Hw : 0 < w /\ w = saturating_mul per_ms 100 /\ w < Z.of_nat fuel.

(** The time a pass takes at most. *)
Abbreviation pass_time := (w + 3 * slack).

Lemma log_run l d : exists d' e, log_m l d = (Ret tt, d') /\ 0 <= e <= slack /\ tview d' = advance e (tview d).
Proof. destruct (log_time d l) as (e & He & Ht). by exists (log_line l d), e. Qed.

(** A pass: the rate is measured and logged. *)
Lemma pass_run n v d :
  0 <= F -> 0 < v < 2 ^ 32 -> 0 <= now (tview d) -> now (tview d) + pass_time < 2 ^ 64 ->
  exists c d1, F <= c /\ 100 * c <= 101 * F /\ 0 <= now (tview d1) <= now (tview d) + pass_time
    /\ let hz := u64 (u64 (c / v) * 10) in
       calibrate_passes madt per_ms fuel (S n) v d
       = if hz =? 0 then (Ret v, d1)
         else if next_count v hz =? v then (Ret v, d1)
         else calibrate_passes madt per_ms fuel n (next_count v hz) d1.
Proof.
  intros HF Hv Hn Hnow. cbn [calibrate_passes].
  destruct (rate_run madt per_ms fuel Hbase v d) as (d1 & e & R & He & Ht); [lia..|].
  destruct (window_counts (w := w) (F := F) (slack := slack) e) as [Hc1 Hc2]; [lia..|]. run_with R. cbv zeta.
  set (hz := u64 (u64 (e * F / w / v) * 10)).
  destruct (log_run (HexLine (str "KERN") (str "APIC") (str "timer rate (Hz): ") hz []) d1) as (d2 & e2 & R2 & He2 & Ht2).
  run_with R2. exists (e * F / w), d2. fold hz. rewrite Ht2, Ht. cbn [advance arm now].
  split_and!; [done|done|lia|lia|]. destruct (hz =? 0); [done|]. by destruct (next_count v hz =? v).
Qed.

Lemma passes_run n v d :
  2 ^ 24 <= F <= 2 ^ 38 -> 0 < v < 2 ^ 32 -> v <= F -> (n = O -> about_1000hz F v) ->
  10000 * v <= 101 * F \/ (2 <= n)%nat ->
  0 <= now (tview d) -> now (tview d) + Z.of_nat n * pass_time < 2 ^ 64 ->
  exists r d', calibrate_passes madt per_ms fuel n v d = (Ret r, d') /\ about_1000hz F r /\ 0 < r < 2 ^ 32.
Proof.
  revert v d. induction n as [|n IH]; intros v d HF Hv HvF Hgood Hle Hn Hnow.
  { exists v, d. auto. }
  destruct (pass_run n v d) as (c & d1 & Hc1 & Hc2 & Hn1 & R); [lia..|]. cbv zeta in R. rewrite R.
  destruct (next_count_step F v c) as (Hhz & Hstep); [lia..|].
  destruct Hstep as (Hnz & Hnext & Hbound & Habout); [lia|].
  set (hz := u64 (u64 (c / v) * 10)) in *. rewrite (proj2 (Z.eqb_neq _ _) Hnz).
  destruct (Z.eqb_spec (next_count v hz) v) as [Heq|Hne].
  - rewrite Heq in Hbound, Habout. exists v, d1. auto.
  - apply IH; [done|done|lia| |lia|lia|lia]. intros ->. apply Habout. lia.
Qed.

(** A timer that is too slow for the first window to see a tick. *)
Lemma passes_slow n v d :
  0 <= F -> 101 * F < 100 * v -> 0 < v < 2 ^ 32 -> 0 <= now (tview d) -> now (tview d) + pass_time < 2 ^ 64 ->
  exists d', calibrate_passes madt per_ms fuel (S n) v d = (Ret v, d').
Proof.
  intros HF Hslow Hv Hn Hnow. destruct (pass_run n v d) as (c & d1 & Hc1 & Hc2 & Hn1 & R); [lia..|].
  cbv zeta in R. rewrite R, Z.div_small by lia. by exists d1.
Qed.

(** What follows the passes: the count is written, stored and logged. *)
Lemma calibrate_rest d a r d1 :
  calibrate_passes madt per_ms fuel 6 16777216 d = (Ret r, d1) -> 0 < r < 2 ^ 32 ->
  exists d', calibrate_hz madt per_ms fuel (d, a)
    = (Ret tt, (d', mkApic (APIC_READY a) (BSP_APIC_ID a) (IOAPIC_BASE a) r)) /\ reload (tview d') = r.
Proof.
  intros R Hr. unfold calibrate_hz, bind, zoom. cbn [fst snd]. rewrite R.
  unfold lapic_write, mmio_write_m. rewrite usize_small by (pose proof lbase_ok; unfold REG_INIT_COUNT; lia).
  rewrite Hbase. pose proof (init_count_writes d1 r Hr) as Ha. set (d2 := mmio_write _ _ _) in *.
  cbn [modify fst snd]. destruct (log_run (HexLine (str "KERN") (str "APIC") (str "timer reload count: ") r []) d2)
    as (d3 & e & R3 & _ & Ht). rewrite R3. exists d3. by rewrite Ht, Ha.
Qed.
End Calibration.

(** ** Lemmas on initialisation *)

(** The search finds the first entry, or falls back to the first place. *)
Lemma id_index_spec ids id n i :
  (i + n <= length ids)%nat ->
  exists k, id_index ids id n i = Some k
    /\ ((i <= k < i + n)%nat /\ ids !! k = Some id /\ (forall j, (i <= j < k)%nat -> ids !! j <> Some id)
        \/ k = O /\ forall j, (i <= j < i + n)%nat -> ids !! j <> Some id).
Proof.
  revert i. induction n as [|n IH]; intros i Hl; cbn [id_index].
  { exists O. split; [done|]. right. split; [done|lia]. }
  destruct (lookup_lt_is_Some_2 ids i) as [x Hx]; [lia|]. rewrite Hx. destruct (Z.eqb_spec x id) as [->|Hne].
  - exists i. split; [done|]. left. split_and!; [lia|lia|done|lia].
  - assert (ids !! i <> Some id) by (rewrite Hx; congruence).
    destruct (IH (S i)) as (k & -> & Hk); [lia|]. exists k. split; [done|].
    destruct Hk as [(Hk & Hid & Hmin)|(-> & Hnone)]; [left; split_and!; [lia|lia|done|]|right; split; [done|]];
      intros j Hj; (destruct (decide (j = i)) as [->|]; [done|]); [apply Hmin|apply Hnone]; lia.
Qed.

(** Enabling the local APIC. *)
Lemma init_enable_run {D lbase iobase patience} `{XApic D lbase iobase patience} madt a d :
  lapic_base madt = lbase ->
  let id := Z.land (Z.shiftr (lreg (view d) REG_LAPIC_ID) 24) 255 in
  exists d', apic_init madt (d, a) = init_routes madt (d', mkApic (APIC_READY a) id (IOAPIC_BASE a) (TICKS_PER_MS a))
    /\ view d' = set_lreg REG_SVR (Z.lor (Z.lor (lreg (view d) REG_SVR) 256) 255) (view d).
Proof.
  intros Hb id. unfold apic_init. unfold bind at 1, zoom at 1, rdmsr_m. cbn [fst snd].
  destruct (others_quiet d) as (Hrd & _). specialize (Hrd 27). destruct (rdmsr 27 d) as [[lo hi] d1].
  cbn [snd] in Hrd. set (msr := Z.lor (Z.shiftl hi 32) lo).
  assert (exists d2, (if Z.land msr (Z.shiftl 1 11) =? 0
      then zoom (wrmsr_m 27 (Z.lor msr (Z.shiftl 1 11))) else ret tt) (d1, a) = (Ret tt, (d2, a)) /\ view d2 = view d)
    as (d2 & R2 & V2).
  { destruct (_ =? 0); [|by exists d1]. eexists. split; [done|].
    destruct (others_quiet d1) as (_ & Hwr & _). cbn [fst]. by rewrite Hwr. }
  run_with R2. destruct (lapic_read_run madt Hb REG_LAPIC_ID d2) as (d3 & R3 & V3); [by left|].
  assert (lapic_id madt d2 = (Ret id, d3)) as Rid.
  { unfold lapic_id. run_with R3. by rewrite V2. }
  run_with (zoom_run _ _ _ _ a Rid). unfold bind at 1, modify at 1. rewrite V2 in V3.
  set (a1 := mkApic (APIC_READY a) id (IOAPIC_BASE a) (TICKS_PER_MS a)).
  destruct (lapic_read_run madt Hb REG_SVR d3) as (d4 & R4 & V4); [by right|].
  run_with (zoom_run _ _ _ _ a1 R4). rewrite V3 in *.
  destruct (lapic_write_run madt Hb REG_SVR (Z.lor (Z.lor (lreg (view d) REG_SVR) 256) 255) d4) as (d5 & R5 & V5);
    [unfold plain_registers; by repeat constructor|].
  run_with (zoom_run _ _ _ _ a1 R5). rewrite V4 in V5. by exists d5.
Qed.

(** Arming the timer changes local registers only. *)
Lemma timer_run {D lbase iobase patience} `{XApic D lbase iobase patience} madt (a : Apic) d
    (k : unit -> M (D * Apic) Empty_set unit) :
  lapic_base madt = lbase ->
  exists d', (do! zoom (outb_m 33 255) in do! zoom (outb_m 161 255) in
    do! zoom (lapic_write madt REG_LVT_TIMER (Z.lor 131072 TIMER_VECTOR)) in
    do! zoom (lapic_write madt REG_DIVIDE 11) in
    do! zoom (lapic_write madt REG_INIT_COUNT 4294967295) in k tt) (d, a) = k tt (d', a)
  /\ view d' = set_lreg REG_INIT_COUNT 4294967295 (set_lreg REG_DIVIDE 11
       (set_lreg REG_LVT_TIMER (2 ^ 17 + TIMER_VECTOR) (view d))).
Proof.
  intros Hb. set (d2 := outb 161 255 (outb 33 255 d)).
  assert (view d2 = view d) as V2.
  { destruct (others_quiet d) as (_ & _ & Ho & _). destruct (others_quiet (outb 33 255 d)) as (_ & _ & Ho2 & _).
    unfold d2. by rewrite Ho2, Ho. }
  destruct (lapic_write_run madt Hb REG_LVT_TIMER (Z.lor 131072 TIMER_VECTOR) d2) as (d3 & R3 & V3);
    [unfold plain_registers; by repeat constructor|].
  destruct (lapic_write_run madt Hb REG_DIVIDE 11 d3) as (d4 & R4 & V4);
    [unfold plain_registers; by repeat constructor|].
  destruct (lapic_write_run madt Hb REG_INIT_COUNT 4294967295 d4) as (d5 & R5 & V5);
    [unfold plain_registers; by repeat constructor|].
  exists d5. split; [|by rewrite V5, V4, V3, V2].
  run_with (zoom_run (outb_m 33 255) d tt (outb 33 255 d) a eq_refl).
  run_with (zoom_run (outb_m 161 255) _ tt d2 a eq_refl).
  run_with (zoom_run _ _ _ _ a R3). run_with (zoom_run _ _ _ _ a R4). by run_with (zoom_run _ _ _ _ a R5).
Qed.

(** ** Properties *)

(** A core finds its own place in the list of processors: the first entry with
    its local APIC's number; before the APIC is set up, or when the list does
    not have it, it takes itself for the boot processor. *)
Theorem current_cpu_index_correct {D lbase iobase patience} `{XApic D lbase iobase patience} madt a d :
  lapic_base madt = lbase -> (cpu_count madt <= length (cpu_apic_ids madt))%nat ->
  let id := Z.land (Z.shiftr (lreg (view d) REG_LAPIC_ID) 24) 255 in
  let listed := take (cpu_count madt) (cpu_apic_ids madt) in
  exists k d', current_cpu_index madt a d = (Ret k, d') /\
    if APIC_READY a
    then listed !! k = Some id /\ (forall j, (j < k)%nat -> listed !! j <> Some id) \/ k = O /\ id ∉ listed
    else k = O.
Proof.
  intros Hb Hlen id listed. unfold current_cpu_index. destruct (APIC_READY a); [|by exists O, d].
  destruct (lapic_read_run madt Hb REG_LAPIC_ID d) as (d1 & R1 & _); [by left|].
  unfold lapic_id. rewrite bind_assoc. run_with R1. unfold bind, ret. fold id.
  destruct (id_index_spec (cpu_apic_ids madt) id (cpu_count madt) O Hlen) as (k & -> & Hk).
  exists k, d1. split; [done|]. destruct Hk as [(Hk & Hid & Hmin)|(-> & Hnone)].
  - left. unfold listed. rewrite lookup_take_lt by lia. split; [done|]. intros j Hj.
    rewrite lookup_take_lt by lia. apply Hmin. lia.
  - right. split; [done|]. intros [j Hj]%list_elem_of_lookup_1. unfold listed in Hj.
    apply lookup_take_Some in Hj as [Hj Hlt]. apply (Hnone j); [lia|done].
Qed.

Lemma current_cpu_index_correct_witness :
  exists d', current_cpu_index demo_madt (mkApic true 3 IOAPIC_DEFAULT_BASE 0) demo_apic = (Ret 1%nat, d').
Proof.
  destruct (current_cpu_index_correct demo_madt (mkApic true 3 IOAPIC_DEFAULT_BASE 0) demo_apic)
    as (k & d' & R & [(Hk & _)|(_ & Hno)]).
  - reflexivity.
  - apply Nat.leb_le. reflexivity.
  - exists d'. rewrite R. destruct k as [|[|k]]; [discriminate Hk|reflexivity|discriminate Hk].
  - destruct Hno. apply list_elem_of_lookup_2 with 1%nat. reflexivity.
Defined.

(** C34: After initialisation the IO-APIC lets one interrupt through, the
    keyboard's, as vector 33 to the boot processor; the local APIC is enabled
    with the spurious vector 255, its timer armed with vector 32, and no
    inter-processor interrupt has been sent. *)
Theorem apic_init_correct {D lbase iobase patience} `{XApic D lbase iobase patience} madt a d :
  lapic_base madt = lbase ->
  (if io_apic_addr madt =? 0 then IOAPIC_BASE a else io_apic_addr madt) = iobase ->
  let id := Z.land (Z.shiftr (lreg (view d) REG_LAPIC_ID) 24) 255 in
  let m := Z.land (Z.shiftr (ioreg (view d) 1) 16) 255 in
  m < 120 ->
  exists d', apic_init madt (d, a) = (Ret tt, (d', mkApic true id iobase (TICKS_PER_MS a)))
    /\ (forall i, 0 <= i <= m -> ioreg (view d') (16 + 2 * i) = (if i =? 1 then 33 else 2 ^ 16)
                             /\ ioreg (view d') (17 + 2 * i) = (if i =? 1 then 2 ^ 24 * id else 0))
    /\ lreg (view d') REG_SVR = Z.lor (Z.lor (lreg (view d) REG_SVR) 256) 255
    /\ lreg (view d') REG_LVT_TIMER = 2 ^ 17 + TIMER_VECTOR
    /\ sent (view d') = sent (view d).
Proof.
  intros Hb Hio id m Hm.
  assert (0 <= id < 256) as Hid.
  { unfold id. change 255 with (Z.ones 8). rewrite land_ones_mod by lia. apply Z.mod_pos_bound. lia. }
  destruct (init_enable_run madt a d Hb) as (d1 & -> & V1). fold id. unfold init_routes.
  set (a1 := mkApic (APIC_READY a) id iobase (TICKS_PER_MS a)).
  assert ((if negb (io_apic_addr madt =? 0)
    then modify (fun '(d, a) => (d, mkApic (APIC_READY a) (BSP_APIC_ID a) (io_apic_addr madt) (TICKS_PER_MS a)))
    else ret tt) (d1, mkApic (APIC_READY a) id (IOAPIC_BASE a) (TICKS_PER_MS a)) = (@Ret Empty_set _ tt, (d1, a1))) as R1.
  { unfold a1. rewrite <- Hio. by destruct (io_apic_addr madt =? 0). }
  run_with R1. unfold bind at 1, gets at 1. cbn [snd]. cbn [a1 IOAPIC_BASE BSP_APIC_ID].
  destruct (mask_all_run d1) as (d2 & R2 & L2 & S2 & M2); [by rewrite V1|]. rewrite V1 in L2, S2, M2. fold m in M2.
  run_with (zoom_run _ _ _ _ a1 R2).
  destruct (route_run 1 33 id d2) as (d3 & R3 & L3 & S3 & E3 & F3 & O3); [lia..|].
  run_with (zoom_run _ _ _ _ a1 R3).
  destruct (timer_run madt a1 d3 (fun _ =>
    do! zoom (log_m (HexLine (str "KERN") (str "APIC") (str "local APIC ID ") id (str " enabled"))) in
    modify (fun '(d, a) => (d, mkApic true (BSP_APIC_ID a) (IOAPIC_BASE a) (TICKS_PER_MS a)))) Hb) as (d4 & -> & V4).
  eexists. split; [reflexivity|]. rewrite (proj2 (proj2 (proj2 (others_quiet d4)))), V4.
  cbn [set_lreg ioreg sent lreg]. rewrite S3, S2, L3, L2. split_and!; [|done..].
  intros i Hi. destruct (Z.eqb_spec i 1) as [->|Hne]; [done|]. rewrite !O3 by lia. by apply M2.
Qed.

Lemma apic_init_correct_witness : exists d',
  apic_init demo_madt (demo_apic, Apic_new) = (Ret tt, (d', mkApic true 3 IOAPIC_DEFAULT_BASE 0))
  /\ ioreg (view d') 18 = 33 /\ ioreg (view d') 19 = 50331648 /\ ioreg (view d') 20 = 65536.
Proof.
  destruct (apic_init_correct demo_madt Apic_new demo_apic) as (d' & R & Hio & _).
  - reflexivity.
  - reflexivity.
  - reflexivity.
  - exists d'. split; [exact R|]. destruct (Hio 1) as [H1 H2]; [split; [discriminate|discriminate]|].
    destruct (Hio 2) as [H3 _]; [split; [discriminate|discriminate]|]. auto.
Defined.

(** An inter-processor interrupt is sent once, with its vector or its start-up
    command, to the processor it is meant for, after the one before it has
    gone; the call returns when it has gone too. *)
Theorem ipi_sent {D lbase iobase patience} `{XApic D lbase iobase patience} madt fuel id vector d :
  lapic_base madt = lbase -> (patience <= fuel)%nat -> 0 <= id < 256 -> 0 <= vector < 256 ->
  (exists d', send_ipi madt fuel id vector d = (Ret tt, d')
    /\ sent (view d') = sent (view d) ++ [(id, vector)] /\ ioreg (view d') = ioreg (view d))
  /\ (exists d', send_init madt fuel id d = (Ret tt, d') /\ sent (view d') = sent (view d) ++ [(id, 5 * 2 ^ 8)])
  /\ exists d', send_sipi madt fuel id vector d = (Ret tt, d')
    /\ sent (view d') = sent (view d) ++ [(id, 6 * 2 ^ 8 + vector)].
Proof.
  intros Hb Hf Hid Hv. split_and!.
  - destruct (send_icr_run madt Hb fuel id vector d Hf Hid) as (d' & R & S & I & _). by exists d'.
  - destruct (send_icr_run madt Hb fuel id 1280 d Hf Hid) as (d' & R & S & _). by exists d'.
  - destruct (send_icr_run madt Hb fuel id (Z.lor 1536 vector) d Hf Hid) as (d' & R & S & _). exists d'.
    split; [done|]. rewrite S. do 3 f_equal. by rewrite (lor_add 1536 vector 8).
Qed.

Lemma ipi_sent_witness : exists d',
  send_ipi demo_madt 4 3 64 demo_apic = (Ret tt, d') /\ sent (view d') = [(3, 64)].
Proof.
  destruct (ipi_sent demo_madt 4 3 64 demo_apic) as [(d' & R & S & _) _].
  - reflexivity.
  - apply Nat.leb_le. reflexivity.
  - lia.
  - lia.
  - exists d'. split; [exact R|exact S].
Defined.

(** Calibration ends, and leaves the timer with a reload count that is within
    about one per cent of a millisecond, when the timer counts at least 2^24
    and at most 2^38 in the 100 ms of a window. *)
Theorem calibrate_1000hz {D lbase w F slack} `{ApicTimer D lbase w F slack} madt per_ms fuel a d :
  lapic_base madt = lbase -> 0 <= slack /\ 200 * slack <= w ->
  0 < w /\ w = saturating_mul per_ms 100 /\ w < Z.of_nat fuel ->
  2 ^ 24 <= F <= 2 ^ 38 -> 0 <= now (tview d) -> now (tview d) + 6 * (w + 3 * slack) < 2 ^ 64 ->
  exists d' r, calibrate_hz madt per_ms fuel (d, a)
    = (Ret tt, (d', mkApic (APIC_READY a) (BSP_APIC_ID a) (IOAPIC_BASE a) r))
    /\ reload (tview d') = r /\ about_1000hz F r.
Proof.
  intros Hb Hs Hw HF Hn Hnow.
  destruct (passes_run madt per_ms fuel Hb Hs Hw 6 16777216 d) as (r & d1 & R & Hr & Hrange); [lia..|].
  destruct (calibrate_rest madt per_ms fuel Hb d a r d1 R Hrange) as (d' & Rc & Hrel). by exists d', r.
Qed.

Lemma calibrate_1000hz_witness : exists d' r,
  calibrate_hz demo_madt 1000 (Z.to_nat 100001) (demo_apic, Apic_new)
  = (Ret tt, (d', mkApic false 0 IOAPIC_DEFAULT_BASE r)) /\ reload (tview d') = r /\ 890909 <= r <= 909000.
Proof.
  destruct (calibrate_1000hz (w := SIM_W) (F := SIM_F) demo_madt 1000 (Z.to_nat 100001) Apic_new demo_apic)
    as (d' & r & R & Hrel & Hr).
  - reflexivity.
  - unfold SIM_W. lia.
  - unfold SIM_W. split; [lia|]. split; [reflexivity|lia].
  - unfold SIM_F. lia.
  - discriminate.
  - reflexivity.
  - exists d', r. split; [exact R|]. split; [exact Hrel|]. unfold about_1000hz, SIM_F in Hr. lia.
Defined.

(** A timer that counts less than about 2^24 in a window shows no tick in the
    first one, and the calibration stops there: the count of about 2^24 stays,
    and the timer ticks fewer than ten times per second. *)
Theorem calibrate_slow_timer {D lbase w F slack} `{ApicTimer D lbase w F slack} madt per_ms fuel a d :
  lapic_base madt = lbase -> 0 <= slack /\ 200 * slack <= w ->
  0 < w /\ w = saturating_mul per_ms 100 /\ w < Z.of_nat fuel ->
  0 <= F /\ 101 * F < 100 * 2 ^ 24 -> 0 <= now (tview d) -> now (tview d) + w + 3 * slack < 2 ^ 64 ->
  exists d', calibrate_hz madt per_ms fuel (d, a)
    = (Ret tt, (d', mkApic (APIC_READY a) (BSP_APIC_ID a) (IOAPIC_BASE a) 16777216))
    /\ reload (tview d') = 16777216.
Proof.
  intros Hb Hs Hw HF Hn Hnow.
  destruct (passes_slow madt per_ms fuel Hb Hs Hw 5 16777216 d) as (d1 & R); [lia..|].
  apply (calibrate_rest madt per_ms fuel Hb d a 16777216 d1 R). lia.
Qed.
