(* ===== verification/Smp.v ===== *)
(** Start-up of the other processors ([src/src/hal/smp.rs]): the per-processor
    areas with their descriptor tables, the patching of the start-up code, the
    INIT-SIPI sequence, and the doorbell interrupt. *)

From Stdlib Require Import ZArith Lia Ascii String.
From stdpp Require Import base numbers list.
From S2P Require Import Prelude Text Machine Heap Memory Acpi Idt Apic.

#[local] Open Scope Z_scope.

Definition STACK_SIZE : Z := 32768.
Definition IPI_VECTOR : Z := 64.
Definition TRAMPOLINE_BASE : Z := 32768.
Definition STATE_RUNNING : Z := 2.

(** ** Per-processor areas *)

Record PerCpu : Type := mkPerCpu {
  idt : list IdtEntry;
  gdt : list Z;
  tss : list Z;
  stack_top : Z;
  apic_id : Z;
  index : Z;
  state : Z;
  ipi_count : Z;
  ipi_flag : bool;
}.

Definition PER_CPU_INIT : PerCpu :=
  mkPerCpu (replicate 256 IdtEntry_zero) (replicate 7 0) (replicate 104 0) 0 0 0 0 0 false.

(** Field offsets and size of the [repr(C)] layout. *)
Definition OFF_GDT : Z := 4096.
Definition OFF_TSS : Z := 4152.
Definition SIZE_PER_CPU : Z := 4304.

Definition set_state (v : Z) (p : PerCpu) : PerCpu :=
  mkPerCpu (idt p) (gdt p) (tss p) (stack_top p) (apic_id p) (index p) v (ipi_count p) (ipi_flag p).
Definition set_ipi_count (n : Z) (p : PerCpu) : PerCpu :=
  mkPerCpu (idt p) (gdt p) (tss p) (stack_top p) (apic_id p) (index p) (state p) n (ipi_flag p).
Definition set_ipi_flag (b : bool) (p : PerCpu) : PerCpu :=
  mkPerCpu (idt p) (gdt p) (tss p) (stack_top p) (apic_id p) (index p) (state p) (ipi_count p) b.
Definition set_stack (top : Z) (t : list Z) (p : PerCpu) : PerCpu :=
  mkPerCpu (idt p) (gdt p) t top (apic_id p) (index p) (state p) (ipi_count p) (ipi_flag p).
Definition set_tables (id cpu : Z) (g : list Z) (i : list IdtEntry) (p : PerCpu) : PerCpu :=
  mkPerCpu i g (tss p) (stack_top p) id cpu (state p) (ipi_count p) (ipi_flag p).

(** The low half of a task-state descriptor. *)
Definition tss_desc_lo (base limit : Z) : Z :=
  let lo := 0 in
  let lo := Z.lor lo (Z.land limit 65535) in
  let lo := Z.lor lo (Z.shiftl (Z.land base 65535) 16) in
  let lo := Z.lor lo (Z.shiftl (Z.land (Z.shiftr base 16) 255) 32) in
  let lo := Z.lor lo (Z.shiftl 137 40) in
  let lo := Z.lor lo (Z.shiftl (Z.land (Z.shiftr limit 16) 15) 48) in
  Z.lor lo (Z.shiftl (Z.land (Z.shiftr base 24) 255) 56).

(** ** The start-up code *)

Definition M_CR3 : list Z := [222; 173; 190; 239].
Definition M_GDT : list Z := [202; 254; 186; 190].
Definition M_IDT : list Z := [1; 35; 69; 103].
Definition M_STACK : list Z := [137; 171; 205; 239].
Definition M_CPU : list Z := [254; 220; 186; 152].
Definition M_ENTRY : list Z := [118; 84; 50; 16].

(** [blob.windows(4)] *)
Definition windows (n : nat) (l : list Z) : list (list Z) :=
  (fun i => take n (drop i l)) <$> seq 0 (S (length l) - n).

(** The index behind the first marker; [None] is the panic of [expect]. *)
Definition find_marker (blob marker : list Z) : option nat :=
  option_map (fun i => (i + 4)%nat) (position (fun w => bool_decide (w = marker)) (windows 4 blob)).

Definition write_u16 (off : nat) (val : Z) (blob : list Z) : option (list Z) := copy_into off (le_bytes 2 val) blob.
Definition write_u64 (off : nat) (val : Z) (blob : list Z) : option (list Z) := copy_into off (le_bytes 8 val) blob.

(** What the new core needs. *)
Record ApArgs : Type := mkApArgs {
  a_cr3 : Z;
  a_gdt_base : Z;
  a_idt_base : Z;
  a_stack_top : Z;
  a_cpu : Z;
  a_entry : Z;
}.

Definition gdt_limit : Z := u16 (56 - 1).
Definition idt_limit : Z := u16 (4096 - 1).

(** The start-up code in a buffer of 4096 bytes, and its length. *)
Definition load_blob (trampoline : list Z) : list Z * nat :=
  let n := Nat.min (length trampoline) 4096 in
  (splice 0 (take n trampoline) (replicate 4096 0), n).

Definition patch (args : ApArgs) (blob : list Z) : option (list Z) :=
  o_cr3 ← find_marker blob M_CR3;
  o_gdt ← find_marker blob M_GDT;
  o_idt ← find_marker blob M_IDT;
  o_stack ← find_marker blob M_STACK;
  o_cpu ← find_marker blob M_CPU;
  o_entry ← find_marker blob M_ENTRY;
  blob ← write_u64 o_cr3 (a_cr3 args) blob;
  blob ← write_u16 o_gdt gdt_limit blob;
  blob ← write_u64 (o_gdt + 2) (a_gdt_base args) blob;
  blob ← write_u16 o_idt idt_limit blob;
  blob ← write_u64 (o_idt + 2) (a_idt_base args) blob;
  blob ← write_u64 o_stack (a_stack_top args) blob;
  blob ← write_u64 o_cpu (a_cpu args) blob;
  write_u64 o_entry (a_entry args) blob.

(** ** The shared areas

    The processors' areas are memory that all of them read and write: a
    volatile read may find what another processor has written. *)
Class SmpMachine (D : Type) := {
  smp_platform :: Platform D;
  peek : nat -> D -> PerCpu * D;
  poke : nat -> (PerCpu -> PerCpu) -> D -> D;
  read_cr3 : D -> Z;
  copy_phys : Z -> list Z -> D -> D;
}.

Section Smp.
Context {D : Type} `{SmpMachine D}.
(** [acpi::MADT], [serial::TSC_PER_MS], the bound on busy waiting; the start-up
    code that the build assembles, and the addresses of [CPU_AREA] and
    [ap_main64]. *)
Context (madt : MadtInfo) (TSC_PER_MS : Z) (fuel : nat).
Context (TRAMPOLINE : list Z) (CPU_AREA ap_main64 : Z).

(** The device and the kernel's heap. *)
Abbreviation SM := (M (D * kernel_heap) Empty_set).

Definition peek_m (cpu : nat) : SM PerCpu :=
  zoom (fun d => if (cpu <? MAX_CPUS)%nat then let '(p, d') := peek cpu d in (Ret p, d') else (Panic, d)).
Definition poke_m (cpu : nat) (f : PerCpu -> PerCpu) : SM unit :=
  zoom (fun d => if (cpu <? MAX_CPUS)%nat then (Ret tt, poke cpu f d) else (Panic, d)).
Definition smp_log (sub text : string) : SM unit := zoom (log_m (Line (str "SMP") (str sub) (str text))).
Definition smp_log_hex (sub prefix : string) (val : Z) (suffix : string) : SM unit :=
  zoom (log_m (HexLine (str "SMP") (str sub) (str prefix) val (str suffix))).

Definition alloc_m (layout : Layout) : SM Z :=
  fun '(d, kh) => let '(r, kh') := locked_alloc layout kh in (r, (d, kh')).

Definition area_base (cpu : nat) : Z := CPU_AREA + SIZE_PER_CPU * Z.of_nat cpu.

(** [isr n] is the address of the stub of vector [n]. *)
Definition setup_cpu (isr : Z -> Z) (cpu : nat) : SM unit :=
  let! id := or_panic (cpu_apic_ids madt !! cpu) in
  let tss_base := area_base cpu + OFF_TSS in
  poke_m cpu (fun p =>
    set_tables id (Z.of_nat cpu)
      [0; 58434644969848831; 58425848876826623; 9176524045418496; 160528697655296;
       tss_desc_lo tss_base 103; Z.shiftr tss_base 32]
      (build_idt_into isr (idt p)) p).

(** The wait for the new core. *)
Fixpoint wait_running (n : nat) (cpu : nat) (deadline : Z) : SM unit :=
  match n with
  | O => hang
  | S n =>
      let! p := peek_m cpu in
      if state p =? STATE_RUNNING then smp_log_hex "BOOT" "AP core " (Z.of_nat cpu) " online"
      else
        let! t := zoom rdtsc_m in
        if deadline <=? t then smp_log_hex "BOOT" "AP core " (Z.of_nat cpu) " STARTUP TIMEOUT"
        else wait_running n cpu deadline
  end.

(** INIT, 10 ms, then two start-up interrupts. *)
Definition wake_core (id : Z) : SM unit :=
  do! zoom (send_init madt fuel id) in
  do! zoom (delay_ms TSC_PER_MS fuel 10) in
  do! zoom (send_sipi madt fuel id 8) in
  do! zoom (delay_ms TSC_PER_MS fuel 1) in
  zoom (send_sipi madt fuel id 8).

Definition boot_ap (cpu : nat) : SM unit :=
  let! id := or_panic (cpu_apic_ids madt !! cpu) in
  do! smp_log_hex "BOOT" "starting AP (apic id " id ")" in
  let! stk := alloc_m (mkLayout STACK_SIZE 16) in
  if stk =? 0 then smp_log "BOOT" "stack allocation FAILED"
  else
    let top := usize (stk + STACK_SIZE) in
    do! poke_m cpu (fun p => set_stack top (splice 4 (le_bytes 8 top) (tss p)) p) in
    let '(blob, n) := load_blob TRAMPOLINE in
    let! cr3 := gets (fun st => read_cr3 st.1) in
    let args := mkApArgs cr3 (area_base cpu + OFF_GDT) (area_base cpu) top (Z.of_nat cpu) ap_main64 in
    let! blob := or_panic (patch args blob) in
    do! modify (fun '(d, kh) => (copy_phys TRAMPOLINE_BASE (take n blob) d, kh)) in
    do! wake_core id in
    let! now := zoom rdtsc_m in
    wait_running fuel cpu (u64 (now + saturating_mul TSC_PER_MS 500)).

Fixpoint each_cpu (f : nat -> SM unit) (cpus : list nat) : SM unit :=
  match cpus with
  | [] => ret tt
  | i :: cpus => do! f i in each_cpu f cpus
  end.

Definition smp_init (isr : Z -> Z) : SM unit :=
  let count := cpu_count madt in
  do! smp_log_hex "SMP " "cores detected: " (Z.of_nat count) "" in
  if (count =? 0)%nat then smp_log "SMP " "no MADT entries - SMP disabled"
  else
    do! each_cpu (setup_cpu isr) (seq 0 count) in
    do! poke_m 0 (set_state STATE_RUNNING) in
    if (count <? 2)%nat then smp_log "SMP " "single-core system"
    else
      do! each_cpu boot_ap (seq 1 (count - 1)) in
      let! p := peek_m 1 in
      if state p =? STATE_RUNNING then
        do! zoom (delay_ms TSC_PER_MS fuel 5) in
        let! id := or_panic (cpu_apic_ids madt !! 1%nat) in
        do! zoom (send_ipi madt fuel id IPI_VECTOR) in
        smp_log "IPI " "ping sent to AP core 1"
      else ret tt.

(** The doorbell's handler, on the receiving core. *)
Definition handle_ipi (a : Apic) : SM unit :=
  let! idx := zoom (current_cpu_index madt a) in
  let! p := peek_m idx in
  do! poke_m idx (set_ipi_count (usize (ipi_count p + 1))) in
  poke_m idx (set_ipi_flag true).

Definition take_ipi_flag (cpu : nat) : SM bool :=
  let! p := peek_m cpu in
  do! poke_m cpu (set_ipi_flag false) in
  ret (ipi_flag p).
End Smp.

(** ** The doorbell

    The idle loop of [ap_main64], one access per step; the interrupt may come
    between any two of them, and its handler runs without interruption. *)

Inductive pc : Type :=
| ReadFlag
| ClearFlag (v : bool)
| TestFlag (v : bool)
| Halted.

Record Doorbell : Type := mkBell {
  at_pc : pc;
  flag : bool;
  count : Z;
  logged : Z;
}.

Definition Doorbell_new : Doorbell := mkBell ReadFlag false 0 0.

Inductive event : Type := Loop | Ipi.

Definition bell_step (e : event) (b : Doorbell) : Doorbell :=
  match e with
  | Ipi => mkBell (match at_pc b with Halted => ReadFlag | p => p end) true (usize (count b + 1)) (logged b)
  | Loop =>
      match at_pc b with
      | ReadFlag => mkBell (ClearFlag (flag b)) (flag b) (count b) (logged b)
      | ClearFlag v => mkBell (TestFlag v) false (count b) (logged b)
      | TestFlag true => mkBell ReadFlag (flag b) (count b) (logged b + 1)
      | TestFlag false => mkBell Halted (flag b) (count b) (logged b)
      | Halted => b
      end
  end.

Definition bell_run (es : list event) (b : Doorbell) : Doorbell := fold_left (fun b e => bell_step e b) es b.
