(* ===== verification/SmpSpec.v ===== *)
(** Start-up of the other processors: what the patched start-up code holds,
    which interrupts are sent and that start-up ends, the task-state
    descriptor, and when the doorbell is heard. *)

From Stdlib Require Import ZArith Lia Ascii String.
From stdpp Require Import base numbers list.
From S2P Require Import Prelude Text Machine Heap HeapSpec HeapUpdate HeapCorrect Memory Acpi Idt Apic ApicSpec Smp.

#[local] Open Scope Z_scope.

(** ** Specifications *)

(** The slots of the start-up code: where each marker ends, and the bytes
    behind it. *)
Record Slots : Type := mkSlots { s_cr3 : nat; s_gdt : nat; s_idt : nat; s_stack : nat; s_cpu : nat; s_entry : nat }.

Definition slot_ranges (s : Slots) : list (nat * nat) :=
  [(s_cr3 s, 8); (s_gdt s, 2); (s_gdt s + 2, 8); (s_idt s, 2); (s_idt s + 2, 8);
   (s_stack s, 8); (s_cpu s, 8); (s_entry s, 8)]%nat.

Definition apart (a b : nat * nat) : Prop := (a.1 + a.2 <= b.1 \/ b.1 + b.2 <= a.1)%nat.

Fixpoint pairwise_apart (l : list (nat * nat)) : Prop :=
  match l with [] => True | a :: l => Forall (apart a) l /\ pairwise_apart l end.

(** Start-up code whose markers are found and whose slots do not overlap. *)
Record well_marked (blob : list Z) (s : Slots) : Prop := {
  found_cr3 : find_marker blob M_CR3 = Some (s_cr3 s);
  found_gdt : find_marker blob M_GDT = Some (s_gdt s);
  found_idt : find_marker blob M_IDT = Some (s_idt s);
  found_stack : find_marker blob M_STACK = Some (s_stack s);
  found_cpu : find_marker blob M_CPU = Some (s_cpu s);
  found_entry : find_marker blob M_ENTRY = Some (s_entry s);
  slots_apart : pairwise_apart (slot_ranges s);
  slots_inside : Forall (fun r => (r.1 + r.2 <= length blob)%nat) (slot_ranges s);
}.

(** The number in [n] bytes from [off] on. *)
Definition number_at (n off : nat) (blob : list Z) : Z := le_val (take n (drop off blob)).

(** The fields of a task-state descriptor as the processor reads them. *)
Definition desc_base (lo hi : Z) : Z :=
  Z.land (Z.shiftr lo 16) (Z.ones 24) + 2 ^ 24 * Z.land (Z.shiftr lo 56) (Z.ones 8) + 2 ^ 32 * hi.
Definition desc_limit (lo : Z) : Z := Z.land lo (Z.ones 16) + 2 ^ 16 * Z.land (Z.shiftr lo 48) (Z.ones 4).
Definition desc_type (lo : Z) : Z := Z.land (Z.shiftr lo 40) (Z.ones 8).

(** ** Lemmas on patching *)

Definition write (w : nat * list Z) (blob : list Z) : list Z := splice w.1 w.2 blob.

Lemma writes_run ws blob :
  let ranges := (fun w => (w.1, length w.2)) <$> ws in
  pairwise_apart ranges -> Forall (fun r => (r.1 + r.2 <= length blob)%nat) ranges ->
  let blob' := fold_left (fun b w => write w b) ws blob in
  length blob' = length blob
  /\ (forall w, w ∈ ws -> take (length w.2) (drop w.1 blob') = w.2)
  /\ forall i, Forall (fun r => (i < r.1 \/ r.1 + r.2 <= i)%nat) ranges -> blob' !! i = blob !! i.
Proof.
  revert blob. induction ws as [|w ws IH]; intros blob ranges Hap Hin blob'.
  { split_and!; [done|by intros w ?%elem_of_nil|done]. }
  subst ranges. cbn [fmap list_fmap pairwise_apart] in Hap, Hin |- *.
  destruct Hap as [Hw Hap]. apply Forall_cons in Hin as [Hlen Hin]. cbn [fst snd] in Hlen.
  assert (length (write w blob) = length blob) as Hl by (by apply length_splice).
  destruct (IH (write w blob) Hap) as (IHl & IHin & IHout); [by rewrite Hl|].
  change (fold_left _ ws (write w blob)) with blob' in IHl, IHin, IHout.
  split_and!; [by rewrite IHl| |].
  - intros w' [->|Hw']%elem_of_cons; [|by apply IHin].
    assert (take (length w.2) (drop w.1 blob') = take (length w.2) (drop w.1 (write w blob))) as ->;
      [|by apply slice_splice_same].
    apply list_eq. intros i. destruct (decide (i < length w.2)%nat) as [Hi|Hi].
    + rewrite !lookup_take_lt, !lookup_drop by done. apply IHout, Forall_forall. intros r Hr.
      pose proof (proj1 (Forall_forall _ _) Hw r Hr) as Ha. unfold apart in Ha. cbn [fst snd] in Ha. lia.
    + rewrite !lookup_ge_None_2; rewrite ?length_take; [done|lia..].
  - intros i [Hi Hout]%Forall_cons. rewrite IHout by done. cbn [fst snd] in Hi. by apply splice_lookup_out.
Qed.

Lemma write_copy off bs blob : (off + length bs <= length blob)%nat -> copy_into off bs blob = Some (write (off, bs) blob).
Proof. intros Hl. unfold copy_into. by rewrite decide_True. Qed.

(** The eight writes. *)
Definition patch_writes (args : ApArgs) (s : Slots) : list (nat * list Z) :=
  [(s_cr3 s, le_bytes 8 (a_cr3 args)); (s_gdt s, le_bytes 2 gdt_limit);
   (s_gdt s + 2, le_bytes 8 (a_gdt_base args))%nat; (s_idt s, le_bytes 2 idt_limit);
   (s_idt s + 2, le_bytes 8 (a_idt_base args))%nat; (s_stack s, le_bytes 8 (a_stack_top args));
   (s_cpu s, le_bytes 8 (a_cpu args)); (s_entry s, le_bytes 8 (a_entry args))].

Lemma patch_run args blob s : well_marked blob s ->
  patch args blob = Some (fold_left (fun b w => write w b) (patch_writes args s) blob).
Proof.
  intros [F1 F2 F3 F4 F5 F6 _ Hin]. unfold patch. rewrite F1, F2, F3, F4, F5, F6. cbn [mbind option_bind].
  unfold slot_ranges in Hin. repeat (apply Forall_cons in Hin as [? Hin]). cbn [fst snd] in *.
  unfold write_u64, write_u16, patch_writes. cbn [fold_left].
  do 8 (rewrite write_copy; cbn [mbind option_bind];
    [|unfold write; cbn [fst snd]; repeat rewrite length_splice; rewrite ?length_le_bytes;
      repeat rewrite length_splice; rewrite ?length_le_bytes; try lia]).
  done.
Qed.

(** ** Lemmas on the descriptor *)

Lemma lor_piece a b n : 0 <= n -> 0 <= a < 2 ^ n -> Z.lor a (Z.shiftl b n) = a + 2 ^ n * b.
Proof.
  intros Hn Ha. rewrite Z.lor_comm, Z.shiftl_mul_pow2 by done. rewrite (lor_add _ _ n); [lia|done|done|].
  apply Z.mod_mul. lia.
Qed.

Lemma land_mask x n m : 0 <= n -> m = Z.ones n -> Z.land x m = x mod 2 ^ n.
Proof. intros Hn ->. by apply land_ones_mod. Qed.

(** The descriptor's low half as a sum of its pieces. *)
Lemma tss_desc_sum base limit : 0 <= base -> 0 <= limit ->
  tss_desc_lo base limit =
    limit mod 2 ^ 16 + 2 ^ 16 * (base mod 2 ^ 16) + 2 ^ 32 * (base / 2 ^ 16 mod 2 ^ 8) + 2 ^ 40 * 137
    + 2 ^ 48 * (limit / 2 ^ 16 mod 2 ^ 4) + 2 ^ 56 * (base / 2 ^ 24 mod 2 ^ 8).
Proof.
  intros Hb Hl. unfold tss_desc_lo. rewrite Z.lor_0_l.
  rewrite (land_mask limit 16 65535), (land_mask base 16 65535) by done.
  rewrite (land_mask _ 8 255), (land_mask _ 4 15), (land_mask _ 8 255) by done.
  rewrite !Z.shiftr_div_pow2 by lia.
  pose proof (Z.mod_pos_bound limit (2 ^ 16) ltac:(lia)). pose proof (Z.mod_pos_bound base (2 ^ 16) ltac:(lia)).
  pose proof (Z.mod_pos_bound (base / 2 ^ 16) (2 ^ 8) ltac:(lia)).
  pose proof (Z.mod_pos_bound (limit / 2 ^ 16) (2 ^ 4) ltac:(lia)).
  pose proof (Z.mod_pos_bound (base / 2 ^ 24) (2 ^ 8) ltac:(lia)).
  repeat match goal with
  | |- context [Z.lor ?a (Z.shiftl ?b ?n)] =>
      lazymatch a with context [Z.lor] => fail | _ => rewrite (lor_piece a b n) by lia end
  end.
  lia.
Qed.

(** A number cut at bit [n]. *)
Lemma split_low a b n : 0 <= n -> 0 <= a < 2 ^ n -> (a + 2 ^ n * b) mod 2 ^ n = a /\ (a + 2 ^ n * b) / 2 ^ n = b.
Proof.
  intros Hn Ha. rewrite (Z.mul_comm (2 ^ n)). split.
  - rewrite Z.mod_add by lia. by apply Z.mod_small.
  - rewrite Z.div_add by lia. rewrite Z.div_small by done. lia.
Qed.

Lemma tss_fields l0 b0 b2 l2 b3 :
  0 <= l0 < 2 ^ 16 -> 0 <= b0 < 2 ^ 16 -> 0 <= b2 < 2 ^ 8 -> 0 <= l2 < 2 ^ 4 -> 0 <= b3 < 2 ^ 8 ->
  let lo := l0 + 2 ^ 16 * b0 + 2 ^ 32 * b2 + 2 ^ 40 * 137 + 2 ^ 48 * l2 + 2 ^ 56 * b3 in
  lo mod 2 ^ 16 = l0 /\ lo / 2 ^ 16 mod 2 ^ 24 = b0 + 2 ^ 16 * b2 /\ lo / 2 ^ 40 mod 2 ^ 8 = 137
  /\ lo / 2 ^ 48 mod 2 ^ 4 = l2 /\ lo / 2 ^ 56 mod 2 ^ 8 = b3.
Proof.
  intros H0 H1 H2 H3 H4 lo. split_and!.
  - replace lo with (l0 + 2 ^ 16 * (b0 + 2 ^ 16 * b2 + 2 ^ 24 * 137 + 2 ^ 32 * l2 + 2 ^ 40 * b3)) by lia.
    apply split_low; lia.
  - replace lo with (l0 + 2 ^ 16 * (b0 + 2 ^ 16 * b2 + 2 ^ 24 * (137 + 2 ^ 8 * l2 + 2 ^ 16 * b3))) by lia.
    rewrite (proj2 (split_low l0 _ 16 ltac:(lia) ltac:(lia))). apply split_low; lia.
  - replace lo with (l0 + 2 ^ 16 * b0 + 2 ^ 32 * b2 + 2 ^ 40 * (137 + 2 ^ 8 * (l2 + 2 ^ 8 * b3))) by lia.
    rewrite (proj2 (split_low (l0 + 2 ^ 16 * b0 + 2 ^ 32 * b2) _ 40 ltac:(lia) ltac:(lia))). apply split_low; lia.
  - replace lo with (l0 + 2 ^ 16 * b0 + 2 ^ 32 * b2 + 2 ^ 40 * 137 + 2 ^ 48 * (l2 + 2 ^ 4 * (2 ^ 4 * b3))) by lia.
    rewrite (proj2 (split_low (l0 + 2 ^ 16 * b0 + 2 ^ 32 * b2 + 2 ^ 40 * 137) _ 48 ltac:(lia) ltac:(lia))).
    apply split_low; lia.
  - replace lo with (l0 + 2 ^ 16 * b0 + 2 ^ 32 * b2 + 2 ^ 40 * 137 + 2 ^ 48 * l2 + 2 ^ 56 * b3) by lia.
    rewrite (proj2 (split_low (l0 + 2 ^ 16 * b0 + 2 ^ 32 * b2 + 2 ^ 40 * 137 + 2 ^ 48 * l2) _ 56 ltac:(lia) ltac:(lia))).
    apply Z.mod_small. lia.
Qed.

(** ** Lemmas on the doorbell *)

(** Rings that the loop may still log: the one read and the one in the flag,
    unless the loop is about to clear it. *)
Definition pending (b : Doorbell) : Z :=
  match at_pc b with
  | ReadFlag | Halted => Z.b2z (flag b)
  | ClearFlag v => Z.b2z v
  | TestFlag v => Z.b2z v + Z.b2z (flag b)
  end.

Lemma bell_bound es b : 0 <= logged b -> logged b + pending b <= count b ->
  count b + Z.of_nat (length es) < 2 ^ 64 ->
  0 <= logged (bell_run es b) /\ logged (bell_run es b) + pending (bell_run es b) <= count (bell_run es b).
Proof.
  revert b. induction es as [|e es IH]; intros b H0 Hb Hc; [done|]. cbn [length] in Hc.
  unfold bell_run. cbn [fold_left]. destruct b as [p f c l]. unfold pending in *. cbn [at_pc flag count logged] in *.
  assert (0 <= c) by (destruct p as [|[]|[]|], f; cbn in Hb; lia).
  apply (IH (bell_step e _)); destruct e, p as [|[]|[]|], f; cbn [bell_step at_pc flag count logged Z.b2z pending] in *;
    rewrite ?usize_small by lia; lia.
Qed.

(** ** The machine under start-up

    A machine that keeps the promises of [XApic] and [ApicTimer], and whose
    other accesses leave the controllers alone and take no longer than
    [slack]. *)

Definition quick {D} `{ApicTimer D lbase w F slack} (d d' : D) : Prop :=
  now (tview d) <= now (tview d') <= now (tview d) + slack.

Class SmpLaws (D : Type) `{SmpMachine D} (lbase iobase : Z) (patience : nat) (w F slack : Z) := {
  smp_xapic :: XApic D lbase iobase patience;
  smp_timer :: ApicTimer D lbase w F slack;
  slack_pos : 0 <= slack;
  rdtsc_view (d : D) : view (rdtsc d).2 = view d;
  icr_quick (d : D) v : quick d (mmio_read (lbase + REG_ICR_LO) d).2
    /\ quick d (mmio_write (lbase + REG_ICR_LO) v d) /\ quick d (mmio_write (lbase + REG_ICR_HI) v d);
  peek_quick i (d : D) : quick d (peek i d).2 /\ view (peek i d).2 = view d;
  poke_quick i f (d : D) : quick d (poke i f d) /\ view (poke i f d) = view d;
  copy_quick a l (d : D) : quick d (copy_phys a l d) /\ view (copy_phys a l d) = view d;
}.

(** The kernel's heap is in order. *)
Definition kheap_ok (kh : kernel_heap) : Prop :=
  exists L, heap_rep (kh_core kh) L.

Section Boot.
Context {D : Type} {lbase iobase w F slack : Z} {patience : nat} `{SmpLaws D lbase iobase patience w F slack}.

Abbreviation SM := (M (D * kernel_heap) Empty_set).

(** From the heap [kh], [m] returns within [cost] cycles with [a], leaves the
    heap [kh'] and sends the interrupts [l], such that [Q a kh' l]. *)
Definition sends {A} (kh : kernel_heap) (m : SM A) (cost : Z) (Q : A -> kernel_heap -> list (Z * Z) -> Prop) : Prop :=
  forall d, 0 <= now (tview d) -> now (tview d) + cost < 2 ^ 64 ->
  exists a d' kh' l, m (d, kh) = (Ret a, (d', kh'))
    /\ now (tview d) <= now (tview d') <= now (tview d) + cost
    /\ sent (view d') = sent (view d) ++ l /\ Q a kh' l.

(** The heap is left alone, nothing is sent, and the result satisfies [P]. *)
Definition quietly {A} (kh : kernel_heap) (P : A -> Prop) (a : A) (kh' : kernel_heap) (l : list (Z * Z)) : Prop :=
  kh' = kh /\ l = [] /\ P a.

Definition any {A} (_ : A) : Prop := True.

Lemma sends_ret {A} kh (a : A) (Q : A -> kernel_heap -> list (Z * Z) -> Prop) : Q a kh [] -> sends kh (ret a) 0 Q.
Proof.
  intros HQ d Hn Hc. exists a, d, kh, []. rewrite app_nil_r. split_and!; [done|lia|lia|done|done].
Qed.

Lemma sends_bind {A B} kh (m : SM A) (k : A -> SM B) c1 c2 Q1 Q :
  0 <= c2 -> sends kh m c1 Q1 ->
  (forall a kh1 l, Q1 a kh1 l -> sends kh1 (k a) c2 (fun b kh2 l' => Q b kh2 (l ++ l'))) ->
  sends kh (bind m k) (c1 + c2) Q.
Proof.
  intros Hc2 Hm Hk d Hn Hc. destruct (Hm d Hn) as (a & d1 & kh1 & l1 & R1 & T1 & S1 & HQ1); [lia|].
  destruct (Hk a kh1 l1 HQ1 d1) as (b & d2 & kh2 & l2 & R2 & T2 & S2 & HQ2); [lia|lia|].
  exists b, d2, kh2, (l1 ++ l2). run_with R1. split_and!; [done|lia|lia| |done].
  by rewrite S2, S1, app_assoc.
Qed.

Lemma sends_weaken {A} kh (m : SM A) c1 c2 (Q1 Q2 : A -> kernel_heap -> list (Z * Z) -> Prop) :
  c1 <= c2 -> sends kh m c1 Q1 -> (forall a kh' l, Q1 a kh' l -> Q2 a kh' l) -> sends kh m c2 Q2.
Proof.
  intros Hc Hm HQ d Hn Hb. destruct (Hm d Hn) as (a & d1 & kh1 & l & R & T & S & HQ1); [lia|].
  exists a, d1, kh1, l. split_and!; [done|lia|lia|done|auto].
Qed.

(** A device operation that sends nothing. *)
Lemma sends_zoom {A} kh (m : M D Empty_set A) cost (P : A -> Prop) :
  (forall d, 0 <= now (tview d) -> now (tview d) + cost < 2 ^ 64 ->
     exists a d', m d = (Ret a, d') /\ now (tview d) <= now (tview d') <= now (tview d) + cost
       /\ view d' = view d /\ P a) ->
  sends kh (zoom m) cost (quietly kh P).
Proof.
  intros Hm d Hn Hc. destruct (Hm d Hn Hc) as (a & d' & R & T & V & HP).
  exists a, d', kh, []. rewrite (zoom_run _ _ _ _ kh R), V, app_nil_r. destruct T. by split_and!.
Qed.

Lemma sends_log kh l : sends kh (zoom (log_m l)) slack (quietly kh any).
Proof.
  apply sends_zoom. intros d Hn Hc. unfold log_m. destruct (log_time d l) as (e & He & Ht).
  exists tt, (log_line l d). rewrite Ht, (proj2 (proj2 (proj2 (others_quiet d)))). cbn [advance now].
  by split_and!; [|lia..| |].
Qed.

Lemma sends_rdtsc kh : sends kh (zoom rdtsc_m) slack (quietly kh any).
Proof.
  apply sends_zoom. intros d Hn Hc. unfold rdtsc_m. destruct (rdtsc_time d) as (Hv & e & He & Ht).
  pose proof (rdtsc_view d) as Hview. destruct (rdtsc d) as [t d']. cbn [snd] in *. exists t, d'.
  rewrite Ht. cbn [advance now]. by split_and!; [|lia..| |].
Qed.

Lemma sends_peek kh i : (i < MAX_CPUS)%nat ->
  sends kh (peek_m i) slack (quietly kh (fun p => exists d, p = (peek i d).1)).
Proof.
  intros Hi. apply sends_zoom. intros d Hn Hc. rewrite (proj2 (Nat.ltb_lt _ _) Hi).
  destruct (peek_quick i d) as [Hq Hv]. destruct (peek i d) as [p d'] eqn:Hp. exists p, d'. unfold quick in Hq. cbn [fst snd] in *.
  split_and!; [done|lia|lia|done|]. exists d. by rewrite Hp.
Qed.

Lemma sends_poke kh i f : (i < MAX_CPUS)%nat -> sends kh (poke_m i f) slack (quietly kh any).
Proof.
  intros Hi. apply sends_zoom. intros d Hn Hc. rewrite (proj2 (Nat.ltb_lt _ _) Hi).
  destruct (poke_quick i f d) as [Hq Hv]. exists tt, (poke i f d). unfold quick in Hq. cbn [fst snd] in *. by split_and!; [|lia..| |].
Qed.

Lemma sends_or_panic {A} kh (o : option A) a : o = Some a -> sends kh (or_panic o) 0 (quietly kh (fun b => b = a)).
Proof. intros ->. by apply sends_ret. Qed.

(** Sequencing after an operation that sends nothing. *)
Lemma sends_then {A B} kh (m : SM A) (k : A -> SM B) c1 c2 (P : A -> Prop) Q :
  0 <= c2 -> sends kh m c1 (quietly kh P) -> (forall a, P a -> sends kh (k a) c2 Q) ->
  sends kh (bind m k) (c1 + c2) Q.
Proof. intros Hc Hm Hk. eapply sends_bind; [done|exact Hm|]. intros a kh1 l (-> & -> & HP). cbn. auto. Qed.

(** Ending with an operation that sends nothing. *)
Lemma sends_quiet {A} kh (m : SM A) c1 c2 (P : A -> Prop) (Q : A -> kernel_heap -> list (Z * Z) -> Prop) :
  c1 <= c2 -> sends kh m c1 (quietly kh P) -> (forall a, P a -> Q a kh []) -> sends kh m c2 Q.
Proof. intros Hc Hm HQ. eapply sends_weaken; [exact Hc|exact Hm|]. intros a kh' l (-> & -> & HP). auto. Qed.

Context (madt : MadtInfo) (per_ms : Z) (fuel : nat).
Hypothesis Hbase : lapic_base madt = lbase.
Hypothesis Hpatience : (patience <= fuel)%nat.
Hypothesis Hper : 0 <= per_ms /\ saturating_mul per_ms 500 < Z.of_nat fuel.

Definition icr_cost : Z := 2 * (Z.of_nat patience + 1) * slack.

Lemma wait_icr_timed n (d : D) : (busy d < n)%nat -> exists d', wait_icr_idle madt n d = (Ret tt, d')
  /\ now (tview d) <= now (tview d') <= now (tview d) + (Z.of_nat (busy d) + 1) * slack.
Proof.
  revert d. induction n as [|n IH]; intros d Hn; [lia|]. cbn [wait_icr_idle].
  unfold bind, lapic_read, mmio_read_m. rewrite (reg_addr madt Hbase) by (unfold REG_ICR_LO; lia).
  destruct (icr_reads d) as (Hd & Hb & Hp). destruct (icr_quick d 0) as (Hq & _).
  destruct (mmio_read (lbase + REG_ICR_LO) d) as [v d']. unfold quick in Hq.
  cbn [fst snd] in *. rewrite (icr_bit _ _ Hb), negb_involutive.
  destruct (Nat.eqb_spec (busy d) 0) as [Hz|Hnz].
  - exists d'. split; [done|]. nia.
  - destruct (IH d') as (d2 & R & Ht); [lia|]. exists d2. split; [done|].
    replace (Z.of_nat (busy d) + 1) with (Z.of_nat (busy d') + 1 + 1) by lia. lia.
Qed.

Lemma busy_cost (d : D) : (Z.of_nat (busy d) + 1) * slack <= Z.of_nat patience * slack.
Proof. pose proof (busy_bound d). pose proof slack_pos. apply Z.mul_le_mono_nonneg_r; lia. Qed.

Lemma sends_icr kh id low : 0 <= id < 256 ->
  sends kh (zoom (send_icr madt fuel id low)) icr_cost (fun _ kh' l => kh' = kh /\ l = [(id, low)]).
Proof.
  intros Hid d Hn Hc. destruct (send_icr_run madt Hbase fuel id low d Hpatience Hid) as (d' & R & S & _).
  exists tt, d', kh, [(id, low)]. rewrite (zoom_run _ _ _ _ kh R). split_and!; [done| | |done|done|done];
  (unfold send_icr in R;
   destruct (wait_icr_timed fuel d) as (d1 & R1 & T1); [pose proof (busy_bound d); lia|];
   rewrite (bind_ret _ _ _ _ _ R1) in R; unfold bind, lapic_write, mmio_write_m in R;
   rewrite !(reg_addr madt Hbase) in R by (unfold REG_ICR_LO, REG_ICR_HI; lia);
   set (d2 := mmio_write (lbase + REG_ICR_HI) _ d1) in R;
   set (d3 := mmio_write (lbase + REG_ICR_LO) low d2) in R;
   destruct (wait_icr_timed fuel d3) as (d4 & R4 & T4); [pose proof (busy_bound d3); lia|];
   assert (d' = d4) as -> by congruence;
   destruct (icr_quick d1 (u32 (Z.shiftl id 24))) as (_ & _ & Q2); fold d2 in Q2;
   destruct (icr_quick d2 low) as (_ & Q3 & _); fold d3 in Q3;
   pose proof (busy_cost d); pose proof (busy_cost d3); unfold quick in *; unfold icr_cost; lia).
Qed.

Lemma span_mono a b : 0 <= a <= b -> 0 <= saturating_mul per_ms a <= saturating_mul per_ms b.
Proof. intros Hab. unfold saturating_mul, u64_max. nia. Qed.

Lemma wait_tsc_view n target (d d' : D) : wait_tsc n target d = (Ret tt, d') -> view d' = view d.
Proof.
  revert d. induction n as [|n IH]; intros d R; [done|]. cbn [wait_tsc] in R. unfold bind, rdtsc_m in R.
  pose proof (rdtsc_view d) as Hv. destruct (rdtsc d) as [t d1]. cbn [snd] in Hv.
  destruct (t <? target); [by rewrite (IH d1 R)|]. unfold ret in R. by simplify_eq.
Qed.

Lemma sends_delay kh ms : 0 <= ms <= 500 ->
  sends kh (zoom (delay_ms per_ms fuel ms)) (saturating_mul per_ms ms + 2 * slack) (quietly kh any).
Proof.
  intros Hms. apply sends_zoom. intros d Hn Hc. pose proof slack_pos as Hs. pose proof (span_mono ms 500 Hms) as Hsp.
  destruct (udelay_run per_ms fuel ms d) as (d' & e & R & Ht & He); [lia..|].
  exists tt, d'. rewrite Ht. cbn [advance now]. split_and!; [done|lia|lia| |done].
  unfold delay_ms, bind, rdtsc_m in R. pose proof (rdtsc_view d) as Hv. destruct (rdtsc d) as [t d1].
  by rewrite (wait_tsc_view _ _ _ _ R).
Qed.

(** Allocating is the allocator's operation on the heap. *)
Lemma sends_alloc kh layout : kheap_ok kh ->
  0 <= l_size layout -> l_size layout + 32 < 2 ^ 64 -> l_align layout <= 16 ->
  sends kh (alloc_m layout) 0 (fun p kh' l => l = [] /\ locked_alloc layout kh = (Ret p, kh') /\ kheap_ok kh').
Proof.
  destruct kh as [[h m] kl]. intros [L HL] H1 H2 H3 d Hn Hc. cbn [kh_core] in HL. destruct layout as [sz al]. cbn [l_size l_align] in *.
  assert (exists p st', alloc (mkLayout sz al) (h, m) = (Ret p, st') /\ exists L', heap_rep st' L')
    as (p & st' & R & L' & HL').
  { assert (sane_request sz al) as Hreq by (by split_and!).
    destruct (alloc_request _ _ _ _ _ HL Hreq) as [(i & l & b & r & Hfit)|Hnull].
    - destruct (alloc_live _ _ _ _ al _ _ _ _ HL H1 H2 H3 Hfit) as (m' & L' & p & k & Hrun & Hrep' & _).
      eexists p, _. split; [exact Hrun|]. by exists L'.
    - eexists 0, _. split; [exact Hnull|]. exists L. by destruct HL; constructor. }
  unfold alloc_m, locked_alloc. cbn [kh_core kh_log]. rewrite R. destruct (_ =? _);
    (eexists p, d, _, []; rewrite app_nil_r; split_and!; [reflexivity|lia|lia|done|done|reflexivity|by exists L']).
Qed.

Lemma smp_log_hex_run sub pre v suf (d : D) (kh : kernel_heap) : exists d',
  smp_log_hex sub pre v suf (d, kh) = (Ret tt, (d', kh)) /\ view d' = view d
  /\ now (tview d) <= now (tview d') <= now (tview d) + slack.
Proof.
  unfold smp_log_hex, zoom, log_m. cbn [fst snd].
  set (l := HexLine _ _ _ _ _). destruct (log_time d l) as (e & He & Ht). exists (log_line l d).
  rewrite Ht, (proj2 (proj2 (proj2 (others_quiet d)))). cbn [advance now]. split_and!; [done|done|lia|lia].
Qed.

(** The wait for the new core ends with its sign of life or at the deadline. *)
Lemma wait_running_run n cpu deadline (d : D) kh :
  (cpu < MAX_CPUS)%nat -> now (tview d) <= deadline + slack ->
  Z.max 0 (deadline - now (tview d)) < Z.of_nat n ->
  exists d', wait_running n cpu deadline (d, kh) = (Ret tt, (d', kh)) /\ view d' = view d
    /\ now (tview d) <= now (tview d') <= deadline + 4 * slack.
Proof.
  intros Hcpu. pose proof slack_pos. revert d. induction n as [|n IH]; intros d Hle Hn; [lia|]. cbn [wait_running].
  unfold peek_m at 1, bind at 1, zoom at 1. cbn [fst snd]. rewrite (proj2 (Nat.ltb_lt _ _) Hcpu).
  destruct (peek_quick cpu d) as [Q1 V1]. destruct (peek cpu d) as [q d1]. cbn [fst snd] in *. unfold quick in Q1.
  destruct (state q =? STATE_RUNNING).
  - destruct (smp_log_hex_run "BOOT" "AP core " (Z.of_nat cpu) " online" d1 kh) as (d2 & R & V2 & T).
    exists d2. rewrite V2, V1. split_and!; [done|done|lia|lia].
  - unfold bind at 1, zoom at 1, rdtsc_m at 1. cbn [fst snd]. pose proof (rdtsc_view d1) as V2.
    destruct (rdtsc_time d1) as (Hv & e & He & Ht). destruct (rdtsc d1) as [t d2]. cbn [fst snd] in *. subst t.
    destruct (Z.leb_spec deadline (now (tview d1))).
    + destruct (smp_log_hex_run "BOOT" "AP core " (Z.of_nat cpu) " STARTUP TIMEOUT" d2 kh) as (d3 & R & V3 & T).
      rewrite Ht in T. cbn [advance now] in T. exists d3. rewrite V3, V2, V1. split_and!; [done|done|lia|lia].
    + destruct (IH d2) as (d3 & R & V3 & T); rewrite Ht in *; cbn [advance now] in *; [lia..|].
      exists d3. rewrite V3, V2, V1. split_and!; [done|done|lia|lia].
Qed.

Definition wait_cost : Z := saturating_mul per_ms 500 + 5 * slack.

Lemma sends_wait kh cpu : (cpu < MAX_CPUS)%nat ->
  sends kh (let! t := zoom rdtsc_m in wait_running fuel cpu (u64 (t + saturating_mul per_ms 500))) wait_cost
    (quietly kh any).
Proof.
  intros Hcpu d Hn Hc. unfold wait_cost in *. pose proof slack_pos. pose proof (span_mono 500 500 ltac:(lia)).
  unfold bind at 1, zoom at 1, rdtsc_m at 1. cbn [fst snd]. pose proof (rdtsc_view d) as V2.
  destruct (rdtsc_time d) as (Hv & e & He & Ht). destruct (rdtsc d) as [t d2]. cbn [fst snd] in *. subst t.
  rewrite u64_small by lia.
  destruct (wait_running_run fuel cpu (now (tview d) + saturating_mul per_ms 500) d2 kh Hcpu) as (d3 & R & V3 & T);
    rewrite Ht in *; cbn [advance now] in *; [lia..|].
  exists tt, d3, kh, []. rewrite V3, V2, app_nil_r. split_and!; [done|lia|lia|done|done].
Qed.

(** The interrupts that wake a core. *)
Definition wake_ipis (id : Z) : list (Z * Z) := [(id, 5 * 2 ^ 8); (id, 6 * 2 ^ 8 + 8); (id, 6 * 2 ^ 8 + 8)].

Definition wake_cost : Z :=
  icr_cost + (saturating_mul per_ms 10 + 2 * slack + (icr_cost + (saturating_mul per_ms 1 + 2 * slack + icr_cost))).

Lemma icr_cost_pos : 0 <= icr_cost.
Proof. unfold icr_cost. pose proof slack_pos. nia. Qed.

Lemma sends_wake kh id : 0 <= id < 256 ->
  sends kh (wake_core madt per_ms fuel id) wake_cost (fun _ kh' l => kh' = kh /\ l = wake_ipis id).
Proof.
  intros Hid. pose proof slack_pos. pose proof icr_cost_pos.
  pose proof (span_mono 10 500 ltac:(lia)). pose proof (span_mono 1 500 ltac:(lia)).
  unfold wake_core, wake_cost, send_init, send_sipi.
  eapply sends_bind; [lia|by apply sends_icr|]. intros _ kh1 l1 [-> ->].
  eapply sends_then; [lia|apply sends_delay; lia|]. intros _ _.
  eapply sends_bind; [lia|by apply sends_icr|]. intros _ kh2 l2 [-> ->].
  eapply sends_then; [lia|apply sends_delay; lia|]. intros _ _.
  eapply sends_weaken; [reflexivity|by apply sends_icr|]. by intros _ kh3 l [-> ->].
Qed.

Lemma sends_gets {A} kh (f : D * kernel_heap -> A) : sends kh (gets f) 0 (quietly kh any).
Proof. intros d Hn Hc. exists (f (d, kh)), d, kh, []. rewrite app_nil_r. split_and!; [done|lia|lia|done..]. Qed.

Lemma sends_copy kh a (b : list Z) :
  sends kh (modify (fun '(d, kh) => (copy_phys a b d, kh))) slack (quietly kh any).
Proof.
  intros d Hn Hc. destruct (copy_quick a b d) as [Hq Hv]. unfold quick in Hq.
  exists tt, (copy_phys a b d), kh, []. rewrite Hv, app_nil_r. split_and!; [done|lia|lia|done..].
Qed.

Context (TRAMPOLINE : list Z) (CPU_AREA ap_main64 : Z) (slots : Slots).
Hypothesis Hmarked : well_marked (load_blob TRAMPOLINE).1 slots.
Hypothesis Hids : length (cpu_apic_ids madt) = MAX_CPUS /\ Forall (fun id => 0 <= id < 256) (cpu_apic_ids madt).

Definition boot_cost : Z := slack + (0 + (slack + (0 + (0 + (slack + (wake_cost + wait_cost)))))).

Definition id_of (i : nat) : Z := default 0 (cpu_apic_ids madt !! i).

Lemma id_lookup i : (i < MAX_CPUS)%nat -> cpu_apic_ids madt !! i = Some (id_of i) /\ 0 <= id_of i < 256.
Proof.
  intros Hi. destruct Hids as [Hl Hr]. destruct (lookup_lt_is_Some_2 (cpu_apic_ids madt) i) as [x Hx]; [lia|].
  unfold id_of. rewrite Hx. split; [done|]. by apply (proj1 (Forall_lookup _ _) Hr i).
Qed.

Lemma costs_pos : 0 <= slack /\ 0 <= wake_cost /\ 0 <= wait_cost.
Proof.
  pose proof slack_pos. pose proof icr_cost_pos. unfold wake_cost, wait_cost.
  pose proof (span_mono 10 500 ltac:(lia)). pose proof (span_mono 1 500 ltac:(lia)). lia.
Qed.

(** What waking the processors [cpus] sends and leaves of the heap: a stack is
    allocated for each in turn, and one whose stack is null is sent nothing. *)
Fixpoint wake_all (cpus : list nat) (kh : kernel_heap) : option (list (Z * Z) * kernel_heap) :=
  match cpus with
  | [] => Some ([], kh)
  | i :: cpus =>
      match locked_alloc (mkLayout STACK_SIZE 16) kh with
      | (Ret stk, kh1) =>
          '(l, kh2) ← wake_all cpus kh1;
          Some ((if stk =? 0 then [] else wake_ipis (id_of i)) ++ l, kh2)
      | _ => None
      end
  end.

(** A core is woken unless there is no memory for its stack. *)
Lemma sends_boot kh i : kheap_ok kh -> (i < MAX_CPUS)%nat ->
  sends kh (boot_ap madt per_ms fuel TRAMPOLINE CPU_AREA ap_main64 i) boot_cost
    (fun _ kh' l => exists stk, locked_alloc (mkLayout STACK_SIZE 16) kh = (Ret stk, kh') /\ kheap_ok kh'
       /\ l = if stk =? 0 then [] else wake_ipis (id_of i)).
Proof.
  intros Hk Hi. pose proof costs_pos. destruct (id_lookup i Hi) as [Hid Hrange]. unfold boot_ap, boot_cost.
  rewrite Hid. change (or_panic (Some (id_of i))) with (@ret (D * kernel_heap) Empty_set _ (id_of i)).
  change (bind (ret (id_of i)) ?k) with (k (id_of i)). unfold smp_log_hex at 1.
  eapply sends_then; [lia|apply sends_log|]. intros _ _.
  eapply sends_bind; [lia|apply sends_alloc; [done|cbn [l_size l_align]; unfold STACK_SIZE; lia..]|].
  intros stk kh1 l (-> & Hstk & Hk1).
  destruct (stk =? 0) eqn:Hnull.
  { eapply sends_quiet; [|apply sends_log|]; [lia|]. intros _ _. exists stk. by rewrite Hnull. }
  eapply sends_then; [lia|by apply sends_poke|]. intros _ _.
  destruct (load_blob TRAMPOLINE) as [blob n] eqn:Hblob. cbn [fst] in Hmarked.
  eapply sends_then; [lia|apply sends_gets|]. intros cr3 _.
  eapply sends_then; [lia|by eapply sends_or_panic, patch_run|]. intros blob' _.
  eapply sends_then; [lia|apply sends_copy|]. intros _ _.
  eapply sends_bind; [lia|by apply sends_wake|]. intros _ kh2 l [-> ->].
  eapply sends_quiet; [reflexivity|by apply sends_wait|]. intros _ _. exists stk. by rewrite Hnull, app_nil_r.
Qed.

Lemma sends_boots kh cpus : kheap_ok kh -> (forall i, i ∈ cpus -> (i < MAX_CPUS)%nat) ->
  sends kh (each_cpu (boot_ap madt per_ms fuel TRAMPOLINE CPU_AREA ap_main64) cpus) (Z.of_nat (length cpus) * boot_cost)
    (fun _ kh' l => wake_all cpus kh = Some (l, kh') /\ kheap_ok kh').
Proof.
  assert (0 <= boot_cost) by (pose proof costs_pos; unfold boot_cost; lia).
  revert kh. induction cpus as [|i cpus IH]; intros kh Hk His; cbn [each_cpu length wake_all].
  { by apply sends_ret. }
  replace (Z.of_nat (S (length cpus)) * boot_cost) with (boot_cost + Z.of_nat (length cpus) * boot_cost) by lia.
  eapply sends_bind; [nia|apply sends_boot; [done|apply His; by left]|]. intros u kh1 l (stk & Hstk & Hk1 & ->).
  eapply sends_weaken; [reflexivity|apply IH; [done|intros j Hj; apply His; by right]|].
  intros u' kh2 l' [Hl Hk2]. split; [|done]. by rewrite Hstk, Hl.
Qed.

Lemma sends_setups isr kh cpus : (forall i, i ∈ cpus -> (i < MAX_CPUS)%nat) ->
  sends kh (each_cpu (setup_cpu madt CPU_AREA isr) cpus) (Z.of_nat (length cpus) * slack) (quietly kh any).
Proof.
  pose proof slack_pos. intros His. induction cpus as [|i cpus IH]; cbn [each_cpu length].
  { by apply sends_ret. }
  replace (Z.of_nat (S (length cpus)) * slack) with (slack + Z.of_nat (length cpus) * slack) by lia.
  eapply sends_then; [nia| |intros _ _; apply IH; intros j Hj; apply His; by right].
  assert (i < MAX_CPUS)%nat as Hi by (apply His; by left). destruct (id_lookup i Hi) as [Hid _]. unfold setup_cpu. rewrite Hid.
  change (or_panic (Some (id_of i))) with (@ret (D * kernel_heap) Empty_set _ (id_of i)).
  change (bind (ret (id_of i)) ?k) with (k (id_of i)). by apply sends_poke.
Qed.

Definition smp_cost : Z :=
  let n := Z.of_nat (cpu_count madt) in
  slack + (n * slack + (slack + (n * boot_cost + (slack + (saturating_mul per_ms 5 + 2 * slack + (icr_cost + slack)))))).

(** What start-up sends, from the heap [kh], and the heap afterwards: the
    wake-ups of all processors but the first, and then, when the area of the
    second says that it runs, the doorbell's interrupt to it. *)
Definition startup_ipis (kh : kernel_heap) (l : list (Z * Z)) (kh' : kernel_heap) : Prop :=
  exists wakes, wake_all (seq 1 (cpu_count madt - 1)) kh = Some (wakes, kh')
    /\ if (cpu_count madt <? 2)%nat then l = wakes
       else exists d : D, l = wakes ++ if state (peek 1 d).1 =? STATE_RUNNING then [(id_of 1, IPI_VECTOR)] else [].

Lemma sends_ping kh : sends kh (let! p := peek_m 1 in
    if state p =? STATE_RUNNING then
      do! zoom (delay_ms per_ms fuel 5) in
      let! id := or_panic (cpu_apic_ids madt !! 1%nat) in
      do! zoom (send_ipi madt fuel id IPI_VECTOR) in
      smp_log "IPI " "ping sent to AP core 1"
    else ret tt) (slack + (saturating_mul per_ms 5 + 2 * slack + (icr_cost + slack)))
  (fun _ kh' l => kh' = kh /\ exists d : D, l = if state (peek 1 d).1 =? STATE_RUNNING then [(id_of 1, IPI_VECTOR)] else []).
Proof.
  pose proof costs_pos. pose proof icr_cost_pos. pose proof (span_mono 5 500 ltac:(lia)).
  destruct (id_lookup 1) as [Hid Hrange]; [unfold MAX_CPUS; lia|].
  eapply sends_then; [lia|apply sends_peek; unfold MAX_CPUS; lia|]. intros q [d0 ->]. destruct (_ =? _) eqn:Hrun.
  - eapply sends_then; [lia|apply sends_delay; lia|]. intros _ _. rewrite Hid.
    change (or_panic (Some (id_of 1))) with (@ret (D * kernel_heap) Empty_set _ (id_of 1)).
    change (bind (ret (id_of 1)) ?k) with (k (id_of 1)).
    eapply sends_bind; [lia|by apply sends_icr|]. intros _ kh1 l [-> ->].
    eapply sends_quiet; [reflexivity|apply sends_log|]. intros _ _. split; [done|]. exists d0. by rewrite Hrun.
  - eapply sends_quiet; [|apply (sends_ret kh tt (quietly kh any)); done|]; [lia|]. intros _ _.
    split; [done|]. exists d0. by rewrite Hrun.
Qed.

Lemma sends_init kh isr : kheap_ok kh -> (cpu_count madt <= MAX_CPUS)%nat ->
  sends kh (smp_init madt per_ms fuel TRAMPOLINE CPU_AREA ap_main64 isr) smp_cost
    (fun _ kh' l => startup_ipis kh l kh' /\ kheap_ok kh').
Proof.
  intros Hk Hcount. pose proof costs_pos. pose proof icr_cost_pos. pose proof (span_mono 5 500 ltac:(lia)).
  assert (0 <= boot_cost) by (unfold boot_cost; lia). unfold smp_init, smp_cost.
  assert (0 <= Z.of_nat (cpu_count madt) * boot_cost) by nia.
  assert (0 <= Z.of_nat (cpu_count madt) * slack) by nia.
  eapply sends_then; [lia|apply sends_log|]. intros _ _.
  destruct (Nat.eqb_spec (cpu_count madt) 0) as [Hz|Hnz].
  { eapply sends_quiet; [|apply sends_log|]; [lia|]. intros _ _. split; [|done].
    unfold startup_ipis. rewrite Hz. by exists []. }
  eapply (sends_then _ _ _ _ _ any); [lia| |].
  { eapply sends_weaken; [|apply sends_setups|done]; [by rewrite length_seq|].
    intros i Hi%elem_of_seq. lia. }
  intros _ _. eapply sends_then; [lia|apply sends_poke; unfold MAX_CPUS; lia|]. intros _ _.
  destruct (Nat.ltb_spec (cpu_count madt) 2) as [Hone|Hmany].
  { eapply sends_quiet; [|apply sends_log|]; [lia|]. intros _ _. split; [|done].
    exists []. replace (cpu_count madt - 1)%nat with O by lia. by rewrite (proj2 (Nat.ltb_lt _ _) Hone). }
  eapply (sends_bind _ _ _ _ _ (fun _ kh' l => wake_all (seq 1 (cpu_count madt - 1)) kh = Some (l, kh') /\ kheap_ok kh'));
    [lia| |].
  { eapply sends_weaken; [|apply sends_boots; [done|]|done]; [rewrite length_seq; nia|].
    intros i Hi%elem_of_seq. lia. }
  intros _ kh1 l [Hl Hk1]. eapply sends_weaken; [|apply sends_ping|]; [lia|].
  intros u kh2 ping (-> & d & ->). split; [|done]. exists l. split; [done|].
  rewrite (proj2 (Nat.ltb_ge _ _) Hmany). by exists d.
Qed.
End Boot.

(** ** A machine that starts up

    The second start-up interrupt brings the core it is sent to online. *)

Record SimSmp : Type := mkSimSmp { hw : SimApic; areas : nat -> PerCpu }.

Definition on_hw {A} (f : SimApic -> A * SimApic) (s : SimSmp) : A * SimSmp :=
  let '(a, h) := f (hw s) in (a, mkSimSmp h (areas s)).

#[export] Instance SimSmp_Machine : Machine SimSmp := {
  inb p := on_hw (inb p);
  outb p v s := mkSimSmp (outb p v (hw s)) (areas s);
  inw p := on_hw (inw p);
  outw p v s := mkSimSmp (outw p v (hw s)) (areas s);
  rdtsc := on_hw rdtsc;
}.

#[export] Instance SimSmp_Platform : Platform SimSmp := {
  mmio_read a := on_hw (mmio_read a);
  mmio_write a v s := mkSimSmp (mmio_write a v (hw s)) (areas s);
  rdmsr r := on_hw (rdmsr r);
  wrmsr r lo hi s := mkSimSmp (wrmsr r lo hi (hw s)) (areas s);
  tick_count := on_hw tick_count;
  log_line l s := mkSimSmp (log_line l (hw s)) (areas s);
}.

#[export] Instance SimSmp_SmpMachine : SmpMachine SimSmp := {
  peek i s := (if bool_decide ((Z.of_nat i, 6 * 2 ^ 8 + 8) ∈ sent (ctl (hw s)))
               then set_state STATE_RUNNING (areas s i) else areas s i, s);
  poke i f s := mkSimSmp (hw s) (fun j => if (j =? i)%nat then f (areas s i) else areas s j);
  read_cr3 _ := 4096;
  copy_phys _ _ s := s;
}.

#[export] Program Instance SimSmp_XApic : XApic SimSmp SIM_LBASE IOAPIC_DEFAULT_BASE 4 := {
  view s := ctl (hw s);
  busy s := Nat.min 3 (busy_for (hw s));
}.
Next Obligation. apply (bases (D := SimApic) (patience := 4)). Qed.
Next Obligation. intros s. apply Nat.lt_succ_r, Nat.le_min_l. Qed.
Next Obligation.
  intros s r Hr. pose proof (lapic_reads (lbase := SIM_LBASE) (iobase := IOAPIC_DEFAULT_BASE) (patience := 4) (hw s) r Hr) as Hq. cbn [mmio_read SimSmp_Platform].
  unfold on_hw. by destruct (mmio_read (SIM_LBASE + r) (hw s)).
Qed.
Next Obligation. intros s r v Hr. pose proof (lapic_writes (lbase := SIM_LBASE) (iobase := IOAPIC_DEFAULT_BASE) (patience := 4) (hw s) r v Hr) as Hq. cbn in Hq |- *. exact Hq. Qed.
Next Obligation.
  intros s. pose proof (icr_reads (lbase := SIM_LBASE) (iobase := IOAPIC_DEFAULT_BASE) (patience := 4) (hw s)) as Hq. cbn [mmio_read SimSmp_Platform].
  unfold on_hw. by destruct (mmio_read (SIM_LBASE + REG_ICR_LO) (hw s)).
Qed.
Next Obligation. intros s v. pose proof (icr_writes (lbase := SIM_LBASE) (iobase := IOAPIC_DEFAULT_BASE) (patience := 4) (hw s) v) as Hq. cbn in Hq |- *. exact Hq. Qed.
Next Obligation. intros s v. pose proof (select_writes (lbase := SIM_LBASE) (iobase := IOAPIC_DEFAULT_BASE) (patience := 4) (hw s) v) as Hq. cbn in Hq |- *. exact Hq. Qed.
Next Obligation. intros s v Hv. pose proof ((window_writes (lbase := SIM_LBASE) (iobase := IOAPIC_DEFAULT_BASE) (patience := 4) (hw s) v) Hv) as Hq. cbn in Hq |- *. exact Hq. Qed.
Next Obligation.
  intros s. pose proof (window_reads (lbase := SIM_LBASE) (iobase := IOAPIC_DEFAULT_BASE) (patience := 4) (hw s)) as Hq. cbn [mmio_read SimSmp_Platform].
  unfold on_hw. by destruct (mmio_read (IOAPIC_DEFAULT_BASE + IOAPIC_WIN) (hw s)).
Qed.
Next Obligation. done. Qed.

#[export] Program Instance SimSmp_Timer : ApicTimer SimSmp SIM_LBASE SIM_W SIM_F 40 := { tview s := tm (hw s) }.
Next Obligation. apply (lbase_ok (D := SimApic) (w := SIM_W) (F := SIM_F) (slack := 40)). Qed.
Next Obligation. intros s. split; [done|]. exists 40. split; [lia|done]. Qed.
Next Obligation. done. Qed.
Next Obligation. done. Qed.
Next Obligation. intros s l. pose proof (log_time (lbase := SIM_LBASE) (w := SIM_W) (F := SIM_F) (slack := 40) (hw s) l) as Hq. cbn in Hq |- *. exact Hq. Qed.

(** Only arming the timer and reading the counter concern the timer. *)
Lemma sim_time r v s : r <> REG_INIT_COUNT ->
  tm (sim_write (SIM_LBASE + r) v s) = tm s /\ tm (sim_read (SIM_LBASE + r) s).2 = tm s.
Proof.
  intros Hr. unfold sim_write, sim_read. replace (SIM_LBASE + r - SIM_LBASE) with r by lia.
  rewrite (proj2 (Z.eqb_neq r REG_INIT_COUNT) Hr). by repeat case_match.
Qed.

#[export] Program Instance SimSmp_Laws : SmpLaws SimSmp SIM_LBASE IOAPIC_DEFAULT_BASE 4 SIM_W SIM_F 40.
Next Obligation. lia. Qed.
Next Obligation. done. Qed.
Next Obligation.
  intros s v. unfold quick. cbn [tview SimSmp_Timer].
  repeat change (mmio_write ?a v s) with (mkSimSmp (sim_write a v (hw s)) (areas s)).
  change (mmio_read ?a s) with (on_hw (sim_read a) s). cbn [hw].
  destruct (sim_time REG_ICR_LO v (hw s)) as [H1 H2]; [done|].
  destruct (sim_time REG_ICR_HI v (hw s)) as [H3 _]; [done|]. unfold on_hw. rewrite H1, H3.
  destruct (sim_read (SIM_LBASE + REG_ICR_LO) (hw s)) as [x h]. cbn [snd hw] in *. rewrite H2. lia.
Qed.
Next Obligation. intros i s. unfold quick. split; [cbn; lia|done]. Qed.
Next Obligation. intros i f s. unfold quick. split; [cbn; lia|done]. Qed.
Next Obligation. intros a l s. unfold quick. split; [cbn; lia|done]. Qed.

(** Start-up code that is nothing but markers and slots. *)
Definition demo_trampoline : list Z :=
  let slot := replicate 10 0 in
  [250] ++ M_CR3 ++ slot ++ M_GDT ++ slot ++ M_IDT ++ slot ++ M_STACK ++ slot ++ M_CPU ++ slot ++ M_ENTRY ++ slot.

Definition demo_slots : Slots := mkSlots 5 19 33 47 61 75.

Lemma demo_marked : well_marked (load_blob demo_trampoline).1 demo_slots.
Proof.
  split; [vm_compute; reflexivity..| |].
  - cbn. unfold apart. cbn. repeat constructor; lia.
  - assert (length (load_blob demo_trampoline).1 = 4096%nat) as -> by (vm_compute; reflexivity).
    cbn. repeat constructor; cbn; lia.
Qed.

(** ** Properties *)

(** The patched start-up code gives the new core its page table, the limits and
    bases of its descriptor tables, its stack, its number and its entry point,
    each where the code looks for it, and is unchanged everywhere else. *)
Theorem patch_correct args blob s :
  well_marked blob s ->
  Forall (fun v => 0 <= v < 2 ^ 64)
    [a_cr3 args; a_gdt_base args; a_idt_base args; a_stack_top args; a_cpu args; a_entry args] ->
  exists blob', patch args blob = Some blob' /\ length blob' = length blob
    /\ number_at 8 (s_cr3 s) blob' = a_cr3 args
    /\ number_at 2 (s_gdt s) blob' = 55 /\ number_at 8 (s_gdt s + 2) blob' = a_gdt_base args
    /\ number_at 2 (s_idt s) blob' = 4095 /\ number_at 8 (s_idt s + 2) blob' = a_idt_base args
    /\ number_at 8 (s_stack s) blob' = a_stack_top args
    /\ number_at 8 (s_cpu s) blob' = a_cpu args /\ number_at 8 (s_entry s) blob' = a_entry args
    /\ forall i, Forall (fun r => (i < r.1 \/ r.1 + r.2 <= i)%nat) (slot_ranges s) -> blob' !! i = blob !! i.
Proof.
  intros Hm Hargs. rewrite (patch_run _ _ _ Hm). eexists. split; [done|].
  destruct (writes_run (patch_writes args s) blob) as (Hl & Hin & Hout); [apply Hm|apply Hm|].
  repeat (apply Forall_cons in Hargs as [? Hargs]). split; [done|].
  assert (forall n off v, (off, le_bytes n v) ∈ patch_writes args s -> 0 <= v < 256 ^ Z.of_nat n ->
    number_at n off (fold_left (fun b w => write w b) (patch_writes args s) blob) = v) as Hnum.
  { intros n off v Hw Hv. unfold number_at. pose proof (Hin _ Hw) as Hr. cbn [fst snd] in Hr.
    rewrite length_le_bytes in Hr. rewrite Hr. by apply le_val_bytes. }
  unfold patch_writes in Hnum at 1.
  split_and!; try (apply Hnum; [repeat (first [by left|right])|first [done|lia]]). exact Hout.
Qed.

Lemma patch_correct_witness : exists blob',
  patch (mkApArgs 4096 2101248 2097152 6291456 1 1048576) (load_blob demo_trampoline).1 = Some blob'
  /\ number_at 8 47 blob' = 6291456 /\ number_at 8 75 blob' = 1048576 /\ blob' !! 0%nat = Some 250.
Proof.
  destruct (patch_correct (mkApArgs 4096 2101248 2097152 6291456 1 1048576) _ _ demo_marked)
    as (blob' & R & _ & _ & _ & _ & _ & _ & Hst & _ & He & Hout).
  - do 6 (apply Forall_cons; split; [cbn; lia|]). apply Forall_nil. exact I.
  - exists blob'. split; [exact R|]. split; [exact Hst|]. split; [exact He|].
    rewrite Hout; [reflexivity|]. cbn. repeat constructor; cbn; lia.
Defined.

(** The task-state descriptor of a processor reads back as the base of its
    segment, the limit given and an available 64-bit task-state segment. *)
Theorem tss_descriptor_correct base limit :
  0 <= base < 2 ^ 64 -> 0 <= limit < 2 ^ 20 ->
  let lo := tss_desc_lo base limit in
  let hi := Z.shiftr base 32 in
  desc_base lo hi = base /\ desc_limit lo = limit /\ desc_type lo = 137.
Proof.
  intros Hb Hl lo hi. unfold desc_base, desc_limit, desc_type, hi, lo.
  rewrite !land_ones_mod, !Z.shiftr_div_pow2 by lia. rewrite tss_desc_sum by lia.
  destruct (tss_fields (limit mod 2 ^ 16) (base mod 2 ^ 16) (base / 2 ^ 16 mod 2 ^ 8) (limit / 2 ^ 16 mod 2 ^ 4)
    (base / 2 ^ 24 mod 2 ^ 8)) as (-> & -> & -> & -> & ->); [apply Z.mod_pos_bound; lia..|].
  clear lo hi. split_and!; [|Z.div_mod_to_equations; lia|done]. Z.div_mod_to_equations. lia.
Qed.

Lemma tss_descriptor_correct_witness :
  desc_base (tss_desc_lo 2101304 103) (Z.shiftr 2101304 32) = 2101304 /\ desc_limit (tss_desc_lo 2101304 103) = 103.
Proof. destruct (tss_descriptor_correct 2101304 103) as (H1 & H2 & _); [lia|lia|]. split; [exact H1|exact H2]. Defined.

(** C33: Start-up ends, whatever the other processors do: for each listed processor
    but the first, in the order of the list, a stack of 32 KiB is asked of the
    kernel's heap, and exactly when the allocator gives one the processor is
    sent INIT and two start-up interrupts; then the doorbell of the second is
    rung once if its area is read to say that it runs, and nothing else is
    sent. The kernel's heap is what these requests make of it and in order. *)
Theorem smp_init_sends {D lbase iobase w F slack patience} `{SmpLaws D lbase iobase patience w F slack}
    madt per_ms fuel trampoline cpu_area entry slots isr (d : D) kh :
  lapic_base madt = lbase -> (patience <= fuel)%nat ->
  0 <= per_ms /\ saturating_mul per_ms 500 < Z.of_nat fuel ->
  well_marked (load_blob trampoline).1 slots ->
  (cpu_count madt <= MAX_CPUS)%nat -> length (cpu_apic_ids madt) = MAX_CPUS ->
  Forall (fun id => 0 <= id < 256) (cpu_apic_ids madt) ->
  kheap_ok kh -> 0 <= now (tview d) ->
  now (tview d) + smp_cost (slack := slack) (patience := patience) madt per_ms < 2 ^ 64 ->
  exists d' kh' l, smp_init madt per_ms fuel trampoline cpu_area entry isr (d, kh) = (Ret tt, (d', kh'))
    /\ kheap_ok kh' /\ sent (view d') = sent (view d) ++ l /\ startup_ipis (D := D) madt kh l kh'.
Proof.
  intros Hb Hp Hper Hm Hc Hlen Hids Hk Hn Hcost.
  destruct (sends_init madt per_ms fuel Hb Hp Hper trampoline cpu_area entry slots Hm (conj Hlen Hids) kh isr Hk Hc d Hn Hcost)
    as ([] & d' & kh' & l & R & _ & S & Hl & Hk'). by exists d', kh', l.
Qed.

Definition smp_demo : SimSmp := mkSimSmp (sim_apic (fun _ => 0) (fun _ => 0)) (fun _ => PER_CPU_INIT).

Lemma smp_init_sends_witness : exists d' kh' l ping,
  smp_init demo_madt 1 501 demo_trampoline 2097152 1048576 (fun n => n) (smp_demo, mkKernelHeap demo_heap [])
  = (Ret tt, (d', kh')) /\ sent (view d') = l ++ ping
  /\ wake_all demo_madt (seq 1 (cpu_count demo_madt - 1)) (mkKernelHeap demo_heap []) = Some (l, kh').
Proof.
  destruct (smp_init_sends (D := SimSmp) (lbase := SIM_LBASE) (iobase := IOAPIC_DEFAULT_BASE) (w := SIM_W) (F := SIM_F)
      (slack := 40) (patience := 4) demo_madt 1 501 demo_trampoline 2097152 1048576 demo_slots (fun n => n)
      smp_demo (mkKernelHeap demo_heap [])) as (d' & kh' & l & R & _ & S & wakes & Hw & Hl).
  - reflexivity.
  - apply Nat.leb_le. reflexivity.
  - split; [lia|]. reflexivity.
  - exact demo_marked.
  - apply Nat.leb_le. reflexivity.
  - reflexivity.
  - do 8 (apply Forall_cons; split; [lia|]). apply Forall_nil. exact I.
  - exists demo_layout. exact demo_heap_rep.
  - discriminate.
  - reflexivity.
  - destruct Hl as [d0 ->]. eexists d', kh', wakes, _. split; [exact R|]. split; [exact S|exact Hw].
Defined.

(** The doorbell, whatever the interleaving of rings and loop: there are never
    more lines logged than rings; a ring that finds the processor asleep or
    about to look is logged within three steps of the loop; but a ring that
    comes between the look and the clearing is lost, and one that comes
    between the look and [hlt] is not noticed until the next: the processor
    sleeps with nothing logged. *)
Theorem doorbell_correct :
  (forall es, Z.of_nat (length es) < 2 ^ 64 ->
     0 <= logged (bell_run es Doorbell_new) <= count (bell_run es Doorbell_new))
  /\ (forall b, at_pc b = Halted \/ at_pc b = ReadFlag ->
        let b' := bell_run [Ipi; Loop; Loop; Loop] b in
        logged b' = logged b + 1 /\ at_pc b' = ReadFlag /\ flag b' = false)
  /\ bell_run [Loop; Ipi; Loop; Loop] Doorbell_new = mkBell Halted false 1 0
  /\ bell_run [Loop; Loop; Ipi; Loop] Doorbell_new = mkBell Halted true 1 0.
Proof.
  split_and!; [| |done|done].
  - intros es Hes. destruct (bell_bound es Doorbell_new) as [H1 H2]; [done|done|done|]. split; [done|].
    assert (0 <= pending (bell_run es Doorbell_new)); [|lia].
    destruct (bell_run es Doorbell_new) as [[|[]|[]|] [] c l]; done.
  - intros [p f c l] Hp. cbn [at_pc] in Hp. by destruct Hp as [-> | ->].
Qed.

Lemma doorbell_correct_witness : logged (bell_run [Loop; Loop; Loop; Ipi; Loop; Loop; Loop] Doorbell_new) = 1.
Proof.
  destruct doorbell_correct as (_ & H & _).
  destruct (H (bell_run [Loop; Loop; Loop] Doorbell_new)) as (Hl & _); [left; reflexivity|exact Hl].
Defined.
