(* ===== verification/Input.v ===== *)
(** The PS/2 keyboard driver ([src/src/hal/input.rs]): the scancode decoder run
    by the interrupt handler and the ring buffer between it and [getchar]. *)

From stdpp Require Import base numbers list gmap.
From Stdlib Require Import ZArith Lia.
From S2P Require Import Prelude.

(** ** State *)

Definition BUF_SZ : Z := 256.

Record RingBuf : Type := mkRing { rb_buf : list Z; rb_head : Z; rb_tail : Z }.

Definition RingBuf_new : RingBuf := mkRing (replicate 256 0) 0 0.

(** The modifier words and prefix flags: [SHIFT], [CTRL], [EXTENDED],
    [RELEASE]. *)
Record Mods : Type := mkMods { m_shift : Z; m_ctrl : Z; m_extended : bool; m_release : bool }.

Record Keyboard : Type := mkKb { kb_ring : RingBuf; kb_mods : Mods }.

Definition SHIFT_MASK : Z := 1.
Definition CTRL_MASK : Z := 2.

(** [!mask] on [usize]. *)
Definition not_word (mask : Z) : Z := 18446744073709551615 - mask.

(** ** The scancode table: code, plain and shifted character *)

Definition scancode_entries : list (Z * (Z * Z)) :=
  [(0x0D, (9, 9)); (0x0E, (96, 126)); (0x15, (113, 81)); (0x16, (49, 33)); (0x1A, (122, 90));
   (0x1B, (115, 83)); (0x1C, (97, 65)); (0x1D, (119, 87)); (0x1E, (50, 64)); (0x21, (99, 67));
   (0x22, (120, 88)); (0x23, (100, 68)); (0x24, (101, 69)); (0x25, (52, 36)); (0x26, (51, 35));
   (0x29, (32, 32)); (0x2A, (118, 86)); (0x2B, (102, 70)); (0x2C, (116, 84)); (0x2D, (114, 82));
   (0x2E, (53, 37)); (0x31, (110, 78)); (0x32, (98, 66)); (0x33, (104, 72)); (0x34, (103, 71));
   (0x35, (121, 89)); (0x36, (54, 94)); (0x3A, (109, 77)); (0x3B, (106, 74)); (0x3C, (117, 85));
   (0x3D, (55, 38)); (0x3E, (56, 42)); (0x41, (44, 60)); (0x42, (107, 75)); (0x43, (105, 73));
   (0x44, (111, 79)); (0x45, (48, 41)); (0x46, (57, 40)); (0x49, (46, 62)); (0x4A, (47, 63));
   (0x4B, (108, 76)); (0x4C, (59, 58)); (0x4D, (112, 80)); (0x4E, (45, 95)); (0x52, (39, 34));
   (0x54, (91, 123)); (0x55, (61, 43)); (0x5B, (93, 125)); (0x5A, (10, 10)); (0x61, (92, 124));
   (0x66, (8, 8)); (0x76, (27, 27))].

(** [SCANCODE_SET2[idx][shift]], 0 where the table was not set. *)
Definition scancode_set2 (idx : Z) (shift : bool) : Z :=
  match list_find (fun e : Z * (Z * Z) => fst e = idx) scancode_entries with
  | Some (_, (_, (plain, shifted))) => if shift then shifted else plain
  | None => 0
  end.

Definition scancode_to_ascii (m : Mods) (scancode : Z) : option Z :=
  if 128 <=? scancode then None
  else
    let c := scancode_set2 scancode (negb (Z.land (m_shift m) SHIFT_MASK =? 0)) in
    if c =? 0 then None else Some c.

(** ** The ring buffer *)

Definition push_char (c : Z) (r : RingBuf) : RingBuf :=
  let head := rb_head r in
  let next := (head + 1) mod BUF_SZ in
  if next =? rb_tail r then r
  else mkRing (<[Z.to_nat head := c]> (rb_buf r)) next (rb_tail r).

(** [getchar] runs outside the interrupt handler and can be interrupted between
    any two of its accesses: what it has loaded so far is its program point. *)
Inductive get_pc : Type :=
| GStart
| GTail (tail : Z)
| GBoth (tail head : Z)
| GByte (tail c : Z).

Definition getchar_step (pc : get_pc) (r : RingBuf) : get_pc * RingBuf * option Z :=
  match pc with
  | GStart => (GTail (rb_tail r), r, None)
  | GTail tail => (GBoth tail (rb_head r), r, None)
  | GBoth tail head =>
      if tail =? head then (GStart, r, None)
      else (GByte tail (byte_at (rb_buf r) (Z.to_nat tail)), r, None)
  | GByte tail c => (GStart, mkRing (rb_buf r) (rb_head r) ((tail + 1) mod BUF_SZ), Some c)
  end.

(** ** The interrupt handler *)

Definition set_shift (s : Z) (m : Mods) : Mods := mkMods s (m_ctrl m) (m_extended m) (m_release m).
Definition set_ctrl (c : Z) (m : Mods) : Mods := mkMods (m_shift m) c (m_extended m) (m_release m).
Definition set_prefix (e r : bool) (m : Mods) : Mods := mkMods (m_shift m) (m_ctrl m) e r.

Definition is_shift (sc : Z) : bool := (sc =? 0x12) || (sc =? 0x59).
Definition is_ctrl (sc : Z) : bool := sc =? 0x14.

(** The cursor keys' tokens. *)
Definition extended_token (sc : Z) : option Z :=
  if sc =? 0x75 then Some 1
  else if sc =? 0x72 then Some 2
  else if sc =? 0x6B then Some 3
  else if sc =? 0x74 then Some 4
  else None.

Definition press_mods (sc : Z) (m : Mods) : Mods :=
  if is_shift sc then set_shift (Z.lor (m_shift m) SHIFT_MASK) m
  else if is_ctrl sc then set_ctrl (Z.lor (m_ctrl m) CTRL_MASK) m
  else m.

Definition release_mods (sc : Z) (m : Mods) : Mods :=
  if is_shift sc then set_shift (Z.land (m_shift m) (not_word SHIFT_MASK)) m
  else if is_ctrl sc then set_ctrl (Z.land (m_ctrl m) (not_word CTRL_MASK)) m
  else m.

(** One scancode: the modifiers afterwards and the character to push. *)
Definition decode (m : Mods) (scancode : Z) : Mods * option Z :=
  if scancode =? 0xE0 then (set_prefix true (m_release m) m, None)
  else if scancode =? 0xF0 then (set_prefix (m_extended m) true m, None)
  else if m_release m then (set_prefix false false (release_mods scancode m), None)
  else if m_extended m then (set_prefix false (m_release m) m, extended_token scancode)
  else
    let c := if is_shift scancode || is_ctrl scancode then None else scancode_to_ascii m scancode in
    (set_prefix false (m_release m) (press_mods scancode m), c).

Definition irq1_handler (scancode : Z) (kb : Keyboard) : Keyboard :=
  let '(m, c) := decode (kb_mods kb) scancode in
  mkKb (match c with Some c => push_char c (kb_ring kb) | None => kb_ring kb end) m.

(** ** The driver under interrupts *)

Inductive kb_event : Type :=
| Irq (scancode : Z)
| Main.

(** What can be observed: a character that the interrupt handler decodes and
    hands to [push_char], and a character that [getchar] returns. *)
Inductive kb_obs : Type :=
| Typed (c : Z)
| Got (c : Z).

(** [s_history] records the observations in the order in which they happen. *)
Record kb_system : Type := mkSys {
  s_kb : Keyboard; s_pc : get_pc; s_history : list kb_obs;
}.

Definition kb_init : kb_system :=
  mkSys (mkKb RingBuf_new (mkMods 0 0 false false)) GStart [].

Definition kb_step (s : kb_system) (e : kb_event) : kb_system :=
  match e with
  | Irq sc =>
      mkSys (irq1_handler sc (s_kb s)) (s_pc s)
        (s_history s ++ match snd (decode (kb_mods (s_kb s)) sc) with Some c => [Typed c] | None => [] end)
  | Main =>
      let '(pc, r, c) := getchar_step (s_pc s) (kb_ring (s_kb s)) in
      mkSys (mkKb r (kb_mods (s_kb s))) pc
        (s_history s ++ match c with Some c => [Got c] | None => [] end)
  end.

Definition kb_run (es : list kb_event) (s : kb_system) : kb_system := fold_left kb_step es s.

(** ** Specification *)

(** The ring holds the queue [q]. *)
Record ring_rep (r : RingBuf) (q : list Z) : Prop := {
  rr_len : length (rb_buf r) = 256%nat;
  rr_head : 0 <= rb_head r < 256;
  rr_tail : 0 <= rb_tail r < 256;
  rr_size : Z.of_nat (length q) = (rb_head r - rb_tail r) mod 256;
  rr_items : forall i c, q !! i = Some c ->
    rb_buf r !! Z.to_nat ((rb_tail r + Z.of_nat i) mod 256) = Some c;
}.

(** The buffer's contract, a bounded queue: a typed character joins the queue
    if fewer than 255 wait and is dropped otherwise, a character that is got is
    the one at the front. [None]: an observation that the contract forbids. *)
Definition queue_obs (o : kb_obs) (q : list Z) : option (list Z) :=
  match o with
  | Typed c => Some (if (length q <? 255)%nat then q ++ [c] else q)
  | Got c =>
      match q with
      | x :: q => if decide (x = c) then Some q else None
      | [] => None
      end
  end.

Fixpoint queue_serves (os : list kb_obs) (q : list Z) : option (list Z) :=
  match os with
  | [] => Some q
  | o :: os => match queue_obs o q with Some q => queue_serves os q | None => None end
  end.

(** The scancodes of a sequence of events, and the characters of a history. *)
Definition irqs (es : list kb_event) : list Z :=
  omap (fun e => match e with Irq sc => Some sc | Main => None end) es.

Definition typed_chars (os : list kb_obs) : list Z :=
  omap (fun o => match o with Typed c => Some c | Got _ => None end) os.

(** Key events and the bytes a set-2 keyboard sends for them. *)
Inductive key_event : Type :=
| Press (k : Z) | Release (k : Z) | PressExt (k : Z) | ReleaseExt (k : Z).

Definition key_code (e : key_event) : Z :=
  match e with Press k | Release k | PressExt k | ReleaseExt k => k end.

Definition scancodes (e : key_event) : list Z :=
  match e with
  | Press k => [k]
  | Release k => [0xF0; k]
  | PressExt k => [0xE0; k]
  | ReleaseExt k => [0xE0; 0xF0; k]
  end.

(** What a key event means, with [shift] held or not. *)
Definition key_char (shift : bool) (e : key_event) : option Z :=
  match e with
  | Press k =>
      if is_shift k || is_ctrl k || (128 <=? k) then None
      else let c := scancode_set2 k shift in if c =? 0 then None else Some c
  | PressExt k => extended_token k
  | _ => None
  end.

Definition key_shift (shift : bool) (e : key_event) : bool :=
  match e with
  | Press k => if is_shift k then true else shift
  | Release k | ReleaseExt k => if is_shift k then false else shift
  | PressExt _ => shift
  end.

Fixpoint typed (shift : bool) (es : list key_event) : list Z :=
  match es with
  | [] => []
  | e :: es =>
      match key_char shift e with
      | Some c => c :: typed (key_shift shift e) es
      | None => typed (key_shift shift e) es
      end
  end.

(** The characters a sequence of scancodes decodes to. *)
Fixpoint decode_all (m : Mods) (scs : list Z) : list Z :=
  match scs with
  | [] => []
  | sc :: scs =>
      let '(m', c) := decode m sc in
      match c with Some c => c :: decode_all m' scs | None => decode_all m' scs end
  end.

(** ** Lemmas *)

Lemma ring_rep_new : ring_rep RingBuf_new [].
Proof. by split. Qed.

Lemma ring_bound r q : ring_rep r q -> (length q <= 255)%nat.
Proof. intros [_ _ _ Hs _]. Z.to_euclidean_division_equations; lia. Qed.

Lemma push_char_rep r q c :
  ring_rep r q ->
  ring_rep (push_char c r) (if (length q <? 255)%nat then q ++ [c] else q) /\
  (rb_head (push_char c r) =? rb_head r) = negb (length q <? 255)%nat /\
  rb_tail (push_char c r) = rb_tail r.
Proof.
  intros [Hl Hh Ht Hs Hi]. unfold push_char, BUF_SZ.
  destruct (Z.eqb_spec ((rb_head r + 1) mod 256) (rb_tail r)) as [He|He].
  - assert ((length q <? 255)%nat = false) as ->
      by (apply Nat.ltb_ge; Z.to_euclidean_division_equations; lia).
    rewrite Z.eqb_refl. by split_and!.
  - assert ((length q <? 255)%nat = true) as ->
      by (apply Nat.ltb_lt; Z.to_euclidean_division_equations; lia).
    cbn [rb_head rb_tail]. split_and!; [|apply Z.eqb_neq; Z.to_euclidean_division_equations; lia|done].
    split; cbn [rb_buf rb_head rb_tail].
    + by rewrite length_insert.
    + by apply Z.mod_pos_bound.
    + done.
    + rewrite length_app, Nat2Z.inj_add, Hs. cbn [length]. Z.to_euclidean_division_equations; lia.
    + intros i x Hx. apply lookup_app_Some in Hx as [Hx|[Hge Hx]].
      * pose proof (lookup_lt_Some _ _ _ Hx). rewrite list_lookup_insert_ne; [by apply Hi|].
        Z.to_euclidean_division_equations; lia.
      * assert (i = length q) as ->
          by (apply lookup_lt_Some in Hx; cbn in Hx; lia).
        rewrite Nat.sub_diag in Hx. cbn in Hx. simplify_eq.
        replace ((rb_tail r + Z.of_nat (length q)) mod 256) with (rb_head r)
          by (rewrite Hs, Z.add_mod_idemp_r, Zplus_minus, Z.mod_small by lia; done).
        apply list_lookup_insert_eq. lia.
Qed.

Lemma pop_rep r c q :
  ring_rep r (c :: q) ->
  rb_tail r <> rb_head r /\ byte_at (rb_buf r) (Z.to_nat (rb_tail r)) = c /\
  ring_rep (mkRing (rb_buf r) (rb_head r) ((rb_tail r + 1) mod 256)) q.
Proof.
  intros [Hl Hh Ht Hs Hi]. cbn [length] in Hs. split_and!.
  - intros He. rewrite He, Z.sub_diag, Z.mod_0_l in Hs by lia. lia.
  - apply byte_at_lookup. rewrite <- (Hi O c eq_refl). f_equal. cbn.
    Z.to_euclidean_division_equations; lia.
  - split; cbn [rb_buf rb_head rb_tail]; [done|done|by apply Z.mod_pos_bound| |].
    + Z.to_euclidean_division_equations; lia.
    + intros i x Hx. rewrite <- (Hi (S i) x Hx). f_equal. Z.to_euclidean_division_equations; lia.
Qed.

(** What holds between two steps: the queue, and what [getchar] has loaded. *)
Definition pc_ok (pc : get_pc) (r : RingBuf) (q : list Z) : Prop :=
  match pc with
  | GStart => True
  | GTail t => t = rb_tail r
  | GBoth t h => t = rb_tail r /\ (t <> h -> q <> [])
  | GByte t c => t = rb_tail r /\ head q = Some c
  end.

Definition system_ok (s : kb_system) (q : list Z) : Prop :=
  ring_rep (kb_ring (s_kb s)) q /\ pc_ok (s_pc s) (kb_ring (s_kb s)) q /\
  queue_serves (s_history s) [] = Some q.

Lemma ring_empty r : ring_rep r [] -> rb_tail r = rb_head r.
Proof. intros [Hl Hh Ht Hs Hi]. cbn in Hs. Z.to_euclidean_division_equations; lia. Qed.

Lemma queue_serves_app os os' q q' :
  queue_serves os q = Some q' -> queue_serves (os ++ os') q = queue_serves os' q'.
Proof.
  revert q. induction os as [|o os IH]; intros q; cbn [queue_serves app]; [by intros [= ->]|].
  destruct (queue_obs o q); [apply IH|done].
Qed.

(** One interrupt: the decoded character is queued as the contract says. *)
Lemma irq_step s q sc : system_ok s q ->
  exists q', system_ok (kb_step s (Irq sc)) q'.
Proof.
  intros (Hr & Hpc & Hacc). unfold kb_step, irq1_handler, system_ok.
  destruct (decode (kb_mods (s_kb s)) sc) as [m [c|]]; cbn [snd s_kb s_pc s_history kb_ring].
  2: { exists q. rewrite app_nil_r. by split_and!. }
  destruct (push_char_rep _ _ c Hr) as (Hr' & _ & Ht).
  eexists. split_and!; [exact Hr'| |by rewrite (queue_serves_app _ _ _ _ Hacc)].
  unfold pc_ok in *. rewrite Ht. destruct (s_pc s) as [|t|t h|t x]; [done|done| |].
  - split; [apply Hpc|]. intros Hne. destruct Hpc as [_ Hpc]. specialize (Hpc Hne).
    destruct q; [done|]. by destruct (_ <? _)%nat.
  - split; [apply Hpc|]. destruct Hpc as [_ Hpc]. destruct q; [done|]. by destruct (_ <? _)%nat.
Qed.

(** One access of [getchar]: it takes the front of the queue with the last. *)
Lemma main_step s q : system_ok s q ->
  exists q', system_ok (kb_step s Main) q' /\
    match s_pc s with GByte _ _ => exists c, q = c :: q' | _ => q' = q end.
Proof.
  destruct s as [[r m] pc os]. intros (Hr & Hpc & Hacc). unfold kb_step, system_ok in *.
  cbn [s_kb s_pc s_history kb_ring kb_mods] in *.
  destruct pc as [|t|t h|t c]; cbn [getchar_step].
  - exists q. rewrite app_nil_r. by split_and!.
  - exists q. rewrite app_nil_r. split_and!; [done| |done|done]. cbn in *. subst t. split; [done|].
    intros Hne ->. by apply ring_empty in Hr.
  - destruct Hpc as [-> Hne]. exists q. destruct (Z.eqb_spec (rb_tail r) h); rewrite app_nil_r.
    + by split_and!.
    + split_and!; [done| |done|done]. destruct q as [|c q]; [by destruct Hne|].
      cbn. destruct (pop_rep _ _ _ Hr) as (_ & Hc & _). by rewrite Hc.
  - destruct Hpc as [-> Hc]. destruct q as [|c' q]; [done|]. cbn in Hc. simplify_eq.
    destruct (pop_rep _ _ _ Hr) as (_ & _ & Hr'). exists q.
    split_and!; [done|done| |by eexists]. cbn [s_history]. rewrite (queue_serves_app _ _ _ _ Hacc).
    cbn [queue_serves queue_obs]. by rewrite decide_True.
Qed.

Lemma system_ok_step s q e : system_ok s q -> exists q', system_ok (kb_step s e) q'.
Proof.
  intros Hok. destruct e as [sc|];
    [destruct (irq_step s q sc Hok) as (q' & ?)|destruct (main_step s q Hok) as (q' & ? & _)]; eauto.
Qed.

Lemma system_ok_run es s q : system_ok s q -> exists q', system_ok (kb_run es s) q'.
Proof.
  revert s q. induction es as [|e es IH]; intros s q Hok; [by exists q|].
  destruct (system_ok_step s q e Hok) as [q' Hok']. by eapply IH.
Qed.

(** The characters of the history are those that the scancodes decode to. *)
Lemma history_typed es s :
  typed_chars (s_history (kb_run es s)) = typed_chars (s_history s) ++ decode_all (kb_mods (s_kb s)) (irqs es).
Proof.
  revert s. induction es as [|[sc|] es IH]; intros s; [by rewrite app_nil_r| |];
    change (kb_run (?e :: es) s) with (kb_run es (kb_step s e)); rewrite IH; unfold kb_step.
  - unfold irq1_handler. cbn [irqs omap list_omap decode_all].
    destruct (decode (kb_mods (s_kb s)) sc) as [m [c|]]; cbn [snd s_kb s_history kb_mods];
      unfold typed_chars; rewrite omap_app, <- ?app_assoc, ?app_nil_r; done.
  - destruct (getchar_step (s_pc s) (kb_ring (s_kb s))) as [[pc r] [c|]]; cbn [s_kb s_history kb_mods];
      unfold typed_chars; rewrite omap_app, app_nil_r; done.
Qed.

(** [getchar] with a character waiting: at most five accesses, one of them
    with what it had loaded before the character came. *)
Definition gets_soon (n : nat) (s : kb_system) (c : Z) : Prop :=
  exists l, s_history (kb_run (replicate n Main) s) = s_history s ++ Got c :: l.

Lemma history_grows es s : exists l, s_history (kb_run es s) = s_history s ++ l.
Proof.
  revert s. induction es as [|e es IH]; intros s; [exists []; by rewrite app_nil_r|].
  destruct (IH (kb_step s e)) as (l & Hl). change (kb_run (e :: es) s) with (kb_run es (kb_step s e)).
  rewrite Hl. unfold kb_step. destruct e; [|destruct (getchar_step _ _) as [[? ?] ?]];
    cbn [s_history]; rewrite <- app_assoc; by eexists.
Qed.

Lemma getchar_soon s q c : system_ok s (c :: q) -> gets_soon 5 s c.
Proof.
  destruct s as [[r m] pc os]. intros (Hr & Hpc & _). cbn [s_kb s_pc kb_ring] in *.
  destruct (pop_rep _ _ _ Hr) as (Hne & Hc & _).
  assert (forall n os', gets_soon (S n) (mkSys (mkKb r m) (GByte (rb_tail r) c) os') c) as Hlast.
  { intros n os'. unfold gets_soon. cbn [replicate].
    destruct (history_grows (replicate n Main) (kb_step (mkSys (mkKb r m) (GByte (rb_tail r) c) os') Main)) as (l & Hl).
    exists l. change (kb_run (Main :: ?es) ?s) with (kb_run es (kb_step s Main)). rewrite Hl.
    cbn. by rewrite <- app_assoc. }
  assert (forall n pc pc' os', getchar_step pc r = (pc', r, None) ->
    gets_soon n (mkSys (mkKb r m) pc' os') c -> gets_soon (S n) (mkSys (mkKb r m) pc os') c) as Hmore.
  { intros n pc1 pc2 os' Hstep (l & Hl). exists l. cbn [replicate].
    change (kb_run (Main :: ?es) ?s) with (kb_run es (kb_step s Main)).
    unfold kb_step. cbn [s_pc s_kb kb_ring kb_mods s_history] in *. rewrite Hstep, app_nil_r. exact Hl. }
  assert (forall n os', gets_soon (S (S n)) (mkSys (mkKb r m) (GBoth (rb_tail r) (rb_head r)) os') c) as Hboth.
  { intros n os'. eapply Hmore; [|apply Hlast]. cbn [getchar_step].
    destruct (Z.eqb_spec (rb_tail r) (rb_head r)); [done|]. by rewrite Hc. }
  assert (forall n os', gets_soon (S (S (S n))) (mkSys (mkKb r m) (GTail (rb_tail r)) os') c) as Htail.
  { intros n os'. by eapply Hmore, Hboth. }
  assert (forall n os', gets_soon (S (S (S (S n)))) (mkSys (mkKb r m) GStart os') c) as Hstart.
  { intros n os'. by eapply Hmore, Htail. }
  destruct pc as [|t|t h|t x]; cbn in Hpc.
  - apply Hstart.
  - subst t. apply Htail.
  - destruct Hpc as [-> _]. destruct (Z.eqb_spec (rb_tail r) h) as [He|He].
    + eapply Hmore; [|apply Hstart]. cbn [getchar_step]. by rewrite He, Z.eqb_refl.
    + eapply Hmore; [|apply Hlast]. cbn [getchar_step]. destruct (Z.eqb_spec (rb_tail r) h); [done|].
      by rewrite Hc.
  - destruct Hpc as [-> Hx]. cbn in Hx. simplify_eq. apply Hlast.
Qed.

(** ** Properties *)

(** C25: The keyboard buffer refines a bounded queue under every interleaving of
    interrupts with the single accesses of [getchar]. In the order in which
    they happen, the characters that the scancodes decode to join the queue,
    or are dropped if 255 wait already; every character that [getchar] returns
    is the one at the front; the ring holds what waits. If a character waits,
    [getchar] returns the front after at most five of its accesses. *)
Theorem keyboard_fifo es :
  let s := kb_run es kb_init in
  exists q, queue_serves (s_history s) [] = Some q /\ ring_rep (kb_ring (s_kb s)) q
    /\ typed_chars (s_history s) = decode_all (mkMods 0 0 false false) (irqs es)
    /\ forall c, head q = Some c -> gets_soon 5 s c.
Proof.
  intros s. destruct (system_ok_run es kb_init []) as (q & Hok).
  { split_and!; [apply ring_rep_new|done|done]. }
  exists q. split_and!; [apply Hok|apply Hok|apply (history_typed es kb_init)|].
  intros c Hc. destruct q as [|x q]; [done|]. injection Hc as ->. by eapply getchar_soon.
Qed.

(** An interrupt's character is stored exactly when fewer than 255 are
    waiting; a character that finds the ring full is dropped, nothing else is
    disturbed. *)
Theorem push_char_correct r q c :
  ring_rep r q ->
  if (length q <? 255)%nat then ring_rep (push_char c r) (q ++ [c]) else push_char c r = r.
Proof.
  intros Hr. destruct (push_char_rep _ _ c Hr) as (Hr' & Hh & _).
  destruct (length q <? 255)%nat; [done|]. unfold push_char, BUF_SZ in *.
  destruct (_ =? rb_tail r); [done|]. cbn [rb_head negb] in Hh. destruct Hr.
  Z.to_euclidean_division_equations; lia.
Qed.

Lemma push_char_correct_witness : ring_rep (push_char 65 RingBuf_new) [65].
Proof. exact (push_char_correct RingBuf_new [] 65 ring_rep_new). Defined.

Lemma shift_bit m : 0 <= m < 2 ->
  Z.lor m SHIFT_MASK = 1 /\ Z.land m (not_word SHIFT_MASK) = 0 /\
  (Z.land m SHIFT_MASK =? 0) = (m =? 0).
Proof. intros. assert (m = 0 \/ m = 1) as [-> | ->] by lia; done. Qed.

(** The handler on the bytes of one key event, from a state between events. *)
Lemma decode_event e s c scs :
  0 <= s < 2 -> 0 <= key_code e < 0xE0 ->
  exists s' c', 0 <= s' < 2 /\ negb (s' =? 0) = key_shift (negb (s =? 0)) e /\
    decode_all (mkMods s c false false) (scancodes e ++ scs) =
    match key_char (negb (s =? 0)) e with
    | Some x => x :: decode_all (mkMods s' c' false false) scs
    | None => decode_all (mkMods s' c' false false) scs
    end.
Proof.
  intros Hs Hk. destruct (shift_bit s Hs) as (Hor & Hand & Htest).
  assert (forall k, key_code e = k -> (k =? 0xE0) = false /\ (k =? 0xF0) = false) as Hne by lia.
  assert (forall e k, key_shift (negb (s =? 0)) e = (if is_shift k then false else negb (s =? 0)) ->
    exists s' c', 0 <= s' < 2 /\ negb (s' =? 0) = key_shift (negb (s =? 0)) e /\
      set_prefix false false (release_mods k (mkMods s c true true)) = mkMods s' c' false false /\
      set_prefix false false (release_mods k (mkMods s c false true)) = mkMods s' c' false false)
    as Hrelease.
  { intros e' k ->. unfold release_mods. destruct (is_shift k).
    { exists 0, c. cbn [set_shift set_prefix m_shift m_ctrl]. rewrite Hand. by split_and!. }
    destruct (is_ctrl k); [exists s, (Z.land c (not_word CTRL_MASK))|exists s, c];
      split_and!; done || lia. }
  destruct e as [k|k|k|k]; destruct (Hne k eq_refl) as [H1 H2]; cbn [scancodes app decode_all];
    unfold decode; cbn -[Z.eqb Z.land Z.lor is_shift is_ctrl scancode_to_ascii decode_all];
    rewrite ?H1, ?H2; cbn -[Z.eqb Z.land Z.lor is_shift is_ctrl scancode_to_ascii decode_all].
  - unfold press_mods. cbn [key_char key_shift]. destruct (is_shift k); cbn [orb].
    { exists 1, c. rewrite <- Hor. split_and!; done || lia. }
    destruct (is_ctrl k); cbn [orb].
    { exists s, (Z.lor c CTRL_MASK). split_and!; done || lia. }
    exists s, c. split_and!; [lia|lia|done|].
    unfold scancode_to_ascii. cbn [m_shift]. rewrite Htest. destruct (128 <=? k); [done|].
    by destruct (scancode_set2 k (negb (s =? 0)) =? 0).
  - destruct (Hrelease (Release k) k eq_refl) as (s' & c' & ? & ? & _ & Heq).
    exists s', c'. by rewrite <- Heq.
  - exists s, c. split_and!; done || lia.
  - destruct (Hrelease (ReleaseExt k) k eq_refl) as (s' & c' & ? & ? & Heq & _).
    exists s', c'. by rewrite <- Heq.
Qed.

(** C38: The interrupt handler decodes a keyboard's byte stream: for every
    sequence of key presses and releases, plain or extended, the characters it
    produces are the table's, shifted exactly while a shift key is held, and
    the cursor keys' tokens; prefix bytes never produce a character. *)
Theorem decode_typed es :
  Forall (fun e => 0 <= key_code e < 0xE0) es ->
  decode_all (mkMods 0 0 false false) (concat (scancodes <$> es)) = typed false es.
Proof.
  intros Hes. cut (forall s c, 0 <= s < 2 ->
    decode_all (mkMods s c false false) (concat (scancodes <$> es)) = typed (negb (s =? 0)) es).
  { intros Hgen. by apply (Hgen 0 0). }
  induction Hes as [|e es He Hes IH]; intros s c Hs; [done|].
  cbn [fmap list_fmap concat typed].
  destruct (decode_event e s c (concat (scancodes <$> es)) Hs He) as (s' & c' & Hs' & Hshift & Hrun).
  rewrite Hrun, <- Hshift, (IH _ _ Hs'). done.
Qed.

Lemma decode_typed_witness :
  decode_all (mkMods 0 0 false false) [0x12; 0x1C; 0xF0; 0x12; 0x1C; 0xE0; 0x75] = [65; 97; 1].
Proof.
  apply (decode_typed [Press 0x12; Press 0x1C; Release 0x12; Press 0x1C; PressExt 0x75]).
  repeat constructor; cbn; lia.
Defined.
