(* ===== verification/Ps2.v ===== *)
(** Initialisation of the PS/2 controller ([src/src/hal/input.rs], [init_impl])
    over its ports, a law for the controller and the keyboard behind it, and
    what the initialisation leaves. *)

From Stdlib Require Import ZArith Lia.
From stdpp Require Import base numbers list.
From S2P Require Import Prelude Machine.

#[local] Open Scope Z_scope.

Definition PS2_DATA : Z := 96.
Definition PS2_STATUS : Z := 100.

Section Ps2.
Context {D : Type} `{Machine D}.
(** The bound on every polling loop. *)
Context (fuel : nat).

Fixpoint wait_accept (n : nat) : M D Empty_set unit :=
  match n with
  | O => hang
  | S n =>
      let! status := inb_m PS2_STATUS in
      if Z.land status 2 =? 0 then ret tt else wait_accept n
  end.

Fixpoint wait_data (n : nat) : M D Empty_set unit :=
  match n with
  | O => hang
  | S n =>
      let! status := inb_m PS2_STATUS in
      if negb (Z.land status 1 =? 0) then ret tt else wait_data n
  end.

(** [while inb(0x64) & 1 != 0 { inb(0x60); }] *)
Fixpoint drain (n : nat) : M D Empty_set unit :=
  match n with
  | O => hang
  | S n =>
      let! status := inb_m PS2_STATUS in
      if negb (Z.land status 1 =? 0) then do! inb_m PS2_DATA in drain n else ret tt
  end.

(** [config |= 1; config &= !0x40; config &= !0x10] *)
Definition new_config (config : Z) : Z :=
  let config := Z.lor config 1 in
  let config := Z.land config (255 - 64) in
  Z.land config (255 - 16).

Definition command (c : Z) : M D Empty_set unit :=
  do! wait_accept fuel in outb_m PS2_STATUS c.

Definition ps2_init : M D Empty_set unit :=
  do! inb_m PS2_DATA in
  do! command 0xAD in
  do! command 0xA7 in
  do! inb_m PS2_DATA in
  do! command 0x20 in
  do! wait_data fuel in
  let! config := inb_m PS2_DATA in
  do! command 0x60 in
  do! wait_accept fuel in
  do! outb_m PS2_DATA (new_config config) in
  do! command 0xAE in
  drain fuel.
End Ps2.

(** ** The controller

    What software can know of it: its configuration byte, the byte in the
    output buffer, a reply on its way there, and whether the next data byte is
    taken for the configuration. *)
Record Ctl : Type := mkCtl {
  config : Z;
  output : option Z;
  reply : option Z;
  expects : bool;
}.

Definition empty_output (c : Ctl) : Ctl := mkCtl (config c) None (reply c) (expects c).
Definition with_config (v : Z) (c : Ctl) : Ctl := mkCtl v (output c) (reply c) false.

(** The commands that the driver sends. *)
Definition run_command (v : Z) (c : Ctl) : Ctl :=
  if v =? 0xAD then mkCtl (Z.lor (config c) 16) (output c) (reply c) (expects c)
  else if v =? 0xA7 then mkCtl (Z.lor (config c) 32) (output c) (reply c) (expects c)
  else if v =? 0xAE then mkCtl (Z.land (config c) (255 - 16)) (output c) (reply c) (expects c)
  else if v =? 0x20 then mkCtl (config c) (output c) (Some (config c)) (expects c)
  else if v =? 0x60 then mkCtl (config c) (output c) (reply c) true
  else c.

(** What may happen inside while software looks away: nothing, with time passing
    for a reply; the reply comes; or the keyboard, when it is not disabled, puts
    one of the bytes it has. [keys] counts these, [delay] the time of a reply. *)
Inductive moves : Ctl * nat * nat -> Ctl * nat * nat -> Prop :=
| moves_none c keys delay delay' :
    (reply c = None \/ output c <> None \/ (delay' < delay)%nat) -> moves (c, keys, delay) (c, keys, delay')
| moves_reply c b keys delay delay' :
    output c = None -> reply c = Some b ->
    moves (c, keys, delay) (mkCtl (config c) (Some b) None (expects c), keys, delay')
| moves_key c k keys keys' delay delay' :
    output c = None -> reply c = None -> Z.testbit (config c) 4 = false -> (keys' < keys)%nat ->
    moves (c, keys, delay) (mkCtl (config c) (Some k) None (expects c), keys', delay').

(** A controller: the status register tells of the output and input buffers, a
    command sent when the input buffer is free is carried out, and the input
    buffer is free again, and a reply there, after at most [slowest] looks. *)
Class Controller (D : Type) `{Machine D} := {
  ctl : D -> Ctl;
  keys : D -> nat;
  delay : D -> nat;
  busy : D -> nat;
  slowest : nat;
  status_output : forall d, (Z.land (inb PS2_STATUS d).1 1 =? 0) = true <-> output (ctl d) = None;
  status_busy : forall d, (Z.land (inb PS2_STATUS d).1 2 =? 0) = true <-> busy d = O;
  status_moves : forall d, let d' := (inb PS2_STATUS d).2 in
    moves (ctl d, keys d, delay d) (ctl d', keys d', delay d') /\ busy d' = Nat.pred (busy d);
  data_output : forall d b, output (ctl d) = Some b -> (inb PS2_DATA d).1 = b;
  data_moves : forall d, let d' := (inb PS2_DATA d).2 in
    moves (empty_output (ctl d), keys d, delay d) (ctl d', keys d', delay d') /\ busy d' = busy d;
  command_runs : forall d v, busy d = O ->
    ctl (outb PS2_STATUS v d) = run_command v (ctl d) /\ keys (outb PS2_STATUS v d) = keys d;
  data_config : forall d v, busy d = O -> expects (ctl d) = true ->
    ctl (outb PS2_DATA v d) = with_config v (ctl d) /\ keys (outb PS2_DATA v d) = keys d;
  slowest_busy : forall d, (busy d <= slowest)%nat;
  slowest_delay : forall d, (delay d <= slowest)%nat;
}.

(** The controller at rest: nothing on its way and no configuration expected. *)
Definition at_rest (c : Ctl) : Prop := reply c = None /\ expects c = false.

(** The last access was a look at the status that found the output buffer empty:
    a byte in it now was typed since. *)
Definition just_empty {D : Type} `{Controller D} (d : D) : Prop :=
  exists d1, output (ctl d1) = None /\ d = (inb PS2_STATUS d1).2.

(** Bytes in the output buffer. *)
Definition pending (c : Ctl) : nat := match output c with Some _ => 1 | None => 0 end.

(** ** Phases of the initialisation *)

Lemma moves_rest c k t c' k' t' :
  moves (c, k, t) (c', k', t') -> reply c = None ->
  config c' = config c /\ reply c' = None /\ expects c' = expects c
  /\ (k' + pending c' <= k + pending c)%nat /\ (k' <= k)%nat /\ (output c <> None -> c' = c).
Proof.
  unfold pending. inversion 1; subst; cbn; intros Hr; try congruence; split_and!;
    first [done | lia | congruence].
Qed.

(** With the keyboard disabled nothing moves. *)
Lemma moves_quiet c k t c' k' t' :
  moves (c, k, t) (c', k', t') -> reply c = None -> Z.testbit (config c) 4 = true -> c' = c /\ k' = k.
Proof. inversion 1; subst; intros; split; congruence. Qed.

Section Runs.
Context {D : Type} `{Controller D}.

(** A phase that looking at the status does not end. *)
Definition stable (P : D -> Prop) : Prop := forall d, P d -> P (inb PS2_STATUS d).2.

Lemma wait_accept_run (P : D -> Prop) n d :
  stable P -> P d -> (busy d < n)%nat ->
  exists d', wait_accept n d = (Ret tt, d') /\ P d' /\ busy d' = O.
Proof.
  intros HP. revert d. induction n as [|n IH]; intros d Hd Hn; [lia|]. cbn [wait_accept].
  unfold bind, inb_m. pose proof (status_busy d) as Hb. destruct (status_moves d) as [_ Hp].
  specialize (HP d Hd). destruct (inb PS2_STATUS d) as [v d'] eqn:Hi. cbn [fst snd] in *.
  destruct (Z.land v 2 =? 0) eqn:Hv.
  - exists d'. split_and!; [done|done|]. rewrite Hp, (proj1 Hb eq_refl). reflexivity.
  - apply IH; [exact HP|]. rewrite Hp. destruct (busy d); [|cbn; lia].
    discriminate (proj2 Hb eq_refl).
Qed.

Lemma command_sent (P : D -> Prop) fuel v d :
  stable P -> P d -> (slowest < fuel)%nat ->
  exists d1, command fuel v d = (Ret tt, outb PS2_STATUS v d1) /\ P d1
    /\ ctl (outb PS2_STATUS v d1) = run_command v (ctl d1) /\ keys (outb PS2_STATUS v d1) = keys d1.
Proof.
  intros HP Hd Hf. pose proof (slowest_busy d). destruct (wait_accept_run P fuel d HP Hd) as (d1 & R & Hd1 & Hb); [lia|].
  exists d1. destruct (command_runs d1 v Hb) as [Hc Hk]. split_and!; auto.
  unfold command. by run_with R.
Qed.

(** The keyboard on: its bytes come and go. *)
Definition typing (c : Z) (k : nat) (d : D) : Prop :=
  at_rest (ctl d) /\ config (ctl d) = c /\ (keys d <= k)%nat.

(** The keyboard off: the controller is [x]. *)
Definition quiet (x : Ctl) (k : nat) (d : D) : Prop :=
  ctl d = x /\ (keys d <= k)%nat.

Lemma typing_stable c k : stable (typing c k).
Proof.
  intros d ((Hr & He) & Hc & Hk). destruct (status_moves d) as [Hm _].
  destruct (moves_rest _ _ _ _ _ _ Hm Hr) as (Hc' & Hr' & He' & _ & Hk' & _).
  split_and!; [by split; congruence|congruence|lia].
Qed.

Lemma quiet_stable x k : reply x = None -> Z.testbit (config x) 4 = true -> stable (quiet x k).
Proof.
  intros Hr H4 d (Hx & Hk). destruct (status_moves d) as [Hm _]. subst x.
  destruct (moves_quiet _ _ _ _ _ _ Hm Hr H4) as [Hc Hk']. split; [done|lia].
Qed.

Lemma data_typing c k d : typing c k d -> typing c k (inb PS2_DATA d).2.
Proof.
  intros ((Hr & He) & Hc & Hk). destruct (data_moves d) as [Hm _].
  destruct (moves_rest _ _ _ _ _ _ Hm Hr) as (Hc' & Hr' & He' & _ & Hk' & _). cbn in *.
  split_and!; [by split; congruence|congruence|lia].
Qed.

Lemma data_quiet x k d :
  reply x = None -> Z.testbit (config x) 4 = true -> quiet x k d ->
  quiet (empty_output x) k (inb PS2_DATA d).2.
Proof.
  intros Hr H4 (Hx & Hk). destruct (data_moves d) as [Hm _]. subst x.
  destruct (moves_quiet _ _ _ _ _ _ Hm Hr H4) as [Hc Hk']. split; [done|lia].
Qed.

(** The wait for the configuration ends with it in the output buffer. *)
Lemma wait_data_run c e k n d :
  Z.testbit c 4 = true -> (keys d <= k)%nat ->
  (ctl d = mkCtl c None (Some c) e /\ (S (delay d) < n)%nat \/ ctl d = mkCtl c (Some c) None e /\ (0 < n)%nat) ->
  exists d', wait_data n d = (Ret tt, d') /\ quiet (mkCtl c (Some c) None e) k d'.
Proof.
  intros H4. revert d. induction n as [|n IH]; intros d Hk Hd; [lia|]. cbn [wait_data].
  unfold bind, inb_m. pose proof (status_output d) as Ho. destruct (status_moves d) as [Hm _].
  destruct (inb PS2_STATUS d) as [v d'] eqn:Hi. cbn [fst snd] in *.
  destruct Hd as [(Hc & Hn)|(Hc & _)]; rewrite Hc in *; cbn [output] in Ho.
  - rewrite (proj2 Ho eq_refl). cbn [negb]. inversion Hm as [? ? ? ? Hor|? ? ? ? ? ? Hb|]; subst; cbn in *; try congruence.
    + apply IH; [lia|left]. split; [done|]. destruct Hor as [|[|]]; [done|done|lia].
    + injection Hb as <-. apply IH; [lia|right]. split; [done|lia].
  - destruct (Z.land v 1 =? 0); [discriminate (proj1 Ho eq_refl)|].
    exists d'. split; [done|]. destruct (moves_quiet _ _ _ _ _ _ Hm eq_refl H4) as [Hc' Hk'].
    split; [done|lia].
Qed.

(** The last loop ends: every byte it drops is one the keyboard has sent, and
    its last look finds nothing. *)
Lemma drain_run c k n d :
  typing c k d -> (keys d + pending (ctl d) < n)%nat ->
  exists d', drain n d = (Ret tt, d') /\ typing c k d' /\ just_empty d'.
Proof.
  revert d. induction n as [|n IH]; intros d Hd Hn; [lia|]. cbn [drain].
  unfold bind, inb_m. pose proof (status_output d) as Ho. pose proof (typing_stable c k d Hd) as Hd'.
  destruct (status_moves d) as [Hm _]. destruct (inb PS2_STATUS d) as [v d'] eqn:Hi. cbn [fst snd] in *.
  destruct (Z.land v 1 =? 0); cbn [negb].
  { exists d'. split_and!; [done|apply Hd'..|]. exists d. rewrite Hi. split; [by apply Ho|done]. }
  assert (output (ctl d) <> None) as Hne by (intros Hx; discriminate (proj2 Ho Hx)).
  destruct Hd as ((Hr & _) & _). destruct (moves_rest _ _ _ _ _ _ Hm Hr) as (_ & Hr' & _ & _ & Hk & Hsame).
  pose proof (data_typing c k d' Hd') as Hd''. destruct (data_moves d') as [Hm2 _].
  destruct (inb PS2_DATA d') as [b d''] eqn:Hi2. cbn [fst snd] in *. apply IH; [done|].
  destruct (moves_rest _ _ _ _ _ _ Hm2 Hr') as (_ & _ & _ & Hle & _). 
  change (pending (empty_output (ctl d'))) with O in Hle.
  assert (pending (ctl d) = 1%nat) by (unfold pending; by destruct (output (ctl d))). lia.
Qed.

(** Sends the two commands that disable the ports and empties the buffer. *)
Lemma disable_run fuel c0 k d :
  typing c0 k d -> (slowest < fuel)%nat ->
  exists d1 d2, command fuel 0xAD d = (Ret tt, d1) /\ command fuel 0xA7 d1 = (Ret tt, d2)
    /\ quiet (mkCtl (Z.lor (Z.lor c0 16) 32) None None false) k (inb PS2_DATA d2).2.
Proof.
  intros Hd Hf.
  destruct (command_sent (typing c0 k) fuel 0xAD d) as (e1 & R1 & ((Hr & He) & Hc & Hk) & Hx1 & Hk1);
    [apply typing_stable|done|done|].
  set (x := mkCtl (Z.lor c0 16) (output (ctl e1)) None false).
  assert (quiet x k (outb PS2_STATUS 0xAD e1)) as Hq1.
  { split; [|lia]. rewrite Hx1. unfold x. cbn. by rewrite Hc, Hr, He. }
  assert (Z.testbit (config x) 4 = true) as Hx by (cbn [config x]; by rewrite Z.lor_spec, orb_true_r).
  destruct (command_sent (quiet x k) fuel 0xA7 (outb PS2_STATUS 0xAD e1)) as (e2 & R2 & (Hx2 & Hk2) & Hc2 & Hk3);
    [by apply quiet_stable|done|done|].
  eexists _, _. split_and!; [exact R1|exact R2|].
  assert (quiet (mkCtl (Z.lor (Z.lor c0 16) 32) (output x) None false) k (outb PS2_STATUS 0xA7 e2)) as Hq2.
  { split; [|lia]. by rewrite Hc2, Hx2. }
  apply data_quiet in Hq2; [exact Hq2|done|]. cbn [config]. by rewrite !Z.lor_spec, orb_true_r.
Qed.

(** Asks for the configuration and reads it. *)
Lemma get_config_run fuel c k d :
  Z.testbit c 4 = true -> quiet (mkCtl c None None false) k d -> (S slowest < fuel)%nat ->
  exists d1 d2, command fuel 0x20 d = (Ret tt, d1) /\ wait_data fuel d1 = (Ret tt, d2)
    /\ (inb PS2_DATA d2).1 = c /\ quiet (mkCtl c None None false) k (inb PS2_DATA d2).2.
Proof.
  intros H4 Hd Hf.
  destruct (command_sent (quiet (mkCtl c None None false) k) fuel 0x20 d) as (e1 & R1 & (Hx & Hk) & Hc & Hk1);
    [by apply quiet_stable|done|lia|].
  rewrite Hx in Hc. cbn in Hc. pose proof (slowest_delay (outb PS2_STATUS 32 e1)).
  destruct (wait_data_run c false k fuel (outb PS2_STATUS 32 e1)) as (d2 & R2 & Hd2);
    [done|lia|left; split; [done|lia]|].
  eexists _, d2. split_and!; [exact R1|exact R2| |].
  - apply data_output. by rewrite (proj1 Hd2).
  - by apply (data_quiet (mkCtl c (Some c) None false) k d2) in Hd2.
Qed.

(** Writes the configuration. *)
Lemma put_config_run fuel c v k d :
  Z.testbit c 4 = true -> quiet (mkCtl c None None false) k d -> (slowest < fuel)%nat ->
  exists d1 d2, command fuel 0x60 d = (Ret tt, d1) /\ wait_accept fuel d1 = (Ret tt, d2)
    /\ typing v k (outb PS2_DATA v d2).
Proof.
  intros H4 Hd Hf.
  destruct (command_sent (quiet (mkCtl c None None false) k) fuel 0x60 d) as (e1 & R1 & (Hx & Hk) & Hc & Hk1);
    [by apply quiet_stable|done|lia|].
  rewrite Hx in Hc. cbn in Hc. pose proof (slowest_busy (outb PS2_STATUS 96 e1)).
  destruct (wait_accept_run (quiet (mkCtl c None None true) k) fuel (outb PS2_STATUS 96 e1)) as (d2 & R2 & (Hx2 & Hk2) & Hb);
    [by apply quiet_stable|split; [done|lia]|lia|].
  eexists _, d2. split_and!; [exact R1|exact R2|].
  destruct (data_config d2 v Hb) as [Hv Hkv]; [by rewrite Hx2|]. rewrite Hx2 in Hv. cbn in Hv.
  split_and!; [by rewrite Hv|by rewrite Hv|lia].
Qed.

(** Enables the keyboard and drops what it has sent. *)
Lemma enable_run fuel v k d :
  typing v k d -> Z.land v (255 - 16) = v -> (S (slowest + k) < fuel)%nat ->
  exists d1 d2, command fuel 0xAE d = (Ret tt, d1) /\ drain fuel d1 = (Ret tt, d2) /\ typing v k d2 /\ just_empty d2.
Proof.
  intros Hd Hv Hf.
  destruct (command_sent (typing v k) fuel 0xAE d) as (e1 & R1 & ((Hr & He) & Hc & Hk) & Hx & Hk1);
    [apply typing_stable|done|lia|].
  assert (typing v k (outb PS2_STATUS 0xAE e1)) as Ht.
  { unfold typing, at_rest. rewrite Hx. change (run_command 174 ?c) with (mkCtl (Z.land (config c) (255 - 16)) (output c) (reply c) (expects c)).
    cbn [reply expects config]. rewrite Hc. split_and!; [done|done|done|lia]. }
  destruct (drain_run v k fuel _ Ht) as (d2 & R2 & Hd2).
  { unfold pending. destruct (output _); lia. }
  by eexists _, d2.
Qed.
End Runs.

(** ** A controller with a keyboard that types *)

Record I8042 : Type := mkI8042 { i_ctl : Ctl; i_keys : list Z; i_delay : nat; i_busy : nat }.

(** What goes on inside at every look. *)
Definition inside (c : Ctl) (ks : list Z) (t : nat) : Ctl * list Z * nat :=
  match output c, reply c, ks with
  | Some _, _, _ => (c, ks, t)
  | None, Some b, _ =>
      match Nat.min 2 t with
      | O => (mkCtl (config c) (Some b) None (expects c), ks, O)
      | S t => (c, ks, t)
      end
  | None, None, key :: rest =>
      if Z.testbit (config c) 4 then (c, ks, t) else (mkCtl (config c) (Some key) None (expects c), rest, t)
  | None, None, [] => (c, ks, t)
  end.

Definition look (c : Ctl) (s : I8042) (busy : nat) : I8042 :=
  let '(c, ks, t) := inside c (i_keys s) (i_delay s) in mkI8042 c ks t busy.

#[export] Instance i8042_machine : Machine I8042 := {
  inb port s :=
    if port =? PS2_STATUS
    then (Z.of_nat (pending (i_ctl s)) + 2 * (if (i_busy s =? 0)%nat then 0 else 1),
          look (i_ctl s) s (Nat.pred (Nat.min 2 (i_busy s))))
    else (default 0 (output (i_ctl s)), look (empty_output (i_ctl s)) s (i_busy s));
  outb port v s :=
    if port =? PS2_STATUS
    then mkI8042 (run_command v (i_ctl s)) (i_keys s) 2 2
    else if expects (i_ctl s) then mkI8042 (with_config v (i_ctl s)) (i_keys s) (i_delay s) 2
    else s;
  inw _ s := (0, s);
  outw _ _ s := s;
  rdtsc s := (0, s);
}.

Lemma look_moves c s busy :
  moves (c, length (i_keys s), Nat.min 2 (i_delay s))
    (i_ctl (look c s busy), length (i_keys (look c s busy)), Nat.min 2 (i_delay (look c s busy))).
Proof.
  unfold look, inside. destruct (output c) eqn:Ho.
  { apply moves_none. right. left. cbn. by rewrite Ho. }
  destruct (reply c) eqn:Hr.
  - destruct (Nat.min 2 (i_delay s)) as [|t] eqn:Ht; [by apply moves_reply|].
    apply moves_none. right. right. cbn [i_delay]. lia.
  - destruct (i_keys s) as [|key rest]; [apply moves_none; by left|].
    destruct (Z.testbit (config c) 4) eqn:H4; [apply moves_none; by left|].
    apply moves_key; [done|done|done|cbn; lia].
Qed.

Lemma look_busy c s busy : i_busy (look c s busy) = busy.
Proof. unfold look. by destruct (inside _ _ _) as [[? ?] ?]. Qed.

#[export, refine] Instance i8042_controller : Controller I8042 := {
  ctl := i_ctl;
  keys s := length (i_keys s);
  delay s := Nat.min 2 (i_delay s);
  busy s := Nat.min 2 (i_busy s);
  slowest := 2;
}.
Proof.
  - intros [c ks t b]. cbn. unfold pending. destruct (output c), (b =? 0)%nat; cbn; split; first [done | discriminate].
  - intros [c ks t b]. cbn. unfold pending. destruct (output c), b as [|b]; cbn; split; first [done | discriminate].
  - intros s. split; [apply look_moves|]. 
    change (Nat.min 2 (i_busy (look (i_ctl s) s (Nat.pred (Nat.min 2 (i_busy s))))) = Nat.pred (Nat.min 2 (i_busy s))).
    rewrite look_busy. lia.
  - intros s b Hb. cbn. by rewrite Hb.
  - intros s. split; [apply look_moves|]. 
    change (Nat.min 2 (i_busy (look (empty_output (i_ctl s)) s (i_busy s))) = Nat.min 2 (i_busy s)).
    by rewrite look_busy.
  - intros s v _. done.
  - intros s v _ He. cbn in *. by rewrite He.
  - intros s. lia.
  - intros s. lia.
Defined.

(** ** Properties *)

(** The configuration that the driver leaves: interrupt of the first port on,
    translation off, keyboard on, second port off, the rest as it was. *)
Definition configured (c0 : Z) : Z := new_config (Z.lor (Z.lor c0 16) 32).

Definition config_bit (c0 i : Z) : bool :=
  if (i =? 0) || (i =? 5) then true
  else if (i =? 4) || (i =? 6) then false
  else (i <? 8) && Z.testbit c0 i.

Lemma configured_bits c0 i : 0 <= i -> Z.testbit (configured c0) i = config_bit c0 i.
Proof.
  intros Hi. unfold configured, new_config, config_bit.
  rewrite !Z.land_spec, !Z.lor_spec.
  destruct (decide (i < 8)) as [Hlt|Hge].
  - assert (i = 0 \/ i = 1 \/ i = 2 \/ i = 3 \/ i = 4 \/ i = 5 \/ i = 6 \/ i = 7) as Hcase by lia.
    repeat (destruct Hcase as [->|Hcase] || subst i);
      cbn; by rewrite ?orb_false_r, ?orb_true_r, ?andb_true_r, ?andb_false_r.
  - assert (Z.log2 (255 - 16) = 7) by reflexivity.
    rewrite (Z.bits_above_log2 (255 - 16) i), andb_false_r by lia. symmetry.
    rewrite (proj2 (Z.ltb_ge i 8)) by lia.
    repeat (rewrite (proj2 (Z.eqb_neq _ _)) by lia). reflexivity.
Qed.

Lemma inb_run {D : Type} `{Machine D} port (d : D) :
  inb_m (E := Empty_set) port d = (Ret (inb port d).1, (inb port d).2).
Proof. unfold inb_m. by destruct (inb port d). Qed.

(** C29: In whatever state the controller is (with no reply or configuration byte
    outstanding) and whenever keys are typed meanwhile, the initialisation ends
    with the configuration that the driver wants (first port's interrupt on,
    translation off, keyboard enabled, second port off, the other bits as they
    were), and its last access found the output buffer empty: no byte typed
    before is left there. *)
Theorem ps2_init_correct {D : Type} `{Controller D} fuel (d : D) :
  at_rest (ctl d) -> (S (slowest + keys d) < fuel)%nat ->
  exists d', ps2_init fuel d = (Ret tt, d') /\ at_rest (ctl d') /\ just_empty d'
    /\ (forall i, 0 <= i -> Z.testbit (config (ctl d')) i = config_bit (config (ctl d)) i).
Proof.
  intros Hrest Hf. set (c0 := config (ctl d)). set (k := keys d).
  assert (typing c0 k d) as Ht by (split_and!; [done|done|lia]). apply data_typing in Ht.
  destruct (disable_run fuel c0 k _ Ht) as (d1 & d2 & R1 & R2 & Hq); [lia|].
  set (c := Z.lor (Z.lor c0 16) 32) in *.
  assert (Z.testbit c 4 = true) as H4 by (unfold c; by rewrite !Z.lor_spec, orb_true_r).
  destruct (get_config_run fuel c k _ H4 Hq) as (d3 & d4 & R3 & R4 & Hv & Hq2); [lia|].
  destruct (put_config_run fuel c (new_config c) k _ H4 Hq2) as (d5 & d6 & R5 & R6 & Ht2); [lia|].
  destruct (enable_run fuel (new_config c) k _ Ht2) as (d7 & d8 & R7 & R8 & Hd8 & He).
  { unfold new_config. by rewrite <- Z.land_assoc, Z.land_diag. }
  { unfold k. lia. }
  exists d8. destruct Hd8 as (Hr & Hc & _). split_and!; [|apply Hr..|done|].
  - unfold ps2_init. run_with (inb_run PS2_DATA d). run_with R1. run_with R2.
    run_with (inb_run PS2_DATA d2). run_with R3. run_with R4. run_with (inb_run PS2_DATA d4).
    rewrite Hv. run_with R5. run_with R6. unfold bind at 1, outb_m. by run_with R7.
  - intros i Hi. rewrite Hc. by apply configured_bits.
Qed.

Lemma ps2_init_correct_witness :
  let s := mkI8042 (mkCtl 0x74 (Some 0x1C) None false) [0x1C; 0xF0; 0x1C] 0 1 in
  exists d', ps2_init 10 s = (Ret tt, d') /\ config (ctl d') = 0x25.
Proof.
  destruct (ps2_init_correct 10 (mkI8042 (mkCtl 0x74 (Some 0x1C) None false) [0x1C; 0xF0; 0x1C] 0 1))
    as (d' & R & _ & _ & _); [by split|cbn; lia|].
  exists d'. split; [exact R|]. revert R. vm_compute. intros R. injection R as <-. reflexivity.
Defined.
