(* ===== verification/Shell.v ===== *)
(** The interactive shell ([src/src/shell/mod.rs]): the line editor, the
    history and the command dispatch. The display is its sequence of calls; the
    applets, whose code is not part of the shell, appear as calls by name. *)

From Stdlib Require Import ZArith Lia Ascii String.
From stdpp Require Import base numbers list gmap.
From S2P Require Import Prelude Text.

#[local] Open Scope Z_scope.

(** ** State *)

Definition MAX_CMD : nat := 256.
Definition HISTORY_SIZE : nat := 64.

(** Calls on the display, and calls out of the shell. *)
Inductive event : Type :=
| Put (c : Z)
| Cursor
| Clear
| Shutdown
| Run (applet : list Z) (args : list (list Z)).

(** [Shell], less the display, input and registry handles. *)
Record Shell : Type := mkShell {
  cursor_pos : nat;
  history_entries : list (list Z);
  history_lens : list nat;
  history_count : nat;
  history_cursor : Z;
  out : list event;
}.

Definition Shell_new : Shell :=
  mkShell 0 (replicate HISTORY_SIZE (replicate MAX_CMD 0)) (replicate HISTORY_SIZE O) 0 (-1) [].

(** The shell with the locals [buf] and [len] of [run]. *)
Record Line : Type := mkLine { sh : Shell; buf : list Z; len : nat }.

Definition emit (es : list event) (s : Shell) : Shell :=
  mkShell (cursor_pos s) (history_entries s) (history_lens s) (history_count s)
    (history_cursor s) (out s ++ es).
Definition set_cursor_pos (n : nat) (s : Shell) : Shell :=
  mkShell n (history_entries s) (history_lens s) (history_count s) (history_cursor s) (out s).
Definition set_history_cursor (n : Z) (s : Shell) : Shell :=
  mkShell (cursor_pos s) (history_entries s) (history_lens s) (history_count s) n (out s).

(** [display.write]; [display.writeln]. *)
Definition write (s : list Z) : list event := Put <$> s.
Definition writeln (s : list Z) : list event := write s ++ [Put 10].

Definition PROMPT : list Z := str "$ ".

(** ** History *)

Definition history_push (b : list Z) (s : Shell) : Shell :=
  let n := Nat.min (length b) MAX_CMD in
  if (n =? 0)%nat then s
  else
    let max_shift := Nat.min (history_count s) (HISTORY_SIZE - 1) in
    let entries := splice 1 (take max_shift (history_entries s)) (history_entries s) in
    let lens := splice 1 (take max_shift (history_lens s)) (history_lens s) in
    let first := splice 0 (take n b) (default [] (head entries)) in
    mkShell (cursor_pos s) (<[0%nat := first]> entries) (<[0%nat := n]> lens)
      (if (history_count s <? HISTORY_SIZE)%nat then S (history_count s) else history_count s)
      (history_cursor s) (out s).

Definition history_get (idx : nat) (s : Shell) : list Z :=
  if (idx <? history_count s)%nat
  then take (default O (history_lens s !! idx)) (default [] (history_entries s !! idx))
  else [].

(** ** The line editor *)

Section Editor.
(** [self.display.cols()]. *)
Context (cols : nat).

Definition redraw_input (b : list Z) (n : nat) (s : Shell) : Shell :=
  let line_clear := (cols - 2 - 1)%nat in
  emit (Put 13 :: write PROMPT ++ replicate line_clear (Put 32) ++ Put 13 :: write PROMPT
        ++ write (take n b) ++ replicate (n - cursor_pos s) (Put 8)) s.

(** A key that is not Enter. The moves of the buffer's bytes are slices of a
    256-byte array: out of bounds they panic. *)
Definition edit_key (c : Z) : M Line Empty_set unit := fun l =>
  let s := sh l in
  if (c =? 8) || (c =? 127) then
    if (0 <? cursor_pos s)%nat && (0 <? len l)%nat then
      let tail := take (len l - cursor_pos s) (drop (cursor_pos s) (buf l)) in
      match copy_into (cursor_pos s - 1) tail (buf l) with
      | None => (Panic, l)
      | Some b =>
          let s := set_cursor_pos (cursor_pos s - 1) s in
          let n := (len l - 1)%nat in
          (Ret tt, mkLine (emit [Cursor] (redraw_input b n s)) b n)
      end
    else (Ret tt, l)
  else if c =? 3 then
    if (0 <? cursor_pos s)%nat then
      (Ret tt, mkLine (emit [Put 8; Cursor] (set_cursor_pos (cursor_pos s - 1) s)) (buf l) (len l))
    else (Ret tt, l)
  else if c =? 4 then
    if (cursor_pos s <? len l)%nat then
      (Ret tt, mkLine (emit [Put (byte_at (buf l) (cursor_pos s)); Cursor]
                         (set_cursor_pos (S (cursor_pos s)) s)) (buf l) (len l))
    else (Ret tt, l)
  else if c =? 1 then
    if history_cursor s <? Z.of_nat (history_count s) - 1 then
      let s := set_history_cursor (history_cursor s + 1) s in
      let entry := history_get (Z.to_nat (history_cursor s)) s in
      let n := Nat.min (length entry) MAX_CMD in
      let b := splice 0 (take n entry) (buf l) in
      let s := set_cursor_pos n s in
      (Ret tt, mkLine (emit [Cursor] (redraw_input b n s)) b n)
    else (Ret tt, l)
  else if c =? 2 then
    if 0 <=? history_cursor s then
      let s := set_history_cursor (history_cursor s - 1) s in
      if history_cursor s =? -1 then
        (Ret tt, mkLine (emit [Cursor] (redraw_input (buf l) 0 (set_cursor_pos 0 s))) (buf l) 0)
      else
        let entry := history_get (Z.to_nat (history_cursor s)) s in
        let n := Nat.min (length entry) MAX_CMD in
        let b := splice 0 (take n entry) (buf l) in
        let s := set_cursor_pos n s in
        (Ret tt, mkLine (emit [Cursor] (redraw_input b n s)) b n)
    else (Ret tt, l)
  else if (32 <=? c) && (c <? 127) then
    if (len l <? cols - 2)%nat then
      let tail := take (len l - cursor_pos s) (drop (cursor_pos s) (buf l)) in
      match copy_into (S (cursor_pos s)) tail (buf l) with
      | None => (Panic, l)
      | Some b =>
          let b := <[cursor_pos s := c]> b in
          let s := set_cursor_pos (S (cursor_pos s)) s in
          (Ret tt, mkLine (emit [Cursor] (redraw_input b (S (len l)) s)) b (S (len l)))
      end
    else (Ret tt, l)
  else (Ret tt, l).

(** The start of an iteration of [run]. *)
Definition new_line (s : Shell) : Line :=
  mkLine (set_history_cursor (-1) (set_cursor_pos 0 (emit (write PROMPT ++ [Cursor]) s)))
    (replicate MAX_CMD 0) 0.

(** The inner loop of [run] on the keys typed: the command line and the keys
    left, or [None] while Enter has not come. *)
Fixpoint read_line (keys : list Z) : M Line Empty_set (option (list Z * list Z)) :=
  match keys with
  | [] => ret None
  | c :: keys =>
      if (c =? 10) || (c =? 13) then fun l =>
        let s := emit [Put 10] (sh l) in
        let cmd := take (len l) (buf l) in
        let s := if (0 <? len l)%nat then history_push cmd s else s in
        (Ret (Some (cmd, keys)), mkLine s (buf l) (len l))
      else do! edit_key c in read_line keys
  end.
End Editor.

(** ** Commands *)

(** [find_space] and [remaining.iter().position(|&b| b == b' ')]. *)
Definition find_space (s : list Z) : option nat := position (Z.eqb 32) s.

(** The loop that splits the arguments: at most sixteen, none empty. Each turn
    drops a byte, so the length is enough fuel. *)
Definition push_arg (s : list Z) (args : list (list Z)) : list (list Z) :=
  match from_utf8 s with
  | Some s => if negb (length s =? 0)%nat && (length args <? 16)%nat then args ++ [s] else args
  | None => args
  end.

Fixpoint args_loop (fuel : nat) (remaining : list Z) (args : list (list Z)) : list (list Z) :=
  match fuel with
  | O => args
  | S fuel =>
      if decide (remaining = []) then args
      else
        match find_space remaining with
        | Some space =>
            args_loop fuel (drop (S space) remaining) (push_arg (take space remaining) args)
        | None => push_arg remaining args
        end
  end.

Definition parse_args (args : list Z) : list (list Z) := args_loop (S (length args)) args [].

(** One line of the [history] command. *)
Definition history_line (s : Shell) (idx : nat) : list event :=
  let num := Z.of_nat idx + 1 in
  [Put 32; Put (u8 (u8 (num / 10) + 48)); Put (u8 (u8 (num mod 10) + 48))] ++ write (str "  ") ++
  match from_utf8 (history_get idx s) with
  | Some e => writeln e
  | None => writeln (str "?")
  end.

Definition banner : list event :=
  Clear :: writeln (str "planckOS v0.1 - x86-64 Rust")
  ++ writeln (str "Copyright (C) 2026 Faris Alfarhan") ++ writeln (str "Licensed GPLv3").

(** [builtins::print_cmd] and [print_help]. *)
Definition print_cmd (name desc : list Z) : list event :=
  write (str "  ") ++ write name ++ replicate (12 - length name) (Put 32)
  ++ write (str "- ") ++ writeln desc.

Definition help_table : list (string * string) :=
  [("echo", "Prints text"); ("cls", "Clears screen"); ("banner", "Shows welcome banner");
   ("history", "Shows command history"); ("ls", "List directory contents");
   ("out", "Display file contents"); ("mk", "Create files and directories");
   ("rm", "Remove files and directories"); ("cp", "Copy files and directories");
   ("shutdown", "Shuts down the system"); ("help", "This message")]%string.

(** The registry: the applets' names and descriptions. *)
Definition registry : Type := list (list Z * list Z).

Definition print_help (reg : registry) : list event :=
  writeln (str "Built-in commands:")
  ++ concat ((fun '(n, d) => print_cmd (str n) (str d)) <$> help_table) ++ writeln []
  ++ (if decide (reg = []) then []
      else writeln (str "Applets:") ++ concat ((fun '(n, d) => print_cmd n d) <$> reg)).

(** [handle_builtin]: [None] when the command is not built in. The file
    commands are calls of their applets. *)
Definition handle_builtin (reg : registry) (command args : list Z) (s : Shell) : option Shell :=
  let named name := bool_decide (command = str name) in
  if named "echo"%string then
    Some (match from_utf8 args with Some a => emit (writeln a) s | None => s end)
  else if named "cls"%string then Some (emit [Clear] s)
  else if named "banner"%string then Some (emit banner s)
  else if named "help"%string then Some (emit (print_help reg) s)
  else if named "history"%string then
    Some (emit (concat (history_line s <$> reverse (seq 0 (history_count s)))) s)
  else if named "shutdown"%string then Some (emit (writeln (str "Shutting down...") ++ [Shutdown]) s)
  else if named "ls"%string || named "out"%string || named "mk"%string || named "rm"%string || named "cp"%string
  then Some (emit [Run command (parse_args args)] s)
  else None.

(** What [run] does with a command line. *)
Definition split_command (cmd : list Z) : list Z * list Z :=
  match find_space cmd with
  | Some space => (take space cmd, drop (S space) cmd)
  | None => (cmd, [])
  end.

Definition dispatch (reg : registry) (cmd : list Z) (s : Shell) : Shell :=
  if decide (cmd = []) then s
  else
    let '(command, args) := split_command cmd in
    match handle_builtin reg command args s with
    | Some s => s
    | None =>
        match from_utf8 command with
        | Some name =>
            if existsb (fun a => bool_decide (fst a = name)) reg
            then emit [Run name (parse_args args)] s
            else emit (write (str "Unknown command: ") ++ writeln name) s
        | None => emit (write (str "Unknown command: ") ++ [Put 63; Put 10]) s
        end
    end.

(** [run] on the keys typed. Every line consumes its Enter, so the number of
    keys is enough fuel; the result is the shell waiting for more keys. *)
Fixpoint run (fuel cols : nat) (reg : registry) (keys : list Z) (s : Shell)
  : outcome Empty_set Line :=
  match fuel with
  | O => Hang
  | S fuel =>
      match read_line cols keys (new_line s) with
      | (Ret None, l) => Ret l
      | (Ret (Some (cmd, keys)), l) => run fuel cols reg keys (dispatch reg cmd (sh l))
      | (Err e, _) => Err e
      | (Panic, _) => Panic
      | (Hang, _) => Hang
      end
  end.
