(* ===== verification/ShellSpec.v ===== *)
(** The shell's line editor against an abstract editor: text before and after
    the cursor, and the history as the list of the last 64 command lines. *)

From Stdlib Require Import ZArith Lia Ascii String.
From stdpp Require Import base numbers list gmap.
From S2P Require Import Prelude Text Shell.

#[local] Open Scope Z_scope.

(** ** The abstract editor *)

Record editor : Type := mkEd { before : list Z; after : list Z; recall : Z }.

Definition is_printable (c : Z) : bool := (32 <=? c) && (c <? 127).

(** The newest line is [hist !! 0]; [recall] is the line shown, -1 for none. *)
Definition ed_key (cols : nat) (hist : list (list Z)) (c : Z) (e : editor) : editor :=
  let show n := mkEd (default [] (hist !! Z.to_nat n)) [] n in
  if (c =? 8) || (c =? 127) then mkEd (removelast (before e)) (after e) (recall e)
  else if c =? 3 then
    match last (before e) with
    | Some x => mkEd (removelast (before e)) (x :: after e) (recall e)
    | None => e
    end
  else if c =? 4 then
    match after e with
    | x :: a => mkEd (before e ++ [x]) a (recall e)
    | [] => e
    end
  else if c =? 1 then
    if recall e <? Z.of_nat (length hist) - 1 then show (recall e + 1) else e
  else if c =? 2 then
    if recall e <? 0 then e
    else if recall e =? 0 then mkEd [] [] (-1)
    else show (recall e - 1)
  else if is_printable c && (length (before e) + length (after e) <? cols - 2)%nat
  then mkEd (before e ++ [c]) (after e) (recall e)
  else e.

(** Adding a command line to the history. *)
Definition remember (b : list Z) (hist : list (list Z)) : list (list Z) :=
  if decide (b = []) then hist else take 64 (b :: hist).

(** The keys up to Enter, on the abstract editor: the line, the history
    afterwards and the keys left. *)
Fixpoint ed_line (cols : nat) (hist : list (list Z)) (keys : list Z) (e : editor)
  : option (list Z * list Z) :=
  match keys with
  | [] => None
  | c :: keys =>
      if (c =? 10) || (c =? 13) then Some (before e ++ after e, keys)
      else ed_line cols hist keys (ed_key cols hist c e)
  end.

(** [args] split at spaces, the empty pieces dropped. *)
Fixpoint split_space (p : list Z) : list (list Z) :=
  match p with
  | [] => [[]]
  | b :: p =>
      if b =? 32 then [] :: split_space p
      else match split_space p with [] => [[b]] | c :: cs => (b :: c) :: cs end
  end.

(** ** Representation *)

Record hist_rep (s : Shell) (hist : list (list Z)) : Prop := {
  hp_entries : length (history_entries s) = 64%nat;
  hp_width : Forall (fun e => length e = 256%nat) (history_entries s);
  hp_lens : length (history_lens s) = 64%nat;
  hp_count : history_count s = length hist;
  hp_max : (length hist <= 64)%nat;
  hp_get : forall i h, hist !! i = Some h ->
    (length h <= 256)%nat /\ history_lens s !! i = Some (length h) /\
    exists e, history_entries s !! i = Some e /\ take (length h) e = h;
}.

Record line_rep (hist : list (list Z)) (l : Line) (e : editor) : Prop := {
  lp_hist : hist_rep (sh l) hist;
  lp_buf : length (buf l) = 256%nat;
  lp_text : take (len l) (buf l) = before e ++ after e;
  lp_len : len l = (length (before e) + length (after e))%nat;
  lp_max : (len l <= 256)%nat;
  lp_cursor : cursor_pos (sh l) = length (before e);
  lp_recall : history_cursor (sh l) = recall e;
  lp_range : -1 <= recall e < Z.of_nat (length hist) \/ recall e = -1;
}.

(** ** Lemmas *)

Lemma hist_rep_same s s' hist :
  hist_rep s hist -> history_entries s' = history_entries s -> history_lens s' = history_lens s ->
  history_count s' = history_count s -> hist_rep s' hist.
Proof. intros [] He Hl Hc. split; rewrite ?He, ?Hl, ?Hc; done. Qed.

Lemma hist_rep_get s hist i h :
  hist_rep s hist -> hist !! i = Some h -> history_get i s = h /\ (length h <= 256)%nat.
Proof.
  intros Hr Hi. destruct (hp_get _ _ Hr _ _ Hi) as (Hle & Hl & e & He & Ht).
  unfold history_get. rewrite (hp_count _ _ Hr).
  destruct (Nat.ltb_spec i (length hist)) as [_|Hge].
  - rewrite Hl, He. cbn. by split.
  - apply lookup_lt_Some in Hi. lia.
Qed.

Lemma hist_rep_new : hist_rep Shell_new [].
Proof.
  split; try done; [|cbn; lia].
  apply Forall_replicate. by rewrite length_replicate.
Qed.

Lemma splice_head {A} (b l : list A) : (length b <= length l)%nat -> take (length b) (splice 0 b l) = b.
Proof. intros. unfold splice. rewrite take_0, app_nil_l. apply take_app_length. Qed.

Lemma hist_rep_push s hist b :
  hist_rep s hist -> (length b <= 256)%nat -> hist_rep (history_push b s) (remember b hist).
Proof.
  intros Hr Hb. unfold history_push, remember, MAX_CMD, HISTORY_SIZE.
  rewrite Nat.min_l by done.
  destruct b as [|x b']; [done|]. remember (x :: b') as b eqn:Hbe.
  destruct (Nat.eqb_spec (length b) 0) as [H0|_]; [by subst|].
  destruct (decide (b = [])) as [?|_]; [by subst|].
  destruct Hr as [He Hw Hl Hc Hm Hg].
  set (k := Nat.min (history_count s) (64 - 1)).
  assert (length (take k (history_entries s)) = k /\ length (take k (history_lens s)) = k) as [Hk1 Hk2]
    by (autorewrite with len; lia).
  assert (length (splice 1 (take k (history_entries s)) (history_entries s)) = 64%nat) as Hse
    by (rewrite length_splice; lia).
  assert (length (splice 1 (take k (history_lens s)) (history_lens s)) = 64%nat) as Hsl
    by (rewrite length_splice; lia).
  assert (Forall (fun e => length e = 256%nat)
            (splice 1 (take k (history_entries s)) (history_entries s))) as Hsw.
  { unfold splice. apply Forall_app. split; [by apply Forall_take|].
    apply Forall_app. split; [by apply Forall_take|by apply Forall_drop]. }
  destruct (lookup_lt_is_Some_2 (splice 1 (take k (history_entries s)) (history_entries s)) 0)
    as [e0 He0]; [lia|].
  assert (length e0 = 256%nat) as Hle0 by (by eapply Forall_lookup_1 in Hsw).
  rewrite head_lookup, He0. cbn [default]. rewrite firstn_all.
  assert (length (splice 0 b e0) = 256%nat) as Hf by (rewrite length_splice; lia).
  split; cbn [history_entries history_lens history_count].
  - by rewrite length_insert.
  - by apply Forall_insert.
  - by rewrite length_insert.
  - rewrite length_take, length_cons, Hc. destruct (Nat.ltb_spec (length hist) 64); lia.
  - rewrite length_take. lia.
  - intros [|i] h Hi.
    + rewrite lookup_take_lt in Hi by lia. cbn in Hi. simplify_eq. split_and!; [done| |].
      * apply list_lookup_insert_eq. lia.
      * eexists. split; [apply list_lookup_insert_eq; lia|]. apply splice_head. unfold id. lia.
    + apply lookup_take_Some in Hi as [Hi Hlt]. cbn in Hi.
      destruct (Hg _ _ Hi) as (Hlh & Hli & e & Hei & Hte).
      pose proof (lookup_lt_Some _ _ _ Hi).
      rewrite !list_lookup_insert_ne by done.
      assert (i < k)%nat by lia.
      rewrite !splice_lookup_in by lia. cbn [Nat.sub]. rewrite Nat.sub_0_r.
      rewrite !lookup_take_lt by lia. split_and!; [done|done|by exists e].
Qed.

Lemma take_prefix {A} n (b p q : list A) :
  take n b = p ++ q -> (length p <= n)%nat -> take (length p) b = p.
Proof.
  intros Ht Hn. transitivity (take (length p) (p ++ q)); [|apply take_app_length].
  rewrite <- Ht, take_take. f_equal. lia.
Qed.

(** The two ways a buffer is rewritten under the cursor. *)
Lemma copy_left (b bef : list Z) (x : Z) (aft : list Z) :
  length b = 256%nat -> take (length bef + 1 + length aft) b = bef ++ x :: aft ->
  exists b', copy_into (length bef) aft b = Some b' /\ length b' = 256%nat /\
    take (length bef + length aft) b' = bef ++ aft.
Proof.
  intros Hl Ht. pose proof (f_equal length Ht) as Hlt. autorewrite with len in Hlt. cbn in Hlt.
  unfold copy_into. rewrite decide_True by lia. eexists. split; [done|].
  rewrite length_splice by lia. split; [done|]. unfold splice.
  rewrite (take_prefix _ _ _ _ Ht) by lia.
  rewrite app_assoc, take_app_le by (autorewrite with len; lia).
  apply take_ge. autorewrite with len. lia.
Qed.

Lemma copy_right (b bef aft : list Z) (c : Z) :
  length b = 256%nat -> take (length bef + length aft) b = bef ++ aft ->
  (length bef + length aft < 256)%nat ->
  exists b', copy_into (S (length bef)) aft b = Some b' /\ length (<[length bef := c]> b') = 256%nat /\
    take (S (length bef + length aft)) (<[length bef := c]> b') = (bef ++ [c]) ++ aft.
Proof.
  intros Hl Ht Hlt. unfold copy_into. rewrite decide_True by lia. eexists. split; [done|].
  rewrite length_insert, length_splice by lia. split; [done|]. unfold splice.
  assert (exists y, take (S (length bef)) b = bef ++ [y]) as [y Hy].
  { destruct (lookup_lt_is_Some_2 b (length bef)) as [y Hy]; [lia|]. exists y.
    by rewrite (take_S_r _ _ _ Hy), (take_prefix _ _ _ _ Ht) by lia. }
  rewrite Hy, <- app_assoc. cbn [app].
  rewrite insert_app_r_alt, Nat.sub_diag by lia. cbn [insert list_insert].
  rewrite (app_comm_cons aft), app_assoc, take_app_le by (autorewrite with len; lia).
  rewrite <- app_assoc. apply take_ge. autorewrite with len. lia.
Qed.

Lemma text_parts l e hist :
  line_rep hist l e ->
  take (len l - cursor_pos (sh l)) (drop (cursor_pos (sh l)) (buf l)) = after e.
Proof.
  intros []. rewrite lp_cursor0, take_drop_commute.
  replace (length (before e) + (len l - length (before e)))%nat with (len l) by lia.
  rewrite lp_text0. apply drop_app_length.
Qed.

Lemma text_at l e hist x a :
  line_rep hist l e -> after e = x :: a -> byte_at (buf l) (cursor_pos (sh l)) = x.
Proof.
  intros [] Ha. apply byte_at_lookup. rewrite Ha in *. cbn in *.
  rewrite <- (lookup_take_lt (buf l) (len l)) by lia. rewrite lp_text0, lp_cursor0.
  by rewrite lookup_app_r, Nat.sub_diag by lia.
Qed.

(** Showing a history line. *)
Lemma line_rep_show hist l n m :
  hist_rep (sh l) hist -> length (buf l) = 256%nat -> 0 <= n < Z.of_nat (length hist) ->
  let h := default [] (hist !! Z.to_nat n) in
  hist_rep (sh m) hist -> cursor_pos (sh m) = length h -> history_cursor (sh m) = n ->
  len m = length h -> buf m = splice 0 h (buf l) ->
  line_rep hist m (mkEd h [] n).
Proof.
  intros Hr Hb Hn h Hm Hc Hh Hl Hbm.
  destruct (lookup_lt_is_Some_2 hist (Z.to_nat n)) as [y Hy]; [lia|].
  destruct (hist_rep_get _ _ _ _ Hr Hy) as [_ Hle].
  unfold h in *. clear h. rewrite Hy in *. cbn [default] in *. unfold id in *.
  split; cbn [before after recall]; try done; try lia.
  - rewrite Hbm, length_splice; lia.
  - rewrite Hl, Hbm, splice_head, app_nil_r by lia. done.
  - rewrite Hl. cbn. lia.
Qed.

Lemma line_rep_show_min hist l n m :
  line_rep hist l m -> 0 <= n < Z.of_nat (length hist) ->
  let h := history_get (Z.to_nat n) (sh l) in
  h = default [] (hist !! Z.to_nat n) /\ Nat.min (length h) MAX_CMD = length h.
Proof.
  intros Hr Hn h. destruct (lookup_lt_is_Some_2 hist (Z.to_nat n)) as [y Hy]; [lia|].
  destruct (hist_rep_get _ _ _ _ (lp_hist _ _ _ Hr) Hy) as [Hg Hle]. unfold h.
  rewrite Hg, Hy. split; [done|]. unfold MAX_CMD. lia.
Qed.

Lemma removelast_snoc (b : list Z) x : removelast (b ++ [x]) = b.
Proof. apply removelast_last. Qed.

Lemma edit_backspace cols hist l e :
  line_rep hist l e ->
  exists l', edit_key cols 8 l = (Ret tt, l') /\
    line_rep hist l' (mkEd (removelast (before e)) (after e) (recall e)).
Proof.
  intros Hr. pose proof (text_parts _ _ _ Hr) as Htp. pose proof Hr as [].
  unfold edit_key. cbn [Z.eqb Pos.eqb orb]. rewrite Htp, lp_cursor0.
  destruct e as [bef aft rc]. cbn [before after recall] in *.
  destruct bef as [|x bef' _] using rev_ind; [by exists l|].
  rewrite removelast_snoc. autorewrite with len in *. cbn [length] in *.
  destruct (Nat.ltb_spec 0 (length bef' + 1)); [|lia]. destruct (Nat.ltb_spec 0 (len l)); [|lia].
  cbn [andb]. rewrite Nat.add_sub.
  destruct (copy_left (buf l) bef' x aft) as (b' & Hc & Hl' & Ht');
    [done|by rewrite <- lp_len0, lp_text0, <- app_assoc|].
  rewrite Hc. eexists. split; [done|].
  split; cbn [sh buf len before after recall]; try done; try lia.
  - by eapply hist_rep_same.
  - rewrite <- Ht'. f_equal. lia.
Qed.

Lemma edit_char cols hist c l e :
  (cols <= 258)%nat -> is_printable c = true -> line_rep hist l e ->
  exists l', edit_key cols c l = (Ret tt, l') /\
    line_rep hist l'
      (if (length (before e) + length (after e) <? cols - 2)%nat
       then mkEd (before e ++ [c]) (after e) (recall e) else e).
Proof.
  intros Hcols Hp Hr. pose proof (text_parts _ _ _ Hr) as Htp. pose proof Hr as [].
  unfold edit_key. rewrite Htp, lp_cursor0. unfold is_printable in Hp. rewrite Hp.
  destruct (Z.eqb_spec c 8); [lia|]. destruct (Z.eqb_spec c 127); [lia|].
  destruct (Z.eqb_spec c 3); [lia|]. destruct (Z.eqb_spec c 4); [lia|].
  destruct (Z.eqb_spec c 1); [lia|]. destruct (Z.eqb_spec c 2); [lia|]. cbn [orb].
  rewrite lp_len0. destruct (Nat.ltb_spec (length (before e) + length (after e)) (cols - 2)); [|by exists l].
  destruct (copy_right (buf l) (before e) (after e) c) as (b' & Hc & Hl' & Ht');
    [done|by rewrite <- lp_len0|lia|].
  rewrite Hc. eexists. split; [done|].
  split; cbn [sh buf len before after recall]; try done; autorewrite with len; cbn; try lia.
  by eapply hist_rep_same.
Qed.

(** One key, on the concrete and on the abstract editor. *)
Lemma edit_key_refines cols hist c l e :
  (cols <= 258)%nat -> line_rep hist l e ->
  exists l', edit_key cols c l = (Ret tt, l') /\ line_rep hist l' (ed_key cols hist c e).
Proof.
  intros Hcols Hr. unfold ed_key.
  destruct ((c =? 8) || (c =? 127)) eqn:Hbs.
  { destruct (edit_backspace cols _ _ _ Hr) as (l' & Hrun & Hr').
    exists l'. split; [|done]. rewrite <- Hrun. unfold edit_key. by rewrite Hbs. }
  destruct (is_printable c) eqn:Hpr.
  { destruct (edit_char cols hist c l e Hcols Hpr Hr) as (l' & Hrun & Hr').
    unfold is_printable in Hpr. exists l'. split; [done|].
    destruct (Z.eqb_spec c 3); [lia|]. destruct (Z.eqb_spec c 4); [lia|].
    destruct (Z.eqb_spec c 1); [lia|]. destruct (Z.eqb_spec c 2); [lia|]. done. }
  cbn [andb]. pose proof Hr as []. unfold edit_key. rewrite Hbs.
  unfold is_printable in Hpr. rewrite Hpr, lp_cursor0, lp_len0, lp_recall0.
  destruct (Z.eqb_spec c 3).
  { destruct e as [bef aft rc]. cbn [before after recall] in *.
    destruct bef as [|x bef' _] using rev_ind; [by exists l|].
    rewrite last_snoc, removelast_snoc. autorewrite with len in *. cbn [length] in *.
    destruct (Nat.ltb_spec 0 (length bef' + 1)); [|lia]. eexists. split; [done|].
    split; cbn [sh buf len before after recall]; try done; cbn; try lia.
    - by eapply hist_rep_same.
    - rewrite <- lp_len0, lp_text0. by rewrite <- app_assoc. }
  destruct (Z.eqb_spec c 4).
  { destruct e as [bef [|x aft] rc]; cbn [before after recall length] in *.
    - rewrite Nat.add_0_r, Nat.ltb_irrefl. by exists l.
    - destruct (Nat.ltb_spec (length bef) (length bef + S (length aft))); [|lia].
      eexists. split; [done|].
      split; cbn [sh buf len before after recall]; try done; autorewrite with len; cbn; try lia.
      + by eapply hist_rep_same.
      + rewrite <- app_assoc. cbn. by rewrite <- lp_text0, lp_len0. }
  destruct (Z.eqb_spec c 1).
  { rewrite (hp_count _ _ lp_hist0). destruct (Z.ltb_spec (recall e) (Z.of_nat (length hist) - 1));
      [|by exists l].
    destruct (line_rep_show_min hist l (recall e + 1) e Hr) as [Hg Hmin]; [lia|].
    change (history_get (Z.to_nat (history_cursor (set_history_cursor (recall e + 1) (sh l)))))
      with (history_get (Z.to_nat (recall e + 1))).
    change (history_get (Z.to_nat (recall e + 1)) (set_history_cursor (recall e + 1) (sh l)))
      with (history_get (Z.to_nat (recall e + 1)) (sh l)).
    rewrite Hmin, firstn_all. eexists. split; [done|]. rewrite Hg.
    apply (line_rep_show hist l (recall e + 1)); cbn; try done; [lia|by eapply hist_rep_same]. }
  destruct (Z.eqb_spec c 2); [|by exists l].
  destruct (Z.leb_spec 0 (recall e)); destruct (Z.ltb_spec (recall e) 0); try lia; [|by exists l].
  cbn [history_cursor set_history_cursor].
  destruct (Z.eqb_spec (recall e) 0) as [Hz|Hz].
  { rewrite Hz. cbn [Z.sub Z.add Z.opp Z.eqb Pos.eqb]. eexists. split; [done|].
    split; cbn; try done; try lia. by eapply hist_rep_same. }
  destruct (Z.eqb_spec (recall e - 1) (-1)); [lia|].
  destruct (line_rep_show_min hist l (recall e - 1) e Hr) as [Hg Hmin]; [lia|].
  change (history_get (Z.to_nat (recall e - 1)) (set_history_cursor (recall e - 1) (sh l)))
    with (history_get (Z.to_nat (recall e - 1)) (sh l)).
  rewrite Hmin, firstn_all. eexists. split; [done|]. rewrite Hg.
  apply (line_rep_show hist l (recall e - 1)); cbn; try done; [lia|by eapply hist_rep_same].
Qed.

(** ** Properties *)

(** C35: Every key of the line editor does to the 256-byte buffer, the cursor
    and the history cursor what it means to: on displays of at most 258 columns
    the editor never panics and refines text-before/text-after-cursor editing,
    for insertion, deletion, cursor movement and history recall. *)
Theorem edit_key_correct cols hist c l e :
  (cols <= 258)%nat -> line_rep hist l e ->
  exists l', edit_key cols c l = (Ret tt, l') /\ line_rep hist l' (ed_key cols hist c e).
Proof. apply edit_key_refines. Qed.

Lemma new_line_rep s hist : hist_rep s hist -> line_rep hist (new_line s) (mkEd [] [] (-1)).
Proof.
  intros Hr. split; cbn; try done; try lia. by eapply hist_rep_same.
Qed.

Lemma edit_key_correct_witness : exists l',
  edit_key 80 65 (new_line Shell_new) = (Ret tt, l') /\ line_rep [] l' (mkEd [65] [] (-1)).
Proof.
  apply (edit_key_correct 80 [] 65 (new_line Shell_new) (mkEd [] [] (-1))).
  - lia.
  - exact (new_line_rep _ _ hist_rep_new).
Defined.

Lemma read_line_refines cols hist keys l e :
  (cols <= 258)%nat -> line_rep hist l e ->
  match ed_line cols hist keys e with
  | None => exists l', read_line cols keys l = (Ret None, l')
  | Some (cmd, rest) =>
      exists l', read_line cols keys l = (Ret (Some (cmd, rest)), l') /\
        hist_rep (sh l') (remember cmd hist)
  end.
Proof.
  intros Hcols. revert l e. induction keys as [|c keys IH]; intros l e Hr; [by exists l|].
  cbn [read_line ed_line]. destruct ((c =? 10) || (c =? 13)).
  - pose proof Hr as []. eexists. rewrite lp_text0. split; [done|]. cbn [sh].
    pose proof (f_equal length lp_text0) as Hlt. autorewrite with len in Hlt.
    destruct (Nat.ltb_spec 0 (len l)) as [Hpos|Hz].
    + apply hist_rep_push; [by eapply hist_rep_same|]. autorewrite with len. lia.
    + unfold remember. rewrite decide_True; [by eapply hist_rep_same|].
      apply nil_length_inv. autorewrite with len. lia.
  - destruct (edit_key_refines cols hist c l e Hcols Hr) as (l1 & Hrun & Hr1).
    run_with Hrun. by apply IH.
Qed.

(** C40: A prompt of at most 258 columns reads exactly the line the user composed:
    if the keys, edited abstractly, hold an Enter, those before it give the
    command, those after it are left for the next prompt, and the history
    becomes the last 64 non-empty commands, newest first. *)
Theorem read_line_correct cols hist keys s cmd rest :
  (cols <= 258)%nat -> hist_rep s hist ->
  ed_line cols hist keys (mkEd [] [] (-1)) = Some (cmd, rest) ->
  exists l', read_line cols keys (new_line s) = (Ret (Some (cmd, rest)), l') /\
    hist_rep (sh l') (remember cmd hist).
Proof.
  intros Hcols Hr Hed. pose proof (read_line_refines cols hist keys _ _ Hcols (new_line_rep _ _ Hr)) as H.
  by rewrite Hed in H.
Qed.

Lemma read_line_correct_witness : exists l',
  read_line 80 [97; 99; 3; 98; 10; 120] (new_line Shell_new) = (Ret (Some ([97; 98; 99], [120])), l') /\
  hist_rep (sh l') [[97; 98; 99]].
Proof.
  apply (read_line_correct 80 [] [97; 99; 3; 98; 10; 120] Shell_new [97; 98; 99] [120]).
  - lia.
  - exact hist_rep_new.
  - reflexivity.
Defined.

(** On a display wider than 258 columns the editor can overrun its buffer:
    the length test uses the display's width, not [MAX_CMD], and the 257th
    character of a line panics. *)
Theorem wide_display_overrun :
  fst (read_line 300 (replicate 256 97) (new_line Shell_new)) = Ret None /\
  fst (read_line 300 (replicate 257 97) (new_line Shell_new)) = Panic.
Proof. split; by vm_compute. Qed.

(** ** Arguments *)

Lemma find_space_split s :
  match find_space s with
  | Some k => split_space s = take k s :: split_space (drop (S k) s)
  | None => split_space s = [s]
  end.
Proof.
  unfold find_space. induction s as [|b s IH]; [done|]. cbn [position split_space].
  rewrite (Z.eqb_sym 32 b). destruct (b =? 32); [done|].
  destruct (position (Z.eqb 32) s) as [k|]; cbn; rewrite IH; [|done]. done.
Qed.

Lemma args_loop_split fuel s args :
  (length s < fuel)%nat -> Forall (fun b => b < 128) s -> (length args <= 16)%nat ->
  args_loop fuel s args = take 16 (args ++ filter (fun a => a <> []) (split_space s)).
Proof.
  revert s args. induction fuel as [|fuel IH]; intros s args Hf Hb Ha; [lia|]. cbn [args_loop].
  assert (forall p, Forall (fun b => b < 128) p ->
    (length (push_arg p args) <= 16)%nat /\ forall rest,
      take 16 (push_arg p args ++ rest) = take 16 (args ++ filter (fun a => a <> []) [p] ++ rest))
    as Hpush.
  { intros p Hp. unfold push_arg. rewrite (from_utf8_ascii p Hp).
    destruct p as [|x p]; [done|]. cbn [length Nat.eqb negb andb]. rewrite filter_cons_True by done.
    rewrite filter_nil. destruct (Nat.ltb_spec (length args) 16).
    - split; [autorewrite with len; cbn; lia|]. intros rest. by rewrite <- app_assoc.
    - split; [done|]. intros rest. by rewrite !take_app_le, !take_ge by lia. }
  destruct (decide (s = [])) as [->|Hne].
  { cbn [split_space]. rewrite filter_cons_False, filter_nil, app_nil_r by auto. by rewrite take_ge. }
  pose proof (find_space_split s) as Hsp. destruct (find_space s) as [k|] eqn:Hk; rewrite Hsp.
  - apply position_Some in Hk as (x & Hx & _). apply lookup_lt_Some in Hx.
    destruct (Hpush (take k s)) as [Hl Heq]; [by apply Forall_take|].
    rewrite IH; [|rewrite length_drop; lia|by apply Forall_drop|done].
    rewrite Heq. f_equal. f_equal. by destruct (take k s).
  - destruct (Hpush s Hb) as [Hl Heq]. specialize (Heq []). rewrite !app_nil_r in Heq.
    rewrite <- Heq. by rewrite take_ge.
Qed.

(** The argument loop of the shell is splitting at spaces: it returns the
    first sixteen non-empty words, and terminates. *)
Theorem parse_args_correct args :
  Forall (fun b => b < 128) args ->
  parse_args args = take 16 (filter (fun a => a <> []) (split_space args)).
Proof. intros Ha. unfold parse_args. rewrite args_loop_split; [done|lia|done|cbn; lia]. Qed.

Lemma parse_args_correct_witness : parse_args (str "a  bc d ") = [str "a"; str "bc"; str "d"].
Proof.
  rewrite (parse_args_correct (str "a  bc d ")); [reflexivity|repeat constructor].
Defined.
