(* ===== verification/ShellScreen.v ===== *)
(** The shell's line editor on the text console: its output, run on the display,
    keeps on the screen the line as it has been edited. Composes [Shell]'s
    editor with [Display]'s console through their specifications. *)

From Stdlib Require Import ZArith Lia Ascii String.
From stdpp Require Import base numbers list gmap.
From S2P Require Import Prelude Text Machine Display DisplaySpec Shell ShellSpec.

#[local] Open Scope Z_scope.

(** The shell's calls of the display. Powering off and applets are other
    parts' business. *)
Definition run_event {S} `{Display S} (e : event) : M S Empty_set unit :=
  match e with
  | Put c => putchar c
  | Cursor => show_cursor
  | Shell.Clear => clear
  | _ => ret tt
  end.

Fixpoint run_events {S} `{Display S} (es : list event) : M S Empty_set unit :=
  match es with
  | [] => ret tt
  | e :: es => do! run_event e in run_events es
  end.

Definition doc_event (t : doc) (e : event) : doc :=
  match e with
  | Put c => doc_put c t
  | Shell.Clear => doc_new
  | _ => t
  end.

Definition doc_events (es : list event) (t : doc) : doc := fold_left doc_event es t.

(** Text that moves the place only to the right, and fits behind the prompt. *)
Definition plain (s : list Z) : Prop := Forall (fun c => is_printable c = true) s /\ (length s <= 78)%nat.

(** ** Writing into a row *)

(** The row the document is in. *)
Definition at_row (L : list Z) (t : doc) : Prop := lines t !! row t = Some L /\ length L = 80%nat.

Lemma printable_put c t L :
  is_printable c = true -> at_row L t -> (col t < 80)%nat ->
  doc_put c t = mkDoc (<[row t := <[col t := c]> L]> (lines t)) (row t) (S (col t)).
Proof.
  intros Hc (HL & Hl) Hcol. unfold is_printable in Hc. unfold doc_put.
  rewrite !(proj2 (Z.eqb_neq c _)) by lia. unfold WIDTH.
  destruct (Nat.leb_spec 80 (col t)); [lia|]. by rewrite (alter_insert _ _ _ L HL).
Qed.

Lemma splice_cons (off : nat) (c : Z) s L :
  (off < length L)%nat -> splice (S off) s (<[off := c]> L) = splice off (c :: s) L.
Proof.
  intros Ho. unfold splice. rewrite take_S_r with (x := c) by (by apply list_lookup_insert_eq).
  rewrite take_insert_ge by lia. rewrite drop_insert_lt by lia. cbn [length].
  rewrite <- app_assoc. cbn [app]. do 3 f_equal. f_equal. lia.
Qed.

Lemma doc_puts s t L :
  Forall (fun c => is_printable c = true) s -> at_row L t -> (col t + length s <= 80)%nat ->
  doc_events (write s) t = mkDoc (<[row t := splice (col t) s L]> (lines t)) (row t) (col t + length s).
Proof.
  revert t L. induction s as [|c s IH]; intros t L Hs (HL & Hl) Hc.
  - cbn. unfold splice. cbn [length app]. rewrite Nat.add_0_r, take_drop, list_insert_id by done. by destruct t.
  - apply Forall_cons in Hs as [Hp Hs]. cbn [length] in *. cbn [write fmap list_fmap doc_events fold_left doc_event].
    rewrite (printable_put c t L Hp) by (done || lia). set (t1 := mkDoc _ _ _).
    change (doc_events (write s) t1 = mkDoc (<[row t := splice (col t) (c :: s) L]> (lines t)) (row t) (col t + S (length s))).
    assert (at_row (<[col t := c]> L) t1) as H1.
    { split; [|by rewrite length_insert]. cbn [t1 lines row]. apply list_lookup_insert_eq. by eapply lookup_lt_Some. }
    rewrite (IH t1 _ Hs H1) by (cbn; lia). cbn [t1 lines row col].
    rewrite list_insert_insert_eq, splice_cons by lia. f_equal. lia.
Qed.

Lemma doc_backs k t : doc_events (replicate k (Put 8)) t = mkDoc (lines t) (row t) (col t - k).
Proof.
  revert t. induction k as [|k IH]; intros t.
  - cbn. rewrite Nat.sub_0_r. by destruct t.
  - cbn [replicate doc_events fold_left doc_event].
    change (doc_events (replicate k (Put 8)) (doc_put 8 t) = mkDoc (lines t) (row t) (col t - S k)).
    rewrite IH. cbn. f_equal. lia.
Qed.

Lemma doc_events_app es fs t : doc_events (es ++ fs) t = doc_events fs (doc_events es t).
Proof. apply fold_left_app. Qed.

(** ** The line on the screen *)

(** The row holds the prompt and the text, blank to the last column but one;
    the last column belongs to the text only when the line is full. *)
Record line_shown (text : list Z) (cur : nat) (t0 t : doc) : Prop := {
  ls_row : row t = row t0;
  ls_rows : exists L, lines t = <[row t0 := L]> (lines t0) /\ length L = 80%nat
    /\ forall i, (i < 79 \/ i < 2 + length text)%nat -> L !! i = Some (default 32 ((PROMPT ++ text) !! i));
  ls_col : col t = (2 + cur)%nat;
}.

Lemma plain_prompt : Forall (fun c => is_printable c = true) PROMPT.
Proof. by repeat constructor. Qed.

Lemma plain_blanks n : Forall (fun c => is_printable c = true) (replicate n 32).
Proof. by apply Forall_replicate. Qed.

Lemma write_replicate n : write (replicate n 32) = replicate n (Put 32).
Proof. induction n as [|n IH]; [done|]. cbn. by f_equal. Qed.

(** A carriage return goes to the row's start. *)
Lemma doc_return t : doc_event t (Put 13) = mkDoc (lines t) (row t) 0.
Proof. reflexivity. Qed.

Lemma at_row_splice off s L t c :
  at_row L t -> (off + length s <= 80)%nat ->
  at_row (splice off s L) (mkDoc (<[row t := splice off s L]> (lines t)) (row t) c).
Proof.
  intros (HL & Hl) Hs. split; [|by rewrite length_splice by lia].
  cbn. apply list_lookup_insert_eq. by eapply lookup_lt_Some.
Qed.

(** One pass of [redraw_input]: a return, text over the row, and back. *)
Lemma doc_line s k t L :
  Forall (fun c => is_printable c = true) s -> (length s <= 80)%nat -> at_row L t ->
  doc_events (Put 13 :: write s ++ replicate k (Put 8)) t
  = mkDoc (<[row t := splice 0 s L]> (lines t)) (row t) (length s - k).
Proof.
  intros Hs Hl HL. change (Put 13 :: ?es) with ([Put 13] ++ es). rewrite !doc_events_app.
  change (doc_events [Put 13] t) with (mkDoc (lines t) (row t) 0).
  rewrite (doc_puts s (mkDoc (lines t) (row t) 0) L) by (done || cbn; lia).
  by rewrite doc_backs.
Qed.

Lemma redraw_shown b n s t0 t L :
  at_row L t -> row t = row t0 -> (exists L0, lines t = <[row t0 := L0]> (lines t0)) ->
  plain (take n b) -> length (take n b) = n -> (cursor_pos s <= n)%nat ->
  exists es, out (redraw_input 80 b n s) = out s ++ es
    /\ line_shown (take n b) (cursor_pos s) t0 (doc_events es t).
Proof.
  intros HL Hrow (L0 & Hlines) (Hp & Hmax) Hn Hcur. unfold redraw_input. cbn [out emit]. eexists. split; [reflexivity|].
  change (80 - 2 - 1)%nat with 77%nat. rewrite <- write_replicate.
  set (text := take n b) in *. set (back := replicate (n - cursor_pos s) (Put 8)).
  assert (Put 13 :: write PROMPT ++ write (replicate 77 32) ++ Put 13 :: write PROMPT ++ write text ++ back
          = (Put 13 :: write (PROMPT ++ replicate 77 32) ++ replicate 0 (Put 8))
            ++ (Put 13 :: write (PROMPT ++ text) ++ back)) as ->.
  { unfold write. rewrite !fmap_app, app_nil_r, <- !app_assoc. reflexivity. }
  assert (length PROMPT = 2%nat) as H2 by reflexivity.
  rewrite doc_events_app, (doc_line _ 0 t L); [|apply Forall_app; split; [apply plain_prompt|apply plain_blanks]
    |autorewrite with len; lia|done].
  set (L1 := splice 0 (PROMPT ++ replicate 77 32) L). set (t1 := mkDoc _ _ _).
  assert (at_row L1 t1) as HL1 by (apply at_row_splice; [done|autorewrite with len; lia]).
  unfold back. rewrite (doc_line _ _ t1 L1); [|apply Forall_app; split; [apply plain_prompt|done]
    |autorewrite with len; lia|done].
  cbn [t1 lines row]. split; cbn [row lines col]; [done| |autorewrite with len; lia].
  exists (splice 0 (PROMPT ++ text) L1). destruct HL1 as [_ Hl1].
  rewrite Hlines, Hrow, !list_insert_insert_eq. split_and!; [done|rewrite length_splice; autorewrite with len; lia|].
  intros i Hi. destruct (decide (i < 2 + length text)%nat) as [Hlt|Hge].
  - rewrite splice_lookup_in by (autorewrite with len; lia). rewrite Nat.sub_0_r.
    destruct (lookup_lt_is_Some_2 (PROMPT ++ text) i) as [x Hx]; [autorewrite with len; lia|]. by rewrite Hx.
  - rewrite splice_lookup_out by (autorewrite with len; lia).
    rewrite (lookup_ge_None_2 (PROMPT ++ text)) by (autorewrite with len; lia). cbn [default].
    unfold L1. destruct HL as [_ Hl]. rewrite splice_lookup_in by (autorewrite with len; lia).
    rewrite Nat.sub_0_r, lookup_app_r, lookup_replicate by (rewrite H2; lia). split; [done|rewrite H2; lia].
Qed.

Lemma shown_row text cur t0 t : (row t0 < length (lines t0))%nat -> line_shown text cur t0 t -> exists L, at_row L t.
Proof.
  intros Hlt [Hr (L & HL & Hl & _) _]. exists L. split; [|done]. rewrite HL, Hr. by apply list_lookup_insert_eq.
Qed.

(** Moving left is a backspace; moving right writes a character of the text
    over itself. *)
Lemma left_shown text cur t0 t :
  line_shown text (S cur) t0 t -> line_shown text cur t0 (doc_put 8 t).
Proof. intros [Hr HL Hc]. split; [done|done|]. cbn. lia. Qed.

Lemma right_shown text cur x t0 t :
  (row t0 < length (lines t0))%nat -> plain text -> text !! cur = Some x ->
  line_shown text cur t0 t -> line_shown text (S cur) t0 (doc_put x t).
Proof.
  intros Hlt (Hp & Hmax) Hx Hs. destruct (shown_row _ _ _ _ Hlt Hs) as (L' & HL'). destruct Hs as [Hr (L & HL & Hl & Hi) Hc].
  pose proof (lookup_lt_Some _ _ _ Hx) as Hcur.
  assert (L' = L) as ->. { destruct HL' as [H1 _]. rewrite HL, Hr, list_lookup_insert_eq in H1 by done. congruence. }
  rewrite (printable_put x t L); [|by eapply Forall_lookup_1 in Hp|done|lia].
  assert (L !! col t = Some x) as HLx.
  { rewrite Hi by lia. rewrite Hc. rewrite lookup_app_r by (cbn; lia). change (length PROMPT) with 2%nat.
    replace (2 + cur - 2)%nat with cur by lia. by rewrite Hx. }
  rewrite (list_insert_id L) by done. split; cbn [row lines col]; [done| |lia].
  exists L. rewrite HL, Hr, list_insert_insert_eq. done.
Qed.

(** ** Keys *)

(** What a key lets the editor show: nothing, the line anew, or one move. *)
Lemma edit_key_shows cols c l l' :
  edit_key cols c l = (Ret tt, l') ->
  l' = l
  \/ (exists s b n, l' = mkLine (emit [Cursor] (redraw_input cols b n s)) b n /\ out s = out (sh l))
  \/ (exists s, l' = mkLine (emit [Put 8; Cursor] s) (buf l) (len l) /\ out s = out (sh l)
      /\ cursor_pos (sh l) = S (cursor_pos s))
  \/ (exists s, l' = mkLine (emit [Put (byte_at (buf l) (cursor_pos (sh l))); Cursor] s) (buf l) (len l)
      /\ out s = out (sh l) /\ (cursor_pos (sh l) < len l)%nat /\ cursor_pos s = S (cursor_pos (sh l))).
Proof.
  unfold edit_key.
  repeat match goal with
  | |- context [if ?b then _ else _] => destruct b eqn:?
  | |- context [match copy_into ?o ?x ?y with _ => _ end] => destruct (copy_into o x y)
  end; intros [= <-]; auto; first [right; left; by eexists _, _, _ | right; right].
  - left. eexists. split_and!; [done|done|]. cbn. match goal with H : (0 <? _)%nat = true |- _ => apply Nat.ltb_lt in H end. lia.
  - right. eexists. split_and!; [done|done| |done]. by apply Nat.ltb_lt.
Qed.

(** The editor's text stays plain and short. *)
Lemma ed_key_plain hist c e :
  Forall plain hist -> plain (before e ++ after e) ->
  plain (before (ed_key 80 hist c e) ++ after (ed_key 80 hist c e)).
Proof.
  intros Hh He. assert (plain []) as H0 by (split; [constructor|cbn; lia]).
  assert (forall n, plain (default [] (hist !! n) ++ [])) as Hget.
  { intros n. rewrite app_nil_r. destruct (hist !! n) as [h|] eqn:Hn; [|done]. by eapply Forall_lookup_1 in Hh. }
  unfold ed_key. destruct ((c =? 8) || (c =? 127)).
  { destruct e as [bef aft rc]. cbn [before after] in *. destruct bef as [|x bef _] using rev_ind; [done|].
    rewrite removelast_snoc. destruct He as [Hp Hl]. rewrite !Forall_app in Hp. destruct Hp as [[Hp1 _] Hp2].
    autorewrite with len in Hl. cbn in Hl. split; [by apply Forall_app|]. autorewrite with len. lia. }
  destruct (c =? 3).
  { destruct e as [bef aft rc]. cbn [before after] in *. destruct bef as [|x bef _] using rev_ind; [done|].
    rewrite last_snoc, removelast_snoc. cbn [before after]. by rewrite <- app_assoc in He. }
  destruct (c =? 4).
  { destruct e as [bef [|x aft] rc]; cbn [before after] in *; [done|]. by rewrite <- app_assoc. }
  destruct (c =? 1); [destruct (_ <? _); [apply Hget|done]|].
  destruct (c =? 2); [destruct (recall e <? 0); [done|]; destruct (recall e =? 0); [done|apply Hget]|].
  destruct (is_printable c) eqn:Hc; cbn [andb]; [|done].
  destruct (Nat.ltb_spec (length (before e) + length (after e)) (80 - 2)); [|done].
  destruct He as [Hp Hl]. rewrite Forall_app in Hp. destruct Hp as [Hp1 Hp2]. cbn [before after]. split.
  - rewrite !Forall_app. split_and!; [done|by constructor|done].
  - autorewrite with len. cbn. lia.
Qed.

Section Typing.
Context (hist : list (list Z)) (t0 : doc).
Hypothesis (Hhist : Forall plain hist) (Ht0 : (row t0 < length (lines t0))%nat).

(** The line of the editor, its abstract line, and the screen agree. *)
Record in_step (l : Line) (e : editor) (t : doc) : Prop := {
  is_line : line_rep hist l e;
  is_plain : plain (before e ++ after e);
  is_shown : line_shown (before e ++ after e) (length (before e)) t0 t;
}.

Lemma key_in_step c l e t :
  in_step l e t ->
  exists l' es, edit_key 80 c l = (Ret tt, l') /\ out (sh l') = out (sh l) ++ es
    /\ in_step l' (ed_key 80 hist c e) (doc_events es t).
Proof.
  intros [Hl Hp Hs]. destruct (edit_key_refines 80 hist c l e) as (l' & Hrun & Hl'); [lia|done|].
  pose proof (ed_key_plain hist c e Hhist Hp) as Hp'. set (e' := ed_key 80 hist c e) in *.
  exists l'. pose proof (lp_text _ _ _ Hl) as Ht. pose proof (lp_cursor _ _ _ Hl) as Hc.
  pose proof (lp_text _ _ _ Hl') as Ht'. pose proof (lp_len _ _ _ Hl') as Hn'. pose proof (lp_cursor _ _ _ Hl') as Hc'.
  destruct (edit_key_shows _ _ _ _ Hrun) as [-> | [(s & b & n & -> & Ho) | [(s & -> & Ho & Hcur) | (s & -> & Ho & Hlt & Hcur)]]];
    cbn [buf len sh] in *.
  - exists []. split_and!; [done|by rewrite app_nil_r|]. split; [done|done|].
    rewrite <- Ht', <- Hc', Ht, Hc. exact Hs.
  - destruct (shown_row _ _ _ _ Ht0 Hs) as (L & HL). change (cursor_pos (emit ?x ?y)) with (cursor_pos y) in Hc'.
    assert (cursor_pos (redraw_input 80 b n s) = cursor_pos s) as Heq by reflexivity. rewrite Heq in Hc'.
    destruct (redraw_shown b n s t0 t L HL) as (es & Hes & Hd).
    { apply Hs. }
    { destruct (ls_rows _ _ _ _ Hs) as (L0 & H0 & _). by exists L0. }
    { by rewrite Ht'. }
    { rewrite Ht'. autorewrite with len. lia. }
    { lia. }
    exists (es ++ [Cursor]). split_and!; [done|cbn [out emit]; by rewrite Hes, Ho, <- app_assoc|].
    split; [done|done|]. rewrite doc_events_app. rewrite <- Ht', <- Hc'. exact Hd.
  - exists [Put 8; Cursor]. split_and!; [done|cbn [out emit]; by rewrite Ho|]. split; [done|done|].
    change (doc_events [Put 8; Cursor] t) with (doc_put 8 t). apply left_shown.
    rewrite <- Ht', <- Hc'. cbn [cursor_pos emit]. by rewrite <- Hcur, Ht, Hc.
  - exists [Put (byte_at (buf l) (cursor_pos (sh l))); Cursor].
    split_and!; [done|cbn [out emit]; by rewrite Ho|]. split; [done|done|].
    change (doc_events [Put ?x; Cursor] t) with (doc_put x t). rewrite <- Ht', <- Hc'. cbn [cursor_pos emit].
    rewrite Hcur. apply right_shown; [done|by rewrite Ht| |by rewrite Ht, Hc].
    rewrite lookup_take_lt by lia. unfold byte_at.
    destruct (lookup_lt_is_Some_2 (buf l) (cursor_pos (sh l))) as [x Hx]; [|by rewrite Hx].
    rewrite (lp_buf _ _ _ Hl). pose proof (lp_max _ _ _ Hl). lia.
Qed.

(** Any keys before Enter. *)
Lemma keys_in_step keys l e t :
  Forall (fun c => (c =? 10) || (c =? 13) = false) keys -> in_step l e t ->
  exists l' es, read_line 80 keys l = (Ret None, l') /\ out (sh l') = out (sh l) ++ es
    /\ in_step l' (fold_left (fun e c => ed_key 80 hist c e) keys e) (doc_events es t).
Proof.
  intros Hk. revert l e t. induction Hk as [|c keys Hc _ IH]; intros l e t Hs; cbn [read_line fold_left].
  - exists l, []. by rewrite app_nil_r.
  - rewrite Hc. destruct (key_in_step c l e t Hs) as (l1 & es & Hrun & Ho & Hs1). run_with Hrun.
    destruct (IH l1 _ _ Hs1) as (l2 & es2 & Hrun2 & Ho2 & Hs2).
    exists l2, (es ++ es2). split_and!; [done|by rewrite Ho2, Ho, app_assoc|]. by rewrite doc_events_app.
Qed.
End Typing.

Lemma prompt_shown t L :
  at_row L t -> col t = O -> (forall i, (2 <= i < 79)%nat -> L !! i = Some 32) ->
  line_shown [] 0 t (doc_events (write PROMPT ++ [Cursor]) t).
Proof.
  intros HL Hc Hb. rewrite doc_events_app. change (doc_events [Cursor] ?x) with x.
  rewrite (doc_puts PROMPT t L); [|apply plain_prompt|done|rewrite Hc; cbn; lia]. rewrite Hc.
  assert (length PROMPT = 2%nat) as H2 by reflexivity. destruct HL as [HL Hl].
  split; cbn [row lines col]; [done| |done]. eexists. split_and!; [done|rewrite length_splice; lia|].
  intros i Hi. cbn [length] in Hi. rewrite app_nil_r. destruct (decide (i < 2)%nat).
  - rewrite splice_lookup_in, Nat.sub_0_r by lia.
    destruct (lookup_lt_is_Some_2 PROMPT i) as [x Hx]; [lia|]. by rewrite Hx.
  - rewrite splice_lookup_out, Hb by lia. by rewrite (lookup_ge_None_2 PROMPT) by lia.
Qed.

(** ** On the console *)

Section Console.
Context {D : Type} `{Crtc D}.

Lemma run_events_run es d v t :
  shows (d, v) t -> exists st', run_events es (d, v) = (Ret tt, st') /\ shows st' (doc_events es t).
Proof.
  revert d v t. induction es as [|e es IH]; intros d v t Hs; cbn [run_events]; [by exists (d, v)|].
  assert (exists st1, run_event e (d, v) = (Ret tt, st1) /\ shows st1 (doc_event t e)) as ([d1 v1] & Hrun & Hs1).
  { destruct e as [c| | | |]; cbn [run_event doc_event]; try (by exists (d, v)); [by apply putchar_run|].
    apply clear_run. destruct Hs as [Hp _]. by apply (window_rows v t). }
  run_with Hrun. by apply IH.
Qed.

Lemma lookup_rows {A} w (rs : list (list A)) r l i :
  Forall (fun l => length l = w) rs -> rs !! r = Some l -> (i < w)%nat -> concat rs !! (r * w + i)%nat = l !! i.
Proof.
  intros Hrs. revert r. induction Hrs as [|l' rs Hl' _ IH]; intros r Hr Hi; [done|]. cbn [concat].
  destruct r as [|r].
  - injection Hr as ->. by rewrite lookup_app_l by lia.
  - rewrite lookup_app_r by lia. replace (S r * w + i - length l')%nat with (r * w + i)%nat by lia. by apply IH.
Qed.

Lemma row_cells v t L i c :
  pictures v t -> at_row L t -> L !! i = Some c -> BUF v !! (ROW v * WIDTH + i)%nat = Some (entry c COLOR).
Proof.
  intros (Hh & Hw & Hb & Hr & Hlt & _) (HL & Hl) Hi.
  assert (i < WIDTH)%nat as Hiw by (apply lookup_lt_Some in Hi; unfold WIDTH; lia).
  assert (window t !! ROW v = Some L) as Hwin by (unfold window; rewrite lookup_drop, Nat.add_comm, <- Hr; done).
  rewrite Hb, list_lookup_fmap, (lookup_rows WIDTH (window t) (ROW v) L i); [by rewrite Hi|by apply Forall_drop|done|done].
Qed.
End Console.

(** ** Properties *)

(** C20: From a prompt on a row of the console that is blank in columns 2 to
    78, any keys before Enter (characters, deletions, moves and recalled
    lines) leave in columns 0 to 78 of the row the prompt and the text as an
    editor would have it, with blanks behind it, and the hardware cursor where
    the text's cursor is. Nothing is said of the last column, which may keep a
    character of a longer line (Example [full_line_ghost]). *)
Theorem editor_on_screen {D : Type} `{Crtc D} hist s keys (d : D) v t L :
  hist_rep s hist -> Forall plain hist -> Forall (fun c => (c =? 10) || (c =? 13) = false) keys ->
  shows (d, v) t -> lines t !! row t = Some L -> col t = O -> (forall i, (2 <= i < 79)%nat -> L !! i = Some 32) ->
  exists l' es d' v', read_line 80 keys (new_line s) = (Ret None, l') /\ out (sh l') = out s ++ es
    /\ run_events es (d, v) = (Ret tt, (d', v'))
    /\ let e := fold_left (fun e c => ed_key 80 hist c e) keys (mkEd [] [] (-1)) in
       ROW v' = ROW v /\ cursor_at d' = Z.of_nat (ROW v * WIDTH + 2 + length (before e))
       /\ forall i, (i < 79)%nat ->
            BUF v' !! (ROW v * WIDTH + i)%nat = Some (entry (default 32 ((PROMPT ++ before e ++ after e) !! i)) COLOR).
Proof.
  intros Hh Hp Hk Hs HL Hc Hb.
  assert (at_row L t) as HLt.
  { split; [done|]. destruct Hs as [(_ & Hw & _) _]. by eapply Forall_lookup_1 in Hw. }
  pose proof (lookup_lt_Some _ _ _ HL) as Hlt.
  assert (in_step hist t (new_line s) (mkEd [] [] (-1)) (doc_events (write PROMPT ++ [Cursor]) t)) as Hstart.
  { split; [by apply new_line_rep|by split; [constructor|cbn; lia]|by apply (prompt_shown t L)]. }
  destruct (keys_in_step hist t Hp Hlt keys _ _ _ Hk Hstart) as (l' & es & Hrun & Ho & [_ _ Hshown]).
  destruct (run_events_run ((write PROMPT ++ [Cursor]) ++ es) d v t Hs) as ([d' v'] & Hev & Hs').
  rewrite doc_events_app in Hs'. exists l', ((write PROMPT ++ [Cursor]) ++ es), d', v'.
  split_and!; [done|rewrite Ho; cbn [out sh new_line set_history_cursor set_cursor_pos emit]; by rewrite <- app_assoc|done|].
  cbv zeta. set (e := fold_left _ _ _) in *. set (t' := doc_events es _) in *.
  destruct (shown_row _ _ _ _ Hlt Hshown) as (L' & HL'). destruct Hshown as [Hr (L'' & Hl & Hl80 & Hi) Hcol].
  assert (L' = L'') as ->. { destruct HL' as [H1 _]. rewrite Hl, Hr, list_lookup_insert_eq in H1 by done. congruence. }
  destruct Hs as [Hpic _]. destruct Hs' as [Hpic' Hcur]. cbn [fst snd] in *.
  assert (ROW v' = ROW v) as Hrow.
  { destruct Hpic as (_ & _ & _ & Hr0 & _). destruct Hpic' as (_ & _ & _ & Hr1 & _).
    rewrite Hl, length_insert in Hr1. lia. }
  destruct Hpic' as (Hpic'' & Hrest). rewrite <- Hrow. split_and!; [done| |].
  - rewrite Hcur. destruct Hrest as (_ & _ & _ & _ & Hc' & _). f_equal. lia.
  - intros i Hlt79. apply (row_cells v' t' L''); [by split|done|]. apply Hi. lia.
Qed.

Definition fresh : SimCrtc * Vga := (mkSimCrtc 0 (fun _ => 0), mkVga (replicate 2000 blank) 0 0).

Lemma editor_on_screen_witness : exists l' es d' v',
  read_line 80 (str "lsx" ++ [3; 8]) (new_line Shell_new) = (Ret None, l') /\ out (sh l') = es
  /\ run_events es fresh = (Ret tt, (d', v')) /\ cursor_at d' = 3
  /\ BUF v' !! 3%nat = Some (entry 120 COLOR) /\ BUF v' !! 4%nat = Some (entry 32 COLOR).
Proof.
  destruct (editor_on_screen [] Shell_new (str "lsx" ++ [3; 8]) (mkSimCrtc 0 (fun _ => 0))
    (mkVga (replicate 2000 blank) 0 0) doc_new blank_line) as (l' & es & d' & v' & H1 & H2 & H3 & H4).
  - exact hist_rep_new.
  - constructor.
  - repeat constructor.
  - split; [by apply pictures_new|reflexivity].
  - reflexivity.
  - reflexivity.
  - intros i Hi. unfold blank_line. apply lookup_replicate. split; [done|]. unfold WIDTH. lia.
  - cbv zeta in H4. destruct H4 as (_ & Hc & Hb). exists l', es, d', v'. split_and!; [done|done|done|done| |].
    + exact (Hb 3%nat ltac:(lia)).
    + exact (Hb 4%nat ltac:(lia)).
Defined.

(** The last column is not blanked: after a full line loses a character, the old
    one at its end stays on the screen. *)
Example full_line_ghost :
  let l := (read_line 80 (replicate 78 97 ++ [8]) (new_line Shell_new)).2 in
  len l = 77%nat /\ ((run_events (out (sh l)) fresh).2.2 : Vga).(BUF) !! 79%nat = Some (entry 97 COLOR).
Proof. vm_compute. by split. Qed.
