(* ===== verification/Applets.v ===== *)
(** The applets that change files ([src/src/applets/]): rm, mk and cp, on the
    file system's volume and a display that is the sequence of its calls.
    Scratch buffers that a call fills before it reads them are left out. *)

From Stdlib Require Import ZArith Lia Ascii String.
From stdpp Require Import base numbers list.
From S2P Require Import Prelude Text Block Fat32 Fat32Dir Fat32File Fat32List Shell.

#[local] Open Scope Z_scope.

Definition is_dash (arg : list Z) : bool :=
  match arg with 45 :: _ :: _ => true | _ => false end.

(** [trim_end_matches(c)]. *)
Fixpoint drop_while (c : Z) (l : list Z) : list Z :=
  match l with
  | [] => []
  | x :: l' => if x =? c then drop_while c l' else l
  end.
Definition trim_end (c : Z) (l : list Z) : list Z := reverse (drop_while c (reverse l)).

Definition ends_with (c : Z) (l : list Z) : bool :=
  match last l with Some x => x =? c | None => false end.

(** A 13-byte name as text: its length, and the text. *)
Definition name_text (name : list Z) : list Z * nat :=
  let s := utf8_or_mark name in (s, default (length s) (position (Z.eqb 0) s)).

(** [name[0] == b'.' && (name[1] == 0 || (name[1] == b'.' && name[2] == 0))]. *)
Definition is_dots (name : list Z) : bool :=
  (byte_at name 0 =? 46) && ((byte_at name 1 =? 0) || ((byte_at name 1 =? 46) && (byte_at name 2 =? 0))).

Definition is_directory (i : FileInfo) : bool := negb (Z.land (fi_attributes i) 16 =? 0).

Definition MAX_PATH : nat := 256.
Definition BUF_SIZE : Z := 512.

Section Applets.
Context {D : Type} `{BlockDevice D}.
(** The bound on the loops of the file system and of the applets. *)
Context (fuel : nat).

Abbreviation AM := (M (World D * list event) Empty_set).

(** ** Calls on the display and on the file system *)

Definition say (es : list event) : AM unit := modify (fun '(w, out) => (w, out ++ es)).

(** [display.write("<applet>: <text>'"); display.write(path); display.writeln(end)]. *)
Definition complain (text : string) (path : list Z) (rest : string) : AM unit :=
  say (write (str text) ++ write path ++ writeln (str rest)).

(** A call of the file system whose error the applet looks at. *)
Definition fat {A} (m : M (World D) FError A) : AM (A + FError) :=
  fun '(w, out) =>
    match m w with
    | (Ret a, w') => (Ret (inl a), (w', out))
    | (Err e, w') => (Ret (inr e), (w', out))
    | (Panic, w') => (Panic, (w', out))
    | (Hang, w') => (Hang, (w', out))
    end.

(** The same with a file or a directory that the caller keeps. *)
Definition with_handle {A H} (h : H) (m : M (World D * H) FError A) : AM ((A + FError) * H) :=
  fun '(w, out) =>
    match m (w, h) with
    | (Ret a, (w', h')) => (Ret (inl a, h'), (w', out))
    | (Err e, (w', h')) => (Ret (inr e, h'), (w', out))
    | (Panic, (w', _)) => (Panic, (w', out))
    | (Hang, (w', _)) => (Hang, (w', out))
    end.

Fixpoint for_each {A} (f : A -> AM unit) (l : list A) : AM unit :=
  match l with
  | [] => ret tt
  | x :: l => do! f x in for_each f l
  end.

(** ** rm *)

Fixpoint rm_flags (chars : list Z) (fs : bool * bool) : option (bool * bool) :=
  match chars with
  | [] => Some fs
  | c :: chars =>
      if c =? 114 then rm_flags chars (true, fs.2)
      else if c =? 102 then rm_flags chars (fs.1, true)
      else None
  end.

(** Paths, recursive, force; [None] is the error "invalid option". *)
Fixpoint rm_parse_args (args : list (list Z)) (paths : list (list Z)) (fs : bool * bool) :
    option (list (list Z) * (bool * bool)) :=
  match args with
  | [] => Some (paths, fs)
  | arg :: args =>
      if is_dash arg then fs ← rm_flags (drop 1 arg) fs; rm_parse_args args paths fs
      else rm_parse_args args (paths ++ [arg]) fs
  end.

(** The names of a directory, one by one; [child] is called with each. *)
Fixpoint remove_children (n : nat) (child : list Z -> AM unit) (path : list Z) (force : bool) (dir : Dir) : AM unit :=
  match n with
  | O => hang
  | S n =>
      let! '(r, dir) := with_handle dir (f_readdir fuel) in
      match r with
      | inl (Some name) =>
          if is_dots name then remove_children n child path force dir
          else
            let '(_, nlen) := name_text name in
            if (nlen =? 0)%nat || (MAX_PATH <=? length path + 1 + nlen)%nat
            then remove_children n child path force dir
            else
              do! child (utf8_or_mark (path ++ [47] ++ take nlen name)) in
              remove_children n child path force dir
      | inl None => ret tt
      | inr _ => if force then ret tt else say (writeln (str "rm: error reading directory"))
      end
  end.

Definition unlink_path (path : list Z) (force : bool) : AM unit :=
  let! r := fat (f_unlink fuel path) in
  match r with
  | inl _ => ret tt
  | inr NoFile => if force then ret tt else complain "rm: cannot remove '" path "': No such file or directory"
  | inr _ => complain "rm: cannot remove '" path "'"
  end.

(** [n] bounds the depth of the directories. *)
Fixpoint remove_path (n : nat) (recursive force : bool) (path : list Z) : AM unit :=
  match n with
  | O => hang
  | S n =>
      let! r := fat (f_stat fuel path) in
      match r with
      | inr _ => if force then ret tt else complain "rm: cannot remove '" path "': No such file or directory"
      | inl info =>
          if is_directory info then
            if negb recursive then complain "rm: cannot remove '" path "': Is a directory"
            else
              let! r := fat (f_opendir fuel path) in
              match r with
              | inl dir =>
                  do! remove_children fuel (remove_path n recursive force) path force dir in
                  unlink_path path force
              | inr _ => if force then ret tt else complain "rm: cannot open directory '" path "'"
              end
          else unlink_path path force
      end
  end.

Definition rm_run (args : list (list Z)) : AM unit :=
  match rm_parse_args args [] (false, false) with
  | None => say (write (str "rm: ") ++ writeln (str "invalid option"))
  | Some ([], _) => say (writeln (str "rm: missing operand"))
  | Some (paths, (recursive, force)) => for_each (remove_path fuel recursive force) paths
  end.

(** ** mk *)

Definition mk_flags (chars : list Z) : bool := forallb (Z.eqb 112) chars.

Fixpoint mk_parse_args (args : list (list Z)) (paths : list (list Z)) (parents : bool) :
    option (list (list Z) * bool) :=
  match args with
  | [] => Some (paths, parents)
  | arg :: args =>
      if is_dash arg
      then if mk_flags (drop 1 arg) then mk_parse_args args paths true else None
      else mk_parse_args args (paths ++ [arg]) parents
  end.

Definition mk_error (e : FError) : string :=
  match e with
  | DiskErr => "Disk error"
  | Exists => "File exists"
  | NoPath => "No such path"
  | Invalid => "Invalid name"
  | MkfsAborted => "Out of clusters"
  | _ => "Unknown error"
  end.

Definition show_err (path : list Z) (label : string) (e : FError) : AM unit :=
  say (write (str "mk: cannot create ") ++ write (str label) ++ write (str " '") ++ write path
       ++ write (str "': ") ++ writeln (str (mk_error e))).

(** [rfind('/')] *)
Definition rfind_slash (p : list Z) : option nat :=
  option_map (fun i => (length p - 1 - i)%nat) (position (Z.eqb 47) (reverse p)).

Definition parent_path (path : list Z) : option (list Z) :=
  let trimmed := trim_end 47 path in
  option_map (fun pos => if (pos =? 0)%nat then [47] else take pos trimmed) (rfind_slash trimmed).

(** [n] bounds the components of the path. *)
Fixpoint create_path (n : nat) (path : list Z) (parents : bool) : AM unit :=
  match n with
  | O => hang
  | S n =>
      let is_dir := ends_with 47 path in
      let path := trim_end 47 path in
      if bool_decide (path = []) then ret tt
      else if is_dir then
        let! r := fat (f_stat fuel path) in
        match r with
        | inl info => if is_directory info then ret tt else show_err path "directory" Exists
        | inr _ =>
            let! r := fat (f_mkdir fuel path) in
            match r with
            | inl _ => ret tt
            | inr NoPath =>
                if parents then
                  match parent_path path with
                  | Some parent =>
                      do! create_path n parent true in
                      let! _ := fat (f_mkdir fuel path) in ret tt
                  | None => ret tt
                  end
                else show_err path "directory" NoPath
            | inr e => show_err path "directory" e
            end
        end
      else
        let create := fat (f_open fuel path (Z.lor FA_WRITE FA_CREATE_NEW)) in
        let! r := create in
        match r with
        | inl _ => ret tt
        | inr Exists => ret tt
        | inr NoPath =>
            if parents then
              match parent_path path with
              | Some parent =>
                  do! create_path n parent true in
                  let! _ := create in ret tt
              | None => ret tt
              end
            else show_err path "file" NoPath
        | inr e => show_err path "file" e
        end
  end.

Definition mk_run (args : list (list Z)) : AM unit :=
  match mk_parse_args args [] false with
  | None => say (write (str "mk: ") ++ writeln (str "invalid option"))
  | Some ([], _) => say (writeln (str "mk: missing operand"))
  | Some (paths, parents) => for_each (fun p => create_path (S (length p)) p parents) paths
  end.

(** ** cp *)

Definition cp_flags (chars : list Z) : bool := forallb (Z.eqb 114) chars.

Fixpoint cp_all (args : list (list Z)) (all : list (list Z)) (recursive : bool) : option (list (list Z) * bool) :=
  match args with
  | [] => Some (all, recursive)
  | arg :: args =>
      if is_dash arg
      then if cp_flags (drop 1 arg) then cp_all args all true else None
      else cp_all args (all ++ [arg]) recursive
  end.

(** Sources, destination, recursive; or the error. *)
Definition cp_parse_args (args : list (list Z)) : (list (list Z) * list Z * bool) + string :=
  match cp_all args [] false with
  | None => inr "invalid option"%string
  | Some (all, recursive) =>
      if (length all <? 2)%nat then inr "missing file operand"%string
      else inl (take (length all - 1) all, default [] (last all), recursive)
  end.

Fixpoint copy_loop (n : nat) (src dst : File) : AM (File * File) :=
  match n with
  | O => hang
  | S n =>
      let! '(r, src) := with_handle src (f_read BUF_SIZE) in
      let data := match r with inl data => data | inr _ => [] end in
      if bool_decide (data = []) then ret (src, dst)
      else
        let! '(r, dst) := with_handle dst (f_write data) in
        let written := match r with inl k => k | inr _ => 0 end in
        if written <? Z.of_nat (length data)
        then do! say (writeln (str "cp: write error")) in ret (src, dst)
        else copy_loop n src dst
  end.

Definition copy_file (src dst : list Z) : AM unit :=
  let! r := fat (f_open fuel src FA_READ) in
  match r with
  | inr _ => complain "cp: cannot open '" src "'"
  | inl src_file =>
      let! r := fat (f_open fuel dst (Z.lor FA_WRITE FA_CREATE_NEW)) in
      match r with
      | inr Exists => complain "cp: cannot create '" dst "': File exists"
      | inr _ => complain "cp: cannot create '" dst "'"
      | inl dst_file =>
          let! '(_, dst_file) := copy_loop fuel src_file dst_file in
          let! _ := with_handle dst_file f_sync in
          ret tt
      end
  end.

Fixpoint copy_children (n : nat) (child : list Z -> list Z -> AM unit) (src dst : list Z) (dir : Dir) : AM unit :=
  match n with
  | O => hang
  | S n =>
      let! '(r, dir) := with_handle dir (f_readdir fuel) in
      match r with
      | inl (Some name) =>
          if is_dots name then copy_children n child src dst dir
          else
            let '(_, nl) := name_text name in
            if (nl =? 0)%nat || (MAX_PATH <=? length src + 1 + nl)%nat || (MAX_PATH <=? length dst + 1 + nl)%nat
            then copy_children n child src dst dir
            else
              do! child (utf8_or_mark (src ++ [47] ++ take nl name)) (utf8_or_mark (dst ++ [47] ++ take nl name)) in
              copy_children n child src dst dir
      | inl None => ret tt
      | inr _ => say (writeln (str "cp: error reading directory"))
      end
  end.

Fixpoint copy_path (n : nat) (recursive : bool) (src dst : list Z) : AM unit :=
  match n with
  | O => hang
  | S n =>
      let! r := fat (f_stat fuel src) in
      match r with
      | inr _ => complain "cp: cannot stat '" src "': No such file or directory"
      | inl info =>
          if is_directory info then
            if negb recursive then complain "cp: omitting directory '" src "'"
            else
              let! _ := fat (f_mkdir fuel dst) in
              let! r := fat (f_opendir fuel src) in
              match r with
              | inl dir => copy_children fuel (copy_path n recursive) src dst dir
              | inr _ => complain "cp: cannot open directory '" src "'"
              end
          else copy_file src dst
      end
  end.

Definition cp_run (args : list (list Z)) : AM unit :=
  match cp_parse_args args with
  | inr e => say (write (str "cp: ") ++ writeln (str e))
  | inl (sources, dest, recursive) =>
      if bool_decide (sources = []) || bool_decide (dest = [])
      then say (writeln (str "cp: missing file operand"))
      else for_each (fun src => copy_path fuel recursive src dest) sources
  end.
End Applets.
