(* ===== verification/AppletLs.v ===== *)
(** The directory listing ([src/src/applets/ls/mod.rs]): collecting the
    entries, sorting them, and both layouts. *)

From Stdlib Require Import ZArith Lia Ascii String.
From stdpp Require Import base numbers list.
From S2P Require Import Prelude Text Block Fat32 Fat32Dir Fat32File Fat32List Shell Applets.

#[local] Open Scope Z_scope.

Record LsFlags : Type := mkFlags { long : bool; all : bool; sort_size : bool; reverse_order : bool }.

Definition LsFlags_default : LsFlags := mkFlags false false false false.

Record LsEntry : Type := mkLsEntry { le_name : list Z; le_size : Z; le_is_dir : bool }.

Definition MAX_ENTRIES : nat := 256.
Definition WIDTH : nat := 80.

(** ** Arguments *)

Fixpoint ls_flags (chars : list Z) (f : LsFlags) : option LsFlags :=
  match chars with
  | [] => Some f
  | c :: chars =>
      if c =? 108 then ls_flags chars (mkFlags true (all f) (sort_size f) (reverse_order f))
      else if c =? 97 then ls_flags chars (mkFlags (long f) true (sort_size f) (reverse_order f))
      else if c =? 83 then ls_flags chars (mkFlags (long f) (all f) true (reverse_order f))
      else if c =? 114 then ls_flags chars (mkFlags (long f) (all f) (sort_size f) true)
      else None
  end.

Fixpoint ls_args (args : list (list Z)) (paths : list (list Z)) (f : LsFlags) :
    option (list (list Z) * LsFlags) :=
  match args with
  | [] => Some (paths, f)
  | arg :: args =>
      if is_dash arg then f ← ls_flags (drop 1 arg) f; ls_args args paths f
      else ls_args args (paths ++ [arg]) f
  end.

Definition parse_ls_args (args : list (list Z)) : option (list (list Z) * LsFlags) :=
  '(paths, f) ← ls_args args [] LsFlags_default;
  Some (if bool_decide (paths = []) then [[47]] else paths, f).

(** ** Sorting *)

(** The name without its padding. *)
Definition sort_name (e : LsEntry) : list Z := trim_end 0 (utf8_or_mark (le_name e)).

(** The first pair of bytes that differ decides, or else the length. *)
Fixpoint cmp_names (a b : list Z) (by_length : comparison) : comparison :=
  match a, b with
  | x :: a', y :: b' => if x =? y then cmp_names a' b' by_length else x ?= y
  | _, _ => by_length
  end.

Definition compare_names (a b : list Z) : comparison :=
  cmp_names a b (Nat.compare (length a) (length b)).

Definition is_gt (c : comparison) : bool := match c with Gt => true | _ => false end.
Definition is_lt (c : comparison) : bool := match c with Lt => true | _ => false end.

Definition must_swap (f : LsFlags) (a b : LsEntry) : bool :=
  if sort_size f then
    if reverse_order f then le_size a <? le_size b else le_size b <? le_size a
  else
    let cmp := compare_names (sort_name a) (sort_name b) in
    if reverse_order f then is_gt cmp else is_lt cmp.

Definition no_entry : LsEntry := mkLsEntry [] 0 false.
Definition entry_of (entries : list LsEntry) (i : nat) : LsEntry := default no_entry (entries !! i).

(** [indices.swap(i, j)] *)
Definition swap (i j : nat) (l : list nat) : list nat :=
  <[i := default O (l !! j)]> (<[j := default O (l !! i)]> l).

(** The inner loop over [j] from [j] on, [n] turns. *)
Fixpoint sort_inner (f : LsFlags) (entries : list LsEntry) (i n j : nat) (l : list nat) : list nat :=
  match n with
  | O => l
  | S n =>
      let a := entry_of entries (default O (l !! i)) in
      let b := entry_of entries (default O (l !! j)) in
      sort_inner f entries i n (S j) (if must_swap f a b then swap i j l else l)
  end.

(** The outer loop over [i] from [i] on, [n] turns. *)
Fixpoint sort_outer (f : LsFlags) (entries : list LsEntry) (n i : nat) (l : list nat) : list nat :=
  match n with
  | O => l
  | S n => sort_outer f entries n (S i) (sort_inner f entries i n (S i) l)
  end.

Definition sorted_indices (f : LsFlags) (entries : list LsEntry) : list nat :=
  sort_outer f entries (length entries) 0 (seq 0 (length entries)).

(** ** Layouts *)

(** The name as it is printed. *)
Definition shown_name (e : LsEntry) : list Z :=
  let '(s, n) := name_text (le_name e) in take n s.

(** The size in a field of [room] characters, its last digits when it does not
    fit. *)
Fixpoint size_field (room : nat) (v : Z) (acc : list Z) : list Z :=
  match room with
  | O => acc
  | S room =>
      let acc := (v mod 10 + 48) :: acc in
      if v / 10 =? 0 then replicate room 32 ++ acc else size_field room (v / 10) acc
  end.

(** The buffer has a ninth byte, which stays zero and is printed with it. *)
Definition long_line (e : LsEntry) : list event :=
  [Put (if le_is_dir e then 100 else 32); Put 32]
  ++ write (size_field 8 (le_size e) [] ++ [0])
  ++ [Put 32]
  ++ (if bool_decide (shown_name e = []) then [] else writeln (shown_name e)).

Definition width (e : LsEntry) : nat := (length (shown_name e) + if le_is_dir e then 1 else 0)%nat.

Definition max_width (es : list LsEntry) : nat := fold_left (fun w e => Nat.max w (width e)) es O.

(** The layout: width of a column, columns, rows. *)
Definition grid (es : list LsEntry) : nat * nat * nat :=
  let col_w := Nat.max (max_width es + 2) 4 in
  let cols := Nat.max (WIDTH / col_w) 1 in
  (col_w, cols, ((length es + cols - 1) / cols)%nat).

(** A cell of a row; the last column is not padded. *)
Definition cell (col_w cols col : nat) (e : LsEntry) : list event :=
  write (shown_name e) ++ (if le_is_dir e then [Put 47] else [])
  ++ (if (col <? cols - 1)%nat then replicate (col_w - width e) (Put 32) else []).

(** The cells of [row] from column [col] on, [n] columns to go. *)
Fixpoint row_cells (es : list LsEntry) (col_w cols rows row n col : nat) : list event :=
  match n with
  | O => []
  | S n =>
      match es !! (col * rows + row)%nat with
      | Some e => cell col_w cols col e ++ row_cells es col_w cols rows row n (S col)
      | None => []
      end
  end.

Definition columns (es : list LsEntry) : list event :=
  let '(col_w, cols, rows) := grid es in
  concat ((fun row => row_cells es col_w cols rows row cols 0 ++ [Put 10]) <$> seq 0 rows).

(** ** The listing *)

Section Ls.
Context {D : Type} `{BlockDevice D}.
Context (fuel : nat).

Abbreviation AM := (M (World D * list event) Empty_set).

(** The size and kind of an entry, looked up in the root directory. *)
Definition stat_entry (name : list Z) (len : nat) : AM LsEntry :=
  let entry_name := take len name ++ replicate (13 - len) 0 in
  let! r := fat (f_stat fuel (utf8_or_mark (47 :: take len entry_name))) in
  ret (match r with
       | inl i => mkLsEntry entry_name (fi_size i) (is_directory i)
       | inr _ => mkLsEntry entry_name 0 false
       end).

Fixpoint collect (n : nat) (show_all : bool) (dir : Dir) (entries : list LsEntry) : AM (list LsEntry) :=
  match n with
  | O => hang
  | S n =>
      let! '(r, dir) := with_handle dir (f_readdir fuel) in
      match r with
      | inl (Some name) =>
          if negb show_all && is_dots name then collect n show_all dir entries
          else if (MAX_ENTRIES <=? length entries)%nat
          then do! say (writeln (str "ls: too many entries")) in ret entries
          else
            let '(_, len) := name_text name in
            if (len =? 0)%nat then collect n show_all dir entries
            else
              let! e := stat_entry name len in
              collect n show_all dir (entries ++ [e])
      | inl None => ret entries
      | inr _ => do! say (writeln (str "ls: error reading directory")) in ret entries
      end
  end.

Definition list_dir (dir : Dir) (f : LsFlags) : AM unit :=
  let! entries := collect fuel (all f) dir [] in
  if bool_decide (entries = []) then ret tt
  else
    let sorted := entry_of entries <$> sorted_indices f entries in
    say (if long f then concat (long_line <$> sorted) else columns sorted).

Definition ls_path (f : LsFlags) (many : bool) (path : list Z) : AM unit :=
  do! (if many then say (write path ++ writeln (str ":")) else ret tt) in
  let! r := fat (f_opendir fuel path) in
  do! match r with
      | inl dir => list_dir dir f
      | inr _ => complain "ls: cannot access '" path "'"
      end in
  if many then say [Put 10] else ret tt.

Definition ls_run (args : list (list Z)) : AM unit :=
  match parse_ls_args args with
  | None => say (write (str "ls: ") ++ writeln (str "invalid option"))
  | Some (paths, f) => for_each (ls_path f (1 <? length paths)%nat) paths
  end.
End Ls.
