(* ===== verification/AppletOut.v ===== *)
(** The file viewer ([src/src/applets/out/mod.rs]): text, or a hex dump when
    the first block has a zero byte. *)

From Stdlib Require Import ZArith Lia Ascii String.
From stdpp Require Import base numbers list.
From S2P Require Import Prelude Text Block Fat32 Fat32Dir Fat32File Shell Applets.

#[local] Open Scope Z_scope.

Definition HEX_COLS : nat := 16.

(** ** Arguments *)

(** [str::parse::<usize>()]: an optional plus sign and digits, no overflow. *)
Definition parse_usize (s : list Z) : option Z :=
  let digits := match s with 43 :: (_ :: _) as rest => rest | _ => s end in
  if bool_decide (digits = []) then None
  else if forallb (fun c => (48 <=? c) && (c <=? 57)) digits
  then let v := dec_value digits in if v <? 2 ^ 64 then Some v else None
  else None.

(** The path and the limit; [None] is the error "invalid option". *)
Fixpoint out_parse_args (args : list (list Z)) (path : list Z) (limit : Z) : option (list Z * Z) :=
  match args with
  | [] => Some (path, limit)
  | arg :: rest =>
      if is_dash arg then
        if byte_at arg 1 =? 110 then
          match rest with
          | [] => Some (path, limit)
          | n :: rest => out_parse_args rest path (default 0 (parse_usize n))
          end
        else None
      else out_parse_args rest arg limit
  end.

(** ** The hex dump *)

Definition HEX_UPPER : list Z := str "0123456789ABCDEF".
Definition hex_char (v : Z) : Z := byte_at HEX_UPPER (Z.to_nat (Z.land v 15)).

Definition offset_text (o : Z) : list Z :=
  (fun shift => hex_char (Z.shiftr o shift)) <$> [28; 24; 20; 16; 12; 8; 4; 0].

Definition hex_pair (b : Z) : list Z := [hex_char (Z.shiftr b 4); hex_char b].

Definition printable (c : Z) : Z := if (32 <=? c) && (c <? 127) then c else 46.

(** One row of up to sixteen bytes. *)
Definition hex_row (o : Z) (row : list Z) : list event :=
  write (offset_text o) ++ write (str "  ")
  ++ concat ((fun b => write (hex_pair b) ++ [Put 32]) <$> row)
  ++ concat (replicate (HEX_COLS - length row) (write (str "   ")))
  ++ write (str " |") ++ (Put ∘ printable <$> row) ++ writeln (str "|").

(** The rows of a block that starts at [offset]. *)
Fixpoint hex_rows (n : nat) (offset : Z) (data : list Z) : list event :=
  match n with
  | O => []
  | S n =>
      if bool_decide (data = []) then []
      else hex_row (u32 offset) (take HEX_COLS data) ++ hex_rows n (offset + 16) (drop HEX_COLS data)
  end.

Section Out.
Context {D : Type} `{BlockDevice D}.
Context (fuel : nat).

Abbreviation AM := (M (World D * list event) Empty_set).

Definition read_or_empty (file : File) (n : Z) : AM (list Z * File) :=
  let! '(r, file) := with_handle file (f_read n) in
  ret (match r with inl data => data | inr _ => [] end, file).

Fixpoint hex_loop (n : nat) (file : File) (offset remain : Z) : AM unit :=
  match n with
  | O => hang
  | S n =>
      if offset <? u32 remain then
        let! '(data, file) := read_or_empty file (Z.min BUF_SIZE (usize (remain - offset))) in
        if bool_decide (data = []) then ret tt
        else
          do! say (hex_rows (length data) offset data) in
          hex_loop n file (u32 (offset + Z.of_nat (length data))) remain
      else ret tt
  end.

Fixpoint text_loop (n : nat) (file : File) (remaining : Z) : AM unit :=
  match n with
  | O => hang
  | S n =>
      if 0 <? remaining then
        let! '(data, file) := read_or_empty file (Z.min BUF_SIZE remaining) in
        if bool_decide (data = []) then ret tt
        else
          do! say (write (utf8_or_mark data)) in
          text_loop n file (remaining - Z.of_nat (length data))
      else ret tt
  end.

(** What is shown of an open file. *)
Definition show_file (file : File) (limit : Z) : AM unit :=
  let size := f_size file in
  let! '(probe, file) := read_or_empty file BUF_SIZE in
  let is_binary := existsb (Z.eqb 0) probe in
  let! '(_, file) := with_handle file (f_lseek 0) in
  let remain := if 0 <? limit then Z.min limit size else size in
  if is_binary then hex_loop fuel file 0 remain
  else do! text_loop fuel file remain in say [Put 10].

Definition out_run (args : list (list Z)) : AM unit :=
  match out_parse_args args [] 0 with
  | None => say (write (str "out: ") ++ writeln (str "invalid option"))
  | Some (path, limit) =>
      if bool_decide (path = []) then say (writeln (str "out: missing file operand"))
      else
        let! r := fat (f_stat fuel path) in
        match r with
        | inr _ => complain "out: cannot access '" path "': No such file or directory"
        | inl info =>
            if is_directory info then complain "out: '" path "': Is a directory"
            else
              let! r := fat (f_open fuel path FA_READ) in
              match r with
              | inr _ => complain "out: cannot open '" path "'"
              | inl file => show_file file limit
              end
        end
  end.
End Out.
