(* ===== verification/AppletInfo.v ===== *)
(** The applets that show information ([src/src/applets/]): datetime, sysinfo
    and heap, with the table of registered applets. *)

From Stdlib Require Import ZArith Lia Ascii String.
From stdpp Require Import base numbers list.
From S2P Require Import Prelude Text Machine Heap Memory Rtc Cpuid Shell.

#[local] Open Scope Z_scope.

(** ** Numbers *)

(** The digits are stored from index 14 of the buffer downwards. *)
Definition fmt_num (n : Z) : list Z := utf8_or_mark (dec_digits 15 n []).

Definition fmt_two (n : Z) : list Z := default (str "??") (from_utf8 [u8 (48 + n / 10); u8 (48 + n mod 10)]).

(** ** datetime *)

Definition months : list (list Z) :=
  str <$> ["January"; "February"; "March"; "April"; "May"; "June";
           "July"; "August"; "September"; "October"; "November"; "December"]%string.

(** [None] is the panic of an index outside the table. *)
Definition month_name (month : Z) : option (list Z) :=
  if month <=? 12 then months !! Z.to_nat (u8 (month - 1)) else Some (str "???").

Definition datetime_text (dt : RtcDate) (name : list Z) : list event :=
  write name ++ write (str " ") ++ write (fmt_num (day dt)) ++ write (str ", ")
  ++ write (fmt_num (year dt)) ++ write (str "  ") ++ write (fmt_two (hours dt)) ++ write (str ":")
  ++ write (fmt_two (minutes dt)) ++ write (str ":") ++ writeln (fmt_two (seconds dt)).

Definition datetime_run {D} `{Machine.Machine D} : M (D * list event) Empty_set unit :=
  let! dt := zoom read_datetime in
  let! name := or_panic (month_name (month dt)) in
  modify (fun '(d, out) => (d, out ++ datetime_text dt name)).

(** ** heap *)

Definition dec_str (v : Z) : option (list Z) := utf8_or_mark <$> dec_text v.

Definition hex_str (v : Z) : list Z :=
  utf8_or_mark
    (str "0x" ++ ((fun k => let nib := Z.land (Z.shiftr v ((15 - k) * 4)) 15 in
                            if nib <? 10 then 48 + nib else 97 + (nib - 10)) <$> seqZ 0 16)).

Definition write_row (label : string) (value : list Z) : list event := write (str label) ++ writeln value.

(** [None] is the panic of an index outside [tmp]. *)
Definition heap_run (kh : kernel_heap) : option (list event) :=
  let total := usize (HEAP_END - HEAP_BASE) in
  let free := free_bytes (kh_core kh).1 in
  let used := usize (total - free) in
  let pct := if 0 <? total then usize (used * 100) / total else 0 in
  live ← dec_str (alloc_count (kh_core kh).1);
  percent ← dec_str pct;
  Some (writeln (str "planckOS v0.1 - Heap Allocator")
        ++ write_row "Total heap:     " (hex_str total)
        ++ write_row "Free:           " (hex_str free)
        ++ write_row "Used:           " (hex_str used)
        ++ write_row "Live allocs:    " live
        ++ write_row "Utilization:    " percent
        ++ write (str "%" ++ [13; 10])).

(** ** sysinfo *)

Definition features (cpu : CpuInfo) : list (list Z) :=
  let table : list (bool * Z * string) :=
    [(true, 0, "FPU"); (true, 4, "TSC"); (true, 23, "MMX"); (true, 25, "SSE"); (true, 26, "SSE2");
     (false, 0, "SSE3"); (false, 9, "SSSE3"); (false, 12, "FMA"); (false, 19, "SSE4.1"); (false, 20, "SSE4.2");
     (false, 28, "AVX"); (false, 30, "RDRAND"); (true, 24, "FXSR"); (true, 16, "PAT"); (true, 5, "MSR");
     (true, 13, "PSE")]%string in
  omap (fun '(edx, bit, name) =>
    if (if edx : bool then has_feature_edx cpu bit else has_feature_ecx cpu bit)
    then Some (str name) else None) table.

(** The words with a space between them. *)
Definition spaced (l : list (list Z)) : list event :=
  concat (imap (fun i w => (if (0 <? i)%nat then write (str " ") else []) ++ write w) l).

(** [None] is the panic of [brand_str]. *)
Definition sysinfo_run (cpu : CpuInfo) (tick_count : Z) : option (list event) :=
  brand ← brand_str cpu;
  let total_mb := u32 (total_usable / (1024 * 1024)) in
  let seconds := tick_count / 1000 in
  Some (writeln (str "planckOS v0.1 - System Information") ++ writeln []
        ++ write (str "Kernel:       planckOS v0.1 (x86-64, Rust)" ++ [13; 10])
        ++ write (str "CPU Vendor:   ") ++ writeln (vendor_str cpu)
        ++ write (str "CPU Model:    ") ++ writeln brand
        ++ write (str "CPU Revision: Family ") ++ write (fmt_num (family cpu))
        ++ write (str ", Model ") ++ write (fmt_num (model cpu))
        ++ write (str ", Stepping ") ++ writeln (fmt_num (stepping cpu))
        ++ write (str "Features:     ") ++ spaced (features cpu) ++ [Put 10]
        ++ write (str "Memory:       ") ++ write (fmt_num total_mb) ++ writeln (str " MB usable")
        ++ write (str "Uptime:       ") ++ write (fmt_num (u32 (seconds / 60))) ++ write (str "m ")
        ++ write (fmt_num (u32 (seconds mod 60))) ++ writeln (str "s")).

(** ** The registry *)

(** [sysinfo] and [datetime] are compiled in when their features are set. *)
Definition build_registry (applet_sysinfo applet_datetime : bool) : registry :=
  (if applet_sysinfo then [(str "sysinfo", str "Display system information")] else [])
  ++ (if applet_datetime then [(str "datetime", str "Display current date and time")] else [])
  ++ [(str "heap", str "Show heap allocator statistics")].
