(* ===== verification/AppletSpec.v ===== *)
(** What the file applets do: [out] shows a text file, [rm] removes a file, and
    what [mk -p] and [rm -r] make of nested directories. *)

From Stdlib Require Import ZArith Lia Ascii String.
From stdpp Require Import base numbers list gmap.
From S2P Require Import Prelude Text Block Fat32 Fat32Dir Fat32File Fat32List FatSpec FatChain FatCluster.
From S2P Require Import FatDirSpec FatFileSpec FatWrite FatDemo FatTheorems FatFileTheorems FatFiles Shell Applets AppletLs AppletOut.

#[local] Open Scope Z_scope.

(** ** Lemmas on calls *)

Section Calls.
Context {D : Type} `{ReliableDevice D}.

Lemma fat_ret {A} (m : M (World D) FError A) w a w' out :
  m w = (Ret a, w') -> fat m (w, out) = (Ret (inl a), (w', out)).
Proof. intros Hm. unfold fat. by rewrite Hm. Qed.

Lemma fat_err {A} (m : M (World D) FError A) w e w' out :
  m w = (Err e, w') -> fat m (w, out) = (Ret (inr e), (w', out)).
Proof. intros Hm. unfold fat. by rewrite Hm. Qed.

Lemma with_handle_ret {A H'} (h : H') (m : M (World D * H') FError A) w a w' h' out :
  m (w, h) = (Ret a, (w', h')) -> with_handle h m (w, out) = (Ret (inl a, h'), (w', out)).
Proof. intros Hm. unfold with_handle. by rewrite Hm. Qed.

(** ** Lemmas on reading *)

Definition ascii (l : list Z) : Prop := Forall (fun b => b < 128) l.

Lemma utf8_ascii l : ascii l -> utf8_or_mark l = l.
Proof. intros Hl. unfold utf8_or_mark. by rewrite (from_utf8_ascii l Hl). Qed.

(** A read gives the next bytes of the file, up to its end. *)
Lemma read_or_empty_run v (w : World D) f cs n out :
  geometry v (sector_count (w_dev w)) -> w_vol w = Some v -> file_ok v (w_dev w) cs f ->
  lacks f FA_READ = false -> 0 <= n ->
  exists f', read_or_empty f n (w, out)
      = (Ret (take (Z.to_nat n) (drop (Z.to_nat (f_position f)) (contents v (w_dev w) cs f)), f'), (w, out))
    /\ file_ok v (w_dev w) cs f' /\ lacks f' FA_READ = false /\ f_size f' = f_size f
    /\ f_position f' = f_position f + Z.min n (f_size f - f_position f).
Proof.
  intros Hg Hv Hok Hfl Hn. destruct (f_read_run v w f cs n Hg Hv Hok Hfl Hn) as (c & s & b & R & Hok').
  cbv zeta in R, Hok'. set (k := Z.min n (f_size f - f_position f)) in *.
  exists (set_cursor (f_position f + k) c s b f). split; [|by split_and!].
  unfold read_or_empty. run_with (with_handle_ret f _ _ _ _ _ out R). unfold ret. do 3 f_equal.
  unfold contents. pose proof (fo_pos _ _ _ _ Hok). rewrite skipn_firstn_comm, take_take. f_equal. lia.
Qed.

Lemma text_loop_run n v (w : World D) f cs r out :
  geometry v (sector_count (w_dev w)) -> w_vol w = Some v -> file_ok v (w_dev w) cs f ->
  lacks f FA_READ = false -> 0 <= r <= f_size f - f_position f -> (Z.to_nat r < n)%nat ->
  ascii (take (Z.to_nat r) (drop (Z.to_nat (f_position f)) (contents v (w_dev w) cs f))) ->
  text_loop n f r (w, out)
  = (Ret tt, (w, out ++ write (take (Z.to_nat r) (drop (Z.to_nat (f_position f)) (contents v (w_dev w) cs f))))).
Proof.
  intros Hg Hv. revert f r out. induction n as [|n IH]; intros f r out Hok Hfl Hr Hn Hasc; [lia|].
  cbn [text_loop]. destruct (Z.ltb_spec 0 r) as [Hpos|Hz].
  - destruct (read_or_empty_run v w f cs (Z.min BUF_SIZE r) out Hg Hv Hok Hfl) as (f' & R & Hok' & Hfl' & Hsz & Hp);
      [unfold BUF_SIZE; lia|]. rewrite (Z.min_l (Z.min BUF_SIZE r)) in Hp by lia. run_with R. cbv beta iota. set (C := contents v (w_dev w) cs f) in *.
    assert (contents v (w_dev w) cs f' = C) as HC by (unfold C, contents; by rewrite Hsz).
    set (k := Z.min BUF_SIZE r) in *. assert (0 < k <= r) as Hk by (unfold k, BUF_SIZE; lia).
    set (data := take (Z.to_nat k) (drop (Z.to_nat (f_position f)) C)).
    assert (length data = Z.to_nat k) as Hlen.
    { unfold data. rewrite length_take, length_drop. unfold C. rewrite (contents_length v (w_dev w) cs f Hg Hok).
      pose proof (fo_pos _ _ _ _ Hok). lia. }
    rewrite bool_decide_eq_false_2 by (intros Hd; rewrite Hd in Hlen; cbn in Hlen; lia).
    pose proof (fo_pos _ _ _ _ Hok).
    assert (take (Z.to_nat r) (drop (Z.to_nat (f_position f)) C)
      = data ++ take (Z.to_nat (r - Z.of_nat (Z.to_nat k))) (drop (Z.to_nat (f_position f + k)) C)) as Hsplit.
    { unfold data. rewrite Z2Nat.inj_add, <- drop_drop by lia. symmetry.
      replace (Z.to_nat r) with (Z.to_nat k + Z.to_nat (r - Z.of_nat (Z.to_nat k)))%nat by lia.
      apply take_take_drop. }
    rewrite Hsplit in *. apply Forall_app in Hasc as [Hasc1 Hasc2].
    unfold bind, say, modify. rewrite utf8_ascii by done.
    rewrite IH; [|done|done|rewrite Hsz, Hp, Hlen; lia|rewrite Hlen; lia|by rewrite HC, Hp, Hlen].
    rewrite HC, Hp, Hlen, <- app_assoc. unfold write. by rewrite <- fmap_app.
  - replace r with 0 by lia. cbn. unfold ret. by rewrite app_nil_r.
Qed.
End Calls.

(** ** Properties *)

Section Root.
Context {D : Type} `{ReliableDevice D}.
(** A mounted volume in order, with a file of the root directory. *)
Context (fuel : nat) (v : FatVolume) (w : World D) (rc : list Z) (name : list Z) (c : Z) (k : nat) (cs : list Z).

Abbreviation entry := (entry_at (cluster_data v (w_dev w) c) k).

Record root_file : Prop := {
  rf_geometry : geometry v (sector_count (w_dev w));
  rf_mounted : w_vol w = Some v;
  rf_root : chain (fat_entry v (w_dev w)) (root_cluster v) rc;
  rf_disk : Forall (on_disk v (sector_count (w_dev w))) rc;
  rf_fuel : (length rc < fuel)%nat;
  rf_name : name <> [] /\ Forall (fun b => b <> 0 /\ b <> SLASH) name;
  rf_found : lookup_entry name (dir_entries v (w_dev w) rc) = Some (c, k);
  rf_file : Z.land (entry_attr entry) 16 = 0;
  rf_chain : chain (fat_entry v (w_dev w)) (entry_start entry) cs;
}.

(** How much of a file of [size] bytes is shown. *)
Definition shown_size (limit size : Z) : Z := if 0 <? limit then Z.min limit size else size.

Lemma out_file_run args limit out :
  root_file -> out_parse_args args [] 0 = Some (SLASH :: name, limit) ->
  terminated (fat_entry v (w_dev w)) cs -> Forall (on_disk v (sector_count (w_dev w))) cs -> cs <> [] ->
  entry_size entry <= Z.of_nat (length cs) * csize v -> (Z.to_nat (entry_size entry) < fuel)%nat ->
  let bytes := take (Z.to_nat (entry_size entry)) (file_bytes v (w_dev w) cs) in
  let text := take (Z.to_nat (shown_size limit (entry_size entry))) bytes in
  ascii text -> Forall (fun b => b <> 0) (take 512 bytes) ->
  out_run fuel args (w, out) = (Ret tt, (w, out ++ writeln text)).
Proof.
  intros [Hg Hv Hrc Hdisk Hf [Hne Hn] Hlk Hattr Hch] Hargs Ht Hd Hcs Hsz Hfuel bytes text Hasc Hnz. unfold out_run.
  rewrite Hargs, bool_decide_eq_false_2 by done.
  destruct (f_stat_run fuel v w rc name c k Hg Hv Hrc Hdisk Hf Hne Hn Hlk) as (info & R1 & Hat & _).
  run_with (fat_ret _ _ _ _ out R1). cbv beta iota.
  unfold is_directory. rewrite Hat, Hattr. cbn [Z.eqb negb].
  pose proof (f_open_run fuel v w rc name FA_READ Hg Hv Hrc Hdisk Hf Hne Hn eq_refl) as Hopen.
  rewrite Hlk in Hopen. cbv zeta in Hopen. destruct Hopen as (f & R2 & Hp & Hfs & Hfl & _ & Hok).
  specialize (Hok cs Hch Ht Hd Hcs Hsz). run_with (fat_ret _ _ _ _ out R2). cbv beta iota.
  assert (lacks f FA_READ = false) as Hr by (unfold lacks; by rewrite Hfl).
  assert (contents v (w_dev w) cs f = bytes) as Htext by (unfold contents; by rewrite Hfs).
  unfold show_file. rewrite Hfs.
  destruct (read_or_empty_run v w f cs BUF_SIZE out Hg Hv Hok Hr) as (f1 & R3 & Hok1 & Hr1 & Hs1 & _); [done|].
  run_with R3. cbv beta iota. rewrite Hp, Htext. change (Z.to_nat 0) with O. rewrite drop_0.
  assert (existsb (Z.eqb 0) (take (Z.to_nat BUF_SIZE) bytes) = false) as ->.
  { apply not_true_iff_false. rewrite existsb_exists. intros (b & Hb & H0b%Z.eqb_eq).
    apply (proj1 (Forall_forall _ _) Hnz b); [by apply list_elem_of_In|lia]. }
  destruct (f_lseek_inside_run v w f1 cs 0 Hg Hv Hok1) as (c4 & s4 & b4 & R4 & Hok4).
  { pose proof (fo_size _ _ _ _ Hok1). lia. }
  { destruct (csize_nat _ _ Hg) as [_ Hcsz]. destruct cs; [done|cbn; lia]. }
  cbv zeta in R4, Hok4. run_with (with_handle_ret f1 _ _ _ _ _ out R4). cbv beta iota.
  change (if 0 <? limit then Z.min limit (entry_size entry) else entry_size entry) with (shown_size limit (entry_size entry)).
  set (f4 := set_cursor 0 c4 s4 b4 f1) in *. cbn iota.
  assert (f_size f4 = entry_size entry) as Hs4 by (by rewrite <- Hfs, <- Hs1).
  assert (contents v (w_dev w) cs f4 = bytes) as Htext4 by (unfold contents; by rewrite Hs4).
  pose proof (fo_size _ _ _ _ Hok4) as Hrange. rewrite Hs4 in Hrange.
  assert (0 <= shown_size limit (entry_size entry) <= entry_size entry) as Hshown
    by (unfold shown_size; destruct (Z.ltb_spec 0 limit); lia).
  pose proof (text_loop_run fuel v w f4 cs (shown_size limit (entry_size entry)) out Hg Hv Hok4 Hr1) as R5.
  rewrite Htext4 in R5. change (f_position f4) with 0 in R5. change (Z.to_nat 0) with O in R5. rewrite drop_0 in R5.
  run_with (R5 ltac:(lia) ltac:(lia) Hasc). unfold say, modify, writeln. by rewrite <- app_assoc.
Qed.

Lemma rm_file_run n recursive force out :
  root_file -> Forall (fun x => x < entries v) cs -> (length cs < fuel)%nat ->
  exists d', remove_path fuel (S n) recursive force (SLASH :: name) (w, out) = (Ret tt, (set_dev d' w, out))
    /\ cluster_data v d' c = <[(32 * k)%nat := 229]> (cluster_data v (w_dev w) c)
    /\ (forall x, on_disk v (sector_count (w_dev w)) x -> x <> c -> cluster_data v d' x = cluster_data v (w_dev w) x)
    /\ (forall x, 0 <= x < entries v -> fat_entry v d' x = if decide (x ∈ cs) then 0 else fat_entry v (w_dev w) x).
Proof.
  intros [Hg Hv Hrc Hdisk Hf [Hne Hn] Hlk Hattr Hch] Hcs Hfuel. cbn [remove_path].
  destruct (f_stat_run fuel v w rc name c k Hg Hv Hrc Hdisk Hf Hne Hn Hlk) as (info & R1 & Hat & _).
  run_with (fat_ret _ _ _ _ out R1). cbv beta iota. unfold is_directory. rewrite Hat, Hattr. cbn [Z.eqb negb].
  destruct (f_unlink_run fuel v w rc name c k cs Hg Hv Hrc Hdisk Hf Hne Hn Hlk Hch Hcs Hfuel) as (d' & R2 & _ & Hd).
  exists d'. split; [|exact Hd]. unfold unlink_path. by run_with (fat_ret _ _ _ _ out R2).
Qed.
End Root.

(** The demo volume with text in the file: a sector each of [A], [B] and [C]. *)
Definition text_disk : RamDisk :=
  mkRamDisk 129
    (<[0 := demo_boot]> (<[1 := demo_fat]> (<[2 := demo_fat]> (<[3 := demo_root]>
      (<[4 := replicate 512 65]> (<[6 := replicate 512 66]> (<[5 := replicate 512 67]> ∅))))))).

Definition text_world : World RamDisk :=
  mkWorld text_disk (Some demo_vol) 2 (47 :: replicate 255 0) (replicate 512 0) true.

Lemma demo_root_file w : w = text_world \/ w = demo_world ->
  root_file 1400 demo_vol w [2] demo_name 2 0 [3; 5; 4].
Proof.
  intros Hw. split.
  - destruct Hw as [-> | ->]; split; vm_compute; try (split; discriminate); try discriminate; reflexivity.
  - by destruct Hw as [-> | ->].
  - destruct Hw as [-> | ->]; vm_compute; repeat split.
  - apply Forall_singleton. destruct Hw as [-> | ->]; apply demo_on_disk; lia.
  - cbn [length]. lia.
  - split; [done|]. unfold demo_name, SLASH. repeat (apply Forall_cons; split; [lia|]). by apply Forall_nil.
  - destruct Hw as [-> | ->]; vm_compute; reflexivity.
  - destruct Hw as [-> | ->]; vm_compute; reflexivity.
  - destruct Hw as [-> | ->]; vm_compute; repeat split.
Qed.

(** C31: [out] on a file of the root directory whose first block holds no zero
    byte: the display shows the file's bytes in order, all of them or as many as
    a positive [-n] allows, and then a newline, and the volume is as it was.
    The bytes shown are below 128 (text beyond ASCII may be cut inside a
    character at a block's end), the chain holds the file's size, and the fuel
    exceeds it. *)
Theorem out_shows_text {D} `{ReliableDevice D} fuel v (w : World D) rc name c k cs args limit out :
  root_file fuel v w rc name c k cs -> out_parse_args args [] 0 = Some (SLASH :: name, limit) ->
  terminated (fat_entry v (w_dev w)) cs -> Forall (on_disk v (sector_count (w_dev w))) cs -> cs <> [] ->
  let size := entry_size (entry_at (cluster_data v (w_dev w) c) k) in
  size <= Z.of_nat (length cs) * csize v -> (Z.to_nat size < fuel)%nat ->
  let bytes := take (Z.to_nat size) (file_bytes v (w_dev w) cs) in
  let text := take (Z.to_nat (if 0 <? limit then Z.min limit size else size)) bytes in
  Forall (fun b => b < 128) text -> Forall (fun b => b <> 0) (take 512 bytes) ->
  out_run fuel args (w, out) = (Ret tt, (w, out ++ writeln text)).
Proof. intros. by apply (out_file_run fuel v w rc name c k cs args limit). Qed.

Lemma out_shows_text_witness :
  out_run 1400 [str "-n"; str "1026"; SLASH :: demo_name] (text_world, [])
  = (Ret tt, (text_world, writeln (replicate 512 65 ++ replicate 512 66 ++ replicate 2 67))).
Proof.
  rewrite (out_shows_text 1400 demo_vol text_world [2] demo_name 2 0 [3; 5; 4] [str "-n"; str "1026"; SLASH :: demo_name] 1026 []).
  - vm_compute. reflexivity.
  - apply demo_root_file. left. reflexivity.
  - vm_compute. reflexivity.
  - intros x Hx. injection Hx as <-. vm_compute. discriminate.
  - do 3 (apply Forall_cons; split; [apply (demo_on_disk _); lia|]). apply Forall_nil. exact I.
  - discriminate.
  - vm_compute. discriminate.
  - apply Nat.ltb_lt. vm_compute. reflexivity.
  - apply (bool_decide_unpack _). vm_compute. exact I.
  - apply (bool_decide_unpack _). vm_compute. exact I.
Defined.

(** [rm] on a file of the root directory: its entry is marked free, its
    clusters are given back, all other clusters keep their bytes and table
    entries, and nothing is shown. *)
Theorem rm_removes_file {D} `{ReliableDevice D} fuel v (w : World D) rc name c k cs out :
  root_file fuel v w rc name c k cs ->
  Forall (fun x => x < entries v) cs -> (length cs < fuel)%nat ->
  exists d', rm_run fuel [SLASH :: name] (w, out) = (Ret tt, (set_dev d' w, out))
    /\ cluster_data v d' c = <[(32 * k)%nat := 229]> (cluster_data v (w_dev w) c)
    /\ (forall x, on_disk v (sector_count (w_dev w)) x -> x <> c -> cluster_data v d' x = cluster_data v (w_dev w) x)
    /\ (forall x, 0 <= x < entries v -> fat_entry v d' x = if decide (x ∈ cs) then 0 else fat_entry v (w_dev w) x).
Proof.
  intros Hf Hcs Hfuel. destruct fuel as [|n]; [lia|].
  destruct (rm_file_run (S n) v w rc name c k cs n false false out Hf Hcs Hfuel) as (d' & R & Hd).
  exists d'. split; [|exact Hd]. unfold rm_run. change (rm_parse_args [SLASH :: name] [] (false, false))
    with (Some ([SLASH :: name], (false, false))). cbn [for_each]. by run_with R.
Qed.

Lemma rm_removes_file_witness : exists d',
  rm_run 1400 [SLASH :: demo_name] (demo_world, []) = (Ret tt, (set_dev d' demo_world, []))
  /\ fat_entry demo_vol d' 5 = 0.
Proof.
  destruct (rm_removes_file 1400 demo_vol demo_world [2] demo_name 2 0 [3; 5; 4] [])
    as (d' & R & _ & _ & Hfat).
  - apply demo_root_file. right. reflexivity.
  - do 3 (apply Forall_cons; split; [reflexivity|]). apply Forall_nil. exact I.
  - apply Nat.leb_le. reflexivity.
  - exists d'. split; [exact R|]. rewrite (Hfat 5); [reflexivity|]. vm_compute. split; [discriminate|reflexivity].
Defined.

(** [mk -p] makes the parents of a directory as files: after [mk -p /A/B/] the
    root holds a regular file [A], of size zero, and the entry of [B] is in the
    cluster of its data. *)
Theorem mk_p_makes_files :
  let '(r, (w', out)) := mk_run 50 [str "-p"; str "/A/B/"] (demo_world, []) in
  r = Ret tt /\ out = []
  /\ (exists i, (f_stat 50 (str "/A") w').1 = Ret i /\ fi_attributes i = ATTR_ARCHIVE /\ fi_size i = 0)
  /\ exists i, (f_stat 50 (str "/A/B") w').1 = Ret i /\ fi_attributes i = ATTR_DIRECTORY.
Proof. vm_compute. split_and!; [done|done|by eexists|by eexists]. Qed.

(** [rm -r] of a directory with a file in it: the names of the parent are taken
    for the children, none of which is found; the directory is removed, the
    file in it is not, and its cluster stays in use for good. *)
Example rm_r_loses_children :
  let '(_, (w1, _)) := mk_run 50 [str "/D/"; str "/D/X"] (demo_world, []) in
  let '(r, (w2, out)) := rm_run 50 [str "-r"; str "/D"] (w1, []) in
  r = Ret tt
  /\ out = writeln (str "rm: cannot remove '/D/KERNEL.BIN': No such file or directory")
           ++ writeln (str "rm: cannot remove '/D/D': No such file or directory")
  /\ (f_stat 50 (str "/D") w2).1 = Err NoFile
  /\ (f_getfree demo_world).1 = Ret (122, 126) /\ (f_getfree w2).1 = Ret (121, 126).
Proof. vm_compute. by split_and!. Qed.

(** [cp] on the demo volume. *)
Example cp_copies :
  let '(r, (w1, out)) := cp_run 50 [str "/KERNEL.BIN"; str "/COPY.BIN"] (demo_world, []) in
  r = Ret tt /\ out = []
  /\ (out_run 50 [str "/COPY.BIN"] (w1, [])).2.2 = (out_run 50 [str "/KERNEL.BIN"] (demo_world, [])).2.2.
Proof. vm_compute. by split_and!. Qed.

(** [ls] of a directory lists its parent. *)
Example ls_lists_parent :
  let '(_, (w1, _)) := mk_run 50 [str "/D/"; str "/D/X"] (demo_world, []) in
  (ls_run 50 [str "/D"] (w1, [])).2.2 = (ls_run 50 [str "/"] (w1, [])).2.2.
Proof. vm_compute. reflexivity. Qed.
