(* ===== verification/AppletLsSpec.v ===== *)
(** What the listing shows: the entries of the directory, every one once, in the
    order asked for, and no line longer than the screen. *)

From Stdlib Require Import ZArith Lia Sorted.
From stdpp Require Import base numbers list.
From S2P Require Import Prelude Text Block Fat32 Fat32Dir Fat32File Fat32List FatSpec FatChain FatCluster.
From S2P Require Import FatDirSpec FatFileSpec FatDemo FatTheorems FatListSpec FatFiles Shell Applets AppletLs AppletSpec.

#[local] Open Scope Z_scope.

(** ** The orders *)

(** Names in the order of their bytes, a prefix first. *)
Definition name_le (a b : LsEntry) : Prop := compare_names (sort_name a) (sort_name b) <> Gt.

(** [a] may stand before [b]: by name backwards, or forwards with [-r]; with
    [-S] by size, the largest first with [-r]. *)
Definition in_order (f : LsFlags) (a b : LsEntry) : Prop :=
  if sort_size f
  then if reverse_order f then le_size b <= le_size a else le_size a <= le_size b
  else if reverse_order f then name_le a b else name_le b a.

(** The places that a row prints, from column [col] on. *)
Fixpoint row_places (len rows row n col : nat) : list nat :=
  match n with
  | O => []
  | S n => if (col * rows + row <? len)%nat then (col * rows + row)%nat :: row_places len rows row n (S col) else []
  end.

(** ** Lemmas on the orders *)

Lemma compare_names_cons x a y b :
  compare_names (x :: a) (y :: b) = if x =? y then compare_names a b else x ?= y.
Proof. done. Qed.

Lemma compare_names_opp a b : compare_names b a = CompOpp (compare_names a b).
Proof.
  revert b. induction a as [|x a IH]; intros [|y b]; [done..|]. rewrite !compare_names_cons, (Z.eqb_sym y).
  destruct (x =? y); [apply IH|]. apply Z.compare_antisym.
Qed.

Lemma compare_names_trans a b c : compare_names a b = Lt -> compare_names b c = Lt -> compare_names a c = Lt.
Proof.
  revert b c. induction a as [|x a IH]; intros [|y b] [|z c]; try done. rewrite !compare_names_cons.
  destruct (Z.eqb_spec x y) as [->|Hxy], (Z.eqb_spec y z) as [->|Hyz]; intros H1 H2.
  - rewrite ?Z.eqb_refl. eauto.
  - done.
  - by rewrite (proj2 (Z.eqb_neq _ _) Hxy).
  - rewrite Z.compare_lt_iff in *. rewrite (proj2 (Z.eqb_neq x z)) by lia. apply Z.compare_lt_iff. lia.
Qed.

Lemma must_swap_order f a b : must_swap f a b = false <-> in_order f a b.
Proof.
  unfold must_swap, in_order, name_le. rewrite (compare_names_opp (sort_name a) (sort_name b)).
  destruct (sort_size f), (reverse_order f); [apply Z.ltb_ge|apply Z.ltb_ge| |];
    destruct (compare_names (sort_name a) (sort_name b)); cbn; intuition congruence.
Qed.

Lemma must_swap_asym f a b : must_swap f a b = true -> must_swap f b a = false.
Proof.
  unfold must_swap. rewrite (compare_names_opp (sort_name a) (sort_name b)).
  destruct (sort_size f), (reverse_order f); [lia..| |];
    by destruct (compare_names (sort_name a) (sort_name b)).
Qed.

Lemma must_swap_trans f a b c : must_swap f a b = true -> must_swap f b c = true -> must_swap f a c = true.
Proof.
  unfold must_swap. destruct (sort_size f), (reverse_order f); [lia..| |].
  - rewrite (compare_names_opp (sort_name b) (sort_name a)), (compare_names_opp (sort_name c) (sort_name b)),
      (compare_names_opp (sort_name c) (sort_name a)).
    pose proof (compare_names_trans (sort_name c) (sort_name b) (sort_name a)) as Ht.
    destruct (compare_names (sort_name b) (sort_name a)), (compare_names (sort_name c) (sort_name b)); try done.
    intros _ _. by rewrite Ht.
  - pose proof (compare_names_trans (sort_name a) (sort_name b) (sort_name c)) as Ht.
    destruct (compare_names (sort_name a) (sort_name b)), (compare_names (sort_name b) (sort_name c)); try done.
    intros _ _. by rewrite Ht.
Qed.

(** ** Lemmas on the sort *)

(** A list around two of its places. *)
Lemma list_two (l : list nat) i j x y : (i < j)%nat -> l !! i = Some x -> l !! j = Some y ->
  exists a b c, l = a ++ x :: b ++ y :: c /\ i = (length a + 0)%nat /\ j = (length a + S (length b + 0))%nat.
Proof.
  intros Hij Hx Hy. apply lookup_lt_Some in Hy as Hj.
  exists (take i l), (take (j - S i) (drop (S i) l)), (drop (S j) l). split_and!.
  - rewrite <- (take_drop_middle l i x Hx) at 1. do 2 f_equal.
    rewrite <- (take_drop_middle (drop (S i) l) (j - S i) y) at 1.
    + do 2 f_equal. rewrite drop_drop. f_equal. lia.
    + rewrite lookup_drop. by replace (S i + (j - S i))%nat with j by lia.
  - rewrite length_take. lia.
  - rewrite !length_take, length_drop. lia.
Qed.

Lemma swap_perm i j l : (i < j < length l)%nat -> swap i j l ≡ₚ l.
Proof.
  intros Hij. destruct (lookup_lt_is_Some_2 l i) as [x Hx]; [lia|].
  destruct (lookup_lt_is_Some_2 l j) as [y Hy]; [lia|]. unfold swap. rewrite Hx, Hy. cbn [default from_option id].
  destruct (list_two l i j x y) as (a & b & c & -> & -> & ->); [lia|done|done|].
  rewrite !insert_app_r. simpl. rewrite insert_app_r. simpl.
  solve_Permutation.
Qed.

Section Sorting.
Context (f : LsFlags) (es : list LsEntry).

Definition before (a b : nat) : Prop := must_swap f (entry_of es a) (entry_of es b) = false.

(** After the inner loop the element at [i] may stand before all that follow. *)
Lemma sort_inner_run i n j l :
  (i < j)%nat -> (j + n = length l)%nat ->
  (forall k a b, (i < k < j)%nat -> l !! i = Some a -> l !! k = Some b -> before a b) ->
  let l' := sort_inner f es i n j l in
  l' ≡ₚ l /\ take i l' = take i l
  /\ forall k a b, (i < k)%nat -> l' !! i = Some a -> l' !! k = Some b -> before a b.
Proof.
  revert j l. induction n as [|n IH]; intros j l Hij Hn Hb; cbn [sort_inner].
  { split_and!; [done|done|]. intros k a b Hk Ha Hlk. apply lookup_lt_Some in Hlk as Hlt.
    eapply (Hb k); [lia|done|done]. }
  destruct (lookup_lt_is_Some_2 l i) as [x Hx]; [lia|]. destruct (lookup_lt_is_Some_2 l j) as [y Hy]; [lia|].
  rewrite Hx, Hy. cbn [default from_option id].
  destruct (must_swap f (entry_of es x) (entry_of es y)) eqn:Hsw.
  - assert (length (swap i j l) = length l) as Hlen by (unfold swap; by rewrite !length_insert).
    destruct (IH (S j) (swap i j l)) as (Hp & Ht & Hfin); [lia|lia| |].
    + assert (swap i j l !! i = Some y) as Hi.
      { unfold swap. rewrite Hy. apply list_lookup_insert_eq. rewrite length_insert. lia. }
      intros k a b Hk Ha Hlk. rewrite Hi in Ha. injection Ha as <-. unfold swap in Hlk.
      rewrite list_lookup_insert_ne in Hlk by lia. destruct (decide (k = j)) as [->|Hne].
      * rewrite list_lookup_insert_eq in Hlk by lia. rewrite Hx in Hlk. injection Hlk as <-. by apply must_swap_asym.
      * rewrite list_lookup_insert_ne in Hlk by lia. unfold before.
        specialize (Hb k x b ltac:(lia) Hx Hlk). unfold before in Hb.
        destruct (must_swap f (entry_of es y) (entry_of es b)) eqn:Hyb; [|done].
        by rewrite (must_swap_trans f _ _ _ Hsw Hyb) in Hb.
    + split_and!; [by rewrite Hp, swap_perm by lia| |done]. rewrite Ht. unfold swap.
      by rewrite !take_insert_ge by lia.
  - destruct (IH (S j) l) as (Hp & Ht & Hfin); [lia|lia| |by split_and!].
    intros k a b Hk Ha Hlk. destruct (decide (k = j)) as [->|]; [|apply (Hb k); [lia|done|done]].
    by simplify_eq.
Qed.

Lemma perm_drop (l l' : list nat) i : l' ≡ₚ l -> take i l' = take i l -> drop i l' ≡ₚ drop i l.
Proof.
  intros Hp Ht. rewrite <- (take_drop i l'), <- (take_drop i l), Ht in Hp. by apply (inj (app (take i l))) in Hp.
Qed.

(** The first [i] elements are in their places. *)
Definition placed (i : nat) (l : list nat) : Prop :=
  forall k a, (k < i)%nat -> l !! k = Some a -> Forall (before a) (drop (S k) l).

Lemma sort_outer_run n i l :
  (i + n = length l)%nat -> placed i l ->
  let l' := sort_outer f es n i l in l' ≡ₚ l /\ placed (length l) l'.
Proof.
  revert i l. induction n as [|n IH]; intros i l Hn Hpl; cbn [sort_outer].
  { split; [done|]. by replace (length l) with i by lia. }
  destruct (sort_inner_run i n (S i) l) as (Hp & Ht & Hfin); [lia|lia|intros; lia|].
  set (l1 := sort_inner f es i n (S i) l) in *. assert (length l1 = length l) as Hl1 by (by rewrite Hp).
  destruct (IH (S i) l1) as (Hp2 & Hpl2); [lia| |split; [by rewrite Hp2|by rewrite <- Hl1]].
  intros k a Hk Ha. destruct (decide (k = i)) as [->|Hne].
  - apply Forall_lookup. intros m b Hb. rewrite lookup_drop in Hb. apply (Hfin (S i + m)%nat); [lia|done|done].
  - assert (take (S k) l1 = take (S k) l) as Hts.
    { rewrite <- (Nat.min_l (S k) i), <- !take_take, Ht by lia. done. }
    assert (l !! k = Some a) as Hla.
    { rewrite <- (lookup_take_lt l (S k)), <- Hts, lookup_take_lt by lia. done. }
    rewrite (perm_drop l l1 (S k) Hp Hts). apply Hpl; [lia|done].
Qed.

Lemma placed_sorted l : placed (length l) l -> StronglySorted before l.
Proof.
  induction l as [|a l IH]; intros Hpl; constructor.
  - apply IH. intros k b Hk Hb. apply (Hpl (S k) b); [cbn; lia|done].
  - apply (Hpl O a); [cbn; lia|done].
Qed.
End Sorting.

(** ** Lemmas on the layout *)

Lemma row_places_in len rows row n col k :
  k ∈ row_places len rows row n col <-> (k < len /\ exists c, col <= c < col + n /\ k = c * rows + row)%nat.
Proof.
  revert col. induction n as [|n IH]; intros col; cbn [row_places].
  { rewrite elem_of_nil. split; [done|]. intros (_ & c & Hc & _). lia. }
  destruct (Nat.ltb_spec (col * rows + row) len).
  - rewrite elem_of_cons, IH. split.
    + intros [->|(Hk & c & Hc & ->)]; (split; [done|]); [exists col|exists c]; (split; [lia|done]).
    + intros (Hk & c & Hc & ->). destruct (decide (c = col)) as [->|]; [by left|]. right. split; [done|].
      exists c. split; [lia|done].
  - rewrite elem_of_nil. split; [done|]. intros (Hk & c & Hc & ->). nia.
Qed.

Lemma row_places_nodup len rows row n col : (0 < rows)%nat -> NoDup (row_places len rows row n col).
Proof.
  intros Hr. revert col. induction n as [|n IH]; intros col; cbn [row_places]; [constructor|].
  destruct (_ <? _)%nat; [|constructor]. constructor; [|apply IH].
  rewrite row_places_in. intros (_ & c & Hc & Heq). nia.
Qed.

(** The rows together print every place once. *)
Lemma places_all len rows cols : (0 < rows)%nat -> (len <= cols * rows)%nat ->
  concat ((fun row => row_places len rows row cols 0) <$> seq 0 rows) ≡ₚ seq 0 len.
Proof.
  intros Hr Hlen. apply NoDup_Permutation.
  - assert (forall s m, (s + m <= rows)%nat -> NoDup (concat ((fun row => row_places len rows row cols 0) <$> seq s m))) as Hnd.
    { intros s m. revert s. induction m as [|m IH]; intros s Hs; cbn; [constructor|]. apply NoDup_app. split_and!.
      - by apply row_places_nodup.
      - intros k Hk Hk'. apply list_elem_of_In, in_concat in Hk' as (l & Hl & Hkl).
        apply list_elem_of_In, list_elem_of_fmap in Hl as (row & -> & Hrow%elem_of_seq).
        apply list_elem_of_In in Hkl. apply row_places_in in Hk as (_ & c & _ & ->).
        apply row_places_in in Hkl as (_ & c' & _ & Heq). assert (c = c') by nia. nia.
      - apply IH. lia. }
    apply Hnd. lia.
  - apply NoDup_seq.
  - intros k. rewrite elem_of_seq. split.
    + intros Hk. apply list_elem_of_In, in_concat in Hk as (l & Hl & Hkl).
      apply list_elem_of_In, list_elem_of_fmap in Hl as (row & -> & _).
      apply list_elem_of_In, row_places_in in Hkl. lia.
    + intros Hk. apply list_elem_of_In, in_concat. exists (row_places len rows (k mod rows) cols 0). split.
      * apply list_elem_of_In, list_elem_of_fmap. exists (k mod rows)%nat. split; [done|]. apply elem_of_seq.
        pose proof (Nat.mod_upper_bound k rows). lia.
      * apply list_elem_of_In, row_places_in. split; [lia|]. exists (k / rows)%nat.
        pose proof (Nat.div_mod_eq k rows). split; [|lia]. split; [lia|]. apply Nat.Div0.div_lt_upper_bound. lia.
Qed.

(** What a row prints, place by place. *)
Lemma row_cells_places es col_w cols rows row n col :
  row_cells es col_w cols rows row n col
  = concat (imap (fun i k => cell col_w cols (col + i) (entry_of es k)) (row_places (length es) rows row n col)).
Proof.
  revert col. induction n as [|n IH]; intros col; cbn [row_cells row_places]; [done|].
  destruct (Nat.ltb_spec (col * rows + row) (length es)) as [Hlt|Hge].
  - destruct (lookup_lt_is_Some_2 es _ Hlt) as [e He]. rewrite He. cbn [imap concat]. rewrite Nat.add_0_r.
    unfold entry_of at 1. rewrite He. cbn [default from_option id]. f_equal. rewrite IH. f_equal. apply imap_ext.
    intros i k _. cbn. by rewrite Nat.add_succ_r.
  - by rewrite lookup_ge_None_2.
Qed.

Lemma fold_width_mono es w : (w <= fold_left (fun w e => Nat.max w (width e)) es w)%nat.
Proof.
  revert w. induction es as [|x es IH]; intros w; cbn [fold_left]; [done|].
  specialize (IH (Nat.max w (width x))). lia.
Qed.

Lemma fold_width_in es e w : e ∈ es -> (width e <= fold_left (fun w e => Nat.max w (width e)) es w)%nat.
Proof.
  revert w. induction es as [|x es IH]; intros w; [by intros ?%elem_of_nil|]. cbn [fold_left].
  intros [->|He]%elem_of_cons; [|auto]. pose proof (fold_width_mono es (Nat.max w (width x))). lia.
Qed.

Lemma max_width_bound es m : Forall (fun e => (width e <= m)%nat) es -> (max_width es <= m)%nat.
Proof.
  intros Hes. unfold max_width. cut (forall k, (k <= m)%nat ->
    (fold_left (fun w e => Nat.max w (width e)) es k <= m)%nat); [intros Hk; apply Hk; lia|].
  induction Hes as [|e es He _ IH]; intros k Hk; [done|]. cbn [fold_left]. apply IH. lia.
Qed.

Lemma max_width_le es e : e ∈ es -> (width e <= max_width es)%nat.
Proof. apply fold_width_in. Qed.

Lemma cell_length es col_w cols col e :
  e ∈ es -> (max_width es + 2 <= col_w)%nat ->
  (length (cell col_w cols col e) <= col_w)%nat.
Proof.
  intros He Hw. pose proof (max_width_le es e He). unfold cell, write. unfold width in *.
  rewrite !length_app, length_fmap. destruct (le_is_dir e), (_ <? _)%nat; rewrite ?length_replicate; cbn [length]; lia.
Qed.

Lemma row_length es col_w cols rows row n col :
  (max_width es + 2 <= col_w)%nat -> (length (row_cells es col_w cols rows row n col) <= n * col_w)%nat.
Proof.
  intros Hw. revert col. induction n as [|n IH]; intros col; cbn [row_cells]; [cbn; lia|].
  destruct (es !! _) as [e|] eqn:He; [|cbn; lia]. rewrite length_app. specialize (IH (S col)).
  pose proof (cell_length es col_w cols col e ltac:(by apply list_elem_of_lookup_2 in He) Hw). lia.
Qed.

Lemma grid_spec es : es <> [] -> (max_width es <= 78)%nat ->
  let '(col_w, cols, rows) := grid es in
  (max_width es + 2 <= col_w)%nat /\ (cols * col_w <= WIDTH)%nat /\ (0 < rows)%nat /\ (length es <= cols * rows)%nat.
Proof.
  intros Hne Hw. unfold grid. set (col_w := Nat.max (max_width es + 2) 4). set (cols := Nat.max (WIDTH / col_w) 1).
  assert (4 <= col_w <= 80)%nat by lia. unfold WIDTH in *.
  assert (1 <= 80 / col_w)%nat by (apply Nat.div_le_lower_bound; lia).
  pose proof (Nat.Div0.mul_div_le 80 col_w). assert (cols = 80 / col_w)%nat as Hc by lia.
  assert (0 < length es)%nat by (destruct es; [done|cbn; lia]).
  pose proof (Nat.div_mod_eq (length es + cols - 1) cols). pose proof (Nat.mod_upper_bound (length es + cols - 1) cols).
  split_and!; [lia|lia| |lia]. apply Nat.div_str_pos. lia.
Qed.

(** The indices are a permutation in the order that the flags ask for. *)
Lemma sorted_indices_run f es :
  sorted_indices f es ≡ₚ seq 0 (length es)
  /\ StronglySorted (fun i j => in_order f (entry_of es i) (entry_of es j)) (sorted_indices f es).
Proof.
  unfold sorted_indices.
  destruct (sort_outer_run f es (length es) 0 (seq 0 (length es))) as (Hp & Hpl);
    [by rewrite length_seq|intros k a Hk; lia|]. split; [done|]. rewrite length_seq in Hpl.
  assert (StronglySorted (before f es) (sort_outer f es (length es) 0 (seq 0 (length es)))) as Hs.
  { apply placed_sorted. by rewrite (Permutation_length Hp), length_seq. }
  clear -Hs. induction Hs as [|a l _ IH Hl]; constructor; [done|].
  eapply Forall_impl; [exact Hl|]. intros b Hb. by apply must_swap_order.
Qed.

Lemma entries_all es : entry_of es <$> seq 0 (length es) = es.
Proof.
  apply list_eq. intros i. rewrite list_lookup_fmap. destruct (decide (i < length es)%nat) as [Hi|Hi].
  - rewrite lookup_seq_lt by done. cbn. unfold entry_of. by destruct (lookup_lt_is_Some_2 es i Hi) as [e ->].
  - rewrite lookup_seq_ge by lia. by rewrite (lookup_ge_None_2 es) by lia.
Qed.

Lemma sorted_run f es :
  let sorted := entry_of es <$> sorted_indices f es in
  sorted ≡ₚ es /\ StronglySorted (in_order f) sorted.
Proof.
  destruct (sorted_indices_run f es) as [Hp Hs]. cbv zeta. split.
  - rewrite Hp. by rewrite entries_all.
  - clear Hp. induction Hs as [|a l _ IH Ha]; [constructor|]. cbn. constructor; [done|]. by apply Forall_fmap.
Qed.

(** The text of the columns: every entry in one cell, down the columns first,
    and no line longer than the screen is wide. *)
Definition fills_grid (es : list LsEntry) (text : list event) : Prop :=
  let '(col_w, cols, rows) := grid es in
  let places row := row_places (length es) rows row cols 0 in
  let line row := concat (imap (fun col k => cell col_w cols col (entry_of es k)) (places row)) in
  text = concat ((fun row => line row ++ [Put 10]) <$> seq 0 rows)
  /\ concat (places <$> seq 0 rows) ≡ₚ seq 0 (length es)
  /\ forall row, (length (line row) <= WIDTH)%nat.

Lemma columns_run es : (max_width es <= 78)%nat -> fills_grid es (columns es).
Proof.
  intros Hw. unfold fills_grid. destruct (decide (es = [])) as [->|Hne].
  { cbn. split_and!; [done|done|]. intros row. cbn. lia. }
  pose proof (grid_spec es Hne Hw) as Hg. unfold columns.
  destruct (grid es) as [[col_w cols] rows]. destruct Hg as (H1 & H2 & H3 & H4). cbv zeta. split_and!.
  - f_equal. apply list_fmap_ext. intros i row _. f_equal. apply row_cells_places.
  - by apply places_all.
  - intros row. pose proof (row_length es col_w cols rows row cols 0 H1) as Hl. rewrite row_cells_places in Hl.
    cbn [Nat.add] in Hl. lia.
Qed.

(** ** Lemmas on the entries of the directory *)

(** The names of the entries that are shown. *)
Definition ls_names (all : bool) (names : list (list Z)) : list (list Z) :=
  List.filter (fun name => all || negb (is_dots (padded name))) names.

(** Names that the listing looks up as they are. *)
Definition plain (name : list Z) : Prop := Forall (fun b => b < 128 /\ b <> SLASH) name.

Lemma listed_names es name : name ∈ listed es ->
  name <> [] /\ Forall (fun b => b <> 0) name /\ (length name <= 12)%nat.
Proof.
  induction es as [|[[c k] e] es IH]; [by intros ?%elem_of_nil|]. cbn [listed].
  case_match; [by intros ?%elem_of_nil|]. case_match eqn:Hb; [exact IH|].
  intros [->|Hin]%elem_of_cons; [|by apply IH]. split; [|apply entry_name_ok].
  intros Hn. rewrite Hn, orb_true_r in Hb. done.
Qed.

Lemma name_text_padded name :
  plain name -> Forall (fun b => b <> 0) name -> (length name <= 12)%nat ->
  name_text (padded name) = (padded name, length name).
Proof.
  intros Hp Hz Hl. unfold name_text. rewrite utf8_ascii.
  - assert (position (Z.eqb 0) (padded name) = Some (length name)) as ->; [|done].
    unfold padded. replace (13 - length name)%nat with (S (12 - length name)) by lia. cbn [replicate].
    generalize (12 - length name)%nat as m. intros m. clear Hp Hl.
    induction Hz as [|b name Hb _ IH]; [done|]. cbn [app position length].
    destruct (Z.eqb_spec 0 b); [lia|]. by rewrite IH.
  - unfold padded. apply Forall_app. split; [by eapply Forall_impl; [exact Hp|]; intros ? []|].
    by apply Forall_replicate.
Qed.

Section Collect.
Context {D : Type} `{ReliableDevice D} (fuel : nat) (v : FatVolume) (w : World D) (rc : list Z).

Abbreviation all_entries := (dir_entries v (w_dev w) rc).

(** A mounted volume whose root directory is in the clusters [rc]. *)
Record root_listing : Prop := {
  rl_geometry : geometry v (sector_count (w_dev w));
  rl_mounted : w_vol w = Some v;
  rl_chain : chain (fat_entry v (w_dev w)) (root_cluster v) rc;
  rl_terminated : terminated (fat_entry v (w_dev w)) rc;
  rl_disk : Forall (on_disk v (sector_count (w_dev w))) rc;
  rl_some : rc <> [];
  rl_fuel : (length rc < fuel)%nat /\ (length all_entries < fuel)%nat;
}.

(** What is shown of a name: the size and the kind of the entry that looking it
    up in the root directory finds. *)
Definition info_of (name : list Z) : LsEntry :=
  match lookup_entry name all_entries with
  | Some (c, k) =>
      let e := entry_at (cluster_data v (w_dev w) c) k in
      mkLsEntry (padded name) (entry_size e) (negb (Z.land (entry_attr e) 16 =? 0))
  | None => mkLsEntry (padded name) 0 false
  end.

Context (Hroot : root_listing).

Lemma stat_entry_run name out :
  plain name -> name <> [] -> Forall (fun b => b <> 0) name -> (length name <= 12)%nat ->
  stat_entry fuel (padded name) (length name) (w, out) = (Ret (info_of name), (w, out)).
Proof.
  intros Hp Hne Hz Hl. destruct Hroot as [Hg Hv Hch Ht Hd Hs [Hf _]].
  assert (take (length name) (padded name) = name) as Htake by (unfold padded; by rewrite take_app_length).
  unfold stat_entry. rewrite Htake. fold (padded name). rewrite Htake, utf8_ascii.
  2: { constructor; [lia|]. eapply Forall_impl; [exact Hp|]. by intros ? []. }
  assert (Forall (fun b => b <> 0 /\ b <> SLASH) name) as Hn.
  { apply Forall_forall. intros b Hb. split; [by eapply Forall_forall in Hz|by eapply Forall_forall in Hp as []]. }
  assert (Forall (fun b => b <> SLASH) name) as Hsl by (by eapply Forall_impl; [exact Hn|]; intros ? []).
  change 47 with SLASH. unfold info_of. destruct (lookup_entry name all_entries) as [[c k]|] eqn:Hlk.
  - destruct (f_stat_run fuel v w rc name c k Hg Hv Hch Hd Hf Hne Hn Hlk) as (info & R & Hat & _ & Hsz).
    run_with (fat_ret _ _ _ _ out R). cbv beta iota. unfold is_directory. by rewrite Hat, Hsz.
  - pose proof (find_in_chain_run fuel v w _ rc name Hg Hch Hd Hf Hz) as Hfind. rewrite Hlk in Hfind.
    assert (f_stat fuel (SLASH :: name) w = (Err NoFile, w)) as R.
    { unfold f_stat, with_vol, find_entry_in_dir. rewrite Hv.
      run_with (resolve_root fuel v name w Hne Hsl). rewrite decide_False by done. by run_with Hfind. }
    by run_with (fat_err _ _ _ _ out R).
Qed.

Lemma collect_run n show_all d es acc out :
  before_entries v w d es -> (length es < fuel)%nat -> (length (listed es) < n)%nat ->
  Forall plain (listed es) -> (length acc + length (ls_names show_all (listed es)) <= 256)%nat ->
  collect fuel n show_all d acc (w, out) = (Ret (acc ++ (info_of <$> ls_names show_all (listed es))), (w, out)).
Proof.
  revert d es acc. induction n as [|n IH]; intros d es acc Hb Hf Hn Hpl Hmax; [lia|]. cbn [collect].
  destruct (readdir_run v w (rl_geometry Hroot) fuel d es Hb Hf) as (d' & R & Hb').
  assert (f_readdir fuel (w, d)
    = (Ret (option_map (fun '(name, _) => padded name) (next_listed es)), (w, d'))) as R2.
  { unfold f_readdir. cbn [fst]. by rewrite (rl_mounted Hroot). }
  run_with (with_handle_ret d _ _ _ _ _ out R2). cbv beta iota.
  pose proof (listed_names es) as Hnames. rewrite (listed_next es) in *.
  destruct (next_listed es) as [[name es']|] eqn:Hnext; cbn [option_map].
  2: { cbn. unfold ret. by rewrite app_nil_r. }
  destruct (Hnames name ltac:(by left)) as (Hne & Hz & Hl). clear Hnames R R2.
  apply Forall_cons in Hpl as [Hp Hpl]. cbn [length] in Hn.
  pose proof (next_listed_shorter es name es' Hnext) as Hsh. unfold ls_names in *. cbn [List.filter] in *.
  destruct show_all, (is_dots (padded name)) eqn:Hdots; cbn [orb negb andb] in *.
  3: { apply (IH d' es'); [done|lia|lia|done|lia]. }
  all: rewrite (proj2 (Nat.leb_gt MAX_ENTRIES (length acc))) by (unfold MAX_ENTRIES; cbn [length] in Hmax; lia);
    rewrite name_text_padded by done;
    destruct (Nat.eqb_spec (length name) 0) as [H0n|_]; [by destruct name|];
    run_with (stat_entry_run name out Hp Hne Hz Hl); cbv beta;
    rewrite (IH d' es'); [|done|lia|lia|done|rewrite length_app; cbn [length] in *; lia];
    rewrite <- app_assoc; reflexivity.
Qed.

Lemma opendir_root : exists d,
  f_opendir fuel [SLASH] w = (Ret d, w) /\ before_entries v w d all_entries.
Proof.
  destruct Hroot as [Hg Hv Hch Ht Hd Hs _].
  exists (mkDir (root_cluster v) (root_cluster v) 0 0 false (replicate 11 0) 0). split.
  - unfold f_opendir, with_vol. by rewrite Hv.
  - split; [done|]. split; [done|]. destruct rc as [|x cs]; [done|]. cbn [chain] in Hch.
    destruct Hch as (-> & Hx & Hch). exists (root_cluster v), cs, O. split_and!; try done; cbn; lia.
Qed.

Lemma info_width name : name <> [] -> plain name -> Forall (fun b => b <> 0) name -> (length name <= 12)%nat ->
  (width (info_of name) <= 13)%nat.
Proof.
  intros Hne Hp Hz Hl. unfold width, shown_name.
  assert (le_name (info_of name) = padded name) as -> by (unfold info_of; by repeat case_match).
  rewrite name_text_padded by done. rewrite length_take. case_match; lia.
Qed.

Lemma listing_width all : Forall plain (listed all_entries) ->
  (max_width (info_of <$> ls_names all (listed all_entries)) <= 13)%nat.
Proof.
  intros Hpl. apply max_width_bound. apply Forall_fmap, Forall_forall. intros name Hin.
  assert (name ∈ listed all_entries) as Hl.
  { unfold ls_names in Hin. apply list_elem_of_In in Hin. apply filter_In in Hin as [Hin _]. by apply list_elem_of_In. }
  destruct (listed_names _ _ Hl) as (Hne & Hz & Hlen). apply info_width; [done| |done|done].
  by eapply Forall_forall in Hpl.
Qed.
End Collect.

(** ** Properties *)

(** C32: [ls] of the root directory, with any flags, when its names are ASCII and at
    most 256 of them are to be shown: the entries shown are those of the
    directory up to its end marker, without the deleted, hidden and nameless
    ones and, without [-a], without [.] and [..]; each is shown exactly once,
    with the size and the kind of the entry that looking up its name finds, in
    the order that the flags ask for; line by line with [-l], and otherwise in
    a grid that has every entry in one cell, filled column by column, with no
    line wider than the screen. Nothing is changed on the volume. *)
Theorem ls_lists_root {D} `{ReliableDevice D} fuel v (w : World D) rc args f out :
  root_listing fuel v w rc -> parse_ls_args args = Some ([[SLASH]], f) ->
  let names := listed (dir_entries v (w_dev w) rc) in
  Forall plain names -> (length (ls_names (all f) names) <= 256)%nat ->
  exists sorted,
    sorted ≡ₚ (info_of v w rc <$> ls_names (all f) names) /\ StronglySorted (in_order f) sorted
    /\ ls_run fuel args (w, out)
       = (Ret tt, (w, out ++ if long f then concat (long_line <$> sorted) else columns sorted))
    /\ fills_grid sorted (columns sorted).
Proof.
  intros Hr Hargs names Hpl Hmax. set (es := info_of v w rc <$> ls_names (all f) names).
  destruct (sorted_run f es) as [Hp Hs]. exists (entry_of es <$> sorted_indices f es).
  split; [exact Hp|]. split; [exact Hs|]. split.
  - destruct (opendir_root fuel v w rc Hr) as (d & R1 & Hb).
    pose proof (collect_run fuel v w rc Hr fuel (all f) d _ [] out Hb (proj2 (rl_fuel _ _ _ _ Hr))) as R2.
    specialize (R2 ltac:(pose proof (proj2 (rl_fuel _ _ _ _ Hr)); pose proof (listed_length (dir_entries v (w_dev w) rc)); lia)).
    specialize (R2 Hpl Hmax). change (info_of v w rc <$> ls_names (all f) (listed _)) with es in R2.
    set (text := if long f then _ else _).
    assert (list_dir fuel d f (w, out) = (Ret tt, (w, out ++ text))) as R3.
    { unfold list_dir. run_with R2. cbn [app]. case_bool_decide as He; [|reflexivity].
      unfold text, ret. rewrite He. cbn. by destruct (long f); rewrite app_nil_r. }
    assert (ls_path fuel f false [SLASH] (w, out) = (Ret tt, (w, out ++ text))) as R4.
    { unfold ls_path. unfold bind at 1, ret at 1. run_with (fat_ret _ _ _ _ out R1). cbv beta iota. by run_with R3. }
    unfold ls_run. rewrite Hargs. cbn [length Nat.ltb Nat.leb for_each]. by run_with R4.
  - apply columns_run.
    assert (max_width (entry_of es <$> sorted_indices f es) <= 13)%nat; [|lia].
    apply max_width_bound. rewrite Hp. apply Forall_forall. intros e He.
    etrans; [by apply max_width_le|]. by apply (listing_width v w rc).
Qed.

Definition demo_entries : list LsEntry :=
  [mkLsEntry [65; 0] 30 false; mkLsEntry [67; 0] 10 true; mkLsEntry [66; 66; 0] 20 false].

(** The default order is backwards. *)
Example ls_backwards : sorted_indices LsFlags_default demo_entries = [1; 2; 0]%nat.
Proof. reflexivity. Qed.

(** The demo volume's root directory, without flags and with [-l]. *)
Lemma ls_lists_root_witness :
  ls_run 50 [] (demo_world, []) = (Ret tt, (demo_world, writeln (demo_name ++ [32; 32]))).
Proof.
  destruct (ls_lists_root 50 demo_vol demo_world [2] [] LsFlags_default []) as (sorted & Hp & _ & R & _).
  - split.
    + split; vm_compute; try (split; discriminate); try discriminate; reflexivity.
    + reflexivity.
    + vm_compute. repeat split.
    + intros x Hx. injection Hx as <-. vm_compute. discriminate.
    + apply Forall_singleton. apply demo_on_disk. lia.
    + discriminate.
    + split; apply Nat.ltb_lt; vm_compute; reflexivity.
  - reflexivity.
  - apply (bool_decide_unpack _). vm_compute. exact I.
  - apply Nat.leb_le. vm_compute. reflexivity.
  - rewrite R. assert (sorted = info_of demo_vol demo_world [2] <$> [demo_name]) as ->.
    { apply Permutation_singleton_r. exact Hp. }
    vm_compute. reflexivity.
Defined.
