(* ===== verification/AppletCpSpec.v ===== *)
(** [cp] of a file: the copy holds the bytes of the source, and every other file
    of the root directory holds what it held. *)

From Stdlib Require Import ZArith Lia Ascii String.
From stdpp Require Import base numbers list gmap.
From S2P Require Import Prelude Text Block Fat32 Fat32Dir Fat32File Fat32List FatSpec FatChain FatCluster.
From S2P Require Import FatDirSpec FatFileSpec FatWrite FatDemo FatFileTheorems FatDirUpdate FatFiles FatCreate.
From S2P Require Import Shell Applets AppletSpec.

#[local] Open Scope Z_scope.

Section Copy.
Context {D : Type} `{ReliableDevice D}.

Lemma bytes_file_bytes v d cs :
  geometry v (sector_count d) -> Forall (on_disk v (sector_count d)) cs -> bytes (file_bytes v d cs).
Proof.
  intros Hg Hd. unfold file_bytes. induction Hd as [|c cs Hc Hd IH]; [constructor|].
  cbn [fmap list_fmap concat]. apply Forall_app. split; [by apply (cluster_data_length v d c)|exact IH].
Qed.

(** The next bytes of a file. *)
Lemma contents_next v d cs f n :
  0 <= n -> 0 <= f_position f <= f_size f ->
  take (Z.to_nat (Z.min n (f_size f - f_position f))) (drop (Z.to_nat (f_position f)) (file_bytes v d cs)) =
  take (Z.to_nat n) (drop (Z.to_nat (f_position f)) (contents v d cs f)).
Proof. intros Hn Hp. unfold contents. rewrite skipn_firstn_comm, take_take. f_equal. lia. Qed.

Section Loop.
(** The volume before the copy, with the place of the new entry. *)
Context (v : FatVolume) (w0 : World D) (rc : list Z) (name : list Z) (c : Z) (k : nat).
Context (Hrt : rooted v w0 rc) (Hc : c ∈ rc).
(** The source: its clusters and its bytes. *)
Context (ss : list Z) (data : list Z).
Context (Hss : forall x, x ∈ ss -> fat_entry v (w_dev w0) x <> 0) (Hap : forall x, x ∈ ss -> ~ (x ∈ rc)).

(** The copy after some turns of the loop: both files are at the same place, up
    to which the new one holds the bytes of the source. *)
Record copying (w : World D) (f g : File) (cs : list Z) : Prop := {
  co_mounted : w_vol w = Some v;
  co_fresh : fresh v (w_dev w0) (w_dev w) name c k cs g;
  co_source : file_ok v (w_dev w) ss f;
  co_flags : lacks f FA_READ = false /\ lacks g FA_WRITE = false;
  co_data : contents v (w_dev w) ss f = data;
  co_place : f_position f = f_position g /\ f_position g = f_size g;
  co_copied : contents v (w_dev w) cs g = take (Z.to_nat (f_position f)) data;
  co_room : f_position g < Z.of_nat (length cs) * csize v;
  co_space : clusters_needed v (length cs) (f_position f) (f_size f - f_position f) <=
    Z.of_nat (free_count v (fat_entry v (w_dev w)));
}.

Lemma copying_rooted w f g cs : copying w f g cs -> rooted v w rc.
Proof. intros [Hv Hfr _ _ _ _ _ _ _]. by eapply fresh_rooted. Qed.

(** The source does not share a cluster with the copy. *)
Lemma source_apart d cs g x : fresh v (w_dev w0) d name c k cs g -> x ∈ ss -> ~ (x ∈ cs).
Proof.
  intros Hfr Hx Hin. apply (Hss x Hx). by apply (proj1 (Forall_forall _ _) (fr_free _ _ _ _ _ _ _ _ Hfr)).
Qed.

Lemma copy_turn w f g cs :
  copying w f g cs -> f_position f < f_size f ->
  exists w' f' f2 g' cs',
    let chunk := take 512 (drop (Z.to_nat (f_position f)) data) in
    f_read BUF_SIZE (w, f) = (Ret chunk, (w, f')) /\ chunk <> []
    /\ f_write chunk (w, g) = (Ret (Z.of_nat (length chunk)), (w', g'))
    /\ f2 = f' /\ copying w' f2 g' cs' /\ f_size f2 = f_size f
    /\ f_position f2 = f_position f + Z.of_nat (length chunk) /\ (0 < length chunk)%nat.
Proof.
  intros Hco Hlt. pose proof (copying_rooted _ _ _ _ Hco) as Hrtw. pose proof Hrtw as [Hg _ _ _ _ _ _].
  pose proof Hco as [Hv Hfr Hok [Hfr1 Hfw] Hdata [Hp1 Hp2] Hcopied Hroom Hsp].
  set (n := Z.min 512 (f_size f - f_position f)).
  destruct (f_read_run v w f ss 512 Hg Hv Hok Hfr1 ltac:(lia)) as (c1 & s1 & b1 & R1 & Hok1). fold n in R1, Hok1. cbv zeta in R1, Hok1.
  set (f1 := set_cursor (f_position f + n) c1 s1 b1 f) in *. pose proof (fo_pos _ _ _ _ Hok) as Hpos.
  unfold n in R1. rewrite contents_next, Hdata in R1 by lia. change (Z.to_nat 512) with 512%nat in R1.
  set (chunk := take 512 (drop (Z.to_nat (f_position f)) data)) in *.
  pose proof (contents_length v (w_dev w) ss f Hg Hok) as Hlen. rewrite Hdata in Hlen.
  assert (Z.of_nat (length chunk) = n) as Hcl by (unfold chunk, n; rewrite length_take, length_drop; lia).
  assert (bytes chunk) as Hby.
  { unfold chunk. rewrite <- Hdata. apply Forall_take, Forall_drop. unfold contents. apply Forall_take.
    apply bytes_file_bytes; [done|apply (fo_disk _ _ _ _ Hok)]. }
  pose proof (fo_width _ _ _ _ Hok) as H32.
  assert (0 < csize v) as Hcs0 by (destruct (csize_nat _ _ Hg); lia).
  assert ((f_position f + n) / csize v <= (f_position f + (f_size f - f_position f)) / csize v) as Hdiv
    by (apply Z.div_le_mono; lia).
  destruct (fresh_write_run v w0 w rc name c k cs g chunk Hrt Hv Hc Hfr Hp2 Hfw) as
    (d' & new & g' & R2 & Hfr' & Hgp & Hgs & Hgf & Hgc & Hgr & Hfree & Hnew & Hdat & Hfat & Hcnt);
    [right; lia|done|lia| |].
  { unfold clusters_needed in *. rewrite Hcl, <- Hp1. lia. }
  assert (forall x, x ∈ ss -> ~ (x ∈ cs ++ new)) as Hapart by (intros x Hx; by eapply source_apart).
  pose proof (fo_disk _ _ _ _ Hok) as Hsd. rewrite Forall_forall in Hsd.
  exists (set_dev d' w), f1, f1, g', (cs ++ new). cbv zeta. split_and!; try done.
  - intros Hnil. rewrite Hnil in Hcl. cbn in Hcl. lia.
  - split; try done.
    + apply (file_ok_frame v (w_dev w)); [done| |exact Hok1]. intros x Hx. apply Hfat; [|by apply Hapart].
      eapply on_disk_entries. by apply Hsd.
    + split; [done|]. unfold lacks in *. by rewrite Hgf.
    + rewrite <- Hdata. unfold contents. cbn [w_dev set_dev f_size f1 set_cursor]. f_equal. apply file_bytes_same.
      intros x Hx. apply Hdat; [by apply Hsd|by apply Hapart].
    + cbn [f1 set_cursor f_position]. lia.
    + cbn [w_dev set_dev f1 set_cursor f_position]. rewrite Hgc, Hcopied. unfold chunk.
      rewrite take_take_drop. rewrite <- (firstn_skipn (Z.to_nat (f_position f) + 512) data) at 1.
      destruct (decide (f_size f - f_position f <= 512)).
      * rewrite firstn_skipn. rewrite !take_ge by lia. done.
      * rewrite firstn_skipn. f_equal. unfold n. lia.
    + apply Hgr. intros Hnil. rewrite Hnil in Hcl. cbn in Hcl. lia.
    + unfold clusters_needed in *. cbn [w_dev set_dev f1 set_cursor f_position f_size]. rewrite length_app.
      replace (f_position f + n + (f_size f - (f_position f + n))) with (f_position f + (f_size f - f_position f)) by lia. lia.
  - cbn [f1 set_cursor f_position]. lia.
  - lia.
Qed.

Lemma cp_loop_run n w f g cs out :
  copying w f g cs -> (Z.to_nat (f_size f - f_position f) < n)%nat ->
  exists w' f' g' cs', copy_loop n f g (w, out) = (Ret (f', g'), (w', out))
    /\ copying w' f' g' cs' /\ contents v (w_dev w') cs' g' = data.
Proof.
  revert w f g cs. induction n as [|n IH]; intros w f g cs Hco Hn; [lia|]. cbn [copy_loop].
  pose proof (copying_rooted _ _ _ _ Hco) as [Hg _ _ _ _ _ _].
  pose proof Hco as [Hv _ Hok [Hfr1 _] Hdata _ Hcopied _ _]. pose proof (fo_pos _ _ _ _ Hok) as Hpos.
  destruct (decide (f_position f < f_size f)) as [Hlt|Hge].
  - destruct (copy_turn w f g cs Hco Hlt) as (w' & f' & f2 & g' & cs' & R1 & Hne & R2 & -> & Hco' & Hsz & Hps & Hl).
    set (chunk := take 512 _) in *.
    run_with (with_handle_ret f _ _ _ _ _ out R1). cbv beta iota. rewrite bool_decide_eq_false_2 by done.
    run_with (with_handle_ret g _ _ _ _ _ out R2). cbv beta iota.
    rewrite (proj2 (Z.ltb_ge _ _)) by lia. apply (IH w' f' g' cs' Hco'). lia.
  - assert (f_position f = f_size f) as Hend by lia.
    destruct (f_read_run v w f ss 512 Hg Hv Hok Hfr1 ltac:(lia)) as (c1 & s1 & b1 & R1 & Hok1). cbv zeta in R1, Hok1.
    rewrite Hend, Z.sub_diag in *. change (Z.min 512 0) with 0 in *. rewrite Z.add_0_r in *. cbn [Z.to_nat take] in R1.
    run_with (with_handle_ret f _ _ _ _ _ out R1). cbv beta iota. rewrite bool_decide_eq_true_2 by done.
    eexists w, _, g, cs. split; [reflexivity|]. split.
    + destruct Hco as [? ? ? ? ? [? ?] ? ? ?]. split; try done; cbn [set_cursor f_position f_size] in *; rewrite <- ?Hend; try done.
      by rewrite <- Hend in co_space0.
    + rewrite Hcopied. apply take_ge. rewrite <- Hdata, (contents_length v (w_dev w) ss f Hg Hok). lia.
Qed.
End Loop.

Lemma cp_file_run fuel v w rc src dst data c k out :
  rooted v w rc -> (length rc < fuel)%nat -> (length data < fuel)%nat ->
  old_name src -> stored v (w_dev w) rc src data ->
  new_name dst -> lookup_entry dst (dir_entries v (w_dev w) rc) = None ->
  first_slot (dir_entries v (w_dev w) rc) = Some (c, k) -> (k < 16)%nat ->
  Z.of_nat (length data) / csize v + 1 <= Z.of_nat (free_count v (fat_entry v (w_dev w))) ->
  exists w', cp_run fuel [SLASH :: src; SLASH :: dst] (w, out) = (Ret tt, (w', out)) /\ rooted v w' rc
    /\ stored v (w_dev w') rc dst data
    /\ forall t data', ci_prefix t dst = false -> stored v (w_dev w) rc t data' -> stored v (w_dev w') rc t data'.
Proof.
  intros Hrt Hf Hfd [Hne Hsn] Hst Hnn Hlkd Hslot Hk Hsp. pose proof Hrt as [Hg Hv Hch Ht Hd _ _].
  pose proof Hst as (cf & kf & ss & [Hlk Ha Hsch Hst1 Hsd Hsne Hap Hsz Hdata]).
  destruct (slot_dir _ _ _ _ _ Hslot) as (Hc & _ & _). destruct (csize_nat _ _ Hg) as [_ Hcs].
  destruct (f_stat_run fuel v w rc src cf kf Hg Hv Hch Hd Hf Hne Hsn Hlk) as (info & R1 & Hat & _).
  pose proof (f_open_run fuel v w rc src FA_READ Hg Hv Hch Hd Hf Hne Hsn eq_refl) as Hopen.
  rewrite Hlk in Hopen. cbv zeta in Hopen. destruct Hopen as (f & R2 & Hfp & Hfs & Hff & _ & Hok).
  specialize (Hok ss Hsch Hst1 Hsd Hsne Hsz).
  assert (contents v (w_dev w) ss f = data) as Hcont by (unfold contents; by rewrite Hfs).
  pose proof (contents_length v (w_dev w) ss f Hg Hok) as Hlen. rewrite Hcont in Hlen.
  pose proof (fo_size _ _ _ _ Hok) as Hrange.
  assert (0 <= Z.of_nat (length data) / csize v) as Hdiv by (apply Z.div_pos; lia).
  destruct (f_open_new_run fuel v w rc dst (Z.lor FA_WRITE FA_CREATE_NEW) c k Hrt Hf Hnn Hlkd)
    as (d1 & g & new & R3 & Hfr & Hgs & Hgp & Hgf & _ & _ & _); [by vm_compute|lia|done|].
  assert (forall x, x ∈ ss -> fat_entry v (w_dev w) x <> 0) as Hss by (intros x; by apply (chain_not_free _ _ _ _ Hsch Hst1)).
  assert (forall x, x ∈ ss -> ~ (x ∈ [new])) as Hapart.
  { intros x Hx Hin. apply (Hss x Hx). by apply (proj1 (Forall_forall _ _) (fr_free _ _ _ _ _ _ _ _ Hfr)). }
  rewrite Forall_forall in Hsd. pose proof Hfr as [Hef _ _ _ _ _ _ _].
  assert (copying v w dst c k ss data (set_dev d1 w) f g [new]) as Hco.
  { pose proof (free_count_effect v _ _ _ _ Hef) as Hfree. cbn [length] in Hfree.
    split; try done; cbn [w_dev set_dev].
    - apply (file_ok_frame v (w_dev w)); [apply (ef_count _ _ _ _ _ Hef)| |done]. intros x Hx.
      apply (ef_fat _ _ _ _ _ Hef); [|by apply Hapart]. eapply on_disk_entries. by apply Hsd.
    - unfold lacks. rewrite Hff, Hgf. by vm_compute.
    - rewrite <- Hcont. unfold contents. f_equal. apply file_bytes_same. intros x Hx.
      apply (ef_data _ _ _ _ _ Hef); [by apply Hsd|by apply Hapart|]. intros ->. by apply (Hap c).
    - by rewrite Hfp, Hgp, Hgs.
    - unfold contents. by rewrite Hgs, Hfp.
    - rewrite Hgp. cbn [length]. lia.
    - unfold clusters_needed. rewrite Hfp. cbn [length].
      replace (0 + (f_size f - 0)) with (Z.of_nat (length data)) by lia. lia. }
  destruct (cp_loop_run v w rc dst c k Hrt Hc ss data Hss fuel _ f g [new] out Hco) as (w2 & f2 & g2 & cs2 & R4 & Hco2 & Hcp);
    [lia|].
  destruct Hco2 as [Hv2 Hfr2 _ _ _ _ _ _ _].
  destruct (fresh_sync_run v w w2 rc dst c k cs2 g2 Hrt Hv2 Hnn Hlkd Hslot Hk Hfr2) as (w3 & R5 & Hrt3 & Hst3 & Hoth).
  rewrite Hcp in Hst3. exists w3. split_and!; try done.
  unfold cp_run. change (cp_parse_args [SLASH :: src; SLASH :: dst]) with
    (@inl (list (list Z) * list Z * bool) string ([SLASH :: src], SLASH :: dst, false)).
  cbv beta iota. rewrite !bool_decide_eq_false_2 by done. cbn [orb for_each].
  destruct fuel as [|m]; [lia|]. set (fuel := S m) in *. cbn [copy_path].
  assert (copy_path fuel fuel false (SLASH :: src) (SLASH :: dst) (w, out) = (Ret tt, (w3, out))) as Hpath.
  { unfold fuel at 2. cbn [copy_path]. fold fuel. run_with (fat_ret _ _ _ _ out R1). cbv beta iota.
    unfold is_directory. rewrite Hat, Ha. cbn [Z.eqb negb]. unfold copy_file.
    run_with (fat_ret _ _ _ _ out R2). cbv beta iota. run_with (fat_ret _ _ _ _ out R3). cbv beta iota.
    run_with R4. cbv beta iota. by run_with (with_handle_ret g2 _ _ _ _ _ out R5). }
  by run_with Hpath.
Qed.
End Copy.

(** ** Properties *)

(** C11: [cp] of one file to a new name, both in the root directory. The new
    name is in 8.3 form and not found by the search; the first free entry of
    the directory is among the first sixteen of its cluster (from the
    seventeenth on [f_sync] panics); there is a free cluster for every full
    cluster of the data and one more. Then the new name holds the bytes of the
    source, every other name whose search the new one does not catch holds
    what it held, the source among them, the volume is in order again and
    nothing is shown. *)
Theorem cp_copies_file {D} `{ReliableDevice D} fuel v (w : World D) rc src dst data c k out :
  rooted v w rc -> (length rc < fuel)%nat -> (length data < fuel)%nat ->
  old_name src -> stored v (w_dev w) rc src data ->
  new_name dst -> lookup_entry dst (dir_entries v (w_dev w) rc) = None ->
  first_slot (dir_entries v (w_dev w) rc) = Some (c, k) -> (k < 16)%nat ->
  Z.of_nat (length data) / csize v + 1 <= Z.of_nat (free_count v (fat_entry v (w_dev w))) ->
  exists w', cp_run fuel [SLASH :: src; SLASH :: dst] (w, out) = (Ret tt, (w', out)) /\ rooted v w' rc
    /\ stored v (w_dev w') rc dst data
    /\ forall t data', ci_prefix t dst = false -> stored v (w_dev w) rc t data' -> stored v (w_dev w') rc t data'.
Proof. apply cp_file_run. Qed.

Lemma cp_copies_file_witness : exists w',
  cp_run 1400 [SLASH :: demo_name; SLASH :: copy_name] (demo_world, []) = (Ret tt, (w', []))
  /\ stored demo_vol (w_dev w') [2] copy_name demo_data /\ stored demo_vol (w_dev w') [2] demo_name demo_data.
Proof.
  destruct (cp_copies_file 1400 demo_vol demo_world [2] demo_name copy_name demo_data 2 1 []
    demo_rooted ltac:(cbn; lia) ltac:(apply Nat.ltb_lt; vm_compute; reflexivity)) as (w' & R & _ & Hs & Ho).
  - split; [discriminate|]. unfold demo_name, SLASH. repeat (apply Forall_cons; split; [lia|]). apply Forall_nil. exact I.
  - exact demo_stored.
  - exact demo_new_name.
  - vm_compute. reflexivity.
  - vm_compute. reflexivity.
  - lia.
  - vm_compute. discriminate.
  - exists w'. split; [exact R|]. split; [exact Hs|]. apply Ho; [reflexivity|exact demo_stored].
Defined.
