(* ===== verification/AppletInfoSpec.v ===== *)
(** What the applets that show information display. *)

From Stdlib Require Import ZArith Lia Ascii String.
From stdpp Require Import base numbers list.
From S2P Require Import Prelude Text Machine Heap HeapSpec HeapUpdate Memory Rtc Shell AppletInfo HeapCorrect.

#[local] Open Scope Z_scope.

(** ** What is meant to be shown *)

(** The text of a date, from the numerals of its day and year. *)
Definition two_digits (n : Z) : list Z := [48 + n / 10; 48 + n mod 10].

Definition date_text (t : RtcDate) (name ds ys : list Z) : list Z :=
  name ++ str " " ++ ds ++ str ", " ++ ys ++ str "  " ++ two_digits (hours t) ++ str ":"
  ++ two_digits (minutes t) ++ str ":" ++ two_digits (seconds t).

(** ** Lemmas *)

Lemma digits_small l : Forall is_digit l -> Forall (fun b => b < 128) l.
Proof. intros Hl. eapply Forall_impl; [exact Hl|]. unfold is_digit. lia. Qed.

Lemma utf8_small l : Forall (fun b => b < 128) l -> utf8_or_mark l = l.
Proof. intros Hl. unfold utf8_or_mark. by rewrite (from_utf8_ascii l Hl). Qed.

Lemma fmt_num_decimal n : 0 <= n < 2 ^ 32 -> decimal n (fmt_num n).
Proof.
  intros Hn. unfold fmt_num.
  assert (decimal n (dec_digits 15 n [])) as Hd by (apply dec_digits_decimal; lia).
  by rewrite utf8_small by apply digits_small, Hd.
Qed.

Lemma fmt_two_digits n : 0 <= n < 100 -> fmt_two n = two_digits n.
Proof.
  intros Hn. unfold fmt_two, two_digits.
  assert (0 <= n / 10 < 10 /\ 0 <= n mod 10 < 10) as [H1 H2] by (Z.div_mod_to_equations; lia).
  rewrite !u8_small by lia. by rewrite from_utf8_ascii by (repeat (apply Forall_cons; split; [lia|]); by apply Forall_nil).
Qed.

Lemma month_name_run m : 1 <= m <= 12 -> exists name, month_name m = Some name /\ months !! Z.to_nat (m - 1) = Some name.
Proof.
  intros Hm. unfold month_name. destruct (Z.leb_spec m 12); [|lia]. rewrite u8_small by lia.
  destruct (lookup_lt_is_Some_2 months (Z.to_nat (m - 1))) as [name Hn]; [cbn; lia|]. by exists name.
Qed.

Lemma write_app a b : write (a ++ b) = write a ++ write b.
Proof. apply fmap_app. Qed.

Lemma datetime_text_eq t name : date_ok t ->
  exists ds ys, decimal (day t) ds /\ decimal (year t) ys /\ datetime_text t name = writeln (date_text t name ds ys).
Proof.
  intros Ht. unfold date_ok in Ht. exists (fmt_num (day t)), (fmt_num (year t)).
  split_and!; [apply fmt_num_decimal; lia|apply fmt_num_decimal; lia|].
  unfold datetime_text, date_text, writeln. rewrite !fmt_two_digits by lia. rewrite !write_app, <- !app_assoc. done.
Qed.

(** ** Properties *)

(** [datetime] shows a date that the clock showed as a whole while it was read:
    the month's name, the numerals of day and year and two digits each for the
    time; a clock with month zero makes it panic. *)
Theorem datetime_shows {D : Type} `{Clock D} (d : D) out :
  exists d0 d', reached d d0 /\ (shown d0 = shown d \/ shown d0 RTC_SECONDS <> shown d RTC_SECONDS)
  /\ let t := date_shown (shown d0) in
     (date_ok t -> exists name ds ys, months !! Z.to_nat (month t - 1) = Some name
        /\ decimal (day t) ds /\ decimal (year t) ys
        /\ datetime_run (d, out) = (Ret tt, (d', out ++ writeln (date_text t name ds ys))))
     /\ (month t = 0 -> datetime_run (d, out) = (Panic, (d', out))).
Proof.
  destruct (read_datetime_run d) as (d0 & d' & R & Hreach & Hs). exists d0, d'. split_and!; [done|done|].
  cbv zeta. split.
  - intros Ht. destruct (month_name_run (month (date_shown (shown d0)))) as (name & Hn & Hm);
      [unfold date_ok in Ht; lia|]. destruct (datetime_text_eq _ name Ht) as (ds & ys & Hd & Hy & Heq).
    exists name, ds, ys. split_and!; [done|done|done|]. unfold datetime_run.
    run_with (zoom_run _ _ _ _ out R). rewrite Hn. unfold or_panic, bind, ret, modify. by rewrite Heq.
  - intros Hm. unfold datetime_run. run_with (zoom_run _ _ _ _ out R). by rewrite Hm.
Qed.

Lemma datetime_shows_witness :
  let d := mkSimClock (registers true (mkDate 2026 7 4 12 30 1)) 3 0 in
  exists d0 d', datetime_run (d, []) = (Ret tt, (d', writeln (str "July 4, 2026  12:30:00"))) /\ reached d d0.
Proof.
  intros d. destruct (datetime_shows d []) as (d0 & d' & Hr & _).
  eexists d0, _. split; [vm_compute; reflexivity|exact Hr].
Defined.

(** The fields of [heap]: free and used add up to the heap, and are shown with
    the count of live blocks and the percentage in use by their numerals. *)
Theorem heap_shows kh L :
  heap_rep (kh_core kh) L -> free_bytes (kh_core kh).1 <= 4194304 ->
  let free := free_bytes (kh_core kh).1 in
  exists live pct, decimal (alloc_count (kh_core kh).1) live
    /\ decimal ((4194304 - free) * 100 / 4194304) pct
    /\ heap_run kh = Some (writeln (str "planckOS v0.1 - Heap Allocator")
        ++ write_row "Total heap:     " (str "0x0000000000400000")
        ++ write_row "Free:           " (hex_str free)
        ++ write_row "Used:           " (hex_str (4194304 - free))
        ++ write_row "Live allocs:    " live
        ++ write_row "Utilization:    " pct
        ++ write (str "%" ++ [13; 10])).
Proof.
  intros Hrep Hle free. pose proof (heap_free_bounds _ _ Hrep) as Hf. pose proof (heap_alloc_bounds _ _ Hrep) as Ha.
  unfold heap_run. fold free in Hf, Hle |- *. change (usize (HEAP_END - HEAP_BASE)) with 4194304.
  change (0 <? 4194304) with true. cbn iota. rewrite (usize_small (4194304 - free)) by lia.
  rewrite usize_small by lia.
  assert (0 <= (4194304 - free) * 100 / 4194304 < 2 ^ 64) as Hp by (Z.div_mod_to_equations; lia).
  destruct (dec_text_decimal _ Ha) as (live & Hl & Hlive & _). destruct (dec_text_decimal _ Hp) as (pct & Hpt & Hpct & _).
  exists live, pct. split_and!; [done|done|]. unfold dec_str. rewrite Hl, Hpt. cbn [fmap option_fmap option_map mbind option_bind].
  rewrite !utf8_small by apply digits_small, Hlive. rewrite utf8_small by apply digits_small, Hpct. done.
Qed.

Lemma heap_shows_witness : exists live pct,
  heap_run (mkKernelHeap demo_heap []) = Some (writeln (str "planckOS v0.1 - Heap Allocator")
    ++ write_row "Total heap:     " (str "0x0000000000400000")
    ++ write_row "Free:           " (str "0x0000000000000fe0")
    ++ write_row "Used:           " (str "0x00000000003ff020")
    ++ write_row "Live allocs:    " live ++ write_row "Utilization:    " pct ++ write (str "%" ++ [13; 10])).
Proof.
  destruct (heap_shows (mkKernelHeap demo_heap []) demo_layout demo_heap_rep) as (live & pct & _ & _ & H);
    [vm_compute; discriminate|].
  exists live, pct. exact H.
Defined.
