(* ===== verification/SelfTest.v ===== *)
(** The file system's self-test ([src/src/hal/fat32.rs], [fat32_test]): every
    test as the program it is, on the model's file system. The time that a test
    takes is left out of its line. *)

From Stdlib Require Import ZArith Lia Ascii String.
From stdpp Require Import base numbers list gmap.
From S2P Require Import Prelude Text Block Fat32 Fat32Dir Fat32File Fat32List.

#[local] Open Scope Z_scope.

Definition test_fail_str (err : FError) : string :=
  match err with
  | FOk => "Ok"
  | DiskErr => "DiskErr"
  | NoFile => "NoFile"
  | NoPath => "NoPath"
  | NotFound => "NotFound"
  | Denied => "Denied"
  | Exists => "Exists"
  | Invalid => "Invalid"
  | _ => "Other"
  end.

Definition FA_OPEN_EXISTING : Z := 0.

Section SelfTest.
Context {D : Type} `{BlockDevice D}.
Context (fuel : nat).

Abbreviation FAT := (M (World D) FError).
Abbreviation FIO := (M (World D * File) FError).
Abbreviation DIO := (M (World D * Dir) FError).

(** ** Handles *)

(** A body with a file that it has opened and closes at its end, or with a
    directory. *)
Definition with_file {A} (open : FAT File) (body : FIO A) : FAT A :=
  let! f := open in
  fun w => let '(r, (w', _)) := body (w, f) in (r, w').

Definition with_dir {A} (open : FAT Dir) (body : DIO A) : FAT A :=
  let! d := open in
  fun w => let '(r, (w', _)) := body (w, d) in (r, w').

(** [if b { return Err(e); }] *)
Definition fail_if {S} (b : bool) (e : FError) : M S FError unit := if b then throw e else ret tt.

Definition open (path : string) (flags : Z) : FAT File := f_open fuel (str path) flags.

(** [while f_readdir(..)? { count += 1 }] *)
Fixpoint count_names (n : nat) (count : Z) : DIO Z :=
  match n with
  | O => hang
  | S n =>
      let! r := f_readdir fuel in
      match r with Some _ => count_names n (u32 (count + 1)) | None => ret count end
  end.

Definition hello : list Z := str "Hello from planckOS!".

(** Writes the test file's text again. *)
Definition reset_hello : FAT unit :=
  with_file (open "/testdir/hello.txt" (Z.lor FA_WRITE FA_CREATE_ALWAYS))
    (do! f_write hello in f_sync).

(** ** The tests *)

Definition test_sector : FAT unit :=
  with_vol (fun v =>
    let lba := cluster_to_lba v 2 in
    let! sector := dev_read lba in
    do! fail_if (byte_at sector 0 =? 0) Invalid in
    dev_write lba sector).

Definition test_stat : FAT unit :=
  let! info := f_stat fuel (str "/KERNEL.BIN") in
  fail_if (fi_size info =? 0) NoFile.

Definition test_read : FAT unit :=
  with_file (open "/KERNEL.BIN" FA_READ)
    (let! data := f_read 16 in
     do! fail_if (negb (Z.of_nat (length data) =? 16)) DiskErr in
     fail_if (byte_at data 0 =? 0) Invalid).

Definition test_tell : FAT unit :=
  with_file (open "/KERNEL.BIN" FA_READ)
    (let! f := get_file in
     do! fail_if (f_size f =? 0) Invalid in
     do! fail_if (f_eof f) Invalid in
     do! fail_if (negb (f_tell f =? 0)) Invalid in
     fail_if (f_error f) Denied).

Definition test_readdir : FAT unit :=
  with_dir (f_opendir fuel (str "/"))
    (let! count := count_names fuel 0 in fail_if (count <? 2) NoFile).

Definition test_findfirst : FAT unit :=
  with_dir (f_findfirst fuel (str "/") (str "K*"))
    (let! r := f_findnext fuel in
     match r with
     | None => throw NoFile
     | Some name => fail_if (negb (byte_at name 0 =? 75)) Invalid
     end).

Definition test_mkdir : FAT unit := f_mkdir fuel (str "/testdir").

Definition test_write : FAT unit :=
  with_file (open "/testdir/hello.txt" (Z.lor FA_WRITE FA_CREATE_NEW))
    (let! f := get_file in
     do! fail_if (f_current_cluster f =? 0) NoFile in
     do! f_putc 65 in
     do! f_puts (str "BCDEF") in
     do! f_lseek 0 in
     let! w := f_write hello in
     do! fail_if (negb (w =? 20)) DiskErr in
     f_sync).

Definition test_read_back : FAT unit :=
  with_file (open "/testdir/hello.txt" FA_READ)
    (let! data := f_read 32 in
     do! fail_if (negb (Z.of_nat (length data) =? 20)) DiskErr in
     fail_if (negb (bool_decide (data = hello))) Invalid).

Definition test_gets : FAT unit :=
  with_file (open "/testdir/hello.txt" FA_READ)
    (let! '(r, _) := f_gets fuel (replicate 32 0) 32 in
     fail_if (r =? 0) NoFile).

Definition test_printf : FAT unit :=
  do! with_file (open "/testdir/hello.txt" (Z.lor FA_WRITE FA_OPEN_ALWAYS))
    (do! f_lseek 0 in
     do! f_putc 65 in
     do! f_puts (str "BCDEF") in
     do! f_printf (str " %d") [FmtInt 42] in
     f_sync) in
  do! with_file (open "/testdir/hello.txt" FA_READ)
    (let! data := f_read 16 in
     do! fail_if (Z.of_nat (length data) <? 6) DiskErr in
     fail_if (negb (byte_at data 0 =? 65)) Invalid) in
  reset_hello.

Definition test_lseek : FAT unit :=
  with_file (open "/testdir/hello.txt" FA_READ)
    (do! f_lseek 6 in
     let! f := get_file in
     do! fail_if (negb (f_tell f =? 6)) Invalid in
     let! c := f_read 1 in
     fail_if (negb (byte_at c 0 =? 102)) Invalid).

Definition test_truncate : FAT unit :=
  do! with_file (open "/testdir/hello.txt" (Z.lor FA_WRITE FA_OPEN_EXISTING))
    (do! f_lseek 5 in
     do! f_truncate fuel in
     let! f := get_file in
     do! fail_if (negb (f_size f =? 5)) Invalid in
     f_sync) in
  do! with_file (open "/testdir/hello.txt" FA_READ)
    (let! data := f_read 10 in
     do! fail_if (negb (Z.of_nat (length data) =? 5)) DiskErr in
     fail_if (negb (bool_decide (data = str "Hello"))) Invalid) in
  reset_hello.

Definition test_expand : FAT unit :=
  with_file (open "/testdir/hello.txt" (Z.lor FA_WRITE FA_OPEN_EXISTING))
    (let! f := get_file in
     let old := f_size f in
     do! f_expand fuel 10000 in
     let! f := get_file in
     do! fail_if (f_size f <? 10000) Invalid in
     do! f_lseek old in
     do! f_truncate fuel in
     f_sync).

Definition test_rename : FAT unit :=
  do! f_rename fuel (str "/qasm/readme.txt") (str "/qasm/test.txt") in
  let! r := try (open "/qasm/readme.txt" FA_READ) in
  do! fail_if (match r with inl _ => true | inr _ => false end) Exists in
  do! open "/qasm/test.txt" FA_READ in
  f_rename fuel (str "/qasm/test.txt") (str "/qasm/readme.txt").

Definition test_getfree : FAT unit :=
  let! '(free, total) := f_getfree in
  do! fail_if (total =? 0) DiskErr in
  fail_if ((free =? 0) && (0 <? total)) DiskErr.

Definition test_label : FAT unit :=
  let! label := f_getlabel fuel (replicate 12 0) in
  do! f_setlabel fuel (str "PLANCKOS") in
  let! label2 := f_getlabel fuel (replicate 12 0) in
  do! fail_if (negb (bool_decide (take 8 label2 = str "PLANCKOS"))) Invalid in
  if negb (byte_at label 0 =? 0)
  then f_setlabel fuel (take (default 11%nat (position (Z.eqb 0) label)) label)
  else ret tt.

Definition test_chdir : FAT unit :=
  do! f_chdir fuel (str "/testdir") in
  let! buf := f_getcwd (replicate 64 0) in
  do! fail_if (default O (position (Z.eqb 0) buf) =? 0)%nat Invalid in
  f_chdir fuel (str "/").

Definition test_unlink : FAT unit :=
  do! f_unlink fuel (str "/testdir/subdir") in
  f_unlink fuel (str "/testdir").

Definition test_no_match : FAT unit :=
  with_dir (f_findfirst fuel (str "/") (str "ZZZ*"))
    (let! r := f_findnext fuel in
     fail_if (match r with Some _ => true | None => false end) Exists).

Definition test_wildcard : FAT unit :=
  with_dir (f_findfirst fuel (str "/") (str "*BIN" ++ [0]))
    (let! count := count_names fuel 0 in fail_if (count <? 1) NoFile).

Definition tests : list (string * FAT unit) :=
  [("ATA sector r/w", test_sector);
   ("f_stat KERNEL.BIN", test_stat);
   ("f_open + f_read", test_read);
   ("f_tell + f_eof + f_size", test_tell);
   ("f_opendir + f_readdir", test_readdir);
   ("f_findfirst K*", test_findfirst);
   ("f_mkdir /testdir", test_mkdir);
   ("f_create + f_write + f_sync", test_write);
   ("f_read written file", test_read_back);
   ("f_gets", test_gets);
   ("f_putc + f_puts + f_printf", test_printf);
   ("f_lseek", test_lseek);
   ("f_truncate", test_truncate);
   ("f_expand", test_expand);
   ("f_unlink hello.txt", f_unlink fuel (str "/testdir/hello.txt"));
   ("f_mkdir subdir", f_mkdir fuel (str "/testdir/subdir"));
   ("f_rename", test_rename);
   ("f_chmod", f_chmod fuel (str "/testdir") 17);
   ("f_utime", f_utime fuel (str "/testdir") 32512 18944);
   ("f_chmod restore", f_chmod fuel (str "/testdir") 16);
   ("f_getfree", test_getfree);
   ("f_getlabel + f_setlabel", test_label);
   ("f_chdir + f_getcwd", test_chdir);
   ("f_unlink testdir", test_unlink);
   ("f_findfirst no match", test_no_match);
   ("f_findfirst * wildcard", test_wildcard);
   ("mk testdir/ (relative path)", f_mkdir fuel (str "testdir"))]%string.

(** ** The run *)

(** The line of a test: what it tests, and its error. *)
Definition result_line (name : string) (r : unit + FError) : string :=
  match r with
  | inl _ => name ++ " PASS"
  | inr e => name ++ " FAIL: " ++ test_fail_str e
  end.

Definition test_run (name : string) (f : FAT unit) : M (World D * list string) Empty_set unit :=
  fun '(w, log) =>
    match f w with
    | (Ret u, w') => (Ret tt, (w', log ++ [result_line name (inl u)]))
    | (Err e, w') => (Ret tt, (w', log ++ [result_line name (inr e)]))
    | (Panic, w') => (Panic, (w', log))
    | (Hang, w') => (Hang, (w', log))
    end.

(** A call whose result is dropped. *)
Definition ignore (f : FAT unit) : M (World D * list string) Empty_set unit :=
  fun '(w, log) =>
    match f w with
    | (Ret _, w') | (Err _, w') => (Ret tt, (w', log))
    | (Panic, w') => (Panic, (w', log))
    | (Hang, w') => (Hang, (w', log))
    end.

Definition log_fs (msg : string) : M (World D * list string) Empty_set unit :=
  modify (fun '(w, log) => (w, log ++ [msg])).

Fixpoint run_all (ts : list (string * FAT unit)) : M (World D * list string) Empty_set unit :=
  match ts with
  | [] => ret tt
  | (name, f) :: ts => do! test_run name f in run_all ts
  end.

Fixpoint unlink_all (paths : list string) : M (World D * list string) Empty_set unit :=
  match paths with
  | [] => ret tt
  | p :: paths => do! ignore (f_unlink fuel (str p)) in unlink_all paths
  end.

Definition fat32_test : M (World D * list string) Empty_set unit :=
  do! unlink_all ["/testdir/subdir"; "/testdir/renamed.txt"; "/testdir/renameme.txt"; "/testdir/hello.txt";
                  "/testdir"; "/README.TXT"]%string in
  do! log_fs "cleanup of previous-run test artifacts done" in
  do! run_all tests in
  log_fs "all filesystem self-tests complete".
End SelfTest.
