(* ===== verification/SelfTestSpec.v ===== *)
(** What the log of the self-test says of the tests, and a run of it on a small
    image with the files that the build puts on its own ([src/justfile], the
    recipe of [planckos_fs.img]: KERNEL.BIN, QASM with its README.TXT, and
    RESULTS). *)

From Stdlib Require Import ZArith Lia Ascii String.
From stdpp Require Import base numbers list gmap.
From S2P Require Import Prelude Text Block Fat32 Fat32Dir Fat32File.
From S2P Require Import Fat32List FatSpec FatChain FatCluster FatFileSpec FatDemo SelfTest.

#[local] Open Scope Z_scope.

(** The image: the root in cluster 2, KERNEL.BIN in 3, 5 and 4, QASM in 6,
    RESULTS in 7 and README.TXT in 8. *)
Definition image_fat : list Z :=
  splice 8 (mjoin (le_bytes 4 <$> [CHAIN_END; 5; CHAIN_END; 4; CHAIN_END; CHAIN_END; CHAIN_END]))
    (replicate 512 0).

Definition image_entry (name : list Z) (attr cluster size : Z) : list Z :=
  encode_name name ++ [attr] ++ replicate 8 0 ++ le_bytes 2 0 ++ replicate 4 0
    ++ le_bytes 2 cluster ++ le_bytes 4 size.

Definition image_dots (self parent : Z) : list Z :=
  image_entry [46] ATTR_DIRECTORY self 0 ++ image_entry [46; 46] ATTR_DIRECTORY parent 0.

Definition image_sector (contents : list Z) : list Z := splice 0 contents (replicate 512 0).

Definition readme : list Z := str "planckOS quantum algorithms" ++ [10].

Definition image_disk : RamDisk :=
  mkRamDisk 129
    (<[0 := demo_boot]> (<[1 := image_fat]> (<[2 := image_fat]>
    (<[3 := image_sector (image_entry (str "QASM") ATTR_DIRECTORY 6 0
                          ++ image_entry (str "RESULTS") ATTR_DIRECTORY 7 0
                          ++ image_entry (str "KERNEL.BIN") ATTR_ARCHIVE 3 1300)]>
    (<[4 := demo_sector 1]> (<[6 := demo_sector 1]> (<[5 := demo_sector 2]>
    (<[7 := image_sector (image_dots 6 0 ++ image_entry (str "README.TXT") ATTR_ARCHIVE 8 28)]>
    (<[8 := image_sector (image_dots 7 0)]>
    (<[9 := image_sector readme]> ∅)))))))))).

Definition image_world : World RamDisk :=
  mkWorld image_disk (Some demo_vol) 2 (47 :: replicate 255 0) (replicate 512 0) true.

(** The log of a run in which every test passes. *)
Definition all_pass : list string :=
  ["cleanup of previous-run test artifacts done"%string]
    ++ ((fun t => result_line (fst t) (inl tt)) <$> tests (D := RamDisk) 0)
    ++ ["all filesystem self-tests complete"%string].

Definition free_clusters (w : World RamDisk) : option Z :=
  match f_getfree w with (Ret (free, _), _) => Some free | _ => None end.

(** What a program that opens a file and reads it sees. *)
Definition contents (path : string) (w : World RamDisk) : option (list Z) :=
  match (let! f := f_open 200 (str path) FA_READ in
         fun w => let '(r, (w', _)) := f_read 512 (w, f) in (r, w')) w with
  | (Ret data, _) => Some data
  | _ => None
  end.

Section SelfTestSpec.
Context {D : Type} `{BlockDevice D}.
Context (fuel : nat).

Abbreviation FAT := (M (World D) FError).

(** The tests one after the other, each on the volume that the one before it
    left, whatever its verdict; and the lines that they log. *)
Inductive runs : list (string * FAT unit) -> World D -> list string -> World D -> Prop :=
| runs_nil w : runs [] w [] w
| runs_pass name f ts w w1 lines w2 :
    f w = (Ret tt, w1) -> runs ts w1 lines w2 ->
    runs ((name, f) :: ts) w ((name ++ " PASS")%string :: lines) w2
| runs_fail name f e ts w w1 lines w2 :
    f w = (Err e, w1) -> runs ts w1 lines w2 ->
    runs ((name, f) :: ts) w ((name ++ " FAIL: " ++ test_fail_str e)%string :: lines) w2.

Lemma run_all_logs ts w log w' log' :
  run_all ts (w, log) = (Ret tt, (w', log')) ->
  exists lines, log' = log ++ lines /\ runs ts w lines w'.
Proof.
  revert w log. induction ts as [|[name f] ts IH]; intros w log.
  - intros [= <- <-]. exists []. split; [by rewrite app_nil_r|constructor].
  - cbn [run_all]. unfold bind, test_run. destruct (f w) as [[[]|e| |] w1] eqn:Hf; try discriminate;
      intros (lines & -> & Hl)%IH; eexists (_ :: lines); (split; [by rewrite <- app_assoc|]).
    + by eapply runs_pass.
    + by eapply runs_fail.
Qed.

Lemma unlink_all_logs paths w log :
  match unlink_all fuel paths (w, log) with (_, (_, log')) => log' = log end.
Proof.
  revert w log. induction paths as [|p paths IH]; intros w log; [done|].
  cbn [unlink_all]. unfold bind, ignore. destruct (f_unlink fuel (str p) w) as [[u|e| |] w1]; auto; apply IH.
Qed.
End SelfTestSpec.

(** A run of [fat32_test] that returns has reported every one of its 27 tests:
    between the line that announces the cleaning up and the last one there is
    one line for each test, in the order of the suite, each the verdict of
    that test run on the volume as the tests before left it. *)
Theorem fat32_test_reports {D : Type} `{BlockDevice D} (fuel : nat) (w w' : World D) (log : list string) :
  fat32_test fuel (w, []) = (Ret tt, (w', log)) ->
  exists w1 lines,
    log = ["cleanup of previous-run test artifacts done"%string] ++ lines
            ++ ["all filesystem self-tests complete"%string] /\
    length lines = 27%nat /\ runs (tests fuel) w1 lines w'.
Proof.
  unfold fat32_test.
  match goal with |- context [unlink_all fuel ?p] => pose proof (unlink_all_logs fuel p w []) as Hu end.
  unfold bind at 1. destruct (unlink_all _ _ _) as [[[]|e| |] [w1 log1]]; try discriminate; subst log1.
  unfold bind at 1. cbn [log_fs modify]. unfold bind.
  destruct (run_all _ _) as [[[]|e| |] [w2 log2]] eqn:Hr; try discriminate.
  destruct (run_all_logs _ _ _ _ _ Hr) as (lines & -> & Hl).
  intros [= <- <-]. exists w1, lines. split; [done|]. split; [|done].
  revert Hl. assert (length (tests (D := D) fuel) = 27%nat) as Hn by reflexivity.
  rewrite <- Hn. clear. induction 1; cbn; congruence.
Qed.

Lemma fat32_test_reports_witness :
  exists w1 lines w', length lines = 27%nat /\ runs (tests (D := RamDisk) 200) w1 lines w'.
Proof.
  destruct (fat32_test 200 (image_world, [])) as [r [w' log]] eqn:He.
  destruct (fat32_test_reports 200 image_world w' log) as (w1 & lines & _ & H).
  - rewrite He. revert He. vm_compute. intros He. injection He as <- _ _. reflexivity.
  - by exists w1, lines, w'.
Defined.

(** The self-test run twice on a small image of 129 sectors laid out as
    the build lays out its own: every test passes both times, the second run
    leaks no cluster, and the files that the image came with are as they were. *)
Example fat32_test_passes :
  let '(r, (w, log)) := fat32_test 200 (image_world, []) in
  let '(r2, (w2, log2)) := fat32_test 200 (w, []) in
  r = Ret tt /\ log = all_pass /\ r2 = Ret tt /\ log2 = all_pass /\
  free_clusters image_world = Some 119 /\ free_clusters w = Some 118 /\ free_clusters w2 = Some 118 /\
  contents "/qasm/readme.txt" w2 = Some readme /\
  contents "/kernel.bin" w2 = contents "/kernel.bin" image_world.
Proof. vm_compute. repeat split. Qed.
