(* ===== verification/Main.v ===== *)
(** The kernel's entry ([src/src/main.rs]): the loader's information block, the
    text of the boot messages, and the order in which the parts are started. *)

From Stdlib Require Import ZArith Lia Ascii String.
From stdpp Require Import base numbers list.
From S2P Require Import Prelude Text.

#[local] Open Scope Z_scope.

(** ** The information block *)

Record BootInfo : Type := mkBoot {
  vbe_available : Z;
  fb_addr : Z;
  width : Z;
  height : Z;
  pitch : Z;
  bpp : Z;
  tsc_per_ms : Z;
  boot_start_tsc : Z;
}.

(** A field of [n] bytes at an offset of the packed record at 0x7000. *)
Definition boot_field (mem : Z -> Z) (off : Z) (n : nat) : Z := le_val (mem <$> seqZ (0x7000 + off) (Z.of_nat n)).

Definition read_boot_info (mem : Z -> Z) : BootInfo :=
  mkBoot (boot_field mem 0 1) (boot_field mem 8 8) (boot_field mem 16 4) (boot_field mem 20 4)
    (boot_field mem 24 4) (boot_field mem 28 1) (boot_field mem 32 8) (boot_field mem 40 8).

(** ** Messages

    The scratch buffer and the index of the next byte; [None] is the panic of an
    index outside its 224 bytes. *)

Definition putc (b : Z) (o : list Z * nat) : option (list Z * nat) :=
  let '(buf, i) := o in
  if (i <? length buf)%nat then Some (<[i := b]> buf, S i) else None.

Fixpoint put_str (s : list Z) (o : list Z * nat) : option (list Z * nat) :=
  match s with
  | [] => Some o
  | b :: s => o ← putc b o; put_str s o
  end.

Definition format_dec (v : Z) (o : list Z * nat) : option (list Z * nat) :=
  if v =? 0 then putc 48 o
  else tmp ← dec_tmp 20 v; put_str (reverse tmp) o.

(** [from_utf8(&buf[..i]).unwrap_or("?")] *)
Definition shown (o : list Z * nat) : list Z := utf8_or_mark (take o.2 o.1).

Definition format_res (prefix : list Z) (val : Z) (suffix buf : list Z) : option (list Z) :=
  o ← put_str prefix (buf, O);
  o ← format_dec val o;
  o ← put_str suffix o;
  Some (shown o).

Definition format_xy (width height bpp pitch : Z) (buf : list Z) : option (list Z) :=
  o ← format_dec width (buf, O);
  o ← putc 120 o;
  o ← format_dec height o;
  o ← putc 32 o;
  o ← putc 64 o;
  o ← putc 32 o;
  o ← format_dec (bpp * 8) o;
  o ← put_str (str "bpp, pitch ") o;
  o ← format_dec pitch o;
  Some (shown o).

(** ** The boot

    The steps of [_start] in order, as it takes them for what the machine
    answers: whether there is a drive, and whether its volume can be mounted.
    The steps are the operations of the other files. *)
Inductive phase : Type :=
| LogInit (tsc_per_ms : Z)
| Log (sub msg : list Z)
| LogHex (sub prefix : list Z) (val : Z)
| MemoryInit
| NewFramebuffer (addr width height pitch bpp : Z)
| NewVga
| Say (s : list Z)
| AcpiInit
| IdtInit
| ApicInit
| KeyboardInit
| SmpInit
| Probe (base : Z) (master : bool)
| Mount
| SelfTest
| Sti
| CalibrateHz
| VerifyHz
| BuildRegistry
| RunShell.

Definition klog (sub msg : string) : phase := Log (str sub) (str msg).

(** The choice of the display; [None] is the panic of a message. *)
Definition start_display (info : BootInfo) (buf : list Z) : option (list phase) :=
  if vbe_available info =? 1 then
    xy ← format_xy (width info) (height info) (bpp info) (pitch info) buf;
    Some [LogHex (str "VIDEO") (str "framebuffer @ ") (fb_addr info); Log (str "VIDEO") xy;
          NewFramebuffer (fb_addr info) (width info) (height info) (pitch info) (bpp info)]
  else Some [klog "VIDEO" "VBE unavailable, using VGA text mode"; NewVga].

Definition start_disk (drive mounted : bool) : list phase :=
  Probe 0x170 true ::
  if drive then
    klog "ATA" "drive detected on secondary master (0x170)" :: Mount ::
    (if mounted then [klog "FS" "FAT32 mounted OK"; SelfTest] else [klog "FS" "mount FAILED"])
  else [klog "ATA" "no drive on secondary master (0x170)"].

Definition start (mem : Z -> Z) (buf : list Z) (drive mounted : bool) : option (list phase) :=
  let info := read_boot_info mem in
  res ← format_res (str "TSC ") (tsc_per_ms info) (str " ticks/ms (calibrated by boot sector)") buf;
  display ← start_display info buf;
  Some ([LogInit (tsc_per_ms info);
         klog "ENTRY" "planckOS v0.1 x86-64 kernel @ 0x100000";
         LogHex (str "BOOTI") (str "VBE available: ") (vbe_available info);
         LogHex (str "BOOTI") (str "framebuffer @ ") (fb_addr info);
         Log (str "BOOTI") res;
         MemoryInit]
        ++ display
        ++ [Say (str "planckOS v0.1 - x86-64 Rust"); Say (str "Copyright (C) 2026 Faris Alfarhan");
            Say (str "Licensed GPLv3"); AcpiInit; IdtInit; klog "IDT" "256-vector IDT loaded"; ApicInit;
            klog "APIC" "local APIC + IO-APIC + PIC bypass ready"; KeyboardInit;
            klog "INPUT" "PS/2 keyboard controller ready"; SmpInit]
        ++ start_disk drive mounted
        ++ [Sti; CalibrateHz; VerifyHz; BuildRegistry; klog "SHELL" "starting interactive shell"; RunShell]).
