(* ===== verification/MainSpec.v ===== *)
(** The kernel's entry: its messages are the numbers they name and fit their
    buffer, and every part starts after the parts that it needs. *)

From Stdlib Require Import ZArith Lia Ascii String.
From stdpp Require Import base numbers list.
From S2P Require Import Prelude Text Main.

#[local] Open Scope Z_scope.

(** ** Messages *)

Lemma put_str_run s buf i :
  (i + length s <= length buf)%nat -> put_str s (buf, i) = Some (splice i s buf, (i + length s)%nat).
Proof.
  revert buf i. induction s as [|b s IH]; intros buf i Hl; cbn [put_str length] in *.
  - unfold splice. cbn [length app]. by rewrite Nat.add_0_r, take_drop.
  - cbn [putc mbind option_bind]. destruct (Nat.ltb_spec i (length buf)); [|lia]. cbn [mbind option_bind].
    rewrite IH by (rewrite length_insert; lia). f_equal. f_equal; [|lia].
    unfold splice. rewrite (take_S_r _ _ b) by (apply list_lookup_insert_eq; lia).
    rewrite take_insert_ge by lia. rewrite drop_insert_lt by lia. rewrite <- app_assoc. cbn [app length].
    do 3 f_equal. f_equal. lia.
Qed.

(** One text after the other, from the start of the buffer. *)
Lemma put_more a s buf :
  (length (a ++ s) <= length buf)%nat ->
  put_str s (splice 0 a buf, length a) = Some (splice 0 (a ++ s) buf, length (a ++ s)).
Proof.
  rewrite length_app. intros Hl. rewrite put_str_run by (rewrite length_splice; lia). do 2 f_equal.
  unfold splice. rewrite take_0, !app_nil_l, !Nat.add_0_l, length_app.
  rewrite take_app_length, drop_app_ge by lia. rewrite drop_drop, <- app_assoc. do 3 f_equal. lia.
Qed.

Lemma putc_str b o : putc b o = put_str [b] o.
Proof. destruct o as [buf i]. cbn [put_str putc]. by destruct (i <? length buf)%nat. Qed.

Lemma format_dec_str v o :
  0 <= v < 2 ^ 64 -> exists l, format_dec v o = put_str l o /\ decimal v l /\ (length l <= 20)%nat.
Proof.
  intros Hv. destruct (dec_text_decimal v Hv) as (l & Hl & Hd & Hn). exists l.
  unfold format_dec, dec_text in *. destruct (v =? 0).
  - injection Hl as <-. rewrite putc_str. split_and!; [done|done|lia].
  - destruct (dec_tmp 20 v) as [tmp|]; [|done]. injection Hl as <-. split_and!; [done|done|lia].
Qed.

Lemma digits_ascii v l : decimal v l -> Forall (fun b => b < 128) l.
Proof. intros (_ & Hd & _). eapply Forall_impl; [exact Hd|]. intros b Hb. unfold is_digit in Hb. lia. Qed.

Lemma shown_splice s buf : Forall (fun b => b < 128) s -> shown (splice 0 s buf, length s) = s.
Proof.
  intros Hs. unfold shown, utf8_or_mark, splice. cbn [fst snd].
  by rewrite take_0, app_nil_l, take_app_length, from_utf8_ascii by done.
Qed.

Lemma at_start (buf : list Z) : (buf, O) = (splice 0 [] buf, length ([] : list Z)).
Proof. reflexivity. Qed.

Ltac put_all := repeat (rewrite put_more by (autorewrite with len; cbn [length]; lia); cbn [mbind option_bind]).
Ltac ascii := repeat (apply Forall_app; split); first [by eapply digits_ascii | by repeat constructor].

Lemma format_xy_run w h b p buf :
  0 <= w < 2 ^ 32 -> 0 <= h < 2 ^ 32 -> 0 <= b < 256 -> 0 <= p < 2 ^ 32 -> length buf = 224%nat ->
  exists lw lh lb lp, decimal w lw /\ decimal h lh /\ decimal (b * 8) lb /\ decimal p lp
    /\ format_xy w h b p buf = Some (lw ++ str "x" ++ lh ++ str " @ " ++ lb ++ str "bpp, pitch " ++ lp).
Proof.
  intros Hw Hh Hb Hp Hbuf. unfold format_xy. rewrite at_start.
  destruct (format_dec_str w (splice 0 [] buf, length ([] : list Z))) as (lw & -> & Dw & Lw); [lia|]. put_all.
  rewrite putc_str. put_all.
  match goal with |- context [format_dec h ?o] => destruct (format_dec_str h o) as (lh & -> & Dh & Lh); [lia|] end.
  put_all. do 3 (rewrite putc_str; put_all).
  match goal with |- context [format_dec (b * 8) ?o] => destruct (format_dec_str (b * 8) o) as (lb & -> & Db & Lb); [lia|] end.
  put_all.
  assert (length (str "bpp, pitch ") = 11%nat) as H11 by reflexivity. put_all.
  match goal with |- context [format_dec p ?o] => destruct (format_dec_str p o) as (lp & -> & Dp & Lp); [lia|] end.
  put_all. exists lw, lh, lb, lp. split_and!; [done..|]. rewrite shown_splice by ascii.
  rewrite <- !app_assoc. reflexivity.
Qed.

Lemma format_res_run pre v suf buf :
  0 <= v < 2 ^ 64 -> (length pre + length suf <= 200)%nat -> length buf = 224%nat ->
  Forall (fun b => b < 128) pre -> Forall (fun b => b < 128) suf ->
  exists l, decimal v l /\ format_res pre v suf buf = Some (pre ++ l ++ suf).
Proof.
  intros Hv Hl Hbuf Hpre Hsuf. unfold format_res. rewrite at_start. put_all.
  match goal with |- context [format_dec v ?o] => destruct (format_dec_str v o) as (l & -> & Dv & Lv); [lia|] end.
  put_all. exists l. split; [done|]. rewrite shown_splice.
  - by rewrite <- app_assoc.
  - repeat (apply Forall_app; split); first [done|by eapply digits_ascii|constructor].
Qed.

(** ** Order *)

(** The parts of the kernel that others need. *)
Inductive part : Type := PLog | PHeap | PScreen | PAcpi | PIdt | PApic | PKeyboard | PDrive | PVolume | PIrqs | PTimer | PApplets.

#[global] Instance part_eq_dec : EqDecision part.
Proof. solve_decision. Defined.

Definition provides (p : phase) : list part :=
  match p with
  | LogInit _ => [PLog]
  | MemoryInit => [PHeap]
  | NewFramebuffer _ _ _ _ _ | NewVga => [PScreen]
  | AcpiInit => [PAcpi]
  | IdtInit => [PIdt]
  | ApicInit => [PApic]
  | KeyboardInit => [PKeyboard]
  | Probe _ _ => [PDrive]
  | Mount => [PVolume]
  | Sti => [PIrqs]
  | CalibrateHz => [PTimer]
  | BuildRegistry => [PApplets]
  | _ => []
  end.

(** What a step uses: the log's clock; the heap for the stacks of the other
    processors, for cluster buffers and test lines and for the shell's
    arguments; the processor list and interrupt controller; handlers before
    interrupts; ticks for the calibration. *)
Definition needs (p : phase) : list part :=
  match p with
  | LogInit _ => []
  | Log _ _ | LogHex _ _ _ | MemoryInit => [PLog]
  | Say _ => [PScreen]
  | ApicInit => [PLog; PAcpi; PIdt]
  | SmpInit => [PLog; PHeap; PAcpi; PIdt; PApic]
  | Mount => [PHeap; PDrive]
  | SelfTest => [PLog; PHeap; PVolume]
  | Sti => [PIdt; PApic; PKeyboard]
  | CalibrateHz => [PLog; PApic; PIrqs]
  | VerifyHz => [PLog; PTimer]
  | RunShell => [PHeap; PScreen; PKeyboard; PIrqs; PApplets]
  | _ => [PLog]
  end.

Definition in_order (trace : list phase) : Prop :=
  forall before p rest, trace = before ++ p :: rest -> Forall (fun x => x ∈ before ≫= provides) (needs p).

Fixpoint check_order (ready : list part) (trace : list phase) : bool :=
  match trace with
  | [] => true
  | p :: trace => forallb (fun x => bool_decide (x ∈ ready)) (needs p) && check_order (ready ++ provides p) trace
  end.

Lemma check_order_sound trace : check_order [] trace = true -> in_order trace.
Proof.
  intros Hc before p rest ->.
  assert (forall ready, check_order ready (before ++ p :: rest) = true ->
            Forall (fun x => x ∈ ready ++ (before ≫= provides)) (needs p)) as Hgen; [|exact (Hgen [] Hc)].
  clear Hc. induction before as [|q before IH]; intros ready; cbn [app check_order].
  - intros [Hn _]%andb_true_iff. rewrite forallb_forall in Hn. apply Forall_forall. intros x Hx.
    apply list_elem_of_In in Hx. specialize (Hn x Hx). apply bool_decide_eq_true in Hn. by rewrite app_nil_r.
  - intros [_ Hc]%andb_true_iff. specialize (IH _ Hc). by rewrite <- app_assoc in IH.
Qed.

Lemma field_bound mem off n :
  (forall a, 0 <= mem a < 256) -> 0 <= boot_field mem off n < 256 ^ Z.of_nat n.
Proof.
  intros Hm. unfold boot_field. set (l := mem <$> _).
  assert (length l = n) as Hl by (unfold l; rewrite length_fmap, length_seqZ; lia).
  rewrite <- Hl. apply le_val_range. apply Forall_fmap, Forall_forall. intros a _. apply Hm.
Qed.

(** ** Properties *)

(** For every information block the loader leaves, and whether or not there is a
    drive and a volume on it, the boot gets through its messages without a panic
    and takes its steps in an order in which every step finds what it needs. *)
Theorem boot_in_order mem buf drive mounted :
  (forall a, 0 <= mem a < 256) -> length buf = 224%nat ->
  exists trace, start mem buf drive mounted = Some trace /\ in_order trace
    /\ last trace = Some RunShell /\ (SelfTest ∈ trace <-> drive = true /\ mounted = true).
Proof.
  intros Hm Hbuf. unfold start. set (info := read_boot_info mem).
  destruct (format_res_run (str "TSC ") (tsc_per_ms info) (str " ticks/ms (calibrated by boot sector)") buf)
    as (l & _ & ->); [apply (field_bound mem 32 8 Hm)|cbn; lia|done|by repeat constructor|by repeat constructor|].
  cbn [mbind option_bind].
  assert (exists d, start_display info buf = Some d /\
      ((exists t, d = [LogHex (str "VIDEO") (str "framebuffer @ ") (fb_addr info); Log (str "VIDEO") t;
         NewFramebuffer (fb_addr info) (width info) (height info) (pitch info) (bpp info)])
       \/ d = [klog "VIDEO" "VBE unavailable, using VGA text mode"; NewVga])) as (d & -> & Hd).
  { unfold start_display. destruct (_ =? 1); [|by eexists; split; [|right]].
    destruct (format_xy_run (width info) (height info) (bpp info) (pitch info) buf) as (lw & lh & lb & lp & _ & _ & _ & _ & ->);
      [apply (field_bound mem 16 4 Hm)|apply (field_bound mem 20 4 Hm)|apply (field_bound mem 28 1 Hm)
      |apply (field_bound mem 24 4 Hm)|done|].
    eexists. split; [reflexivity|]. left. by eexists. }
  cbn [mbind option_bind]. eexists. split; [reflexivity|].
  destruct Hd as [(t & ->)| ->]; destruct drive, mounted; (split; [apply check_order_sound; vm_compute; reflexivity|]);
    (split; [reflexivity|]); split; intros HS; try done; try (by destruct HS);
    first [exfalso; revert HS; cbn; rewrite !elem_of_cons, elem_of_nil; naive_solver
          | cbn; rewrite !elem_of_cons; naive_solver].
Qed.

Lemma boot_in_order_witness : exists trace,
  start (fun _ => 1) (replicate 224 0) true true = Some trace /\ in_order trace /\ SelfTest ∈ trace.
Proof.
  destruct (boot_in_order (fun _ => 1) (replicate 224 0) true true) as (trace & H1 & H2 & _ & H3).
  - intros a. lia.
  - reflexivity.
  - exists trace. split_and!; [exact H1|exact H2|]. by apply H3.
Defined.

(** The message on the video mode names the width, height, bits per pixel and
    pitch of the information block in decimal, for all values of its fields. *)
Theorem video_message_correct w h b p buf :
  0 <= w < 2 ^ 32 -> 0 <= h < 2 ^ 32 -> 0 <= b < 256 -> 0 <= p < 2 ^ 32 -> length buf = 224%nat ->
  exists lw lh lb lp, decimal w lw /\ decimal h lh /\ decimal (b * 8) lb /\ decimal p lp
    /\ format_xy w h b p buf = Some (lw ++ str "x" ++ lh ++ str " @ " ++ lb ++ str "bpp, pitch " ++ lp).
Proof. apply format_xy_run. Qed.

Lemma video_message_correct_witness : exists lw lh lb lp,
  decimal 1920 lw /\ decimal 1080 lh /\ decimal 32 lb /\ decimal 7680 lp
  /\ lw ++ str "x" ++ lh ++ str " @ " ++ lb ++ str "bpp, pitch " ++ lp = str "1920x1080 @ 32bpp, pitch 7680".
Proof.
  destruct (video_message_correct 1920 1080 4 7680 (replicate 224 0)) as (lw & lh & lb & lp & H1 & H2 & H3 & H4 & H5);
    [lia|lia|lia|lia|reflexivity|].
  exists lw, lh, lb, lp. split_and!; [exact H1|exact H2|exact H3|exact H4|].
  assert (format_xy 1920 1080 4 7680 (replicate 224 0) = Some (str "1920x1080 @ 32bpp, pitch 7680")) as Hrun
    by (vm_compute; reflexivity).
  rewrite Hrun in H5. symmetry. exact (Some_inj _ _ H5).
Defined.
